(* ===== verification/_CoqProject ===== *)
-Q . S2P
Prelude.v
Errors.v
Caps.v
Dll.v
CNode.v
Tcb.v
CSpace.v
PageTable.v
Frames.v
VSpace.v
Mapping.v
Untyped.v
Lifecycle.v
Contracts.v
Scheduler.v
Endpoint.v
System.v
Sync.v
Syscall.v
Console.v
Float.v
Format.v
Logger.v
Devices.v
Tick.v
Tlb.v
Segments.v
Records.v
Boot.v
Races.v
