(* ===== verification/Prelude.v ===== *)
(** * Chick: a verification of the kernel, from its objects to its boot sequence

    Chick ([src/src/kernel/src]) is a capability kernel in the style of seL4 for x86-64.  This
    library models its core and proves it correct, or states precisely where it is not.  The
    program's parts, and what models them (paths are under [src/src/kernel/src]):

    - [Prelude] (this file): the outcome and state monad the models are written in, build
      profiles, 64-bit words, the macros of [macros.rs], bit fields, shared lemmas and tactics.
    - [Errors]: [error.rs].  [Caps]: [objects/mod.rs] and [objects/traits.rs], the data of
      capabilities, and the parameters that stand for third-party crates.
    - [Dll]: the theory of doubly linked lists threaded through the cells of a store, as a class
      [Linked] with laws.  It has two clients: the mapping database and the endpoint queues.
    - [CNode]: [objects/cnode.rs].  Capability entries live in one store indexed by address; the
      mapping database (MDB) links them; CNode capabilities pack radix and guard.
    - [Tcb]: [objects/tcb.rs], [arch/x86_64/trapframe.rs].  TCBs in a store indexed by address and
      the intrusive queue [TcbQueue] on them.
    - [CSpace]: [cspace.rs] and [Tcb::cspace], the resolution of a capability pointer through the
      CNodes of a thread's CSpace.
    - [PageTable]: [vspace.rs], [arch/x86_64/vspace/entry.rs], [level.rs]: table entries as words.
    - [Frames]: [objects/frame.rs], the bit fields of frame capabilities.
    - [VSpace]: [objects/vspace.rs] and [flush_page]: operations on page tables in memory.
      [Mapping] holds their specification in terms of [walk] and its proofs.
    - [Untyped]: [objects/nullcap.rs] and [objects/untyped.rs]: [retype].  [Lifecycle] composes it
      with the lookup of a new capability and the mapping of its frame.
    - [Contracts]: the [requires], [ensures] and [proof] clauses that [objects/cnode.rs],
      [objects/mod.rs] and [objects/nullcap.rs] give to Verus, as propositions.
    - [Scheduler]: [scheduler/executor.rs], the per-core earliest-deadline-first executor.
    - [Endpoint]: [objects/endpoint.rs], synchronous IPC; it calls the queues of [Tcb] and the
      executor of [Scheduler].  [System] puts the two together: threads that run, block, are started
      and cancelled, by steps of either component on one set of threads.
    - [Sync]: [scheduler/sync.rs], [scheduler/percore.rs], [scheduler/mod.rs] and the CPU queries
      of [arch/x86_64/mod.rs]: the cell that holds the schedulers, as threads that interleave at
      every access of the cell (a step relation), and the per-core array behind it.
    - [Syscall]: [syscall.rs], [arch/x86_64/syscall.rs] and [TrapFrame::restore]: decoding and
      dispatch, and the two assembly sequences as lists of instructions of a small machine.
    - [Console]: [arch/x86_64/console/framebuffer.rs], the text writer on a byte buffer.
      [Logger]: [console/logger.rs], [console/mod.rs] and the panic handler of [main.rs], with the
      writer behind a lock.
    - [Float]: the [f32] and [f64] operations of the language on the Standard Library's floats, with
      the rounding of integers they amount to.  [Format]: the text that the formatting macros of the
      language make of numbers.
    - [Devices]: [apic.rs], [pic.rs], [pit.rs], [acpi.rs] and [constants/apic.rs] of [arch/x86_64]:
      the drivers as sequences of port accesses, register accesses and log records.  [Tick]:
      [tick.rs], the calibration of the timer.  [Records]: what such a sequence does when its records
      are printed by the logger on the way.
    - [Tlb]: [arch/x86_64/vspace/tlb.rs], on a memory-management unit with cached translations; it
      follows the operations of [VSpace] and their flushes.
    - [Segments]: [arch/x86_64/interrupts] and [init_syscall]: descriptor tables, interrupt stacks,
      gates, exception handlers and the registers that select them.
    - [Boot]: [main] of [main.rs], [tick_handler] and [timer_handler]: the state of the whole kernel,
      in which the components above run one after the other.  [Races]: [main] with a timer interrupt
      between any two of its statements.

    ** How the code is modelled

    A function of the kernel is a function [M S A], from a state to a state and an [outcome]: it
    returns a value ([Done]; a [Result] is a value [Ok] or [Err]), panics ([Panic]), performs an
    access Rust leaves undefined, such as following a dangling pointer ([Undef]), or exhausts the
    iterations the model gives its loops ([NoFuel]).  The state keeps what was written before a
    panic.  Shared memory is explicit: entries, TCBs, scheduling contexts, endpoints and page-table
    words are finite maps from addresses, and a pointer is an address, so aliasing is visible
    wherever the code reads and writes through pointers.  [usize] and [u64] are integers with
    their width written out: [shl64], [not64], [wrap]; [+], [-] and [*] that can overflow are
    [add64], [sub64] and [mul64], which panic in the dev profile and wrap in the release profile.
    The profile is the class [Build]; theorems hold for both unless they name one.

    Code outside the repository is a class of operations with its documented laws, and each class
    has a concrete instance that satisfies them: [Bitflags] (the [bitflags] crate), [X86Addr]
    ([PhysAddr::new] of the [x86_64] crate), [BinaryHeap] ([heapless]), [NumEnum] ([num_enum]),
    [Font] ([noto_sans_mono_bitmap]), [CAbi] (what the calling convention promises of the registers
    after a call of the compiled entry function, whose result is that of [syscall_entry]), [X86Virt] and
    [GdtOps] (addresses and descriptor tables of the
    [x86_64] crate), [Spin] ([spin::Mutex] and [spin::Once]) and [LogFacade] (the [log] crate).
    [Hardware] is what devices and CPUID answer, [Statics] where the linker puts statics, [TcbLayout]
    where the compiler puts the root entry of a TCB.  The panic strategy of the build is the class
    [PanicStrategy].

    ** Fuel

    Loops that the code bounds by a counter are structural.  The others take fuel: [revoke] (one
    iteration per entry behind the revoked one and one more), [CNodeCap::init] (slots and one
    more), [resolve_internal] ([n_bits + 1]: every CNode consumes a bit), [cancel_all_ipc] and
    [cancel_badged_sends] (waiting threads and one more).  The theorems on these functions take
    any fuel above the bound and state that the function returns.  [lock] takes the number of
    further attempts: a free lock is taken at the first, and a lock that is held by the code that
    was interrupted is taken at none, so that these theorems hold for any number; the same goes for
    the number of times that [panic_handler] may enter itself.

    ** What the theorems show

    - [CNode.Claims]: MDB insertion and removal refine insertion into and removal from a list;
      [revoke] erases and unlinks exactly the entries behind the revoked one; [mint] and [init].
    - [Tcb.Claims]: the intrusive queue refines a FIFO list.
    - [CSpace.Claims]: lookup in the CSpace of a thread computes the abstract resolution of the pointer's bits, and always
      returns when every CNode consumes bits (and may not otherwise).
    - [PageTable.Claims], [Frames.Claims]: encodings decode to what was encoded.
    - [Mapping.Claims]: [map_*], [unmap] and [install_table] change the answer of [walk] in the
      page or region they name and nowhere else; errors change nothing and are determined by
      [walk]; the tables stay a tree along every sequence of operations that installs fresh tables; a
      mapping is writable and executable as its frame capability says (and readable always).
    - [Untyped.Claims]: [retype] carves aligned, consecutive, disjoint objects and advances the
      watermark; errors change nothing; requests that cannot succeed.  [Lifecycle.Claims]: a frame
      from its untyped region through a capability pointer to its page, and what revocation misses.
    - [Scheduler.Claims]: the invariant of the executor along every sequence of calls that meets three
      conditions on the callers, why each is needed, earliest deadline first, and the behaviour of each call.
    - [Endpoint.Claims]: every outcome of send and receive (delivery, blocking in order of arrival,
      polling), and the three cancellations.  [System.Claims]: along every sequence of IPC operations,
      cancellations and scheduler calls that leave waiting threads alone, each thread is current, ready or in the queue of one endpoint
      at most, and in that queue when it is blocked on the endpoint.
    - [Sync.Claims]: in every interleaving the cell hands out one value, is free of races and
      lets every call finish unless an initialiser panics.
    - [Contracts.Claims]: which of the specifications written in the source hold, and what the others need.
    - [Syscall.Claims]: the entry stub hands the registers of the program to the handler and gives them
      back, unless the handler panics; [restore] loads exactly those of the trap frame; and what each
      system call does.
    - [Console.Claims]: on a framebuffer of a supported format no string makes the writer leave the
      buffer or panic.  [Logger.Claims]:
      any number of log records print their lines and free the lock; which panics are reported.
    - [Devices.Claims], [Tick.Claims]: what the drivers make of the registers; the [f32] samples of
      the calibration agree with whole-number arithmetic.
    - [Tlb.Claims]: no sequence of operations on a tree of tables leaves a stale translation; what each function drops.
    - [Segments.Claims]: every register selects the right descriptor but for the return to user
      mode; the faults that need stacks of their own have them.
    - [Boot.Claims]: [main] reaches the scheduler with every lock free and every core's executor
      empty; ten timer interrupts calibrate the timer and every later one counts a tick; an
      interrupt that switches threads leaves the lock of the ticks held and saves no registers.
      [Races.Claims]: which points of [main] a first timer interrupt must not arrive at.

    Some theorems state faults of the code as it is: a CNode retype that always panics, the lost
    wake-up of a delivery, the panic of [yield_current] on a full queue, and others.

    ** What is not modelled, and why

    Not modelled: the image builder and QEMU launcher ([build.rs] and [src/main.rs] of the
    repository), re-exports, and [symbol!], the address of its argument, which nothing uses.
    [TrapFrame::restore] ends a [-> !] function: the scheduler and IPC models return which thread is
    resumed, or that the processor halts.  A TCB keeps its embedded entries by value; [roots_stored]
    of [CSpace] says that they are the entries of the store.  Apart from those, a TCB, an entry and a
    page-table word never share bytes ([retype] clears both the entries and the words of the memory
    it covers).  An interrupt arrives between two statements of [main], inside the one that calibrates
    the timer or while a record is printed, not at other places inside the components.  The interleavings of [Sync] are sequentially
    consistent; the acquire and release orderings of the code are enough for that on race-free
    accesses, which is what [race_free] shows.  The models of IPC and scheduling are of one core at a
    time, with interrupts off.  No code of the kernel calls the IPC operations yet (the dispatch of
    system calls stops before it), so that [System] states what their caller does with the current
    thread ([leaves]), and the kernel of [Boot] does not contain endpoints.  The rest of the
    repository's Rust code is uses, attributes, derived instances and documentation. *)
From stdpp Require Export base numbers list gmap.
From Stdlib Require Export ZArith Lia Btauto.

#[export] Set Default Goal Selector "!".
#[export] Set Warnings "-clear-no-such-hyp".

Declare Scope chick_scope.
Delimit Scope chick_scope with chick.
Global Open Scope Z_scope.

(** ** Outcomes, results and the state monad *)

(** Rust's [core::result::Result]. *)
Inductive result (T E : Type) : Type :=
| Ok (t : T)
| Err (e : E).
Arguments Ok {T E} _.
Arguments Err {T E} _.

(** How a call ends: it returns, it panics, it performs an access that is
    undefined behaviour in Rust, or the model's loop fuel runs out. *)
Inductive outcome (A : Type) : Type :=
| Done (a : A)
| Panic
| Undef
| NoFuel.
Arguments Done {A} _.
Arguments Panic {A}.
Arguments Undef {A}.
Arguments NoFuel {A}.

(** A stateful computation: the state it leaves and how it ended. *)
Definition M (S A : Type) : Type := S -> S * outcome A.

Definition ret {S A} (a : A) : M S A := fun s => (s, Done a).

Definition bind {S A B} (m : M S A) (k : A -> M S B) : M S B := fun s =>
  match m s with
  | (s', Done a) => k a s'
  | (s', Panic) => (s', Panic)
  | (s', Undef) => (s', Undef)
  | (s', NoFuel) => (s', NoFuel)
  end.

Definition panic {S A} : M S A := fun s => (s, Panic).
Definition undef {S A} : M S A := fun s => (s, Undef).
Definition get {S} : M S S := fun s => (s, Done s).
Definition put {S} (s' : S) : M S unit := fun _ => (s', Done tt).
Definition gets {S A} (f : S -> A) : M S A := fun s => (s, Done (f s)).
Definition modify {S} (f : S -> S) : M S unit := fun s => (f s, Done tt).

(** The value of an [option], or undefined behaviour: a dereference. *)
Definition deref {S A} (o : option A) : M S A :=
  match o with Some a => ret a | None => undef end.

(** A pure computation that may panic, run in any state. *)
Definition lift {S A} (o : outcome A) : M S A := fun s => (s, o).

(** Run a computation on a part of the state. *)
Definition zoom {S T A} (g : S -> T) (p : T -> S -> S) (m : M T A) : M S A := fun s =>
  let '(t, o) := m (g s) in (p t s, o).

Notation "'let!' x := m 'in' k" := (bind m (fun x => k))
  (at level 10, x name, m at level 100, k at level 200) : chick_scope.
Notation "'let!' ' p := m 'in' k" := (bind m (fun x => match x with p => k end))
  (at level 10, p pattern, m at level 100, k at level 200) : chick_scope.
Notation "'do!' m 'in' k" := (bind m (fun _ => k))
  (at level 10, m at level 100, k at level 200) : chick_scope.
(** Rust's [?]: go on with the [Ok] value, return the [Err]. *)
Notation "'let?' x := m 'in' k" :=
  (bind m (fun r => match r with Ok x => k | Err e => ret (Err e) end))
  (at level 10, x name, m at level 100, k at level 200) : chick_scope.
Global Open Scope chick_scope.

(** ** Build profile *)

(** [cfg(debug_assertions)] and [overflow-checks]: both on in the dev profile
    and both off in the release profile of Cargo. *)
Class Build : Type := debug_build : bool.

Definition dev : Build := true.
Definition release : Build := false.

(** [debug_assert!(b)]. *)
Definition debug_assert `{Build} {S} (b : bool) : M S unit :=
  if debug_build && negb b then panic else ret tt.

(** [assert!(b)]. *)
Definition assertM {S} (b : bool) : M S unit := if b then ret tt else panic.

(** ** Machine words *)

Definition W64 : Z := 2 ^ 64.

(** The value is a [u64] (or a [usize]: the target is 64-bit). *)
Definition u64 (x : Z) : Prop := 0 <= x < W64.

Definition wrap (x : Z) : Z := x mod W64.

(** [!x] on a 64-bit word. *)
Definition not64 (x : Z) : Z := Z.lxor x (Z.ones 64).

(** [x << n] on a 64-bit word, for [n < 64]: high bits are lost silently. *)
Definition shl64 (x n : Z) : Z := wrap (Z.shiftl x n).

(** [a + b], [a - b], [a * b]: overflow panics in the dev profile and wraps in
    the release profile. *)
Definition arith64 `{Build} {S} (x : Z) : M S Z :=
  if (0 <=? x) && (x <? W64) then ret x
  else if debug_build then panic else ret (wrap x).

Definition add64 `{Build} {S} (a b : Z) : M S Z := arith64 (a + b).
Definition sub64 `{Build} {S} (a b : Z) : M S Z := arith64 (a - b).
Definition mul64 `{Build} {S} (a b : Z) : M S Z := arith64 (a * b).

(** [x >> n]: a shift amount of 64 or more panics in the dev profile and is
    taken modulo 64 in the release profile. *)
Definition shr64 `{Build} {S} (x n : Z) : M S Z :=
  if n <? 64 then ret (Z.shiftr x n)
  else if debug_build then panic else ret (Z.shiftr x (n mod 64)).

(** [a.checked_add(b)] and [a.checked_mul(b)]. *)
Definition checked_add (a b : Z) : option Z := if a + b <? W64 then Some (a + b) else None.
Definition checked_mul (a b : Z) : option Z := if a * b <? W64 then Some (a * b) else None.
(** [a.saturating_sub(b)]. *)
Definition saturating_sub (a b : Z) : Z := Z.max 0 (a - b).
(** [b as usize]. *)
Definition bool_as_usize (b : bool) : Z := if b then 1 else 0.

(** ** Macros of [macros.rs] *)

(** [bit!(x)] is [1 << x]. *)
Definition bit (x : Z) : Z := shl64 1 x.

(** [mask!(x)] is [bit!(x) - 1]. *)
Definition mask (x : Z) : Z := bit x - 1.

(** [alignup!(addr, sz)] is [(addr + bit!(sz) - 1) & !mask!(sz)]. *)
Definition alignup `{Build} {S} (addr sz : Z) : M S Z :=
  let! a := add64 addr (bit sz) in
  let! b := sub64 a 1 in
  ret (Z.land b (not64 (mask sz))).

(** ** Bit fields *)

(** [(x >> off) & mask!(w)]. *)
Definition get_field (x off w : Z) : Z := Z.land (Z.shiftr x off) (mask w).

(** [(x & !(mask!(w) << off)) | (v << off)]. *)
Definition set_field (x off w v : Z) : Z :=
  Z.lor (Z.land x (not64 (shl64 (mask w) off))) (shl64 v off).

(** ** Generic lemmas: monad *)

Lemma bind_done {S A B} (m : M S A) (k : A -> M S B) s s' a :
  m s = (s', Done a) -> bind m k s = k a s'.
Proof. intros H. unfold bind. by rewrite H. Qed.

Lemma bind_ret {S A B} (a : A) (k : A -> M S B) : bind (ret a) k = k a.
Proof. done. Qed.

Lemma bind_inv {S A B} (m : M S A) (k : A -> M S B) s s' b :
  bind m k s = (s', Done b) -> exists s1 a, m s = (s1, Done a) /\ k a s1 = (s', Done b).
Proof. unfold bind. destruct (m s) as [s1 [a| | |]]; naive_solver. Qed.

Lemma zoom_done {S T A} (g : S -> T) (p : T -> S -> S) (m : M T A) s t a :
  m (g s) = (t, Done a) -> zoom g p m s = (p t s, Done a).
Proof. intros H. unfold zoom. by rewrite H. Qed.

(** ** Generic lemmas: words and bits *)

Lemma W64_pos : 0 < W64.
Proof. done. Qed.

Lemma wrap_small x : u64 x -> wrap x = x.
Proof. apply Z.mod_small. Qed.

Lemma wrap_u64 x : u64 (wrap x).
Proof. apply Z.mod_pos_bound, W64_pos. Qed.

Lemma arith64_ok `{Build} {S} x (s : S) : u64 x -> arith64 x s = (s, Done x).
Proof.
  intros [H1 H2]. unfold arith64.
  by rewrite (proj2 (Z.leb_le _ _) H1), (proj2 (Z.ltb_lt _ _) H2).
Qed.

Lemma testbit_ones n i : 0 <= n -> 0 <= i -> Z.testbit (Z.ones n) i = (i <? n).
Proof.
  intros. destruct (Z.ltb_spec i n).
  - by apply Z.ones_spec_low.
  - by apply Z.ones_spec_high.
Qed.

Lemma testbit_wrap x i : 0 <= i -> Z.testbit (wrap x) i = (i <? 64) && Z.testbit x i.
Proof.
  intros. unfold wrap, W64. destruct (Z.ltb_spec i 64).
  - by rewrite Z.mod_pow2_bits_low.
  - by rewrite Z.mod_pow2_bits_high by lia.
Qed.

Lemma testbit_not64 x i : 0 <= i -> Z.testbit (not64 x) i = xorb (Z.testbit x i) (i <? 64).
Proof. intros. unfold not64. by rewrite Z.lxor_spec, testbit_ones by lia. Qed.

Lemma testbit_above x n i : 0 <= x < 2 ^ n -> 0 <= n <= i -> Z.testbit x i = false.
Proof.
  intros Hx Hi. rewrite <- (Z.mod_small x (2 ^ n)) by done.
  by apply Z.mod_pow2_bits_high.
Qed.

Lemma testbit_u64 x i : u64 x -> 64 <= i -> Z.testbit x i = false.
Proof. intros. by apply (testbit_above x 64). Qed.

Lemma bit_pow x : 0 <= x < 64 -> bit x = 2 ^ x.
Proof.
  intros. unfold bit, shl64. rewrite Z.shiftl_1_l.
  apply wrap_small. split; [apply Z.pow_nonneg; lia|].
  apply Z.pow_lt_mono_r; lia.
Qed.

Lemma mask_ones w : 0 <= w < 64 -> mask w = Z.ones w.
Proof. intros. unfold mask. rewrite bit_pow, Z.ones_equiv by done. lia. Qed.

Lemma u64_testbit x :
  0 <= x -> (forall i, 64 <= i -> Z.testbit x i = false) -> u64 x.
Proof.
  intros H0 H. split; [done|].
  destruct (Z.eq_dec x 0) as [->|]; [done|].
  apply Z.log2_lt_pow2; [lia|].
  destruct (Z.lt_ge_cases (Z.log2 x) 64) as [|Hge]; [done|].
  specialize (H _ Hge). rewrite Z.bit_log2 in H by lia. done.
Qed.

(** Rewrite [Z.testbit] through the word operations. *)
Create Rewrite HintDb testbit.
#[export] Hint Rewrite Z.land_spec Z.lor_spec Z.lxor_spec : testbit.
#[export] Hint Rewrite Z.shiftr_spec Z.shiftl_spec testbit_ones testbit_wrap testbit_not64
  using lia : testbit.
#[export] Hint Rewrite Z.testbit_neg_r Z.testbit_0_l using lia : testbit.
#[export] Hint Rewrite andb_false_r andb_true_r orb_false_r orb_true_r orb_false_l
  andb_true_l andb_false_l xorb_false_r xorb_false_l orb_true_l : testbit.

(** Decide a [Z] comparison of the goal. *)
Ltac case_Zcmp :=
  match goal with
  | |- context [Z.ltb ?a ?b] => destruct (Z.ltb_spec a b)
  | |- context [Z.leb ?a ?b] => destruct (Z.leb_spec a b)
  | |- context [Z.eqb ?a ?b] => destruct (Z.eqb_spec a b)
  end.

(** Prove an equality of words bit by bit. *)
Ltac zbits :=
  apply Z.bits_inj'; intros ?i ?Hi;
  repeat (autorewrite with testbit; try case_Zcmp);
  try lia; try btauto.

Lemma get_field_testbit x off w i :
  0 <= off -> 0 <= w < 64 -> 0 <= i ->
  Z.testbit (get_field x off w) i = (i <? w) && Z.testbit x (i + off).
Proof.
  intros. unfold get_field. rewrite mask_ones by done.
  autorewrite with testbit. by rewrite andb_comm.
Qed.

Lemma set_field_testbit x off w v i :
  u64 x -> 0 <= off -> 0 <= w < 64 -> off + w <= 64 -> 0 <= v < 2 ^ w -> 0 <= i ->
  Z.testbit (set_field x off w v) i =
    if (off <=? i) && (i <? off + w) then Z.testbit v (i - off) else Z.testbit x i.
Proof.
  intros Hx Ho Hw How Hv Hi. unfold set_field, shl64. rewrite mask_ones by done.
  assert (Hhi : 64 <= i -> Z.testbit x i = false) by (intros; by apply testbit_u64).
  assert (Hvh : w <= i - off -> Z.testbit v (i - off) = false)
    by (intros; apply (testbit_above v w); lia).
  assert (Hvl : i - off < 0 -> Z.testbit v (i - off) = false)
    by (intros; by apply Z.testbit_neg_r).
  assert (Hol : i - off < 0 -> Z.testbit (Z.ones w) (i - off) = false)
    by (intros; by apply Z.testbit_neg_r).
  autorewrite with testbit.
  destruct (Z.leb_spec off i); [rewrite testbit_ones by lia|rewrite Hol, Hvl by lia];
    destruct (Z.ltb_spec i (off + w)), (Z.ltb_spec i 64);
    try (destruct (Z.ltb_spec (i - off) w); try lia);
    rewrite ?Hhi, ?Hvh by lia; simpl; destruct (Z.testbit x i); simpl;
    rewrite ?orb_false_r; done.
Qed.

Lemma get_field_range x off w :
  0 <= off -> 0 <= w < 64 -> 0 <= get_field x off w < 2 ^ w.
Proof.
  intros. unfold get_field. rewrite mask_ones, Z.land_ones by lia.
  apply Z.mod_pos_bound, Z.pow_pos_nonneg; lia.
Qed.

(** Reading back a field that was written. *)
Lemma get_set_same x off w v :
  u64 x -> 0 <= off -> 0 <= w < 64 -> off + w <= 64 -> 0 <= v < 2 ^ w ->
  get_field (set_field x off w v) off w = v.
Proof.
  intros. apply Z.bits_inj'; intros i Hi.
  rewrite get_field_testbit, set_field_testbit by (done || lia).
  destruct (Z.ltb_spec i w); simpl.
  - rewrite (proj2 (Z.leb_le off (i + off))), (proj2 (Z.ltb_lt (i + off) (off + w))) by lia.
    simpl. by rewrite Z.add_simpl_r.
  - symmetry. apply (testbit_above v w); lia.
Qed.

(** Writing a field leaves a disjoint field alone. *)
Lemma get_set_other x off w v off' w' :
  u64 x -> 0 <= off -> 0 <= w < 64 -> off + w <= 64 -> 0 <= v < 2 ^ w ->
  0 <= off' -> 0 <= w' < 64 -> off' + w' <= off \/ off + w <= off' ->
  get_field (set_field x off w v) off' w' = get_field x off' w'.
Proof.
  intros. apply Z.bits_inj'; intros i Hi.
  rewrite !get_field_testbit, set_field_testbit by (done || lia).
  destruct (Z.ltb_spec i w'); simpl; [|done].
  destruct (Z.leb_spec off (i + off')), (Z.ltb_spec (i + off') (off + w)); try lia; done.
Qed.

Lemma land_u64_l x y : u64 x -> 0 <= y -> u64 (Z.land x y).
Proof.
  intros Hx Hy. apply u64_testbit.
  - apply Z.land_nonneg. right. done.
  - intros i Hi. by rewrite Z.land_spec, testbit_u64.
Qed.

Lemma lor_u64 x y : u64 x -> u64 y -> u64 (Z.lor x y).
Proof.
  intros Hx Hy. apply u64_testbit.
  - apply Z.lor_nonneg. split; [apply Hx|apply Hy].
  - intros i Hi. by rewrite Z.lor_spec, !testbit_u64.
Qed.

Lemma not64_nonneg x : 0 <= x -> 0 <= not64 x.
Proof. intros. apply Z.lxor_nonneg. done. Qed.

Lemma shl64_u64 x n : u64 (shl64 x n).
Proof. apply wrap_u64. Qed.

Lemma set_field_u64 x off w v : u64 x -> u64 (set_field x off w v).
Proof.
  intros. unfold set_field. apply lor_u64; [|apply shl64_u64].
  apply land_u64_l; [done|]. apply not64_nonneg. apply shl64_u64.
Qed.

Create HintDb word discriminated.
#[export] Hint Resolve wrap_u64 shl64_u64 set_field_u64 lor_u64 : word.

(** Rounding up to a multiple of [2 ^ sz]. *)
Lemma land_not64_mask a sz :
  u64 a -> 0 <= sz < 64 -> Z.land a (not64 (mask sz)) = a / 2 ^ sz * 2 ^ sz.
Proof.
  intros Ha Hsz. rewrite mask_ones by done.
  rewrite <- Z.shiftr_div_pow2, <- Z.shiftl_mul_pow2 by lia.
  apply Z.bits_inj'; intros i Hi. autorewrite with testbit.
  destruct (Z.ltb_spec i sz).
  - rewrite (proj2 (Z.ltb_lt i 64)) by lia. simpl.
    rewrite andb_false_r. symmetry. apply Z.testbit_neg_r. lia.
  - rewrite Z.shiftr_spec by lia. replace (i - sz + sz) with i by lia.
    destruct (Z.ltb_spec i 64); simpl; [by rewrite andb_true_r|].
    by rewrite testbit_u64.
Qed.

(** The least multiple of [2 ^ a] that is at least [off]. *)
Definition align_to (off a : Z) : Z := (off + 2 ^ a - 1) / 2 ^ a * 2 ^ a.

Lemma align_to_spec off a :
  0 <= a -> off <= align_to off a < off + 2 ^ a /\ align_to off a mod 2 ^ a = 0.
Proof.
  intros Ha. assert (0 < 2 ^ a) by (apply Z.pow_pos_nonneg; lia). unfold align_to.
  split; [|by apply Z.mod_mul; lia].
  pose proof (Z.div_mod (off + 2 ^ a - 1) (2 ^ a)).
  pose proof (Z.mod_pos_bound (off + 2 ^ a - 1) (2 ^ a)). lia.
Qed.

Lemma alignup_run `{Build} {S} addr sz (s : S) :
  0 <= addr -> 0 <= sz < 64 -> addr + 2 ^ sz < W64 ->
  alignup addr sz s = (s, Done (align_to addr sz)).
Proof.
  intros Ha Hsz Hb. assert (0 < 2 ^ sz) by (apply Z.pow_pos_nonneg; lia).
  unfold alignup, add64, sub64. rewrite bit_pow by done.
  rewrite (bind_done _ _ _ s (addr + 2 ^ sz)) by (apply arith64_ok; split; lia).
  rewrite (bind_done _ _ _ s (addr + 2 ^ sz - 1)) by (apply arith64_ok; split; lia).
  by rewrite land_not64_mask by (try split; lia).
Qed.
