(* ===== verification/Errors.v ===== *)
(** Error types of [src/kernel/src/error.rs]: [SysError] with its numeric
    code, [WalkResult], [VSpaceError] and the conversion between the two error
    types.  [FrameSize] (declared in [objects/frame.rs]) lives here too because
    [WalkResult] carries one. *)
From S2P Require Import Prelude.

(** [enum FrameSize] of [objects/frame.rs]. *)
Inductive FrameSize : Type := Small | Large | Huge.

#[export] Instance FrameSize_eq_dec : EqDecision FrameSize.
Proof. solve_decision. Defined.

(** [enum SysError]. *)
Inductive SysError : Type :=
| None_
| CSpaceNotFound
| CapabilityTypeError
| LookupError
| UnableToDerive
| SlotNotEmpty
| SlotEmpty
| UnsupportedSyscallOp
| VSpaceCapMapped
| VSpaceCapNotMapped
| VSpaceTableMiss
| VSpaceSlotOccupied
| VSpacePermissionError
| InvalidValue
| SizeTooSmall
| OutOfMemory
| FrameAlreadyMapped
| FrameNotMapped
| InvalidOperation
| AlignmentError
| RangeError
| RevokeFailed
| DeleteFailed.

#[export] Instance SysError_eq_dec : EqDecision SysError.
Proof. solve_decision. Defined.

Module SysErrorImpl.

(** [SysError::as_code]: the discriminant, [None = 0] and then counting up. *)
Definition as_code (e : SysError) : Z :=
  match e with
  | None_ => 0 | CSpaceNotFound => 1 | CapabilityTypeError => 2 | LookupError => 3
  | UnableToDerive => 4 | SlotNotEmpty => 5 | SlotEmpty => 6 | UnsupportedSyscallOp => 7
  | VSpaceCapMapped => 8 | VSpaceCapNotMapped => 9 | VSpaceTableMiss => 10
  | VSpaceSlotOccupied => 11 | VSpacePermissionError => 12 | InvalidValue => 13
  | SizeTooSmall => 14 | OutOfMemory => 15 | FrameAlreadyMapped => 16
  | FrameNotMapped => 17 | InvalidOperation => 18 | AlignmentError => 19
  | RangeError => 20 | RevokeFailed => 21 | DeleteFailed => 22
  end.

(** [SysError::is_ok]. *)
Definition is_ok (e : SysError) : bool :=
  match e with None_ => true | _ => false end.

End SysErrorImpl.

(** [enum WalkResult]. *)
Inductive WalkResult : Type :=
| MappedPage (paddr : Z) (size : FrameSize) (level : Z)
| WNotMapped (level : Z)
| WTable (paddr : Z) (level : Z).

(** [enum VSpaceError]. *)
Inductive VSpaceError : Type :=
| InvalidVAddr
| MisalignedPAddr
| MisalignedVAddr
| AlreadyMapped
| NotMapped
| MissingTable
| UnsupportedPageSize
| InvalidAsid
| AllocationFailed.

#[export] Instance VSpaceError_eq_dec : EqDecision VSpaceError.
Proof. solve_decision. Defined.

(** [impl From<VSpaceError> for SysError]. *)
Definition sys_error_from (e : VSpaceError) : SysError :=
  match e with
  | InvalidVAddr => InvalidValue
  | MisalignedPAddr => InvalidValue
  | MisalignedVAddr => InvalidValue
  | AlreadyMapped => FrameAlreadyMapped
  | NotMapped => LookupError
  | MissingTable => LookupError
  | UnsupportedPageSize => InvalidValue
  | InvalidAsid => InvalidValue
  | AllocationFailed => OutOfMemory
  end.

(** Distinct errors have distinct codes. *)
Lemma as_code_inj e1 e2 : SysErrorImpl.as_code e1 = SysErrorImpl.as_code e2 -> e1 = e2.
Proof. destruct e1, e2; simpl; done. Qed.

(** Only [None] is the success code. *)
Lemma as_code_zero e : SysErrorImpl.as_code e = 0 <-> SysErrorImpl.is_ok e = true.
Proof. destruct e; simpl; split; done. Qed.
