(* ===== verification/Caps.v ===== *)
(** Capabilities: [src/kernel/src/objects/mod.rs] and [objects/traits.rs].

    A [CNodeEntry] is a [Cell<CapRaw>]; the entries of the system form one
    store, a finite map from the entry's address to its content, so that two
    references to one entry alias.  A [CapRef<'a, T>] is the address of the
    entry it refers to with a phantom object type; [KernelObject] is the trait
    that gives the object type its tag.

    The crates [bitflags] and [x86_64] are not part of the repository: what the
    code uses of them is a class of operations with their documented laws. *)
From S2P Require Import Prelude.

(** [enum ObjType]. *)
Inductive ObjType : Type :=
| NullObj | Untyped | CNode | Tcb_ | Frame | Endpoint | Reply | Monitor | Interrupt | VSpace.

#[export] Instance ObjType_eq_dec : EqDecision ObjType.
Proof. solve_decision. Defined.

(** [t as usize]: the discriminant. *)
Definition obj_type_as_usize (t : ObjType) : Z :=
  match t with
  | NullObj => 0 | Untyped => 1 | CNode => 2 | Tcb_ => 3 | Frame => 4
  | Endpoint => 5 | Reply => 6 | Monitor => 7 | Interrupt => 8 | VSpace => 9
  end.

(** ** Third-party operations *)

(** Operations of a [bitflags!] type used by the kernel: [contains] and the
    union [|]. *)
Class Bitflags : Type := {
  contains : Z -> Z -> bool;
  flags_or : Z -> Z -> Z
}.

(** "Whether all set bits in [other] are also set in [self]" and "the bitwise
    or of the bits of two flags values". *)
Class BitflagsLaws `{Bitflags} : Prop := {
  contains_spec : forall a b,
    contains a b = true <-> (forall i, 0 <= i -> Z.testbit b i = true -> Z.testbit a i = true);
  flags_or_spec : forall a b i,
    Z.testbit (flags_or a b) i = Z.testbit a i || Z.testbit b i
}.

(** [x86_64::PhysAddr::new]; [None] is a panic. *)
Class X86Addr : Type := { phys_addr_new : Z -> option Z }.

(** "Panics if a bit in the range 52 to 64 is set." *)
Class X86AddrLaws `{X86Addr} : Prop := {
  phys_addr_new_ok : forall a, 0 <= a < 2 ^ 52 -> phys_addr_new a = Some a;
  phys_addr_new_panic : forall a, 2 ^ 52 <= a -> phys_addr_new a = None
}.

Definition unwrap_or_panic {S A} (o : option A) : M S A :=
  match o with Some a => ret a | None => panic end.

(** ** Rights *)

Module CapRights.

Definition NONE : Z := 0.
Definition READ : Z := 1.
Definition WRITE : Z := 2.
Definition EXECUTE : Z := 4.
Definition GRANT : Z := 8.
Definition CONTROL : Z := 16.
Definition SEND : Z := 32.
Definition RECEIVE : Z := 64.

(** [CapRights::includes]. *)
Definition includes (self other : Z) : bool := Z.land self other =? other.

End CapRights.

(** ** Raw capabilities *)

(** [struct CapRaw].  MDB links are addresses of entries. *)
Record CapRaw : Type := mkCapRaw {
  arg1 : Z;
  arg2 : Z;
  paddr : Z;
  cap_type : ObjType;
  rights : Z;
  mdb_prev : option Z;
  mdb_next : option Z
}.

(** [CapRaw::default]. *)
Definition CapRaw_default : CapRaw := mkCapRaw 0 0 0 NullObj CapRights.NONE None None.

(** [CapRaw::default_with_type]. *)
Definition default_with_type (t : ObjType) : CapRaw :=
  mkCapRaw (arg1 CapRaw_default) (arg2 CapRaw_default) (paddr CapRaw_default) t
    (rights CapRaw_default) (mdb_prev CapRaw_default) (mdb_next CapRaw_default).

Definition set_arg1 (v : Z) (c : CapRaw) : CapRaw :=
  mkCapRaw v (arg2 c) (paddr c) (cap_type c) (rights c) (mdb_prev c) (mdb_next c).
Definition set_arg2 (v : Z) (c : CapRaw) : CapRaw :=
  mkCapRaw (arg1 c) v (paddr c) (cap_type c) (rights c) (mdb_prev c) (mdb_next c).
Definition set_paddr (v : Z) (c : CapRaw) : CapRaw :=
  mkCapRaw (arg1 c) (arg2 c) v (cap_type c) (rights c) (mdb_prev c) (mdb_next c).
Definition set_cap_type (v : ObjType) (c : CapRaw) : CapRaw :=
  mkCapRaw (arg1 c) (arg2 c) (paddr c) v (rights c) (mdb_prev c) (mdb_next c).
Definition set_rights (v : Z) (c : CapRaw) : CapRaw :=
  mkCapRaw (arg1 c) (arg2 c) (paddr c) (cap_type c) v (mdb_prev c) (mdb_next c).
Definition set_mdb_prev (v : option Z) (c : CapRaw) : CapRaw :=
  mkCapRaw (arg1 c) (arg2 c) (paddr c) (cap_type c) (rights c) v (mdb_next c).
Definition set_mdb_next (v : option Z) (c : CapRaw) : CapRaw :=
  mkCapRaw (arg1 c) (arg2 c) (paddr c) (cap_type c) (rights c) (mdb_prev c) v.

(** ** Typed references *)

(** [trait KernelObject]. *)
Class KernelObject (T : Type) : Type := OBJ_TYPE : ObjType.

(** The object types; only their tags matter to the code modelled here. *)
Inductive NullObjT : Type := .
Inductive CNodeObj : Type := .
Inductive UntypedObj : Type := .
Inductive FrameObj : Type := .
Inductive VSpaceObj : Type := .
Inductive EndpointObjT : Type := .
Inductive TcbObj : Type := .

#[export] Instance NullObj_object : KernelObject NullObjT := NullObj.
#[export] Instance CNode_object : KernelObject CNodeObj := CNode.
#[export] Instance Untyped_object : KernelObject UntypedObj := Untyped.
#[export] Instance Frame_object : KernelObject FrameObj := Frame.
#[export] Instance VSpace_object : KernelObject VSpaceObj := VSpace.
#[export] Instance Endpoint_object : KernelObject EndpointObjT := Endpoint.
#[export] Instance Tcb_object : KernelObject TcbObj := Tcb_.

(** [struct CapRef<'a, T>]: the address of the entry. *)
Record CapRef (T : Type) : Type := mkCapRef { raw : Z }.
Arguments mkCapRef {T} _.
Arguments raw {T} _.

(** The store of capability entries, by address. *)
Abbreviation Slots := (gmap Z CapRaw).

(** [CNodeEntry::get]. *)
Definition entry_get (a : Z) : M Slots CapRaw := fun s => deref (s !! a) s.

(** [CNodeEntry::set]. *)
Definition entry_set (a : Z) (c : CapRaw) : M Slots unit :=
  do! entry_get a in modify (fun s => <[a := c]> s).

(** [CapRef::cap_type]. *)
Definition ref_cap_type {T} `{KernelObject T} (_ : CapRef T) : ObjType := OBJ_TYPE.

(** [CapRef::paddr]. *)
Definition ref_paddr `{X86Addr} {T} (c : CapRef T) : M Slots Z :=
  let! r := entry_get (raw c) in unwrap_or_panic (phys_addr_new (paddr r)).

(** [CapRef::rights]. *)
Definition ref_rights {T} (c : CapRef T) : M Slots Z :=
  let! r := entry_get (raw c) in ret (rights r).

(** ** Reference implementations of the third-party operations

    Used to evaluate the model and to show that the laws can be met; they are
    not declared as instances, so no definition of the model depends on them. *)

Definition ref_bitflags : Bitflags :=
  {| contains a b := Z.land a b =? b; flags_or := Z.lor |}.

Definition ref_x86addr : X86Addr :=
  {| phys_addr_new a := if a <? 2 ^ 52 then Some a else None |}.

Lemma includes_testbit a b :
  CapRights.includes a b = true <->
  (forall i, 0 <= i -> Z.testbit b i = true -> Z.testbit a i = true).
Proof.
  unfold CapRights.includes. rewrite Z.eqb_eq. split.
  - intros H i Hi Hb. rewrite <- H, Z.land_spec in Hb. by apply andb_true_iff in Hb as [].
  - intros H. apply Z.bits_inj'; intros i Hi. rewrite Z.land_spec.
    destruct (Z.testbit b i) eqn:E; [|by rewrite andb_false_r].
    by rewrite (H i Hi E).
Qed.

Lemma ref_bitflags_laws : @BitflagsLaws ref_bitflags.
Proof.
  split.
  - intros a b. apply includes_testbit.
  - intros a b i. apply Z.lor_spec.
Qed.

Lemma ref_x86addr_laws : @X86AddrLaws ref_x86addr.
Proof.
  split; intros a Ha; simpl.
  - by rewrite (proj2 (Z.ltb_lt a _)) by lia.
  - by rewrite (proj2 (Z.ltb_ge a _)).
Qed.

(** [|] of the flags types is that of their bits. *)
Lemma flags_or_lor `{BitflagsLaws} a b : flags_or a b = Z.lor a b.
Proof. apply Z.bits_inj. intros i. by rewrite flags_or_spec, Z.lor_spec. Qed.

(** [contains] of the flags types is [includes]. *)
Lemma contains_includes `{BitflagsLaws} a b : contains a b = CapRights.includes a b.
Proof. apply eq_true_iff_eq. by rewrite contains_spec, includes_testbit. Qed.

(** Entry access on a present entry. *)
Lemma entry_get_some s a c : s !! a = Some c -> entry_get a s = (s, Done c).
Proof. intros H. unfold entry_get. by rewrite H. Qed.

Lemma entry_set_some s a c c' : s !! a = Some c -> entry_set a c' s = (<[a := c']> s, Done tt).
Proof. intros H. unfold entry_set. by rewrite (bind_done _ _ _ s c) by by apply entry_get_some. Qed.

Lemma entry_get_none s a : s !! a = None -> entry_get a s = (s, Undef).
Proof. intros H. unfold entry_get. by rewrite H. Qed.

Lemma entry_read {A} s a c (f : CapRaw -> A) :
  s !! a = Some c -> (let! r := entry_get a in ret (f r)) s = (s, Done (f c)).
Proof. intros H. by rewrite (bind_done _ _ _ s c) by by apply entry_get_some. Qed.
