(* ===== verification/Dll.v ===== *)
(** Doubly linked lists threaded through a store.

    The kernel keeps two intrusive doubly linked lists: the mapping database
    (MDB) through [CapRaw::mdb_prev]/[mdb_next] and the endpoint queues through
    [Tcb::ep_prev]/[ep_next].  This file holds the theory they share: the class
    [Linked] says where a node keeps its links, [links] extracts the link map of
    a store, and [chain lk l] says that [lk] links exactly the addresses of [l],
    in that order, without repetition.  [link_after], [link_last] and [unlink]
    are the link updates of the two components on that map. *)
From S2P Require Import Prelude.

Abbreviation Link := (option Z * option Z)%type.
Abbreviation LinkMap := (gmap Z Link).

(** Where a node keeps its previous and next pointers. *)
Class Linked (N : Type) : Type := {
  link : N -> Link;
  set_prev : option Z -> N -> N;
  set_next : option Z -> N -> N
}.

(** A node without its links. *)
Definition payload {N} `{Linked N} (c : N) : N := set_next None (set_prev None c).

(** The setters write the links and nothing else. *)
Class LinkedLaws (N : Type) `{Linked N} : Prop := {
  link_set_prev : forall v c, link (set_prev v c) = (v, (link c).2);
  link_set_next : forall v c, link (set_next v c) = ((link c).1, v);
  payload_set_prev : forall v c, payload (set_prev v c) = payload c;
  payload_set_next : forall v c, payload (set_next v c) = payload c
}.

Definition links {N} `{Linked N} (m : gmap Z N) : LinkMap := link <$> m.

Definition or_else (o d : option Z) : option Z := match o with Some a => Some a | None => d end.

(** [l] is linked in order between the outside neighbours [p] and [n]. *)
Fixpoint dseg (lk : LinkMap) (p : option Z) (l : list Z) (n : option Z) : Prop :=
  match l with
  | [] => True
  | a :: l' => lk !! a = Some (p, or_else (head l') n) /\ dseg lk (Some a) l' n
  end.

(** A complete list: first and last have no outer neighbour and no address
    occurs twice. *)
Definition chain (lk : LinkMap) (l : list Z) : Prop := NoDup l /\ dseg lk None l None.

Definition upd_next (o : option Z) (v : option Z) (lk : LinkMap) : LinkMap :=
  match o with Some a => alter (fun pn => (pn.1, v)) a lk | None => lk end.

Definition upd_prev (o : option Z) (v : option Z) (lk : LinkMap) : LinkMap :=
  match o with Some a => alter (fun pn => (v, pn.2)) a lk | None => lk end.

(** Take [x], between [p] and [n], out of its list. *)
Definition unlink (x : Z) (p n : option Z) (lk : LinkMap) : LinkMap :=
  <[x := (None, None)]> (upd_prev n p (upd_next p n lk)).

(** Put [x] right after [src], whose successor was [n]. *)
Definition link_after (src x : Z) (n : option Z) (lk : LinkMap) : LinkMap :=
  upd_next (Some src) (Some x) (upd_prev n (Some x) (<[x := (Some src, n)]> lk)).

(** Put [x] behind the last element [t]. *)
Definition link_last (x : Z) (t : option Z) (lk : LinkMap) : LinkMap :=
  upd_next t (Some x) (<[x := (t, None)]> lk).

(** Write a pointer field through a possibly null pointer. *)
Definition write_next {N} `{Linked N} (o v : option Z) : M (gmap Z N) unit := fun m =>
  match o with
  | Some p => match m !! p with
              | Some c => (<[p := set_next v c]> m, Done tt)
              | None => (m, Undef)
              end
  | None => (m, Done tt)
  end.

Definition write_prev {N} `{Linked N} (o v : option Z) : M (gmap Z N) unit := fun m =>
  match o with
  | Some p => match m !! p with
              | Some c => (<[p := set_prev v c]> m, Done tt)
              | None => (m, Undef)
              end
  | None => (m, Done tt)
  end.

(** [m'] holds the nodes of [m]; only the links of the nodes listed in [l] may
    differ. *)
Definition relinks {N} `{Linked N} (l : list Z) (m m' : gmap Z N) : Prop :=
  payload <$> m' = payload <$> m /\ (forall a, a ∉ l -> m' !! a = m !! a).

Lemma dseg_app lk p l1 l2 n :
  dseg lk p (l1 ++ l2) n <->
  dseg lk p l1 (or_else (head l2) n) /\ dseg lk (or_else (last l1) p) l2 n.
Proof.
  revert p. induction l1 as [|a l1 IH]; intros p; simpl; [tauto|].
  rewrite IH. destruct l1 as [|b l1]; simpl; [tauto|].
  replace (or_else (last (b :: l1)) (Some a)) with (or_else (last (b :: l1)) p); [tauto|].
  destruct (last (b :: l1)) eqn:E; [done|]. by apply last_None in E.
Qed.

Lemma dseg_ext lk lk' p l n :
  (forall a, a ∈ l -> lk !! a = lk' !! a) -> dseg lk p l n -> dseg lk' p l n.
Proof.
  revert p. induction l as [|a l IH]; intros p H; simpl; [done|].
  intros [Ha Hl]. split; [rewrite <- H; [done|set_solver]|].
  apply IH; [set_solver|done].
Qed.

Lemma dseg_insert lk p l n a v : a ∉ l -> dseg lk p l n -> dseg (<[a := v]> lk) p l n.
Proof. intros Ha. apply dseg_ext. intros b Hb. rewrite lookup_insert_ne; set_solver. Qed.

Lemma dseg_upd_next_notin lk p l n o v :
  (forall a, o = Some a -> a ∉ l) -> dseg lk p l n -> dseg (upd_next o v lk) p l n.
Proof.
  intros Ho. destruct o as [a|]; [|done]. apply dseg_ext. intros b Hb. simpl.
  rewrite lookup_alter_ne; [done|]. intros ->. by eapply Ho.
Qed.

Lemma dseg_upd_prev_notin lk p l n o v :
  (forall a, o = Some a -> a ∉ l) -> dseg lk p l n -> dseg (upd_prev o v lk) p l n.
Proof.
  intros Ho. destruct o as [a|]; [|done]. apply dseg_ext. intros b Hb. simpl.
  rewrite lookup_alter_ne; [done|]. intros ->. by eapply Ho.
Qed.

(** Redirecting the last element's next pointer. *)
Lemma dseg_upd_next_last lk p l n v :
  NoDup l -> dseg lk p l n -> dseg (upd_next (last l) v lk) p l v.
Proof.
  destruct l as [|b l0] using rev_ind; [done|]. clear IHl0.
  rewrite last_snoc, NoDup_app. intros (_ & Hnd & _).
  rewrite !dseg_app. simpl. intros [H1 [H2 _]]. split_and!; [|simpl|done].
  - eapply dseg_ext, H1. intros c Hc. simpl. rewrite lookup_alter_ne; [done|].
    intros ->. by eapply Hnd, list_elem_of_singleton.
  - rewrite lookup_alter_eq, H2. done.
Qed.

(** Redirecting the first element's previous pointer. *)
Lemma dseg_upd_prev_head lk p l n v :
  NoDup l -> dseg lk p l n -> dseg (upd_prev (head l) v lk) v l n.
Proof.
  destruct l as [|b l]; [done|]. simpl. intros Hnd%NoDup_cons [H1 H2].
  split; [by rewrite lookup_alter_eq, H1|].
  eapply dseg_ext, H2. intros c Hc. rewrite lookup_alter_ne; [done|].
  intros ->. by apply Hnd.
Qed.

(** The links of an element of a chain are its neighbours. *)
Lemma chain_lookup lk l1 x l2 :
  chain lk (l1 ++ x :: l2) -> lk !! x = Some (last l1, head l2).
Proof.
  intros [_ H]. apply dseg_app in H as [_ H]. simpl in H.
  destruct H as [-> _]. f_equal. f_equal; [destruct (last l1)|destruct (head l2)]; done.
Qed.

Lemma or_else_None o : or_else o None = o.
Proof. by destruct o. Qed.

Lemma last_elem (l : list Z) a : last l = Some a -> a ∈ l.
Proof. intros H. apply last_Some in H as [l' ->]. set_solver. Qed.

Lemma head_elem (l : list Z) a : head l = Some a -> a ∈ l.
Proof. intros H. apply head_Some in H as [l' ->]. set_solver. Qed.

(** Removing an element. *)
Lemma chain_unlink lk l1 x l2 :
  chain lk (l1 ++ x :: l2) -> chain (unlink x (last l1) (head l2) lk) (l1 ++ l2).
Proof.
  intros [Hnd H]. apply dseg_app in H as [H1 [_ H2]]. rewrite or_else_None in H1. simpl in H1.
  apply NoDup_app in Hnd as (Hn1 & Hd & [Hx Hn2]%NoDup_cons). split.
  { apply NoDup_app. set_solver. }
  apply dseg_app. rewrite !or_else_None. unfold unlink. split.
  - apply dseg_insert; [set_solver|].
    apply dseg_upd_prev_notin; [intros a Ha%head_elem; set_solver|].
    by eapply dseg_upd_next_last.
  - apply dseg_insert; [set_solver|]. eapply dseg_upd_prev_head; [done|].
    apply dseg_upd_next_notin; [intros a Ha%last_elem; set_solver|]. exact H2.
Qed.

(** Inserting after an element. *)
Lemma chain_link_after lk l1 src l2 x :
  x ∉ l1 ++ src :: l2 -> chain lk (l1 ++ src :: l2) ->
  chain (link_after src x (head l2) lk) (l1 ++ src :: x :: l2).
Proof.
  intros Hx [Hnd H]. rewrite (cons_middle src) in H. rewrite app_assoc in H.
  apply dseg_app in H as [H1 H2]. rewrite or_else_None in H1.
  rewrite last_snoc in H2. simpl in H2.
  assert (Hnd' : NoDup (l1 ++ [src])).
  { rewrite (cons_middle src), app_assoc in Hnd. by apply NoDup_app in Hnd as []. }
  assert (Hs : forall a, head l2 = Some a -> a ∉ l1 ++ [src]).
  { intros a Ha%head_elem. apply NoDup_app in Hnd as (_ & Hd & Hc%NoDup_cons). set_solver. }
  split.
  { rewrite (cons_middle src), (app_assoc l1) in Hnd. rewrite (cons_middle src), app_assoc.
    apply NoDup_app in Hnd as (Ha & Hb & Hc). apply NoDup_app. split_and!; [done|set_solver|].
    apply NoDup_cons. set_solver. }
  rewrite (cons_middle src), app_assoc. apply dseg_app. rewrite last_snoc, or_else_None. simpl.
  unfold link_after. split_and!.
  - change (Some src) with (last (src :: []) ) at 1. rewrite <- (last_app_cons l1 [] src) .
    eapply dseg_upd_next_last; [done|].
    apply dseg_upd_prev_notin; [done|]. apply dseg_insert; [set_solver|]. exact H1.
  - simpl. rewrite lookup_alter_ne by set_solver.
    assert (Hne : forall a, head l2 = Some a -> a <> x) by (intros a Ha%head_elem ->; set_solver).
    destruct (head l2) as [b|] eqn:E; simpl; [rewrite lookup_alter_ne by by apply Hne|];
      by rewrite lookup_insert_eq.
  - apply dseg_upd_next_notin; [intros a [= <-]; apply NoDup_app in Hnd as (_ & _ & Hc%NoDup_cons); tauto|].
    apply dseg_upd_prev_head with (p := Some src).
    + apply NoDup_app in Hnd as (_ & _ & Hc%NoDup_cons). tauto.
    + apply dseg_insert; [set_solver|]. exact H2.
Qed.

(** Appending at the end. *)
Lemma chain_link_last lk l x :
  x ∉ l -> chain lk l -> chain (link_last x (last l) lk) (l ++ [x]).
Proof.
  intros Hx [Hnd H]. split.
  { apply NoDup_app. split_and!; [done|set_solver|]. apply NoDup_singleton. }
  apply dseg_app. rewrite or_else_None. simpl. unfold link_last. split_and!; [| |done].
  - eapply dseg_upd_next_last; [done|]. by apply dseg_insert.
  - assert (Hne : forall a, last l = Some a -> a <> x) by (intros a Ha%last_elem ->; set_solver).
    destruct (last l) as [b|] eqn:E; simpl; [rewrite lookup_alter_ne by by apply Hne|];
      by rewrite lookup_insert_eq.
Qed.

(** A chain does not see nodes outside it. *)
Lemma chain_ext lk lk' l :
  (forall a, a ∈ l -> lk !! a = lk' !! a) -> chain lk l -> chain lk' l.
Proof. intros H [Hnd Hd]. split; [done|]. by eapply dseg_ext. Qed.

(** Every element of a chain is in the store. *)
Lemma chain_is_Some lk l a : chain lk l -> a ∈ l -> is_Some (lk !! a).
Proof.
  intros Hc Ha. apply list_elem_of_split in Ha as (l1 & l2 & ->).
  rewrite (chain_lookup _ _ _ _ Hc). by eexists.
Qed.

Section linked_store.
Context {N : Type} `{Linked N}.
Implicit Types (m : gmap Z N).

Lemma links_lookup m a : links m !! a = link <$> m !! a.
Proof. apply lookup_fmap. Qed.

Lemma links_insert m a c : links (<[a := c]> m) = <[a := link c]> (links m).
Proof. apply fmap_insert. Qed.

Lemma chain_store m l a : chain (links m) l -> a ∈ l -> exists c, m !! a = Some c.
Proof.
  intros Hc Ha. destruct (chain_is_Some _ _ _ Hc Ha) as [k Hk].
  rewrite links_lookup in Hk. destruct (m !! a) as [c|]; [by exists c|done].
Qed.

Lemma chain_store_lookup m l1 x l2 c :
  chain (links m) (l1 ++ x :: l2) -> m !! x = Some c -> link c = (last l1, head l2).
Proof.
  intros Hc Hx. pose proof (chain_lookup _ _ _ _ Hc) as E.
  rewrite links_lookup, Hx in E. by injection E.
Qed.

(** Overwriting a node and keeping its links keeps the link map. *)
Lemma links_insert_same m a c c' :
  m !! a = Some c -> link c' = link c -> links (<[a := c']> m) = links m.
Proof.
  intros Ha Hl. rewrite links_insert, Hl. apply insert_id.
  by rewrite links_lookup, Ha.
Qed.

Lemma alter_links (f : Link -> Link) m a c :
  m !! a = Some c -> alter f a (links m) = <[a := f (link c)]> (links m).
Proof.
  intros Ha. apply map_eq. intros b. rewrite lookup_insert, lookup_alter.
  case_decide as E; [|done]. subst. by rewrite links_lookup, Ha.
Qed.

Lemma payload_insert m a c c' :
  m !! a = Some c -> payload c' = payload c -> payload <$> (<[a := c']> m) = payload <$> m.
Proof.
  intros Ha Hp. rewrite fmap_insert, Hp. apply insert_id. by rewrite lookup_fmap, Ha.
Qed.

Lemma relinks_trans l m1 m2 m3 : relinks l m1 m2 -> relinks l m2 m3 -> relinks l m1 m3.
Proof. intros [P1 Q1] [P2 Q2]. split; [by rewrite P2|]. intros a Ha. by rewrite Q2, Q1. Qed.

Lemma relinks_insert l m a c c' :
  m !! a = Some c -> payload c' = payload c -> a ∈ l -> relinks l m (<[a := c']> m).
Proof.
  intros Ha Hp Hl. split; [by eapply payload_insert|].
  intros b Hb. rewrite lookup_insert_ne; [done|]. by intros ->.
Qed.

Lemma relinks_is_Some l m m' a : relinks l m m' -> is_Some (m !! a) -> is_Some (m' !! a).
Proof.
  intros [P _] [c Hc]. apply (f_equal (lookup a)) in P. rewrite !lookup_fmap, Hc in P.
  destruct (m' !! a); [by eexists|done].
Qed.

Context `{!LinkedLaws N}.

Lemma write_next_run l m o v :
  (forall p, o = Some p -> is_Some (m !! p) /\ p ∈ l) ->
  exists m', write_next o v m = (m', Done tt) /\ links m' = upd_next o v (links m) /\
    relinks l m m' /\ (forall a, o <> Some a -> m' !! a = m !! a).
Proof.
  intros Ho. destruct o as [p|]; [|by exists m]. destruct (Ho p eq_refl) as [[c Hc] Hl].
  eexists. unfold write_next. rewrite Hc. split_and!; [done| | |].
  - simpl. by rewrite links_insert, link_set_next, (alter_links _ _ _ _ Hc).
  - eapply relinks_insert; [done|apply payload_set_next|done].
  - intros a Ha. rewrite lookup_insert_ne; [done|congruence].
Qed.

Lemma write_prev_run l m o v :
  (forall p, o = Some p -> is_Some (m !! p) /\ p ∈ l) ->
  exists m', write_prev o v m = (m', Done tt) /\ links m' = upd_prev o v (links m) /\
    relinks l m m' /\ (forall a, o <> Some a -> m' !! a = m !! a).
Proof.
  intros Ho. destruct o as [p|]; [|by exists m]. destruct (Ho p eq_refl) as [[c Hc] Hl].
  eexists. unfold write_prev. rewrite Hc. split_and!; [done| | |].
  - simpl. by rewrite links_insert, link_set_prev, (alter_links _ _ _ _ Hc).
  - eapply relinks_insert; [done|apply payload_set_prev|done].
  - intros a Ha. rewrite lookup_insert_ne; [done|congruence].
Qed.

(** The neighbours of an element are in the store, and are not it. *)
Lemma chain_neighbours m l1 x l2 p :
  chain (links m) (l1 ++ x :: l2) -> last l1 = Some p \/ head l2 = Some p ->
  is_Some (m !! p) /\ p ∈ l1 ++ x :: l2 /\ p <> x.
Proof.
  intros Hch Hp. pose proof Hch as [(_ & Hd & [Hx _]%NoDup_cons)%NoDup_app _].
  assert (Hin : p ∈ l1 ++ x :: l2 /\ p <> x).
  { destruct Hp as [Hp%last_elem|Hp%head_elem]; set_solver. }
  split; [|done]. destruct (chain_store m _ p Hch) as [c Hc]; [tauto|by eexists].
Qed.

(** Unlinking [x] by writing both neighbours and clearing [x]. *)
Lemma unlink_run m l1 x l2 c :
  chain (links m) (l1 ++ x :: l2) -> m !! x = Some c ->
  exists m1 m2, write_next (last l1) (head l2) m = (m1, Done tt) /\
    write_prev (head l2) (last l1) m1 = (m2, Done tt) /\ m2 !! x = Some c /\
    chain (links (<[x := payload c]> m2)) (l1 ++ l2) /\
    relinks (l1 ++ x :: l2) m (<[x := payload c]> m2).
Proof.
  intros Hch Hx. set (L := l1 ++ x :: l2).
  destruct (write_next_run L m (last l1) (head l2)) as (m1 & E1 & K1 & R1 & O1).
  { intros p Hp. edestruct chain_neighbours as (? & ? & ?); [done|by left|done]. }
  destruct (write_prev_run L m1 (head l2) (last l1)) as (m2 & E2 & K2 & R2 & O2).
  { intros p Hp. edestruct chain_neighbours as (? & ? & ?); [done|by right|].
    split; [by eapply relinks_is_Some|done]. }
  assert (Hx2 : m2 !! x = Some c).
  { rewrite O2, O1; [done| |]; intros E;
      (edestruct chain_neighbours as (_ & _ & []); [done| |done]); tauto. }
  exists m1, m2. split_and!; [done|done|done| |].
  - rewrite links_insert, K2, K1. unfold payload. rewrite link_set_next, link_set_prev.
    by apply chain_unlink.
  - apply (relinks_trans _ _ m1); [done|]. apply (relinks_trans _ _ m2); [done|].
    eapply relinks_insert; [done| |set_solver].
    unfold payload at 2. by rewrite payload_set_next, payload_set_prev.
Qed.
End linked_store.
