(* ===== verification/CNode.v ===== *)
(** Capability nodes and the mapping database:
    [src/kernel/src/objects/cnode.rs].

    The entry operations ([mdb_insert_after], [mdb_remove], [revoke]) read and
    write the shared store of entries by address, in the order of the code and
    with its snapshots, so that aliasing is visible.  [mdb_chain] is the ghost
    [MdbChainGhost::well_formed] together with [acyclic], as a list of entry
    addresses.  [CNodeCap] packs radix and guard sizes in [arg1]. *)
From S2P Require Import Prelude Errors Caps Dll.

#[export] Instance CapRaw_linked : Linked CapRaw :=
  {| link c := (mdb_prev c, mdb_next c); set_prev := set_mdb_prev; set_next := set_mdb_next |}.

#[export] Instance CapRaw_linked_laws : LinkedLaws CapRaw.
Proof. by split. Qed.

(** [CNODE_DEPTH]. *)
Definition CNODE_DEPTH : Z := 32.

(** [size_of::<CNodeEntry>()]: five words and two bytes, aligned to 32. *)
Definition CNODE_ENTRY_SZ : Z := 64.

(** [CNODE_ENTRY_SZ.trailing_zeros()]. *)
Definition CNODE_ENTRY_BIT_SZ : Z := 6.

Module CNodeEntry.

(** [CNodeEntry::new]. *)
Definition new : CapRaw := mkCapRaw 0 0 0 NullObj CapRights.NONE None None.

(** [CNodeEntry::is_null]. *)
Definition is_null (a : Z) : M Slots bool :=
  let! r := entry_get a in ret (bool_decide (cap_type r = NullObj)).

(** [CNodeEntry::mdb_isolated]. *)
Definition mdb_isolated (c : CapRaw) : Prop := mdb_prev c = None /\ mdb_next c = None.

(** [CNodeEntry::mdb_insert_after]. *)
Definition mdb_insert_after (src dst : Z) : M Slots unit :=
  let! src_raw := entry_get src in
  let! dst_raw := entry_get dst in
  let orig_next := mdb_next src_raw in
  do! entry_set dst (set_mdb_next orig_next (set_mdb_prev (Some src) dst_raw)) in
  do! match orig_next with
      | Some next_ptr =>
          let! next_raw := entry_get next_ptr in
          entry_set next_ptr (set_mdb_prev (Some dst) next_raw)
      | None => ret tt
      end in
  entry_set src (set_mdb_next (Some dst) src_raw).

(** [CNodeEntry::mdb_remove]. *)
Definition mdb_remove (self : Z) : M Slots unit :=
  let! self_raw := entry_get self in
  let prev := mdb_prev self_raw in
  let next := mdb_next self_raw in
  do! match prev with
      | Some prev_ptr =>
          let! prev_raw := entry_get prev_ptr in
          entry_set prev_ptr (set_mdb_next next prev_raw)
      | None => ret tt
      end in
  do! match next with
      | Some next_ptr =>
          let! next_raw := entry_get next_ptr in
          entry_set next_ptr (set_mdb_prev prev next_raw)
      | None => ret tt
      end in
  entry_set self (set_mdb_next None (set_mdb_prev None self_raw)).

(** [CNodeEntry::is_nullified]. *)
Definition is_nullified (c : CapRaw) : Prop :=
  cap_type c = NullObj /\ rights c = CapRights.NONE /\ paddr c = 0 /\ arg1 c = 0 /\ arg2 c = 0.

(** The "erase capability" assignments of [CNodeEntry::revoke]. *)
Definition erase (c : CapRaw) : CapRaw :=
  set_arg2 0 (set_arg1 0 (set_paddr 0 (set_rights CapRights.NONE (set_cap_type NullObj c)))).

(** The [while let] loop of [CNodeEntry::revoke]. *)
Fixpoint revoke_loop (fuel : nat) (cur : option Z) : M Slots unit :=
  match fuel with
  | O => fun s => (s, NoFuel)
  | S fuel =>
      match cur with
      | None => ret tt
      | Some ptr =>
          let! r := entry_get ptr in
          let cur' := mdb_next r in
          do! entry_set ptr (erase r) in
          do! mdb_remove ptr in
          revoke_loop fuel cur'
      end
  end.

(** [CNodeEntry::revoke]. *)
Definition revoke (fuel : nat) (self : Z) : M Slots unit :=
  let! r := entry_get self in revoke_loop fuel (mdb_next r).

End CNodeEntry.

(** [TryFrom<&CNodeEntry> for CapRef<T>]. *)
Definition cap_try_from {T} `{KernelObject T} (a : Z) : M Slots (result (CapRef T) SysError) :=
  let! r := entry_get a in
  if decide (OBJ_TYPE = cap_type r) then ret (Ok (mkCapRef a))
  else ret (Err CapabilityTypeError).

Module CNodeCap.

Definition GUARD_BITS : Z := 6.
Definition GUARD_OFFSET : Z := 0.
Definition RADIX_BITS : Z := 6.
Definition RADIX_OFFSET : Z := GUARD_OFFSET + GUARD_BITS.

(** [CNodeCap::mask]. *)
Definition mask_ (bits : Z) : Z := if 8 * 8 <=? bits then W64 - 1 else bit bits - 1.

(** [CNodeCap::try_from_slot]. *)
Definition try_from_slot (slot : Z) : M Slots (option (CapRef CNodeObj)) :=
  let! r := entry_get slot in
  if decide (cap_type r = CNode) then ret (Some (mkCapRef slot)) else ret None.

(** The decoding part of [CNodeCap::guard_bits] and [CNodeCap::radix_bits]. *)
Definition raw_guard_bits (c : CapRaw) : Z :=
  Z.land (Z.shiftr (arg1 c) GUARD_OFFSET) (mask_ GUARD_BITS).
Definition raw_radix_bits (c : CapRaw) : Z :=
  Z.land (Z.shiftr (arg1 c) RADIX_OFFSET) (mask_ RADIX_BITS).

(** [CNodeCap::guard_bits]. *)
Definition guard_bits (c : CapRef CNodeObj) : M Slots Z :=
  let! r := entry_get (raw c) in ret (raw_guard_bits r).

(** [CNodeCap::radix_bits]. *)
Definition radix_bits (c : CapRef CNodeObj) : M Slots Z :=
  let! r := entry_get (raw c) in ret (raw_radix_bits r).

(** [CNodeCap::size]. *)
Definition size (c : CapRef CNodeObj) : M Slots Z :=
  let! rb := radix_bits c in ret (bit rb).

(** [CNodeCap::guard]. *)
Definition guard (c : CapRef CNodeObj) : M Slots Z :=
  let! r := entry_get (raw c) in ret (arg2 r).

(** [CNodeCap::mint_valid]. *)
Definition mint_valid (radix guard : Z) : Prop := radix + guard <= CNODE_DEPTH.

(** [CNodeCap::mint]. *)
Definition mint {S} (addr radix guard_b guard_v rights_v : Z) : M S CapRaw :=
  let guard_sz := Z.land guard_b (mask_ GUARD_BITS) in
  let radix_sz := Z.land radix (mask_ RADIX_BITS) in
  do! assertM (radix_sz + guard_sz <=? CNODE_DEPTH) in
  let a1 := Z.lor (shl64 guard_sz GUARD_OFFSET) (shl64 radix_sz RADIX_OFFSET) in
  ret (set_rights rights_v (set_arg2 guard_v (set_arg1 a1
        (set_paddr addr (default_with_type CNode))))).

(** A slice of entries: its address and its length. *)
Record Slice : Type := mkSlice { base : Z; len : Z }.

(** [CNodeCap::as_object] (and [as_object_mut]): [slice::from_raw_parts]. *)
Definition as_object (c : CapRef CNodeObj) : M Slots Slice :=
  let! r := entry_get (raw c) in ret (mkSlice (paddr r) (bit (raw_radix_bits r))).

(** The address of element [i] of a slice, and [slice::get]. *)
Definition slot_addr (sl : Slice) (i : Z) : Z := base sl + i * CNODE_ENTRY_SZ.
Definition slice_get (sl : Slice) (i : Z) : option Z :=
  if i <? len sl then Some (slot_addr sl i) else None.

(** The [while] loop of [CNodeCap::init], [idx] counting up to [len]. *)
Fixpoint init_loop (fuel : nat) (node : Slice) (idx : Z) : M Slots unit :=
  match fuel with
  | O => fun s => (s, NoFuel)
  | S fuel =>
      if idx <? len node then
        do! entry_set (slot_addr node idx) CapRaw_default in
        init_loop fuel node (idx + 1)
      else ret tt
  end.

(** [CNodeCap::init]. *)
Definition init (fuel : nat) (c : CapRef CNodeObj) : M Slots unit :=
  let! node := as_object c in init_loop fuel node 0.

(** [cnode_cap_well_formed]. *)
Definition cnode_cap_well_formed (c : CapRaw) : Prop :=
  cap_type c = CNode /\ raw_guard_bits c + raw_radix_bits c <= CNODE_DEPTH /\ paddr c <> 0.

End CNodeCap.

(** [MdbChainGhost::well_formed] and [acyclic]: the MDB links exactly [l]. *)
Definition mdb_chain (s : Slots) (l : list Z) : Prop := chain (links s) l.

(** ** Store-level lemmas *)

Lemma entry_write_next o v s :
  match o with
  | Some p => let! r := entry_get p in entry_set p (set_mdb_next v r)
  | None => ret tt
  end s = write_next o v s.
Proof.
  destruct o as [p|]; [|done]. unfold write_next, bind. destruct (s !! p) as [c|] eqn:E.
  - by rewrite (entry_get_some _ _ _ E), (entry_set_some _ _ _ _ E).
  - by rewrite (entry_get_none _ _ E).
Qed.

Lemma entry_write_prev o v s :
  match o with
  | Some p => let! r := entry_get p in entry_set p (set_mdb_prev v r)
  | None => ret tt
  end s = write_prev o v s.
Proof.
  destruct o as [p|]; [|done]. unfold write_prev, bind. destruct (s !! p) as [c|] eqn:E.
  - by rewrite (entry_get_some _ _ _ E), (entry_set_some _ _ _ _ E).
  - by rewrite (entry_get_none _ _ E).
Qed.

(** ** The MDB refines a list *)

Lemma mdb_insert_after_chain s l1 src l2 dst cd :
  mdb_chain s (l1 ++ src :: l2) -> dst ∉ l1 ++ src :: l2 -> s !! dst = Some cd ->
  exists s', CNodeEntry.mdb_insert_after src dst s = (s', Done tt) /\
    mdb_chain s' (l1 ++ src :: dst :: l2) /\ relinks (l1 ++ src :: dst :: l2) s s'.
Proof.
  intros Hch Hdst Hd. set (L := l1 ++ src :: dst :: l2).
  destruct (chain_store s _ src Hch) as [cs Hs]; [set_solver|].
  pose proof (chain_store_lookup _ _ _ _ _ Hch Hs) as Hl. injection Hl as _ Hnext.
  set (s1 := <[dst := set_mdb_next (mdb_next cs) (set_mdb_prev (Some src) cd)]> s).
  destruct (write_prev_run L s1 (head l2) (Some dst)) as (s2 & E2 & K2 & R2 & O2).
  { intros p Hp. edestruct chain_neighbours as (Hs' & Hin & ?); [exact Hch|by right|].
    split; [|set_solver]. subst s1. rewrite lookup_insert_ne; [done|set_solver]. }
  assert (Hs2 : s2 !! src = Some cs).
  { rewrite O2; [subst s1; rewrite lookup_insert_ne; [done|set_solver]|].
    intros E. edestruct chain_neighbours as (_ & _ & []); [exact Hch|right|]; done. }
  exists (<[src := set_mdb_next (Some dst) cs]> s2). split_and!.
  - unfold CNodeEntry.mdb_insert_after.
    rewrite (bind_done _ _ _ s cs) by by apply entry_get_some.
    rewrite (bind_done _ _ _ s cd) by by apply entry_get_some.
    rewrite (bind_done _ _ _ s1 tt) by by eapply entry_set_some.
    rewrite Hnext. rewrite (bind_done _ _ _ s2 tt) by by rewrite entry_write_prev.
    by eapply entry_set_some.
  - unfold mdb_chain. rewrite links_insert. change (link (set_mdb_next (Some dst) cs))
      with (fst (link cs), Some dst).
    rewrite <- (alter_links (fun pn => (pn.1, Some dst)) _ _ _ Hs2), K2. subst s1.
    rewrite links_insert. simpl. rewrite Hnext. by apply chain_link_after.
  - apply (relinks_trans _ _ s1); [eapply relinks_insert; [done|done|set_solver]|].
    apply (relinks_trans _ _ s2); [done|]. eapply relinks_insert; [done|done|set_solver].
Qed.

Lemma mdb_remove_chain s l1 x l2 :
  mdb_chain s (l1 ++ x :: l2) ->
  exists s', CNodeEntry.mdb_remove x s = (s', Done tt) /\
    mdb_chain s' (l1 ++ l2) /\ relinks (l1 ++ x :: l2) s s' /\
    s' !! x = payload <$> (s !! x).
Proof.
  intros Hch. destruct (chain_store s _ x Hch) as [c Hx]; [set_solver|].
  pose proof (chain_store_lookup _ _ _ _ _ Hch Hx) as Hl. injection Hl as Hp Hn.
  destruct (unlink_run _ _ _ _ _ Hch Hx) as (s1 & s2 & E1 & E2 & Hx2 & C & R).
  exists (<[x := payload c]> s2). split_and!; [|done|done|by rewrite lookup_insert_eq, Hx].
  unfold CNodeEntry.mdb_remove. rewrite (bind_done _ _ _ s c) by by apply entry_get_some.
  rewrite Hp, Hn. rewrite (bind_done _ _ _ s1 tt) by by rewrite entry_write_next.
  rewrite (bind_done _ _ _ s2 tt) by by rewrite entry_write_prev.
  by eapply entry_set_some.
Qed.

Lemma erase_payload c : payload (CNodeEntry.erase c) = CapRaw_default.
Proof. done. Qed.

Lemma revoke_loop_chain s l1 x l2 fuel :
  mdb_chain s (l1 ++ x :: l2) -> (length l2 < fuel)%nat ->
  exists s', CNodeEntry.revoke_loop fuel (head l2) s = (s', Done tt) /\
    mdb_chain s' (l1 ++ [x]) /\
    (forall a, a ∈ l2 -> s' !! a = Some CapRaw_default) /\
    (forall a, a ∉ l2 -> payload <$> (s' !! a) = payload <$> (s !! a)) /\
    (forall a, a ∉ l1 ++ x :: l2 -> s' !! a = s !! a).
Proof.
  revert s fuel. induction l2 as [|y l2 IH]; intros s [|fuel] Hch Hf; simpl in Hf; try lia.
  { exists s. split_and!; [done|done| |done|done]. set_solver. }
  pose proof Hch as [Hnd _].
  destruct (chain_store s _ y Hch) as [c Hy]; [set_solver|].
  pose proof (cons_middle x l1 (y :: l2)) as Eapp. rewrite app_assoc in Eapp.
  pose proof Hch as Hch'. rewrite Eapp in Hch'.
  pose proof (chain_store_lookup _ _ _ _ _ Hch' Hy) as Hl. injection Hl as _ Hn.
  set (s1 := <[y := CNodeEntry.erase c]> s).
  assert (Hch1 : mdb_chain s1 ((l1 ++ [x]) ++ y :: l2)).
  { unfold mdb_chain, s1. by rewrite (links_insert_same s y c). }
  destruct (mdb_remove_chain _ _ _ _ Hch1) as (s2 & E2 & C2 & [P2 O2] & L2).
  rewrite <- app_assoc in C2. simpl in C2.
  destruct (IH s2 fuel C2 ltac:(lia)) as (s' & E & C & N & P & O).
  rewrite Eapp in Hnd.
  assert (Hyl : (y ∉ l2) /\ (y ∉ l1 ++ [x])).
  { apply NoDup_app in Hnd as (_ & ? & ?%NoDup_cons). set_solver. }
  assert (Hs2y : s2 !! y = Some CapRaw_default).
  { rewrite L2. unfold s1. by rewrite lookup_insert_eq. }
  exists s'. split_and!.
  - simpl. rewrite (bind_done _ _ _ s c) by by apply entry_get_some.
    rewrite (bind_done _ _ _ s1 tt) by by eapply entry_set_some.
    rewrite (bind_done _ _ _ s2 tt) by done. by rewrite Hn.
  - done.
  - intros a [->|Ha]%elem_of_cons; [|by apply N]. rewrite O; [done|set_solver].
  - intros a Ha. rewrite P by set_solver. rewrite <- !lookup_fmap, P2.
    unfold s1. rewrite !lookup_fmap, lookup_insert_ne by set_solver. done.
  - intros a Ha. rewrite O by set_solver. rewrite O2 by set_solver.
    unfold s1. rewrite lookup_insert_ne by set_solver. done.
Qed.

Lemma revoke_chain s l1 x l2 fuel :
  mdb_chain s (l1 ++ x :: l2) -> (length l2 < fuel)%nat ->
  exists s', CNodeEntry.revoke fuel x s = (s', Done tt) /\
    mdb_chain s' (l1 ++ [x]) /\
    (forall a, a ∈ l2 -> s' !! a = Some CapRaw_default) /\
    (forall a, a ∉ l2 -> payload <$> (s' !! a) = payload <$> (s !! a)) /\
    (forall a, a ∉ l1 ++ x :: l2 -> s' !! a = s !! a).
Proof.
  intros Hch Hf. destruct (chain_store s _ x Hch) as [c Hx]; [set_solver|].
  pose proof (chain_store_lookup _ _ _ _ _ Hch Hx) as Hl. injection Hl as _ Hn.
  unfold CNodeEntry.revoke. rewrite (bind_done _ _ _ s c) by by apply entry_get_some.
  rewrite Hn. by apply revoke_loop_chain.
Qed.

(** ** CNode capabilities *)

Lemma land_mask6_range x : 0 <= Z.land x (Z.ones 6) < 64.
Proof. rewrite Z.land_ones by lia. by apply Z.mod_pos_bound. Qed.

(** Two 6-bit fields packed side by side are read back. *)
Lemma pack6 x y :
  0 <= x < 64 -> 0 <= y < 64 ->
  Z.land (Z.shiftr (Z.lor (shl64 x 0) (shl64 y 6)) 0) (Z.ones 6) = x /\
  Z.land (Z.shiftr (Z.lor (shl64 x 0) (shl64 y 6)) 6) (Z.ones 6) = y.
Proof.
  intros Hx Hy.
  assert (Hxh : forall i, 6 <= i -> Z.testbit x i = false)
    by (intros; apply (testbit_above x 6); lia).
  assert (Hyh : forall i, 6 <= i -> Z.testbit y i = false)
    by (intros; apply (testbit_above y 6); lia).
  unfold shl64. split; apply Z.bits_inj'; intros i Hi; autorewrite with testbit.
  - rewrite !Z.add_0_r, !Z.sub_0_r. destruct (Z.ltb_spec i 6).
    + rewrite (proj2 (Z.ltb_lt i 64)), (Z.testbit_neg_r y) by lia. simpl.
      by rewrite orb_false_r, andb_true_r.
    + by rewrite andb_false_r, Hxh.
  - replace (i + 6 - 6) with i by lia. destruct (Z.ltb_spec i 6).
    + rewrite Hxh, (proj2 (Z.ltb_lt (i + 6) 64)) by lia. simpl. by rewrite andb_true_r.
    + by rewrite andb_false_r, Hyh.
Qed.

Lemma mint_run {S} (s : S) addr radix guard_b guard_v rights_v :
  Z.land radix (Z.ones 6) + Z.land guard_b (Z.ones 6) <= 32 ->
  exists c, CNodeCap.mint addr radix guard_b guard_v rights_v s = (s, Done c) /\
    cap_type c = CNode /\ paddr c = addr /\ arg2 c = guard_v /\ rights c = rights_v /\
    CNodeCap.raw_radix_bits c = Z.land radix (Z.ones 6) /\
    CNodeCap.raw_guard_bits c = Z.land guard_b (Z.ones 6) /\ CNodeEntry.mdb_isolated c.
Proof.
  intros H. eexists. unfold CNodeCap.mint, assertM.
  change (CNodeCap.mask_ CNodeCap.RADIX_BITS) with (Z.ones 6).
  change (CNodeCap.mask_ CNodeCap.GUARD_BITS) with (Z.ones 6). rewrite (proj2 (Z.leb_le _ _)) by done. split; [done|].
  destruct (pack6 (Z.land guard_b (Z.ones 6)) (Z.land radix (Z.ones 6))) as [Hg Hr];
    try apply land_mask6_range.
  unfold CNodeCap.raw_guard_bits, CNodeCap.raw_radix_bits.
  change (CNodeCap.mask_ CNodeCap.RADIX_BITS) with (Z.ones 6).
  change (CNodeCap.mask_ CNodeCap.GUARD_BITS) with (Z.ones 6).
  split_and!; try done.
Qed.

Lemma mint_panics {S} (s : S) addr radix guard_b guard_v rights_v :
  32 < Z.land radix (Z.ones 6) + Z.land guard_b (Z.ones 6) ->
  CNodeCap.mint addr radix guard_b guard_v rights_v s = (s, Panic).
Proof.
  intros H. unfold CNodeCap.mint, assertM.
  change (CNodeCap.mask_ CNodeCap.RADIX_BITS) with (Z.ones 6).
  change (CNodeCap.mask_ CNodeCap.GUARD_BITS) with (Z.ones 6).
  by rewrite (proj2 (Z.leb_gt _ _)).
Qed.

Lemma init_loop_run s node idx fuel :
  0 <= idx -> (Z.to_nat (CNodeCap.len node - idx) < fuel)%nat ->
  (forall i, idx <= i < CNodeCap.len node -> is_Some (s !! CNodeCap.slot_addr node i)) ->
  exists s', CNodeCap.init_loop fuel node idx s = (s', Done tt) /\
    (forall i, idx <= i < CNodeCap.len node ->
       s' !! CNodeCap.slot_addr node i = Some CapRaw_default) /\
    (forall a, (forall i, idx <= i < CNodeCap.len node -> a <> CNodeCap.slot_addr node i) ->
       s' !! a = s !! a).
Proof.
  revert s idx. induction fuel as [|fuel IH]; intros s idx Hi Hf Hs; [lia|]. simpl.
  destruct (Z.ltb_spec idx (CNodeCap.len node)) as [Hlt|Hge].
  2: { exists s. split_and!; [done|lia|done]. }
  destruct (Hs idx) as [c Hc]; [lia|].
  set (s1 := <[CNodeCap.slot_addr node idx := CapRaw_default]> s).
  destruct (IH s1 (idx + 1)) as (s' & E & N & O); [lia|lia| |].
  { intros i Hi'. unfold s1. rewrite lookup_insert. case_decide; [by eexists|]. apply Hs. lia. }
  exists s'. split_and!.
  - rewrite (bind_done _ _ _ s1 tt); [done|by eapply entry_set_some].
  - intros i Hi'. destruct (Z.eq_dec i idx) as [->|]; [|apply N; lia].
    rewrite O; [by unfold s1; rewrite lookup_insert_eq|].
    intros j Hj. unfold CNodeCap.slot_addr, CNODE_ENTRY_SZ. lia.
  - intros a Ha. rewrite O; [unfold s1; rewrite lookup_insert_ne; [done|]|].
    + intros E'. by eapply (Ha idx); [lia|].
    + intros i Hi'. apply Ha. lia.
Qed.

(** ** Concrete entries *)

(** Three capabilities in the mapping database, 64 before 128 before 192, and a
    fourth one outside it. *)
Definition demo_entry (prev next : option Z) : CapRaw :=
  set_mdb_next next (set_mdb_prev prev (default_with_type Frame)).
Definition demo_mdb : Slots :=
  <[64 := demo_entry None (Some 128)]> (<[128 := demo_entry (Some 64) (Some 192)]>
    (<[192 := demo_entry (Some 128) None]> {[256 := demo_entry None None]})).

Lemma demo_mdb_chain : mdb_chain demo_mdb [64; 128; 192].
Proof. split; [apply (bool_decide_unpack _); vm_compute; exact I|]. by split_and!. Qed.

(** [CNodeCap::mint] either panics, exactly when the radix and guard sizes (modulo 64) exceed
    32 bits together, or returns an isolated CNode capability from which radix, guard size, guard,
    address and rights read back. *)
Lemma mint_cases {S} (s : S) addr radix guard_b guard_v rights_v :
  (32 < radix mod 64 + guard_b mod 64 /\
   CNodeCap.mint addr radix guard_b guard_v rights_v s = (s, Panic)) \/
  (radix mod 64 + guard_b mod 64 <= 32 /\
   exists c, CNodeCap.mint addr radix guard_b guard_v rights_v s = (s, Done c) /\
    cap_type c = CNode /\ paddr c = addr /\ arg2 c = guard_v /\ rights c = rights_v /\
    CNodeCap.raw_radix_bits c = radix mod 64 /\
    CNodeCap.raw_guard_bits c = guard_b mod 64 /\ CNodeEntry.mdb_isolated c).
Proof.
  change 64 with (2 ^ 6). rewrite <- !Z.land_ones by lia.
  destruct (Z.lt_ge_cases 32 (Z.land radix (Z.ones 6) + Z.land guard_b (Z.ones 6))) as [H|H].
  - left. split; [done|by apply mint_panics].
  - right. split; [done|]. by apply mint_run.
Qed.

(** ** The properties *)

Module Claims.

(** C20: the mapping database is a list.  When it links the entries [l1 ++ x :: l2], in order and
    without cycle, [mdb_insert_after] puts a new entry right behind its source [x], and
    [mdb_remove] takes exactly [x] out, wherever it is, and leaves it isolated; the other entries
    keep their order, and nothing but the links of these entries has changed. *)
Theorem mdb_refines_list s l1 x l2 :
  mdb_chain s (l1 ++ x :: l2) ->
  (forall dst cd, dst ∉ l1 ++ x :: l2 -> s !! dst = Some cd ->
     exists s', CNodeEntry.mdb_insert_after x dst s = (s', Done tt) /\
       mdb_chain s' (l1 ++ x :: dst :: l2) /\ relinks (l1 ++ x :: dst :: l2) s s') /\
  (exists s', CNodeEntry.mdb_remove x s = (s', Done tt) /\
     mdb_chain s' (l1 ++ l2) /\ relinks (l1 ++ x :: l2) s s' /\
     s' !! x = payload <$> (s !! x)).
Proof.
  intros Hc. split; [|by apply mdb_remove_chain].
  intros dst cd Hn Hd. by eapply mdb_insert_after_chain.
Qed.

(** C2: on a mapping database that is a well-formed chain, [revoke] terminates within one iteration per entry behind the revoked one (and one more),
    turns each of them into the null capability, unlinks them all, and leaves the content of every
    other entry and the links of the entries outside the database as they were. *)
Theorem revoke_erases_descendants s l1 x l2 fuel :
  mdb_chain s (l1 ++ x :: l2) -> (length l2 < fuel)%nat ->
  exists s', CNodeEntry.revoke fuel x s = (s', Done tt) /\
    mdb_chain s' (l1 ++ [x]) /\
    (forall a, a ∈ l2 -> s' !! a = Some CapRaw_default) /\
    (forall a, a ∉ l2 -> payload <$> (s' !! a) = payload <$> (s !! a)) /\
    (forall a, a ∉ l1 ++ x :: l2 -> s' !! a = s !! a).
Proof. apply revoke_chain. Qed.

(** [CNodeCap::init] terminates within one iteration per slot (and one more), makes every slot
    of the CNode the null capability and changes no other entry. *)
Lemma cnode_init_clears s c r fuel :
  s !! raw c = Some r ->
  (Z.to_nat (2 ^ CNodeCap.raw_radix_bits r) < fuel)%nat ->
  (forall i, 0 <= i < 2 ^ CNodeCap.raw_radix_bits r -> is_Some (s !! (paddr r + i * CNODE_ENTRY_SZ))) ->
  exists s', CNodeCap.init fuel c s = (s', Done tt) /\
    (forall i, 0 <= i < 2 ^ CNodeCap.raw_radix_bits r ->
       s' !! (paddr r + i * CNODE_ENTRY_SZ) = Some CapRaw_default) /\
    (forall a, (forall i, 0 <= i < 2 ^ CNodeCap.raw_radix_bits r -> a <> paddr r + i * CNODE_ENTRY_SZ) ->
       s' !! a = s !! a).
Proof.
  intros Hr Hf Hs. unfold CNodeCap.init.
  assert (Hb : 0 <= CNodeCap.raw_radix_bits r < 64)
    by (unfold CNodeCap.raw_radix_bits; change (CNodeCap.mask_ CNodeCap.RADIX_BITS) with (Z.ones 6);
        apply land_mask6_range).
  rewrite (bind_done _ _ _ s (CNodeCap.mkSlice (paddr r) (2 ^ CNodeCap.raw_radix_bits r))).
  - apply (init_loop_run s (CNodeCap.mkSlice (paddr r) (2 ^ CNodeCap.raw_radix_bits r)) 0 fuel); [lia| |done].
    cbn [CNodeCap.len]. lia.
  - unfold CNodeCap.as_object. rewrite (bind_done _ _ _ s r) by by apply entry_get_some.
    by rewrite bit_pow.
Qed.

(** *** Witnesses *)

Lemma mdb_refines_list_witness :
  (exists s', CNodeEntry.mdb_insert_after 128 256 demo_mdb = (s', Done tt) /\ mdb_chain s' [64; 128; 256; 192]) /\
  (exists s', CNodeEntry.mdb_remove 128 demo_mdb = (s', Done tt) /\ mdb_chain s' [64; 192]).
Proof.
  destruct (mdb_refines_list demo_mdb [64] 128 [192] demo_mdb_chain) as [Hi (s' & E & C & _)].
  split; [|by exists s'].
  destruct (Hi 256 (demo_entry None None)) as (s2 & E2 & C2 & _); [set_solver|reflexivity|]. by exists s2.
Defined.

Lemma revoke_erases_descendants_witness :
  exists s', CNodeEntry.revoke 3 64 demo_mdb = (s', Done tt) /\ mdb_chain s' [64] /\
    s' !! 192 = Some CapRaw_default.
Proof.
  destruct (revoke_erases_descendants demo_mdb [] 64 [128; 192] 3 demo_mdb_chain) as (s' & E & C & N & _);
    [simpl; lia|]. exists s'. split_and!; [exact E|exact C|]. apply N. set_solver.
Defined.

End Claims.
