(* ===== verification/Tcb.v ===== *)
(** Thread control blocks: [src/kernel/src/objects/tcb.rs] and the trap frame
    of [src/kernel/src/arch/x86_64/trapframe.rs].

    TCBs live in one store, a finite map from the TCB's address; endpoint queues
    are threaded through [ep_prev]/[ep_next] (see [Dll]).  The entries embedded
    in a TCB ([fault_ep], [ipc_buffer], [cspace_root], [vspace_root]) are kept by
    value; the class [TcbLayout] is the address of the root entry, which depends on the layout that the
    compiler chooses for the structure.  [TrapFrame::restore] is assembly and ends in [iretq]; the scheduler
    model records which thread is resumed instead. *)
From S2P Require Import Prelude Caps Dll CNode.

(** ** Trap frame *)

(** [REGISTERS_SIZE]. *)
Definition REGISTERS_SIZE : Z := 15.

(** [struct TrapFrame]. *)
Record TrapFrame : Type := mkTrapFrame {
  registers : list Z;
  error_code : Z;
  rip : Z;
  cs : Z;
  rflags : Z;
  rsp : Z;
  ss : Z
}.

Module TrapFrameImpl.

(** [TrapFrame::new]: all zero. *)
Definition new : TrapFrame :=
  mkTrapFrame (replicate (Z.to_nat REGISTERS_SIZE) 0) 0 0 0 0 0 0.

(** The condition of the [debug_assert!] of [get_mr] and [set_mr]. *)
Definition mr_in_bounds (idx : Z) : bool := (0 <? idx) && (idx <? REGISTERS_SIZE).

(** [TrapFrame::get_mr]. *)
Definition get_mr `{Build} {S} (f : TrapFrame) (idx : Z) : M S Z :=
  do! debug_assert (mr_in_bounds idx) in
  unwrap_or_panic (registers f !! Z.to_nat idx).

(** [TrapFrame::set_mr]. *)
Definition set_mr `{Build} {S} (f : TrapFrame) (idx mr : Z) : M S TrapFrame :=
  do! debug_assert (mr_in_bounds idx) in
  if idx <? Z.of_nat (length (registers f)) then
    ret (mkTrapFrame (<[Z.to_nat idx := mr]> (registers f)) (error_code f) (rip f) (cs f)
          (rflags f) (rsp f) (ss f))
  else panic.

End TrapFrameImpl.

(** ** Thread control block *)

(** [struct IpcState]. *)
Record IpcState : Type := mkIpcState {
  badge : Z;
  can_grant : bool;
  can_grant_reply : bool;
  is_call : bool
}.

(** [enum ThreadState]. *)
Inductive ThreadState : Type :=
| Inactive | Ready | Running | Restart | BlockedOnReceive | BlockedOnSend
| BlockedOnReply | BlockedOnNotification | RunningVm | IdleT.

#[export] Instance ThreadState_eq_dec : EqDecision ThreadState.
Proof. solve_decision. Defined.

(** [enum Fault]. *)
Inductive Fault : Type :=
| Fault_Cap (address : Z) (in_receive_phase : bool)
| Fault_UnknownSyscall (syscall_number : Z)
| Fault_UserException (number code : Z)
| Fault_Timeout (fbadge : Z)
| Fault_DebugException (exception_reason breakpoint_address breakpoint_number : Z)
| Fault_Unknown (fault_type_raw : Z).

(** [struct SchedContext]. *)
Record SchedContext : Type := mkSchedContext {
  ticks : Z;
  ticks_consumed : Z;
  deadline : Z;
  thread : Z
}.

(** [struct Tcb]. *)
Record Tcb : Type := mkTcb {
  context : TrapFrame;
  notification : Z;
  fault : option Fault;
  fault_ep : CapRaw;
  sched_context : option Z;
  ipc_buffer : CapRaw;
  cspace_root : CapRaw;
  vspace_root : CapRaw;
  state : ThreadState;
  ep_next : option Z;
  ep_prev : option Z;
  blocking_object : option Z;
  ipc_state : IpcState;
  reply_to : option Z;
  caller : option Z
}.

Definition set_context (v : TrapFrame) (t : Tcb) : Tcb :=
  mkTcb v (notification t) (fault t) (fault_ep t) (sched_context t) (ipc_buffer t)
    (cspace_root t) (vspace_root t) (state t) (ep_next t) (ep_prev t) (blocking_object t)
    (ipc_state t) (reply_to t) (caller t).
Definition set_state (v : ThreadState) (t : Tcb) : Tcb :=
  mkTcb (context t) (notification t) (fault t) (fault_ep t) (sched_context t) (ipc_buffer t)
    (cspace_root t) (vspace_root t) v (ep_next t) (ep_prev t) (blocking_object t)
    (ipc_state t) (reply_to t) (caller t).
Definition set_ep_next (v : option Z) (t : Tcb) : Tcb :=
  mkTcb (context t) (notification t) (fault t) (fault_ep t) (sched_context t) (ipc_buffer t)
    (cspace_root t) (vspace_root t) (state t) v (ep_prev t) (blocking_object t)
    (ipc_state t) (reply_to t) (caller t).
Definition set_ep_prev (v : option Z) (t : Tcb) : Tcb :=
  mkTcb (context t) (notification t) (fault t) (fault_ep t) (sched_context t) (ipc_buffer t)
    (cspace_root t) (vspace_root t) (state t) (ep_next t) v (blocking_object t)
    (ipc_state t) (reply_to t) (caller t).
Definition set_blocking_object (v : option Z) (t : Tcb) : Tcb :=
  mkTcb (context t) (notification t) (fault t) (fault_ep t) (sched_context t) (ipc_buffer t)
    (cspace_root t) (vspace_root t) (state t) (ep_next t) (ep_prev t) v
    (ipc_state t) (reply_to t) (caller t).
Definition set_ipc_state (v : IpcState) (t : Tcb) : Tcb :=
  mkTcb (context t) (notification t) (fault t) (fault_ep t) (sched_context t) (ipc_buffer t)
    (cspace_root t) (vspace_root t) (state t) (ep_next t) (ep_prev t) (blocking_object t)
    v (reply_to t) (caller t).
Definition set_reply_to (v : option Z) (t : Tcb) : Tcb :=
  mkTcb (context t) (notification t) (fault t) (fault_ep t) (sched_context t) (ipc_buffer t)
    (cspace_root t) (vspace_root t) (state t) (ep_next t) (ep_prev t) (blocking_object t)
    (ipc_state t) v (caller t).
Definition set_caller (v : option Z) (t : Tcb) : Tcb :=
  mkTcb (context t) (notification t) (fault t) (fault_ep t) (sched_context t) (ipc_buffer t)
    (cspace_root t) (vspace_root t) (state t) (ep_next t) (ep_prev t) (blocking_object t)
    (ipc_state t) (reply_to t) v.

#[export] Instance Tcb_linked : Linked Tcb :=
  {| link t := (ep_prev t, ep_next t); set_prev := set_ep_prev; set_next := set_ep_next |}.

#[export] Instance Tcb_linked_laws : LinkedLaws Tcb.
Proof. by split. Qed.

(** The address of the field [cspace_root] of the TCB at an address.  [Tcb] is [repr(C)], but it
    has fields whose layout the compiler chooses ([Option<Fault>]). *)
Class TcbLayout : Type := cspace_root_addr : Z -> Z.

Module TcbImpl.

(** [Tcb::new]. *)
Definition new : Tcb :=
  mkTcb TrapFrameImpl.new 0 None CNodeEntry.new None CNodeEntry.new CNodeEntry.new
    CNodeEntry.new Running None None None (mkIpcState 0 false false false) None None.

(** The message registers, as indices of the trap frame. *)
Definition MR1 : Z := 0.
Definition MR2 : Z := 1.
Definition MR3 : Z := 9.
Definition MR4 : Z := 10.
Definition MR5 : Z := 11.
Definition MR6 : Z := 12.

(** [Tcb::get_mr]. *)
Definition get_mr `{Build} {S} (t : Tcb) (idx : Z) : M S Z :=
  TrapFrameImpl.get_mr (context t) idx.

(** [Tcb::set_mr]. *)
Definition set_mr `{Build} {S} (t : Tcb) (idx mr : Z) : M S Tcb :=
  let! f := TrapFrameImpl.set_mr (context t) idx mr in ret (set_context f t).

End TcbImpl.

Module TcbCap.

(** [TcbCap::mint]. *)
Definition mint (paddr_v : Z) : CapRaw := set_paddr paddr_v (default_with_type Tcb_).

(** [TcbCap::identify]: the updated TCB and the number of registers. *)
Definition identify `{Build} {S} (c : CapRef TcbObj) (t : Tcb) : M S (Tcb * Z) :=
  let! t := TcbImpl.set_mr t TcbImpl.MR1 (obj_type_as_usize (ref_cap_type c)) in
  ret (t, 1).

End TcbCap.

(** ** Endpoint queues *)

(** The store of TCBs, by address. *)
Abbreviation Tcbs := (gmap Z Tcb).

Definition tcb_get (a : Z) : M Tcbs Tcb := fun s => deref (s !! a) s.

(** A field assignment through a TCB pointer: a read-modify-write of one TCB. *)
Definition tcb_upd (a : Z) (f : Tcb -> Tcb) : M Tcbs unit := fun s =>
  match s !! a with
  | Some t => (<[a := f t]> s, Done tt)
  | None => (s, Undef)
  end.

(** [struct TcbQueue]. *)
Record TcbQueue : Type := mkQueue { q_head : option Z; q_tail : option Z }.

Module TcbQueueImpl.

(** [TcbQueue::new]. *)
Definition new : TcbQueue := mkQueue None None.

(** [TcbQueue::is_empty]. *)
Definition is_empty (q : TcbQueue) : bool := match q_head q with None => true | _ => false end.

(** [TcbQueue::append]. *)
Definition append (q : TcbQueue) (tcb : Z) : M Tcbs TcbQueue :=
  do! tcb_upd tcb (set_ep_next None) in
  do! tcb_upd tcb (set_ep_prev (q_tail q)) in
  match q_tail q with
  | Some tail =>
      do! tcb_upd tail (set_ep_next (Some tcb)) in
      ret (mkQueue (q_head q) (Some tcb))
  | None => ret (mkQueue (Some tcb) (Some tcb))
  end.

(** [TcbQueue::dequeue_head]. *)
Definition dequeue_head (q : TcbQueue) : M Tcbs (TcbQueue * option Z) :=
  match q_head q with
  | None => ret (q, None)
  | Some head =>
      let! h := tcb_get head in
      let! q' := match ep_next h with
                 | Some new_head =>
                     do! tcb_upd new_head (set_ep_prev None) in
                     ret (mkQueue (Some new_head) (q_tail q))
                 | None => ret (mkQueue None None)
                 end in
      do! tcb_upd head (set_ep_next None) in
      do! tcb_upd head (set_ep_prev None) in
      ret (q', Some head)
  end.

(** [TcbQueue::remove]. *)
Definition remove (q : TcbQueue) (tcb : Z) : M Tcbs TcbQueue :=
  let! t := tcb_get tcb in
  let prev := ep_prev t in
  let next := ep_next t in
  let! q := match prev with
            | Some prev_ptr => do! tcb_upd prev_ptr (set_ep_next next) in ret q
            | None => ret (mkQueue next (q_tail q))
            end in
  let! q := match next with
            | Some next_ptr => do! tcb_upd next_ptr (set_ep_prev prev) in ret q
            | None => ret (mkQueue (q_head q) prev)
            end in
  do! tcb_upd tcb (set_ep_next None) in
  do! tcb_upd tcb (set_ep_prev None) in
  ret q.

End TcbQueueImpl.

(** The queue [q] holds the threads [l], first to last. *)
Definition queue_of (s : Tcbs) (q : TcbQueue) (l : list Z) : Prop :=
  chain (links s) l /\ q_head q = head l /\ q_tail q = last l.

(** ** Store-level lemmas *)

Lemma tcb_upd_some s a f t : s !! a = Some t -> tcb_upd a f s = (<[a := f t]> s, Done tt).
Proof. intros H. unfold tcb_upd. by rewrite H. Qed.

Lemma tcb_get_some s a t : s !! a = Some t -> tcb_get a s = (s, Done t).
Proof. intros H. unfold tcb_get. by rewrite H. Qed.

Lemma tcb_upd_next a v s : tcb_upd a (set_ep_next v) s = write_next (Some a) v s.
Proof. done. Qed.

Lemma tcb_upd_prev a v s : tcb_upd a (set_ep_prev v) s = write_prev (Some a) v s.
Proof. done. Qed.

(** The queue pointers of a TCB are written last, one after the other. *)
Lemma clear_links_run {B} s a t (k : M Tcbs B) :
  s !! a = Some t ->
  (do! tcb_upd a (set_ep_next None) in do! tcb_upd a (set_ep_prev None) in k) s =
  k (<[a := payload t]> s).
Proof.
  intros H. rewrite (bind_done _ _ _ (<[a := set_ep_next None t]> s) tt)
    by by apply tcb_upd_some.
  rewrite (bind_done _ _ _ (<[a := payload t]> s) tt); [done|].
  rewrite (tcb_upd_some _ _ _ (set_ep_next None t)) by by rewrite lookup_insert_eq.
  by rewrite insert_insert_eq.
Qed.

(** ** The queue refines a list *)

Lemma append_queue s q l tcb t :
  queue_of s q l -> tcb ∉ l -> s !! tcb = Some t ->
  exists s' q', TcbQueueImpl.append q tcb s = (s', Done q') /\
    queue_of s' q' (l ++ [tcb]) /\ relinks (l ++ [tcb]) s s'.
Proof.
  intros (Hch & Hh & Ht) Hn Hs. set (t1 := set_ep_prev (q_tail q) (set_ep_next None t)).
  set (s1 := <[tcb := t1]> s).
  destruct (write_next_run (l ++ [tcb]) s1 (last l) (Some tcb)) as (s2 & E2 & K2 & R2 & O2).
  { intros p Hp%last_elem. split; [|set_solver]. unfold s1.
    destruct (chain_store s _ p Hch Hp) as [tp Htp].
    rewrite lookup_insert_ne; [by eexists|set_solver]. }
  assert (HR : relinks (l ++ [tcb]) s s2).
  { apply (relinks_trans _ _ s1); [eapply relinks_insert; [done|done|set_solver]|done]. }
  assert (HC : chain (links s2) (l ++ [tcb])).
  { rewrite K2. unfold s1. rewrite links_insert. simpl. rewrite Ht. by apply chain_link_last. }
  assert (E1 : forall k : M Tcbs TcbQueue,
    (do! tcb_upd tcb (set_ep_next None) in do! tcb_upd tcb (set_ep_prev (q_tail q)) in k) s
    = k s1).
  { intros k. rewrite (bind_done _ _ _ (<[tcb := set_ep_next None t]> s) tt)
      by by apply tcb_upd_some.
    rewrite (bind_done _ _ _ s1 tt); [done|].
    rewrite (tcb_upd_some _ _ _ (set_ep_next None t)) by by rewrite lookup_insert_eq.
    by rewrite insert_insert_eq. }
  unfold TcbQueueImpl.append. rewrite E1. destruct (q_tail q) as [tl|] eqn:Eq.
  - rewrite <- Ht in E2. eexists _, _.
    rewrite (bind_done _ _ _ s2 tt) by by rewrite tcb_upd_next.
    unfold queue_of. split_and!; [done|done|simpl|by rewrite last_snoc|done].
    rewrite Hh. by destruct l.
  - symmetry in Ht. apply last_None in Ht as ->. simpl in E2. injection E2 as <-.
    eexists _, _. unfold queue_of. split_and!; [done|done|done|done|done].
Qed.

Lemma dequeue_head_queue s q x l :
  queue_of s q (x :: l) ->
  exists s' q', TcbQueueImpl.dequeue_head q s = (s', Done (q', Some x)) /\
    queue_of s' q' l /\ relinks (x :: l) s s' /\ s' !! x = payload <$> (s !! x).
Proof.
  intros (Hch & Hh & Ht). destruct (chain_store s _ x Hch) as [t Hx]; [set_solver|].
  pose proof (chain_store_lookup s [] x l t Hch Hx) as Hl. injection Hl as _ Hn.
  destruct (unlink_run s [] x l t Hch Hx) as (s1 & s2 & E1 & E2 & Hx2 & C & R).
  simpl in E1. injection E1 as <-.
  unfold TcbQueueImpl.dequeue_head. rewrite Hh. simpl.
  rewrite (bind_done _ _ _ s t) by by apply tcb_get_some. rewrite Hn.
  destruct l as [|y l]; simpl in E2.
  - injection E2 as <-. rewrite (bind_done _ _ _ s (mkQueue None None)) by done.
    rewrite (clear_links_run _ _ _ _ Hx2). eexists _, _. unfold queue_of.
    split_and!; [done|done|done|done|done|by rewrite lookup_insert_eq, Hx].
  - simpl. rewrite (bind_done _ _ _ s2 (mkQueue (Some y) (q_tail q))).
    2: { by rewrite (bind_done _ _ _ s2 tt) by by rewrite tcb_upd_prev. }
    rewrite (clear_links_run _ _ _ _ Hx2). eexists _, _. unfold queue_of.
    split_and!; [done|done|done| |done|by rewrite lookup_insert_eq, Hx].
    simpl. by rewrite Ht.
Qed.

Lemma dequeue_head_empty s q :
  queue_of s q [] -> TcbQueueImpl.dequeue_head q s = (s, Done (q, None)).
Proof. intros (_ & Hh & _). unfold TcbQueueImpl.dequeue_head. by rewrite Hh. Qed.

Lemma remove_queue s q l1 x l2 :
  queue_of s q (l1 ++ x :: l2) ->
  exists s' q', TcbQueueImpl.remove q x s = (s', Done q') /\
    queue_of s' q' (l1 ++ l2) /\ relinks (l1 ++ x :: l2) s s' /\
    s' !! x = payload <$> (s !! x).
Proof.
  intros (Hch & Hh & Ht). destruct (chain_store s _ x Hch) as [t Hx]; [set_solver|].
  pose proof (chain_store_lookup s l1 x l2 t Hch Hx) as Hl. injection Hl as Hp Hn.
  destruct (unlink_run s l1 x l2 t Hch Hx) as (s1 & s2 & E1 & E2 & Hx2 & C & R).
  set (q1 := if last l1 is Some _ then q else mkQueue (head l2) (q_tail q)).
  set (q2 := if head l2 is Some _ then q1 else mkQueue (q_head q1) (last l1)).
  exists (<[x := payload t]> s2), q2. split_and!.
  - unfold TcbQueueImpl.remove. rewrite (bind_done _ _ _ s t) by by apply tcb_get_some.
    rewrite Hp, Hn. rewrite (bind_done _ _ _ s1 q1).
    2: { unfold q1. destruct (last l1) as [p|]; [|by injection E1 as <-].
         by rewrite (bind_done _ _ _ s1 tt) by by rewrite tcb_upd_next. }
    rewrite (bind_done _ _ _ s2 q2).
    2: { unfold q2. destruct (head l2) as [p|]; [|by injection E2 as <-].
         by rewrite (bind_done _ _ _ s2 tt) by by rewrite tcb_upd_prev. }
    by rewrite (clear_links_run _ _ _ _ Hx2).
  - split_and!; [done| |].
    + unfold q2, q1. destruct l1 as [|a l1], (head l2) eqn:El; simpl in *; try done.
      all: try (destruct (last (a :: l1)) eqn:E; [|by apply last_None in E]); done.
    + unfold q2, q1. rewrite last_app in *. simpl in Ht.
      destruct l2 as [|b l2]; simpl; [by destruct (last l1)|].
      rewrite Ht. destruct (last l1); simpl; rewrite ?Ht; done.
  - done.
  - by rewrite lookup_insert_eq, Hx.
Qed.

(** ** The properties *)

(** Two queued threads and a third one. *)
Definition queued_tcbs : Tcbs :=
  <[1024 := set_ep_next (Some 2048) TcbImpl.new]> (<[2048 := set_ep_prev (Some 1024) TcbImpl.new]>
    {[3072 := TcbImpl.new]}).

Lemma queued_queue : queue_of queued_tcbs (mkQueue (Some 1024) (Some 2048)) [1024; 2048].
Proof. split_and!; [|done|done]. split; [apply (bool_decide_unpack _); vm_compute; exact I|]. by split_and!. Qed.

Module Claims.

(** C18: the intrusive thread queue is a FIFO list: on a queue that holds [l], [append] of a thread
    that is not in it gives [l ++ [x]], [dequeue_head] returns the first thread and leaves the
    rest ([None] and no change when empty), and [remove] takes out a thread at any position; the
    threads taken out have no links left and nothing but links changes in any thread. *)
Theorem queue_refines_list s q l :
  queue_of s q l ->
  (forall x t, x ∉ l -> s !! x = Some t ->
     exists s' q', TcbQueueImpl.append q x s = (s', Done q') /\
       queue_of s' q' (l ++ [x]) /\ relinks (l ++ [x]) s s') /\
  match l with
  | [] => TcbQueueImpl.dequeue_head q s = (s, Done (q, None))
  | x :: l' => exists s' q', TcbQueueImpl.dequeue_head q s = (s', Done (q', Some x)) /\
      queue_of s' q' l' /\ relinks l s s' /\ s' !! x = payload <$> (s !! x)
  end /\
  (forall l1 x l2, l = l1 ++ x :: l2 ->
     exists s' q', TcbQueueImpl.remove q x s = (s', Done q') /\
       queue_of s' q' (l1 ++ l2) /\ relinks l s s' /\ s' !! x = payload <$> (s !! x)).
Proof.
  intros Hq. split_and!.
  - intros x t Hx Ht. by apply (append_queue s q l x t).
  - destruct l as [|x l]; [by apply dequeue_head_empty|by apply dequeue_head_queue].
  - intros l1 x l2 ->. by apply remove_queue.
Qed.

Lemma queue_refines_list_witness :
  exists s' q', TcbQueueImpl.append (mkQueue (Some 1024) (Some 2048)) 3072 queued_tcbs = (s', Done q') /\
    queue_of s' q' [1024; 2048; 3072].
Proof.
  destruct (queue_refines_list queued_tcbs (mkQueue (Some 1024) (Some 2048)) [1024; 2048] queued_queue) as (A & _).
  destruct (A 3072 TcbImpl.new) as (s' & q' & E & Q & _); [set_solver|reflexivity|].
  exists s', q'. by split.
Defined.
End Claims.
