(* ===== verification/CSpace.v ===== *)
(** Capability-space lookup: [src/kernel/src/cspace.rs].

    [resolve_internal] walks a tree of CNodes, each consuming a guard and a
    radix index from the most significant end of a capability pointer.  The
    model is the loop of the code with its word arithmetic; [resolves] is the
    specification, a relation on the list of bits still to be consumed, and the
    lemmas show that the loop computes exactly that relation.

    Fuel: a step either ends the loop or consumes [level_bits] bits, so
    [n_bits + 1] iterations are enough as soon as no CNode consumes zero bits.
    The dev profile checks that with a [debug_assert!]; the release profile does
    not, and a CNode with neither radix nor guard that leads back to itself then
    loops forever ([zero_level_diverges]). *)
From S2P Require Import Prelude Errors Caps Dll CNode Tcb.

Definition WORD_BITS : Z := 64.
Definition WORD_RADIX : Z := 6.

(** [struct ResolveResult]. *)
Record ResolveResult : Type := mkResolve { slot : Z; bits_remaining : Z }.

(** [struct CSpace]: the address of the root entry. *)
Record CSpace : Type := mkCSpace { root : Z }.

Module CSpaceImpl.

(** [CSpace::new]. *)
Definition new (root_entry : Z) : M Slots (result CSpace SysError) :=
  let! r := entry_get root_entry in
  if decide (cap_type r <> CNode) then ret (Err CSpaceNotFound)
  else ret (Ok (mkCSpace root_entry)).

(** [CSpace::from_tcb], of the TCB at the address [tcb]. *)
Definition from_tcb `{TcbLayout} (tcb : Z) : M Slots (result CSpace SysError) :=
  new (cspace_root_addr tcb).

(** The [loop] of [CSpace::resolve_internal]. *)
Fixpoint resolve_loop `{Build} (fuel : nat) (cptr current n_bits : Z)
  : M Slots (result ResolveResult SysError) :=
  match fuel with
  | O => fun s => (s, NoFuel)
  | S fuel =>
      let! ocap := CNodeCap.try_from_slot current in
      match ocap with
      | None => ret (Err CSpaceNotFound)
      | Some cap =>
          let! radix_bits := CNodeCap.radix_bits cap in
          let! guard_bits := CNodeCap.guard_bits cap in
          let level_bits := radix_bits + guard_bits in
          do! debug_assert (negb (level_bits =? 0)) in
          let shift := Z.land (wrap (n_bits - guard_bits)) (mask WORD_RADIX) in
          let guard := if guard_bits =? 0 then 0
                       else Z.land (Z.shiftr cptr shift) (mask guard_bits) in
          let! cap_guard := CNodeCap.guard cap in
          if (n_bits <? guard_bits) || negb (guard =? cap_guard) then ret (Err LookupError)
          else if n_bits <? level_bits then ret (Err LookupError)
          else
            let! index := (if radix_bits =? 0 then ret 0
                           else let! x := shr64 cptr (n_bits - level_bits) in
                                ret (Z.land x (mask radix_bits))) in
            let! node := CNodeCap.as_object cap in
            match CNodeCap.slice_get node index with
            | None => ret (Err SlotEmpty)
            | Some sl =>
                if n_bits =? level_bits then ret (Ok (mkResolve sl 0))
                else
                  let n_bits' := n_bits - level_bits in
                  let! r := entry_get sl in
                  if decide (cap_type r <> CNode) then ret (Ok (mkResolve sl n_bits'))
                  else resolve_loop fuel cptr sl n_bits'
            end
      end
  end.

(** [CSpace::resolve_internal]. *)
Definition resolve_internal `{Build} (fuel : nat) (self : CSpace) (cptr n_bits : Z)
  : M Slots (result ResolveResult SysError) :=
  resolve_loop fuel cptr (root self) n_bits.

(** [CSpace::resolve]. *)
Definition resolve `{Build} (fuel : nat) (self : CSpace) (cptr n_bits : Z)
  : M Slots (result ResolveResult SysError) :=
  resolve_internal fuel self cptr n_bits.

(** [CSpace::lookup_with_depth]. *)
Definition lookup_with_depth `{Build} (fuel : nat) (self : CSpace) (cptr depth : Z)
  : M Slots (result Z SysError) :=
  if negb ((1 <=? depth) && (depth <=? CNODE_DEPTH)) then ret (Err InvalidValue)
  else
    let? res := resolve fuel self cptr depth in
    if negb (bits_remaining res =? 0) then ret (Err LookupError)
    else ret (Ok (slot res)).

(** [CSpace::lookup]. *)
Definition lookup `{Build} (fuel : nat) (self : CSpace) (cptr : Z)
  : M Slots (result Z SysError) :=
  lookup_with_depth fuel self cptr CNODE_DEPTH.

End CSpaceImpl.

Module TcbCSpace.

(** [Tcb::cspace], of the TCB at the address [tcb]. *)
Definition cspace `{TcbLayout} (tcb : Z) : M Slots (result CSpace SysError) :=
  CSpaceImpl.new (cspace_root_addr tcb).

End TcbCSpace.

(** The entries of the TCBs of [ts] are the entries of the store at the addresses they are
    embedded at. *)
Definition roots_stored `{TcbLayout} (ts : Tcbs) (s : Slots) : Prop :=
  forall a t, ts !! a = Some t -> s !! cspace_root_addr a = Some (cspace_root t).

(** ** Specification on bit lists *)

(** The low [n] bits of [x], most significant first. *)
Fixpoint bits_of (x : Z) (n : nat) : list bool :=
  match n with
  | O => []
  | S n => Z.testbit x (Z.of_nat n) :: bits_of x n
  end.

(** The number a bit list denotes, most significant first. *)
Definition bits_val (l : list bool) : Z := fold_left (fun a b => 2 * a + Z.b2z b) l 0.

(** The entry at [cur] is a CNode that consumes the guard [g] and selects
    [sl] with the index bits [idx]. *)
Definition selects (s : Slots) (cur : Z) (g idx : list bool) (sl : Z) : Prop :=
  exists c, s !! cur = Some c /\ cap_type c = CNode /\
    Z.of_nat (length g) = CNodeCap.raw_guard_bits c /\ bits_val g = arg2 c /\
    Z.of_nat (length idx) = CNodeCap.raw_radix_bits c /\
    sl = paddr c + bits_val idx * CNODE_ENTRY_SZ.

(** [resolves s cur bs sl rest]: from the CNode at [cur], the bits [bs] lead to
    the slot [sl] with the bits [rest] left over. *)
Inductive resolves (s : Slots) : Z -> list bool -> Z -> list bool -> Prop :=
| resolves_last cur g idx sl :
    selects s cur g idx sl -> resolves s cur (g ++ idx) sl []
| resolves_stop cur g idx sl rest c :
    selects s cur g idx sl -> rest <> [] -> s !! sl = Some c -> cap_type c <> CNode ->
    resolves s cur (g ++ idx ++ rest) sl rest
| resolves_step cur g idx sl rest c sl' rest' :
    selects s cur g idx sl -> rest <> [] -> s !! sl = Some c -> cap_type c = CNode ->
    resolves s sl rest sl' rest' -> resolves s cur (g ++ idx ++ rest) sl' rest'.

(** No CNode of the store consumes zero bits, and words are 64-bit. *)
Definition cnodes_consume (s : Slots) : Prop :=
  forall a c, s !! a = Some c -> cap_type c = CNode ->
    CNodeCap.raw_radix_bits c + CNodeCap.raw_guard_bits c <> 0.

(** Every slot of every CNode of the store is backed by an entry. *)
Definition cnodes_backed (s : Slots) : Prop :=
  forall a c i, s !! a = Some c -> cap_type c = CNode ->
    0 <= i < 2 ^ CNodeCap.raw_radix_bits c -> is_Some (s !! (paddr c + i * CNODE_ENTRY_SZ)).

(** ** Bit lists *)

Lemma length_bits_of x n : length (bits_of x n) = n.
Proof. induction n; simpl; congruence. Qed.

Lemma fold_bits l a :
  fold_left (fun a b => 2 * a + Z.b2z b) l a = a * 2 ^ Z.of_nat (length l) + bits_val l.
Proof.
  revert a. unfold bits_val. induction l as [|b l IH]; intros a; [simpl; lia|].
  cbn [fold_left length]. rewrite IH, (IH (2 * 0 + Z.b2z b)).
  rewrite Nat2Z.inj_succ, Z.pow_succ_r by lia. ring.
Qed.

Lemma bits_val_cons b l : bits_val (b :: l) = Z.b2z b * 2 ^ Z.of_nat (length l) + bits_val l.
Proof. unfold bits_val at 1. cbn [fold_left]. rewrite fold_bits. f_equal. Qed.

Lemma bits_val_bits_of x n : bits_val (bits_of x n) = x mod 2 ^ Z.of_nat n.
Proof.
  induction n as [|n IH]; [by rewrite Z.mod_1_r|]. cbn [bits_of].
  rewrite bits_val_cons, IH, length_bits_of, Nat2Z.inj_succ, Z.pow_succ_r by lia.
  rewrite (Z.mul_comm 2), Z.rem_mul_r by lia. rewrite Z.testbit_spec' by lia. ring.
Qed.

Lemma bits_of_app x a b :
  bits_of x (a + b) = bits_of (Z.shiftr x (Z.of_nat b)) a ++ bits_of x b.
Proof.
  induction a as [|a IH]; [done|]. simpl. rewrite IH. f_equal.
  rewrite Z.shiftr_spec by lia. f_equal. lia.
Qed.

(** Splitting the bits of a word gives the words of its parts. *)
Lemma bits_of_split x n l1 l2 :
  bits_of x n = l1 ++ l2 ->
  l1 = bits_of (Z.shiftr x (Z.of_nat (length l2))) (length l1) /\ l2 = bits_of x (length l2).
Proof.
  intros H. assert (Hn : n = (length l1 + length l2)%nat)
    by (by rewrite <- length_app, <- H, length_bits_of).
  rewrite Hn, bits_of_app in H. apply app_inj_1 in H as [H1 H2]; [|by rewrite length_bits_of].
  by rewrite H1, H2.
Qed.

Lemma land_mask_bits x k n :
  0 <= k < 64 -> Z.of_nat n = k -> Z.land x (mask k) = bits_val (bits_of x n).
Proof. intros Hk <-. by rewrite mask_ones, Z.land_ones, bits_val_bits_of by lia. Qed.

Lemma bits_val_range l : 0 <= bits_val l < 2 ^ Z.of_nat (length l).
Proof.
  induction l as [|b l IH]; [done|]. rewrite bits_val_cons. cbn [length].
  rewrite Nat2Z.inj_succ, Z.pow_succ_r by lia. destruct b; simpl; lia.
Qed.

(** ** One iteration of the loop *)

Lemma raw_bits_range c :
  0 <= CNodeCap.raw_guard_bits c < 64 /\ 0 <= CNodeCap.raw_radix_bits c < 64.
Proof.
  unfold CNodeCap.raw_guard_bits, CNodeCap.raw_radix_bits.
  change (CNodeCap.mask_ CNodeCap.GUARD_BITS) with (Z.ones 6).
  change (CNodeCap.mask_ CNodeCap.RADIX_BITS) with (Z.ones 6).
  split; apply land_mask6_range.
Qed.

Lemma land_63 x : 0 <= x < 64 -> Z.land (wrap x) (mask WORD_RADIX) = x.
Proof.
  intros Hx. rewrite wrap_small by (split; unfold W64; lia).
  change (mask WORD_RADIX) with (Z.ones 6). rewrite Z.land_ones by lia.
  by apply Z.mod_small.
Qed.

Section loop.
Context `{Build} (s : Slots) (cptr : Z).

(** The loop after its [debug_assert!]. *)
Lemma resolve_prefix fuel cur n c :
  s !! cur = Some c -> cap_type c = CNode ->
  CNodeCap.raw_radix_bits c + CNodeCap.raw_guard_bits c <> 0 \/ debug_build = false ->
  CSpaceImpl.resolve_loop (S fuel) cptr cur n s =
  (let rb := CNodeCap.raw_radix_bits c in
   let gb := CNodeCap.raw_guard_bits c in
   let guard := if gb =? 0 then 0
     else Z.land (Z.shiftr cptr (Z.land (wrap (n - gb)) (mask WORD_RADIX))) (mask gb) in
   if (n <? gb) || negb (guard =? arg2 c) then ret (Err LookupError)
   else if n <? rb + gb then ret (Err LookupError)
   else
     let! index := (if rb =? 0 then ret 0
                    else let! x := shr64 cptr (n - (rb + gb)) in ret (Z.land x (mask rb))) in
     let! node := CNodeCap.as_object (mkCapRef cur) in
     match CNodeCap.slice_get node index with
     | None => ret (Err SlotEmpty)
     | Some sl =>
         if n =? rb + gb then ret (Ok (mkResolve sl 0))
         else
           let! r := entry_get sl in
           if decide (cap_type r <> CNode) then ret (Ok (mkResolve sl (n - (rb + gb))))
           else CSpaceImpl.resolve_loop fuel cptr sl (n - (rb + gb))
     end) s.
Proof.
  intros Hc Ht Hl. cbn [CSpaceImpl.resolve_loop]. pose proof (entry_get_some _ _ _ Hc) as Hg.
  assert (Hd : debug_build && negb (negb (CNodeCap.raw_radix_bits c + CNodeCap.raw_guard_bits c =? 0))
    = false).
  { destruct Hl as [Hl| ->]; [|done]. by rewrite (proj2 (Z.eqb_neq _ 0) Hl), andb_false_r. }
  unfold debug_assert. rewrite (bind_done _ _ _ s (Some (mkCapRef cur))).
  2: { unfold CNodeCap.try_from_slot. by rewrite (bind_done _ _ _ _ _ Hg), decide_True. }
  rewrite (bind_done _ _ _ s (CNodeCap.raw_radix_bits c)) by by apply entry_read.
  rewrite (bind_done _ _ _ s (CNodeCap.raw_guard_bits c)) by by apply entry_read.
  rewrite Hd, bind_ret.
  by rewrite (bind_done _ _ _ s (arg2 c)) by by apply entry_read.
Qed.

(** Not enough bits left for the level. *)
Lemma resolve_short fuel cur n c :
  s !! cur = Some c -> cap_type c = CNode -> 0 <= n ->
  n < CNodeCap.raw_radix_bits c + CNodeCap.raw_guard_bits c ->
  CSpaceImpl.resolve_loop (S fuel) cptr cur n s = (s, Done (Err LookupError)).
Proof.
  intros Hc Ht Hn Hs. rewrite (resolve_prefix _ _ _ _ Hc Ht) by lia. cbv zeta.
  destruct ((n <? _) || _); [done|]. by rewrite (proj2 (Z.ltb_lt _ _) Hs).
Qed.

Lemma guard_value n g rest :
  (n <= 64)%nat -> bits_of cptr n = g ++ rest -> Z.of_nat (length g) < 64 ->
  (if Z.of_nat (length g) =? 0 then 0
   else Z.land (Z.shiftr cptr (Z.land (wrap (Z.of_nat n - Z.of_nat (length g))) (mask WORD_RADIX)))
          (mask (Z.of_nat (length g)))) = bits_val g.
Proof.
  intros Hn Hb Hg. pose proof (f_equal length Hb) as Hlen.
  rewrite length_bits_of, length_app in Hlen.
  destruct (Z.eqb_spec (Z.of_nat (length g)) 0) as [E|E].
  - destruct g; [done|]. simpl in E. lia.
  - rewrite land_63 by lia. rewrite (land_mask_bits _ _ (length g)) by lia.
    apply bits_of_split in Hb as [Hb _].
    replace (Z.of_nat n - Z.of_nat (length g)) with (Z.of_nat (length rest)) by lia.
    by rewrite <- Hb.
Qed.

Lemma index_value n g idx rest :
  (n <= 64)%nat -> bits_of cptr n = g ++ idx ++ rest -> Z.of_nat (length idx) < 64 ->
  (if Z.of_nat (length idx) =? 0 then ret 0
   else let! x := shr64 cptr (Z.of_nat n - (Z.of_nat (length idx) + Z.of_nat (length g))) in
        ret (Z.land x (mask (Z.of_nat (length idx))))) s = (s, Done (bits_val idx)).
Proof.
  intros Hn Hb Hi. pose proof (f_equal length Hb) as Hlen.
  rewrite length_bits_of, !length_app in Hlen.
  destruct (Z.eqb_spec (Z.of_nat (length idx)) 0) as [E|E].
  - destruct idx; [done|]. simpl in E. lia.
  - replace (Z.of_nat n - (Z.of_nat (length idx) + Z.of_nat (length g)))
      with (Z.of_nat (length rest)) by lia.
    rewrite (bind_done _ _ _ s (Z.shiftr cptr (Z.of_nat (length rest)))).
    2: { unfold shr64. by rewrite (proj2 (Z.ltb_lt _ 64)) by lia. }
    rewrite (land_mask_bits _ _ (length idx)) by lia.
    apply bits_of_split in Hb as [_ Hb]. symmetry in Hb.
    apply bits_of_split in Hb as [Hb _]. by rewrite <- Hb.
Qed.

(** What the loop does with a full level [g ++ idx] in front of it. *)
Lemma resolve_match fuel cur n c g idx rest :
  s !! cur = Some c -> cap_type c = CNode ->
  CNodeCap.raw_radix_bits c + CNodeCap.raw_guard_bits c <> 0 \/ debug_build = false ->
  (n <= 64)%nat -> bits_of cptr n = g ++ idx ++ rest ->
  Z.of_nat (length g) = CNodeCap.raw_guard_bits c ->
  Z.of_nat (length idx) = CNodeCap.raw_radix_bits c ->
  CSpaceImpl.resolve_loop (S fuel) cptr cur (Z.of_nat n) s =
  if bits_val g =? arg2 c then
    let sl := paddr c + bits_val idx * CNODE_ENTRY_SZ in
    match rest with
    | [] => (s, Done (Ok (mkResolve sl 0)))
    | _ :: _ =>
        match s !! sl with
        | None => (s, Undef)
        | Some r =>
            if decide (cap_type r <> CNode)
            then (s, Done (Ok (mkResolve sl (Z.of_nat (length rest)))))
            else CSpaceImpl.resolve_loop fuel cptr sl (Z.of_nat (length rest)) s
        end
    end
  else (s, Done (Err LookupError)).
Proof.
  intros Hc Ht Hd Hn Hb Hg Hi. pose proof (raw_bits_range c) as [Rg Rr].
  pose proof (f_equal length Hb) as Hlen. rewrite length_bits_of, !length_app in Hlen.
  rewrite (resolve_prefix _ _ _ _ Hc Ht Hd). cbv zeta. rewrite <- Hg, <- Hi.
  rewrite (guard_value n g (idx ++ rest)) by (done || lia).
  rewrite (proj2 (Z.ltb_ge _ _)) by lia. cbn [orb].
  destruct (bits_val g =? arg2 c); cbn [negb]; [|done].
  rewrite (proj2 (Z.ltb_ge _ _)) by lia.
  rewrite (bind_done _ _ _ _ _ (index_value n g idx rest Hn Hb ltac:(lia))).
  rewrite (bind_done _ _ _ s (CNodeCap.mkSlice (paddr c) (bit (CNodeCap.raw_radix_bits c))))
    by by apply (entry_read _ _ _ (fun r => CNodeCap.mkSlice (paddr r) (bit (CNodeCap.raw_radix_bits r)))).
  unfold CNodeCap.slice_get, CNodeCap.slot_addr. cbn [CNodeCap.len CNodeCap.base].
  pose proof (bits_val_range idx). rewrite bit_pow, <- Hi by lia.
  rewrite (proj2 (Z.ltb_lt _ _)) by lia. destruct rest as [|b rest].
  - rewrite (proj2 (Z.eqb_eq _ _)); [done|]. simpl in Hlen. lia.
  - simpl in Hlen. rewrite (proj2 (Z.eqb_neq _ _)) by lia. unfold bind.
    replace (Z.of_nat n - _) with (Z.of_nat (length (b :: rest))) by (simpl; lia).
    destruct (s !! (paddr c + bits_val idx * CNODE_ENTRY_SZ)) as [r|] eqn:E; [rewrite (entry_get_some _ _ _ E)|by rewrite (entry_get_none _ _ E)].
    by destruct (decide (cap_type r <> CNode)).
Qed.
End loop.

(** ** The loop computes [resolves] *)

Section refinement.
Context `{Build} (s : Slots) (cptr : Z).

(** Cut the bits in front of a CNode into guard, index and rest. *)
Lemma cut_bits n c :
  CNodeCap.raw_radix_bits c + CNodeCap.raw_guard_bits c <= Z.of_nat n ->
  exists g idx rest, bits_of cptr n = g ++ idx ++ rest /\
    Z.of_nat (length g) = CNodeCap.raw_guard_bits c /\
    Z.of_nat (length idx) = CNodeCap.raw_radix_bits c.
Proof.
  intros Hl. pose proof (raw_bits_range c) as [Rg Rr]. set (l := bits_of cptr n).
  set (gb := Z.to_nat (CNodeCap.raw_guard_bits c)).
  set (rb := Z.to_nat (CNodeCap.raw_radix_bits c)).
  exists (take gb l), (take rb (drop gb l)), (drop rb (drop gb l)).
  rewrite !take_drop, !length_take, length_drop. unfold l. rewrite length_bits_of.
  split; [done|]. lia.
Qed.

Lemma selects_intro cur c g idx :
  s !! cur = Some c -> cap_type c = CNode ->
  Z.of_nat (length g) = CNodeCap.raw_guard_bits c ->
  Z.of_nat (length idx) = CNodeCap.raw_radix_bits c -> bits_val g = arg2 c ->
  selects s cur g idx (paddr c + bits_val idx * CNODE_ENTRY_SZ).
Proof. intros. exists c. by split_and!. Qed.

(** Whatever the loop returns is what the bits spell. *)
Lemma resolve_sound fuel cur n r s' :
  (n <= 64)%nat ->
  CSpaceImpl.resolve_loop fuel cptr cur (Z.of_nat n) s = (s', Done (Ok r)) ->
  exists rest, resolves s cur (bits_of cptr n) (slot r) rest /\
    bits_remaining r = Z.of_nat (length rest).
Proof.
  revert cur n. induction fuel as [|fuel IH]; intros cur n Hn HL; [done|].
  pose proof HL as HL'. cbn [CSpaceImpl.resolve_loop] in HL'.
  apply bind_inv in HL' as (s1 & oc & E1 & E2). unfold CNodeCap.try_from_slot in E1.
  apply bind_inv in E1 as (s2 & c & E3 & E4). unfold entry_get, deref in E3.
  destruct (s !! cur) as [c'|] eqn:Hc; [|done]. injection E3 as <- <-.
  destruct (decide (cap_type c' = CNode)) as [Ht|]; injection E4 as <- <-; [|done].
  destruct (decide (CNodeCap.raw_radix_bits c' + CNodeCap.raw_guard_bits c' <> 0
                    \/ debug_build = false)) as [Hd|Hd].
  2: { exfalso. rewrite (bind_done _ _ _ s (CNodeCap.raw_radix_bits c')) in E2
         by by apply entry_read.
       rewrite (bind_done _ _ _ s (CNodeCap.raw_guard_bits c')) in E2 by by apply entry_read.
       unfold debug_assert in E2. destruct debug_build; [|naive_solver].
       destruct (Z.eqb_spec (CNodeCap.raw_radix_bits c' + CNodeCap.raw_guard_bits c') 0);
         [done|naive_solver]. }
  destruct (Z.lt_ge_cases (Z.of_nat n) (CNodeCap.raw_radix_bits c' + CNodeCap.raw_guard_bits c'))
    as [Hlt|Hge].
  { rewrite (resolve_short s cptr fuel cur _ c') in HL by (done || lia). done. }
  destruct (cut_bits n c' Hge) as (g & idx & rest & Hb & Hg & Hi).
  rewrite (resolve_match s cptr fuel cur n c' g idx rest) in HL by done.
  destruct (Z.eqb_spec (bits_val g) (arg2 c')) as [Hv|]; [|done].
  pose proof (selects_intro _ _ _ _ Hc Ht Hg Hi Hv) as Hsel. cbv zeta in HL. rewrite Hb.
  destruct rest as [|b rest]; [injection HL as _ <-|].
  { exists []. rewrite app_nil_r. split; [by apply resolves_last|done]. }
  destruct (s !! (paddr c' + bits_val idx * CNODE_ENTRY_SZ)) as [c2|] eqn:Hs; [|done].
  destruct (decide (cap_type c2 <> CNode)) as [Hnc|Hc2].
  { injection HL as _ <-. exists (b :: rest). split; [by eapply resolves_stop|done]. }
  assert (Hr : b :: rest = bits_of cptr (length (b :: rest))).
  { apply bits_of_split in Hb as [_ Hb]. symmetry in Hb. by apply bits_of_split in Hb as [_ Hb]. }
  apply IH in HL as (rest' & HR & Hrem).
  2: { apply (f_equal length) in Hb. rewrite length_bits_of, !length_app in Hb. lia. }
  exists rest'. split; [|done]. eapply resolves_step; [done|done|done| |].
  - destruct (decide (cap_type c2 = CNode)); [done|tauto].
  - by rewrite Hr.
Qed.

(** Whatever the bits spell is found, with enough fuel. *)
Lemma resolve_complete fuel cur n sl rest :
  cnodes_consume s -> (n <= 64)%nat -> (n < fuel)%nat ->
  resolves s cur (bits_of cptr n) sl rest ->
  CSpaceImpl.resolve_loop fuel cptr cur (Z.of_nat n) s =
    (s, Done (Ok (mkResolve sl (Z.of_nat (length rest))))).
Proof.
  intros Hcc Hn Hf HR. remember (bits_of cptr n) as bs eqn:Hb. revert fuel n Hn Hf Hb.
  induction HR as [cur g idx sl (c & Hc & Ht & Hg & Hv & Hi & ->)
                  |cur g idx sl rest c2 (c & Hc & Ht & Hg & Hv & Hi & ->) Hne Hs Hnc
                  |cur g idx sl rest c2 sl' rest' (c & Hc & Ht & Hg & Hv & Hi & ->) Hne Hs Hc2 HR IH];
    intros fuel n Hn Hf Hb; (destruct fuel as [|fuel]; [lia|]);
    pose proof (Hcc _ _ Hc Ht) as Hlvl.
  - rewrite <- (app_nil_r idx) in Hb. rewrite (resolve_match s cptr fuel cur n c g idx []); auto.
    by rewrite Hv, Z.eqb_refl.
  - rewrite (resolve_match s cptr fuel cur n c g idx rest); auto.
    rewrite Hv, Z.eqb_refl. cbv zeta. destruct rest as [|b rest]; [done|].
    rewrite Hs. by rewrite decide_True.
  - rewrite (resolve_match s cptr fuel cur n c g idx rest); auto.
    rewrite Hv, Z.eqb_refl. cbv zeta. destruct rest as [|b rest]; [done|].
    rewrite Hs. rewrite decide_False by tauto.
    pose proof (f_equal length Hb) as Hlen. rewrite length_bits_of, !length_app in Hlen.
    symmetry in Hb. apply bits_of_split in Hb as [_ Hb]. symmetry in Hb.
    apply bits_of_split in Hb as [_ Hb]. apply IH; [lia|lia|done].
Qed.

(** With enough fuel the loop always ends: it finds a slot or reports a lookup
    error, and it never leaves the store. *)
Lemma resolve_total fuel cur n c :
  cnodes_consume s -> cnodes_backed s -> (n <= 64)%nat -> (n < fuel)%nat ->
  s !! cur = Some c -> cap_type c = CNode ->
  (exists r, CSpaceImpl.resolve_loop fuel cptr cur (Z.of_nat n) s = (s, Done (Ok r))) \/
  CSpaceImpl.resolve_loop fuel cptr cur (Z.of_nat n) s = (s, Done (Err LookupError)).
Proof.
  intros Hcc Hbk. revert cur n c. induction fuel as [|fuel IH]; intros cur n c Hn Hf Hc Ht; [lia|].
  pose proof (Hcc _ _ Hc Ht) as Hlvl.
  destruct (Z.lt_ge_cases (Z.of_nat n) (CNodeCap.raw_radix_bits c + CNodeCap.raw_guard_bits c))
    as [Hlt|Hge].
  { right. by apply (resolve_short s cptr fuel cur _ c); [| |lia|]. }
  destruct (cut_bits n c Hge) as (g & idx & rest & Hb & Hg & Hi).
  rewrite (resolve_match s cptr fuel cur n c g idx rest); auto.
  destruct (bits_val g =? arg2 c); [|by right]. cbv zeta.
  destruct rest as [|b rest]; [left; by eexists|].
  destruct (Hbk cur c (bits_val idx) Hc Ht) as [c2 Hs]; [rewrite <- Hi; apply bits_val_range|].
  rewrite Hs. case_decide as Hd; [left; by eexists|].
  pose proof (raw_bits_range c) as [Rg Rr].
  apply (f_equal length) in Hb. rewrite length_bits_of, !length_app in Hb.
  eapply IH; [lia|lia|done|]. destruct (decide (cap_type c2 = CNode)); [done|tauto].
Qed.
End refinement.

(** ** Lookups *)

Section lookup.
Context `{Build} (s : Slots) (self : CSpace) (cptr depth : Z) (fuel : nat).
Context (Hd : 1 <= depth <= CNODE_DEPTH) (Hf : (Z.to_nat depth < fuel)%nat).

Lemma lookup_run :
  CSpaceImpl.lookup_with_depth fuel self cptr depth s =
  (let? res := CSpaceImpl.resolve_loop fuel cptr (root self) (Z.of_nat (Z.to_nat depth)) in
   if negb (bits_remaining res =? 0) then ret (Err LookupError) else ret (Ok (slot res))) s.
Proof.
  unfold CSpaceImpl.lookup_with_depth. rewrite Z2Nat.id by lia.
  by rewrite (proj2 (Z.leb_le 1 depth)), (proj2 (Z.leb_le depth CNODE_DEPTH)) by lia.
Qed.

Lemma lookup_ok sl :
  cnodes_consume s ->
  CSpaceImpl.lookup_with_depth fuel self cptr depth s = (s, Done (Ok sl)) <->
  resolves s (root self) (bits_of cptr (Z.to_nat depth)) sl [].
Proof.
  intros Hc. unfold CNODE_DEPTH in Hd. rewrite lookup_run. split.
  - intros (s1 & [res|e] & E & K)%bind_inv; [|done].
    apply resolve_sound in E as (rest & HR & Hrem); [|lia].
    rewrite Hrem in K. destruct rest as [|b rest]; [|done]. cbn in K. by injection K as _ <-.
  - intros HR. by rewrite (bind_done _ _ _ _ _ (resolve_complete s cptr fuel (root self) (Z.to_nat depth) sl [] Hc ltac:(lia) Hf HR)).
Qed.

Lemma lookup_total c :
  cnodes_consume s -> cnodes_backed s -> s !! root self = Some c -> cap_type c = CNode ->
  (exists sl, CSpaceImpl.lookup_with_depth fuel self cptr depth s = (s, Done (Ok sl))) \/
  CSpaceImpl.lookup_with_depth fuel self cptr depth s = (s, Done (Err LookupError)).
Proof.
  intros Hc Hb Hr Ht. unfold CNODE_DEPTH in Hd. rewrite lookup_run.
  destruct (resolve_total s cptr fuel (root self) (Z.to_nat depth) c Hc Hb ltac:(lia) Hf Hr Ht) as [[r E]|E];
    rewrite (bind_done _ _ _ _ _ E); [|by right].
  destruct (bits_remaining r =? 0); [left; by eexists|by right].
Qed.
End lookup.

(** The CSpace of a thread is the one of its root entry, whichever way it is made. *)
Lemma cspace_run `{TcbLayout} ts s a t :
  roots_stored ts s -> ts !! a = Some t ->
  TcbCSpace.cspace a s =
    (s, Done (if decide (cap_type (cspace_root t) = CNode) then Ok (mkCSpace (cspace_root_addr a))
              else Err CSpaceNotFound)).
Proof.
  intros Hr Ht. unfold TcbCSpace.cspace, CSpaceImpl.new.
  rewrite (bind_done _ _ _ _ _ (entry_get_some _ _ _ (Hr a t Ht))).
  destruct (decide (cap_type (cspace_root t) = CNode)); [by rewrite decide_False by tauto|by rewrite decide_True].
Qed.

(** ** A concrete CSpace *)

(** A root CNode in entry 64 with a 4-bit guard 5 and a 4-bit radix over the 16 entries at 0x1000,
    whose third entry is an endpoint capability. *)
Definition demo_root : CapRaw :=
  set_arg2 5 (set_arg1 (Z.lor 4 (Z.shiftl 4 6)) (set_paddr 0x1000 (default_with_type CNode))).
Fixpoint null_entries (n : nat) (a : Z) : Slots :=
  match n with O => ∅ | S n => <[a := CapRaw_default]> (null_entries n (a + CNODE_ENTRY_SZ)) end.
Definition demo_cspace : Slots :=
  <[64 := demo_root]> (<[0x1080 := default_with_type Endpoint]> (null_entries 16 0x1000)).

Lemma null_entries_type n a : map_Forall (fun _ c => cap_type c <> CNode) (null_entries n a).
Proof.
  revert a. induction n as [|n IH]; intros a; cbn [null_entries]; [apply map_Forall_empty|].
  by apply map_Forall_insert_2.
Qed.

Lemma demo_cnodes a c : demo_cspace !! a = Some c -> cap_type c = CNode -> c = demo_root.
Proof.
  unfold demo_cspace. rewrite lookup_insert. case_decide; [by intros [= <-]|].
  rewrite lookup_insert. case_decide; [by intros [= <-]|]. intros Hc Ht.
  by destruct (null_entries_type _ _ _ _ Hc).
Qed.

Lemma demo_consume : cnodes_consume demo_cspace.
Proof. intros a c Hc Ht. by rewrite (demo_cnodes a c Hc Ht). Qed.

Lemma demo_backed : cnodes_backed demo_cspace.
Proof.
  intros a c i Hc Ht. rewrite (demo_cnodes a c Hc Ht). change (2 ^ _) with 16. intros Hi.
  change (paddr demo_root) with 0x1000. unfold CNODE_ENTRY_SZ.
  assert (i = 0 \/ i = 1 \/ i = 2 \/ i = 3 \/ i = 4 \/ i = 5 \/ i = 6 \/ i = 7 \/ i = 8 \/ i = 9 \/
          i = 10 \/ i = 11 \/ i = 12 \/ i = 13 \/ i = 14 \/ i = 15) as Hc' by lia.
  repeat destruct Hc' as [-> |Hc']; [by vm_compute; eexists..|]. subst i. by vm_compute; eexists.
Qed.

(** A new thread with the root entry [rc]. *)
Definition rooted_thread (rc : CapRaw) : Tcb :=
  let t := TcbImpl.new in
  mkTcb (context t) (notification t) (fault t) (fault_ep t) (sched_context t) (ipc_buffer t)
    rc (vspace_root t) (state t) (ep_next t) (ep_prev t) (blocking_object t)
    (ipc_state t) (reply_to t) (caller t).

(** A thread at the address 0 whose root entry is the entry 64. *)
Definition demo_layout : TcbLayout := fun a => a + 64.
Definition demo_thread : Tcb := rooted_thread demo_root.
Definition demo_threads : Tcbs := {[0 := demo_thread]}.

Lemma demo_roots : @roots_stored demo_layout demo_threads demo_cspace.
Proof. intros a t Ht. unfold demo_threads in Ht. by apply lookup_singleton_Some in Ht as [<- <-]. Qed.

(** ** The properties *)

Module Claims.

(** The [debug_assert] is all that guards the loop against CNodes that consume no bits: on one with
    no guard and no radix the dev profile panics. *)
Lemma zero_level_panics s cptr a c n fuel :
  s !! a = Some c -> cap_type c = CNode -> CNodeCap.raw_radix_bits c = 0 -> CNodeCap.raw_guard_bits c = 0 ->
  CSpaceImpl.resolve_loop (H := dev) (S fuel) cptr a n s = (s, Panic).
Proof.
  intros Hc Ht Hr Hg. cbn [CSpaceImpl.resolve_loop]. rewrite (bind_done _ _ _ s (Some (mkCapRef a))).
  2: { unfold CNodeCap.try_from_slot. by rewrite (bind_done _ _ _ _ _ (entry_get_some _ _ _ Hc)), decide_True. }
  rewrite (bind_done _ _ _ s (CNodeCap.raw_radix_bits c)) by by apply entry_read.
  rewrite (bind_done _ _ _ s (CNodeCap.raw_guard_bits c)) by by apply entry_read.
  by rewrite Hr, Hg.
Qed.

(** When its only slot is itself, the release profile never returns, whatever the number of
    iterations. *)
Lemma zero_level_diverges s cptr a c n fuel :
  s !! a = Some c -> cap_type c = CNode -> CNodeCap.raw_radix_bits c = 0 ->
  CNodeCap.raw_guard_bits c = 0 -> arg2 c = 0 -> paddr c = a -> 0 < n ->
  CSpaceImpl.resolve_loop (H := release) fuel cptr a n s = (s, NoFuel).
Proof.
  intros Hc Ht Hr Hg H2 Hp Hn.
  induction fuel as [|fuel IH]; [done|].
  rewrite (resolve_prefix (H := release) s cptr fuel a n c Hc Ht (or_intror eq_refl)).
  rewrite Hr, Hg, H2. cbv zeta. rewrite (proj2 (Z.ltb_ge n 0)) by lia. cbn [orb negb Z.eqb Z.add].
  change (0 + 0) with 0. rewrite (proj2 (Z.ltb_ge n 0)) by lia. rewrite bind_ret.
  rewrite (bind_done _ _ _ s (CNodeCap.mkSlice a 1)).
  2: { unfold CNodeCap.as_object. cbn [raw]. rewrite (bind_done _ _ _ _ _ (entry_get_some _ _ _ Hc)).
       by rewrite Hr, Hp. }
  unfold CNodeCap.slice_get, CNodeCap.slot_addr. cbn [CNodeCap.len CNodeCap.base Z.ltb Z.compare].
  rewrite (proj2 (Z.eqb_neq n 0)) by lia. rewrite Z.mul_0_l, Z.add_0_r, Z.sub_0_r.
  rewrite (bind_done _ _ _ _ _ (entry_get_some _ _ _ Hc)). by rewrite decide_False by tauto.
Qed.

Lemma lookup_zero_level s root cptr depth fuel c :
  1 <= depth <= CNODE_DEPTH -> s !! root = Some c -> cap_type c = CNode ->
  CNodeCap.raw_radix_bits c = 0 -> CNodeCap.raw_guard_bits c = 0 ->
  CSpaceImpl.lookup_with_depth (H := dev) (S fuel) (mkCSpace root) cptr depth s = (s, Panic) /\
  (arg2 c = 0 -> paddr c = root ->
   CSpaceImpl.lookup_with_depth (H := release) fuel (mkCSpace root) cptr depth s = (s, NoFuel)).
Proof.
  intros Hd Hc Ht Hr Hg. unfold CSpaceImpl.lookup_with_depth, CSpaceImpl.resolve, CSpaceImpl.resolve_internal.
  rewrite (proj2 (Z.leb_le 1 depth)), (proj2 (Z.leb_le depth CNODE_DEPTH)) by lia. cbn [andb negb]. split.
  - unfold bind. cbn [CSpace.root]. by rewrite (zero_level_panics s cptr _ c).
  - intros H2 Hp. unfold bind. cbn [CSpace.root]. by rewrite (zero_level_diverges s cptr _ c) by (done || lia).
Qed.

(** C3: capability lookup computes the abstract resolution of the pointer's bits.  The root entry of a
    thread is the entry of the store at its place in the TCB.  A thread whose root entry is a CNode
    has a CSpace rooted at that entry ([Tcb::cspace] and [CSpace::from_tcb] agree; [CSpaceNotFound]
    otherwise).  Provided that every CNode of the store has at least one radix or guard bit, for every
    depth from 1 to 32, [lookup_with_depth] there (with [depth + 1] iterations) returns a slot exactly
    when the low [depth] bits of the pointer, most significant first, spell guards and indices of the
    CNode tree that lead to that slot with no bit left over; and when the CNodes are also backed by
    entries it always returns, in both build profiles: a slot or [LookupError], with no panic, no
    access outside the store and no change of it.  The proviso is needed, and only a [debug_assert]
    checks it: when the root has neither radix nor guard bits, as a CNode of one entry that [retype]
    makes, every lookup panics in the dev profile, and in the release profile it never returns when
    the only slot of the CNode is the root entry itself. *)
Theorem lookup_refines_bits `{Build} `{TcbLayout} ts s a t cptr depth fuel :
  roots_stored ts s -> ts !! a = Some t ->
  1 <= depth <= CNODE_DEPTH -> (Z.to_nat depth < fuel)%nat ->
  CSpaceImpl.from_tcb a s = TcbCSpace.cspace a s /\
  (cap_type (cspace_root t) <> CNode -> TcbCSpace.cspace a s = (s, Done (Err CSpaceNotFound))) /\
  (cap_type (cspace_root t) = CNode ->
     let self := mkCSpace (cspace_root_addr a) in
     TcbCSpace.cspace a s = (s, Done (Ok self)) /\
     (cnodes_consume s ->
        (forall sl, CSpaceImpl.lookup_with_depth fuel self cptr depth s = (s, Done (Ok sl)) <->
           resolves s (cspace_root_addr a) (bits_of cptr (Z.to_nat depth)) sl []) /\
        (cnodes_backed s ->
           (exists sl, CSpaceImpl.lookup_with_depth fuel self cptr depth s = (s, Done (Ok sl))) \/
           CSpaceImpl.lookup_with_depth fuel self cptr depth s = (s, Done (Err LookupError)))) /\
     (CNodeCap.raw_radix_bits (cspace_root t) = 0 -> CNodeCap.raw_guard_bits (cspace_root t) = 0 ->
        CSpaceImpl.lookup_with_depth (H := dev) fuel self cptr depth s = (s, Panic) /\
        (arg2 (cspace_root t) = 0 -> paddr (cspace_root t) = cspace_root_addr a ->
         CSpaceImpl.lookup_with_depth (H := release) fuel self cptr depth s = (s, NoFuel)))).
Proof.
  intros Hr Ht Hd Hf. rewrite (cspace_run ts s a t Hr Ht). split_and!.
  - by rewrite <- (cspace_run ts s a t Hr Ht).
  - intros Hn. by rewrite decide_False.
  - intros Hn self. rewrite decide_True by done. split_and!; [done| |].
    + intros Hc. split; [intros sl; by apply (lookup_ok s self)|].
      intros Hb. eapply lookup_total; [done..|exact (Hr a t Ht)|done].
    + intros H1 H2. pose proof (Hr a t Ht) as Hroot.
      split; [destruct fuel; [lia|]|]; by apply (lookup_zero_level s _ cptr depth _ _ Hd Hroot).
Qed.

(** *** Witnesses: the concrete CSpace *)

#[local] Existing Instance demo_layout.

Lemma lookup_refines_bits_witness :
  TcbCSpace.cspace 0 demo_cspace = (demo_cspace, Done (Ok (mkCSpace 64))) /\
  resolves demo_cspace 64 (bits_of 0x52 8) 0x1080 [] /\
  ((exists sl, CSpaceImpl.lookup_with_depth (H := release) 9 (mkCSpace 64) 0x92 8 demo_cspace
      = (demo_cspace, Done (Ok sl))) \/
   CSpaceImpl.lookup_with_depth (H := release) 9 (mkCSpace 64) 0x92 8 demo_cspace
      = (demo_cspace, Done (Err LookupError))).
Proof.
  destruct (lookup_refines_bits (H := dev) demo_threads demo_cspace 0 demo_thread 0x52 8 9) as (_ & _ & A);
    [exact demo_roots|reflexivity|unfold CNODE_DEPTH; lia|lia|].
  destruct (A eq_refl) as (C & L & _). destruct (L demo_consume) as [L' _]. split_and!; [exact C| |].
  - apply L'. vm_compute. reflexivity.
  - destruct (lookup_refines_bits (H := release) demo_threads demo_cspace 0 demo_thread 0x92 8 9) as (_ & _ & B);
      [exact demo_roots|reflexivity|unfold CNODE_DEPTH; lia|lia|].
    destruct (B eq_refl) as (_ & T & _). exact (proj2 (T demo_consume) demo_backed).
Defined.

End Claims.
