(* ===== verification/PageTable.v ===== *)
(** Page tables: [src/kernel/src/vspace.rs],
    [src/kernel/src/arch/x86_64/vspace/entry.rs] and [level.rs].

    Entries are 64-bit words behind the four newtypes of the code;
    [PageTableEntry] is the trait, with one instance per level.  Memory is a
    finite map from kernel virtual addresses to 64-bit words: a [Table] is 512
    consecutive words, and reading a word that is not there is undefined
    behaviour. *)
From S2P Require Import Prelude Errors Caps.

Definition PAGE_SIZE_4K : Z := 4096.
Definition PAGE_SIZE_2M : Z := 2 * 1024 * 1024.
Definition PAGE_SIZE_1G : Z := 1024 * 1024 * 1024.
Definition PAGE_BITS_4K : Z := 12.
Definition PAGE_BITS_2M : Z := 21.
Definition PAGE_BITS_1G : Z := 30.
Definition ENTRIES_PER_TABLE : Z := 512.
Definition ENTRIES_BITS : Z := 9.

(** ** Attributes *)

Module VMRights.
Definition NONE : Z := 0.
Definition READ : Z := 1.
Definition WRITE : Z := 2.
Definition EXECUTE : Z := 4.
Definition KERNEL : Z := 8.
Definition RW : Z := Z.lor READ WRITE.
Definition RX : Z := Z.lor READ EXECUTE.
Definition RWX : Z := Z.lor (Z.lor READ WRITE) EXECUTE.
End VMRights.

(** [enum CachePolicy]. *)
Inductive CachePolicy : Type := WriteBack | WriteThrough | Uncacheable | WriteCombining.

#[export] Instance CachePolicy_eq_dec : EqDecision CachePolicy.
Proof. solve_decision. Defined.

(** [policy as usize]. *)
Definition cache_as_usize (p : CachePolicy) : Z :=
  match p with WriteBack => 0 | WriteThrough => 1 | Uncacheable => 2 | WriteCombining => 3 end.

(** [struct VMAttributes]. *)
Record VMAttributes : Type := mkAttr {
  vm_rights : Z;
  cache : CachePolicy;
  global : bool;
  user : bool
}.

Module VMAttributesImpl.

(** [VMAttributes::default]. *)
Definition default : VMAttributes := mkAttr VMRights.RW WriteBack false true.

(** [VMAttributes::kernel]. *)
Definition kernel (rights : Z) : VMAttributes := mkAttr rights WriteBack true false.

(** [VMAttributes::user]. *)
Definition user_ (rights : Z) : VMAttributes := mkAttr rights WriteBack false true.

(** [VMAttributes::device]. *)
Definition device : VMAttributes := mkAttr VMRights.RW Uncacheable false false.

End VMAttributesImpl.

(** ** Levels *)

(** The level markers [Pml4], [Pdpt], [PageDirectory], [Pt] and [Frame]. *)
Inductive PtLevel : Type := Pml4 | Pdpt | PageDirectory | Pt | FrameLevel.

#[export] Instance PtLevel_eq_dec : EqDecision PtLevel.
Proof. solve_decision. Defined.

(** [Level::LEVEL]. *)
Definition LEVEL (l : PtLevel) : Z :=
  match l with Pml4 => 4 | Pdpt => 3 | PageDirectory => 2 | Pt => 1 | FrameLevel => 0 end.

(** [TableLevel::NextLevel]; a frame is not a table level. *)
Definition NextLevel (l : PtLevel) : option PtLevel :=
  match l with
  | Pml4 => Some Pdpt | Pdpt => Some PageDirectory | PageDirectory => Some Pt
  | Pt => Some FrameLevel | FrameLevel => None
  end.

(** [PageLevel::PAGE_BITS], for the levels that can map a page. *)
Definition PAGE_BITS (l : PtLevel) : option Z :=
  match l with
  | Pdpt => Some PAGE_BITS_1G | PageDirectory => Some PAGE_BITS_2M | Pt => Some PAGE_BITS_4K
  | _ => None
  end.

(** [PageLevel::PAGE_SIZE]. *)
Definition PAGE_SIZE (l : PtLevel) : option Z := bit <$> PAGE_BITS l.

(** [TableLevel::TABLE_ENTRIES]. *)
Definition TABLE_ENTRIES (l : PtLevel) : Z := ENTRIES_PER_TABLE.

(** ** Entries *)

Definition PRESENT : Z := bit 0.
Definition WRITABLE : Z := bit 1.
Definition USER : Z := bit 2.
Definition WRITE_THROUGH : Z := bit 3.
Definition CACHE_DISABLE : Z := bit 4.
Definition ACCESSED : Z := bit 5.
Definition DIRTY : Z := bit 6.
Definition HUGE_PAGE : Z := bit 7.
Definition GLOBAL : Z := bit 8.
Definition NO_EXECUTE : Z := bit 63.
Definition ADDR_MASK : Z := 0xFFFFFFFFFF000.

(** The newtypes [Pml4e], [Pdpte], [Pde] and [Pte]. *)
Record Pml4e : Type := mkPml4e { pml4e_raw : Z }.
Record Pdpte : Type := mkPdpte { pdpte_raw : Z }.
Record Pde : Type := mkPde { pde_raw : Z }.
Record Pte : Type := mkPte { pte_raw : Z }.

(** [trait PageTableEntry]. *)
Class PageTableEntry (E : Type) : Type := {
  invalid : E;
  is_present : E -> bool;
  is_table : E -> bool;
  is_page : E -> bool;
  entry_addr : E -> Z;  (** the argument of [PhysAddr::new] in [paddr] *)
  entry_raw : E -> Z;
  from_raw : Z -> E
}.

Definition raw_present (r : Z) : bool := negb (Z.land r PRESENT =? 0).
Definition raw_huge (r : Z) : bool := negb (Z.land r HUGE_PAGE =? 0).

#[export] Instance Pml4e_entry : PageTableEntry Pml4e := {|
  invalid := mkPml4e 0;
  is_present e := raw_present (pml4e_raw e);
  is_table e := raw_present (pml4e_raw e);
  is_page e := false;
  entry_addr e := Z.land (pml4e_raw e) ADDR_MASK;
  entry_raw := pml4e_raw;
  from_raw := mkPml4e
|}.

#[export] Instance Pdpte_entry : PageTableEntry Pdpte := {|
  invalid := mkPdpte 0;
  is_present e := raw_present (pdpte_raw e);
  is_table e := raw_present (pdpte_raw e) && negb (raw_huge (pdpte_raw e));
  is_page e := raw_present (pdpte_raw e) && raw_huge (pdpte_raw e);
  entry_addr e := Z.land (pdpte_raw e) ADDR_MASK;
  entry_raw := pdpte_raw;
  from_raw := mkPdpte
|}.

#[export] Instance Pde_entry : PageTableEntry Pde := {|
  invalid := mkPde 0;
  is_present e := raw_present (pde_raw e);
  is_table e := raw_present (pde_raw e) && negb (raw_huge (pde_raw e));
  is_page e := raw_present (pde_raw e) && raw_huge (pde_raw e);
  entry_addr e := Z.land (pde_raw e) ADDR_MASK;
  entry_raw := pde_raw;
  from_raw := mkPde
|}.

#[export] Instance Pte_entry : PageTableEntry Pte := {|
  invalid := mkPte 0;
  is_present e := raw_present (pte_raw e);
  is_table e := false;
  is_page e := raw_present (pte_raw e);
  entry_addr e := Z.land (pte_raw e) ADDR_MASK;
  entry_raw := pte_raw;
  from_raw := mkPte
|}.

(** [PageTableEntry::paddr]. *)
Definition entry_paddr `{X86Addr} {S E} `{PageTableEntry E} (e : E) : M S Z :=
  unwrap_or_panic (phys_addr_new (entry_addr e)).

(** [build_flags]. *)
Definition build_flags `{Bitflags} (attr : VMAttributes) : Z :=
  let flags := PRESENT in
  let flags := if contains (vm_rights attr) VMRights.WRITE then Z.lor flags WRITABLE else flags in
  let flags := if user attr then Z.lor flags USER else flags in
  let flags := if global attr then Z.lor flags GLOBAL else flags in
  let flags := if negb (contains (vm_rights attr) VMRights.EXECUTE)
               then Z.lor flags NO_EXECUTE else flags in
  match cache attr with
  | WriteBack => flags
  | WriteThrough => Z.lor flags WRITE_THROUGH
  | Uncacheable => Z.lor flags CACHE_DISABLE
  | WriteCombining => Z.lor flags (Z.lor WRITE_THROUGH CACHE_DISABLE)
  end.

(** [Pml4e::table]. *)
Definition pml4e_table `{Bitflags} (paddr : Z) (attr : VMAttributes) : Pml4e :=
  let flags := Z.lor (Z.lor PRESENT
    (if contains (vm_rights attr) VMRights.WRITE then WRITABLE else 0))
    (if user attr then USER else 0) in
  mkPml4e (Z.lor (Z.land paddr ADDR_MASK) flags).

(** [new_table] of [Pml4e], [Pdpte] and [Pde]. *)
Definition table_word (paddr : Z) : Z :=
  Z.lor (Z.lor (Z.lor (Z.land paddr ADDR_MASK) PRESENT) WRITABLE) USER.
Definition pml4e_new_table (paddr : Z) : Pml4e := mkPml4e (table_word paddr).
Definition pdpte_new_table (paddr : Z) : Pdpte := mkPdpte (table_word paddr).
Definition pde_new_table (paddr : Z) : Pde := mkPde (table_word paddr).

(** [Pdpte::new_huge_page]. *)
Definition new_huge_page `{Bitflags} (paddr : Z) (attr : VMAttributes) : Pdpte :=
  mkPdpte (Z.lor (Z.land paddr ADDR_MASK) (Z.lor (build_flags attr) HUGE_PAGE)).

(** [Pde::new_large_page]. *)
Definition new_large_page `{Bitflags} (paddr : Z) (attr : VMAttributes) : Pde :=
  mkPde (Z.lor (Z.land paddr ADDR_MASK) (Z.lor (build_flags attr) HUGE_PAGE)).

(** [Pte::new_page]. *)
Definition new_page `{Bitflags} (paddr : Z) (attr : VMAttributes) : Pte :=
  mkPte (Z.lor (Z.land paddr ADDR_MASK) (build_flags attr)).

(** ** Tables *)

(** Memory as 64-bit words, by virtual address. *)
Abbreviation Mem := (gmap Z Z).

(** A [&'static mut Table<L>] is the virtual address of its first entry. *)
Module Table.

(** [Table::from_paddr]. *)
Definition from_paddr `{Build} {S} (OFFSET paddr : Z) : M S Z := add64 paddr OFFSET.

(** [Table::from_vaddr]. *)
Definition from_vaddr {S} (vaddr : Z) : M S Z := ret vaddr.

(** [Table::paddr]. *)
Definition paddr_of `{Build} `{X86Addr} {S} (OFFSET table : Z) : M S Z :=
  let! a := sub64 table OFFSET in unwrap_or_panic (phys_addr_new a).

(** The address of an entry. *)
Definition entry_at (table index : Z) : Z := table + 8 * index.

Definition load (a : Z) : M Mem Z := fun m => deref (m !! a) m.
Definition store (a v : Z) : M Mem unit := do! load a in modify (fun m => <[a := v]> m).

(** [Table::get]: [None] past the end. *)
Definition get_ {E} `{PageTableEntry E} (table index : Z) : M Mem (option E) :=
  if index <? ENTRIES_PER_TABLE then
    let! w := load (entry_at table index) in ret (Some (from_raw w))
  else ret None.

(** [Table::get_mut]: the address of the entry. *)
Definition get_mut (table index : Z) : option Z :=
  if index <? ENTRIES_PER_TABLE then Some (entry_at table index) else None.

(** [Table::new], as a value: the default of an entry is the word 0. *)
Definition new {E} `{PageTableEntry E} : list E := replicate (Z.to_nat ENTRIES_PER_TABLE) (from_raw 0).

(** [Table::default]. *)
Definition default {E} `{PageTableEntry E} : list E := new.

(** [Table::iter]: the entries from [i] on, [n] of them. *)
Fixpoint iter_loop {E} `{PageTableEntry E} (n : nat) (table i : Z) : M Mem (list E) :=
  match n with
  | O => ret []
  | S n => let! w := load (entry_at table i) in let! l := iter_loop n table (i + 1) in ret (from_raw w :: l)
  end.
Definition iter {E} `{PageTableEntry E} (table : Z) : M Mem (list E) :=
  iter_loop (Z.to_nat ENTRIES_PER_TABLE) table 0.

(** [Table::iter_mut]: the addresses of the entries, in order. *)
Definition iter_mut (table : Z) : list Z :=
  map (fun i => entry_at table (Z.of_nat i)) (seq 0 (Z.to_nat ENTRIES_PER_TABLE)).

(** [Index::index] ([self.entries[index]] panics past the end). *)
Definition index {E} `{PageTableEntry E} (table idx : Z) : M Mem E :=
  if idx <? ENTRIES_PER_TABLE then
    let! w := load (entry_at table idx) in ret (from_raw w)
  else panic.

(** An assignment through [IndexMut::index_mut]. *)
Definition write {E} `{PageTableEntry E} (table idx : Z) (e : E) : M Mem unit :=
  if idx <? ENTRIES_PER_TABLE then store (entry_at table idx) (entry_raw e) else panic.

(** [Table::clear]: the entries from [i] on, [n] of them. *)
Fixpoint clear_loop (n : nat) (table i : Z) : M Mem unit :=
  match n with
  | O => ret tt
  | S n => do! store (entry_at table i) 0 in clear_loop n table (i + 1)
  end.
Definition clear (table : Z) : M Mem unit :=
  clear_loop (Z.to_nat ENTRIES_PER_TABLE) table 0.

(** [Table::next_table]. *)
Definition next_table `{Build} `{X86Addr} {E} `{PageTableEntry E} (OFFSET table idx : Z)
  : M Mem (option Z) :=
  let! oe := get_ (E := E) table idx in
  match oe with
  | None => ret None
  | Some e =>
      if negb (is_table e) then ret None
      else let! p := entry_paddr e in
           let! t := from_paddr OFFSET p in
           ret (Some t)
  end.

End Table.

(** ** Entry lemmas *)

Lemma flag_testbit r k : 0 <= k < 64 -> negb (Z.land r (bit k) =? 0) = Z.testbit r k.
Proof.
  intros Hk. rewrite bit_pow, <- (Z.shiftl_1_l k) by done.
  destruct (Z.testbit r k) eqn:E.
  - apply negb_true_iff, Z.eqb_neq. intros Hz. apply (f_equal (fun x => Z.testbit x k)) in Hz.
    rewrite Z.land_spec, Z.shiftl_spec, Z.sub_diag, E, Z.testbit_0_l in Hz by lia. done.
  - apply negb_false_iff, Z.eqb_eq. apply Z.bits_inj'; intros i Hi.
    rewrite Z.land_spec, Z.shiftl_spec, Z.testbit_0_l by lia.
    destruct (Z.eq_dec i k) as [->|]; [by rewrite E|].
    destruct (Z.ltb_spec (i - k) 0); [by rewrite (Z.testbit_neg_r 1), andb_false_r|].
    rewrite (testbit_above 1 1) by lia. by rewrite andb_false_r.
Qed.

Lemma raw_present_bit r : raw_present r = Z.testbit r 0.
Proof. apply (flag_testbit r 0). lia. Qed.

Lemma raw_huge_bit r : raw_huge r = Z.testbit r 7.
Proof. apply (flag_testbit r 7). lia. Qed.

Lemma testbit_ADDR_MASK i : 0 <= i -> Z.testbit ADDR_MASK i = (12 <=? i) && (i <? 52).
Proof.
  intros Hi. change ADDR_MASK with (Z.shiftl (Z.ones 40) 12). rewrite Z.shiftl_spec by lia.
  destruct (Z.leb_spec 12 i).
  - rewrite testbit_ones by lia. simpl. destruct (Z.ltb_spec (i - 12) 40), (Z.ltb_spec i 52); lia.
  - by rewrite Z.testbit_neg_r by lia.
Qed.

Lemma land_ADDR_MASK_range r : 0 <= Z.land r ADDR_MASK < 2 ^ 52.
Proof.
  assert (H0 : 0 <= Z.land r ADDR_MASK) by (apply Z.land_nonneg; by right).
  split; [done|]. destruct (Z.eq_dec (Z.land r ADDR_MASK) 0) as [->|]; [done|].
  apply Z.log2_lt_pow2; [lia|]. destruct (Z.lt_ge_cases (Z.log2 (Z.land r ADDR_MASK)) 52) as [|Hge]; [done|].
  pose proof (Z.bit_log2 (Z.land r ADDR_MASK)) as Hb.
  rewrite Z.land_spec, testbit_ADDR_MASK in Hb by lia.
  rewrite (proj2 (Z.ltb_ge _ _)) in Hb by lia. rewrite !andb_false_r in Hb. specialize (Hb ltac:(lia)). done.
Qed.

(** The address part of a 4 KiB aligned physical address is the address. *)
Lemma aligned_addr p : 0 <= p < 2 ^ 52 -> p mod 4096 = 0 -> Z.land p ADDR_MASK = p.
Proof.
  intros Hp Ha. apply Z.bits_inj'; intros i Hi. rewrite Z.land_spec, testbit_ADDR_MASK by lia.
  destruct (Z.leb_spec 12 i), (Z.ltb_spec i 52); cbn [andb]; rewrite ?andb_true_r, ?andb_false_r; [done| | |];
    symmetry; [by apply (testbit_above p 52)| |lia].
  change 4096 with (2 ^ 12) in Ha. rewrite <- (Z.mod_pow2_bits_low p 12), Ha by lia.
  apply Z.testbit_0_l.
Qed.

(** A word made of an address part and flags outside it. *)
Lemma entry_word_addr p f :
  Z.land f ADDR_MASK = 0 ->
  Z.land (Z.lor (Z.land p ADDR_MASK) f) ADDR_MASK = Z.land p ADDR_MASK.
Proof.
  intros Hf. rewrite Z.land_lor_distr_l, Hf, Z.lor_0_r, <- Z.land_assoc, Z.land_diag. done.
Qed.

Lemma entry_word_bit p f k :
  0 <= k -> k < 12 \/ 52 <= k -> Z.testbit (Z.lor (Z.land p ADDR_MASK) f) k = Z.testbit f k.
Proof.
  intros Hk Hr. rewrite Z.lor_spec, Z.land_spec, testbit_ADDR_MASK by lia.
  destruct (Z.leb_spec 12 k), (Z.ltb_spec k 52); try lia; cbn [andb];
    by rewrite ?andb_false_r.
Qed.

(** What each bit of [build_flags] says. *)
Lemma build_flags_spec `{Bitflags} attr :
  let f := build_flags attr in
  Z.land f ADDR_MASK = 0 /\ Z.testbit f 0 = true /\
  Z.testbit f 1 = contains (vm_rights attr) VMRights.WRITE /\
  Z.testbit f 2 = user attr /\ Z.testbit f 8 = global attr /\
  Z.testbit f 63 = negb (contains (vm_rights attr) VMRights.EXECUTE) /\
  Z.testbit f 7 = false /\
  (Z.testbit f 3, Z.testbit f 4) =
    match cache attr with
    | WriteBack => (false, false) | WriteThrough => (true, false)
    | Uncacheable => (false, true) | WriteCombining => (true, true)
    end.
Proof.
  unfold build_flags. destruct (contains _ VMRights.WRITE), (contains _ VMRights.EXECUTE),
    (user attr), (global attr), (cache attr); vm_compute; by split_and!.
Qed.

Lemma build_flags_huge `{Bitflags} attr :
  Z.land (Z.lor (build_flags attr) HUGE_PAGE) ADDR_MASK = 0 /\
  Z.testbit (Z.lor (build_flags attr) HUGE_PAGE) 0 = true /\
  Z.testbit (Z.lor (build_flags attr) HUGE_PAGE) 7 = true.
Proof.
  destruct (build_flags_spec attr) as (Ha & Hp & _ & _ & _ & _ & H7 & _).
  rewrite Z.land_lor_distr_l, Ha, !Z.lor_spec, Hp, H7. by split_and!.
Qed.

(** Decoding the entries that the code builds. *)
Lemma new_page_decode `{Bitflags} p attr :
  is_present (new_page p attr) = true /\ is_page (new_page p attr) = true /\
  entry_addr (new_page p attr) = Z.land p ADDR_MASK.
Proof.
  destruct (build_flags_spec attr) as (Ha & Hp & _). simpl.
  rewrite !raw_present_bit, entry_word_bit, entry_word_addr by (done || lia). done.
Qed.

Lemma new_large_page_decode `{Bitflags} p attr :
  is_present (new_large_page p attr) = true /\ is_page (new_large_page p attr) = true /\
  is_table (new_large_page p attr) = false /\
  entry_addr (new_large_page p attr) = Z.land p ADDR_MASK.
Proof.
  destruct (build_flags_huge attr) as (Ha & Hp & Hh). simpl.
  rewrite !raw_present_bit, !raw_huge_bit, !entry_word_bit, entry_word_addr, Hp, Hh
    by (done || lia). done.
Qed.

Lemma new_huge_page_decode `{Bitflags} p attr :
  is_present (new_huge_page p attr) = true /\ is_page (new_huge_page p attr) = true /\
  is_table (new_huge_page p attr) = false /\
  entry_addr (new_huge_page p attr) = Z.land p ADDR_MASK.
Proof. exact (new_large_page_decode p attr). Qed.

Lemma table_word_decode p :
  raw_present (table_word p) = true /\ raw_huge (table_word p) = false /\
  Z.land (table_word p) ADDR_MASK = Z.land p ADDR_MASK.
Proof.
  unfold table_word. rewrite <- !Z.lor_assoc.
  rewrite raw_present_bit, raw_huge_bit, !entry_word_bit, entry_word_addr by (done || lia).
  done.
Qed.

(** [PageTableEntry::paddr] never panics: the address part has no bit above 51. *)
Lemma entry_paddr_run `{X86AddrLaws} {S} (s : S) r :
  unwrap_or_panic (phys_addr_new (Z.land r ADDR_MASK)) s = (s, Done (Z.land r ADDR_MASK)).
Proof. by rewrite (phys_addr_new_ok _ (land_ADDR_MASK_range r)). Qed.

(** ** Whole tables *)

Lemma load_some a w (m : Mem) : m !! a = Some w -> Table.load a m = (m, Done w).
Proof. intros Ha. unfold Table.load. by rewrite Ha. Qed.

(** The words of the entries [i] to [i + n - 1]. *)
Lemma clear_loop_run n : forall table i (m : Mem),
  (forall k, i <= k < i + Z.of_nat n -> is_Some (m !! Table.entry_at table k)) ->
  exists m', Table.clear_loop n table i m = (m', Done tt) /\
    (forall k, i <= k < i + Z.of_nat n -> m' !! Table.entry_at table k = Some 0) /\
    (forall a, (forall k, i <= k < i + Z.of_nat n -> a <> Table.entry_at table k) -> m' !! a = m !! a).
Proof.
  induction n as [|n IH]; intros table i m Hp; cbn [Table.clear_loop].
  { exists m. split_and!; [done|intros; lia|done]. }
  destruct (Hp i) as [w Hw]; [lia|]. set (m1 := <[Table.entry_at table i := 0]> m).
  rewrite (bind_done _ _ m m1 tt) by (unfold Table.store; by rewrite (bind_done _ _ _ _ _ (load_some _ _ _ Hw))).
  destruct (IH table (i + 1) m1) as (m' & E & Hz & Ho).
  { intros k Hk. unfold m1. destruct (decide (Table.entry_at table i = Table.entry_at table k)) as [->|];
      [rewrite lookup_insert_eq; by eexists|rewrite lookup_insert_ne by done; apply Hp; lia]. }
  exists m'. split; [exact E|]. split.
  - intros k Hk. destruct (decide (k = i)) as [->|]; [|apply Hz; lia].
    rewrite Ho; [apply lookup_insert_eq|]. intros k' Hk'. unfold Table.entry_at. lia.
  - intros a Ha. rewrite Ho by (intros k Hk; apply Ha; lia). unfold m1. apply lookup_insert_ne, not_eq_sym, Ha. lia.
Qed.

(** [iter_mut] visits, in order, the entries that [get_mut] gives, and ends where it gives none. *)
Lemma iter_mut_get_mut table i : Table.iter_mut table !! i = Table.get_mut table (Z.of_nat i).
Proof.
  unfold Table.iter_mut, Table.get_mut. rewrite list_lookup_fmap.
  destruct (Z.ltb_spec (Z.of_nat i) ENTRIES_PER_TABLE) as [Hi|Hi].
  - by rewrite lookup_seq_lt by (unfold ENTRIES_PER_TABLE in *; lia).
  - by rewrite lookup_seq_ge by (unfold ENTRIES_PER_TABLE in *; lia).
Qed.

(** [iter] reads what is stored at the addresses of [iter_mut]. *)
Lemma iter_loop_reads {E} `{PageTableEntry E} n : forall table i (m : Mem) ws,
  mapM (fun k => m !! Table.entry_at table (i + Z.of_nat k)) (seq 0 n) = Some ws ->
  Table.iter_loop n table i m = (m, Done (map from_raw ws)).
Proof.
  induction n as [|n IH]; intros table i m ws; cbn [Table.iter_loop seq].
  - by intros [= <-].
  - intros Hw. apply mapM_Some in Hw. apply Forall2_cons_inv_l in Hw as (w & ws' & Hw & Hws & ->).
    rewrite Z.add_0_r in Hw.
    rewrite (bind_done _ _ _ m w) by (unfold Table.load; by rewrite Hw).
    rewrite (bind_done _ _ _ m (map from_raw ws')); [done|]. apply IH.
    apply mapM_Some. rewrite <- fmap_S_seq in Hws. apply Forall2_fmap_l in Hws.
    eapply Forall2_impl; [exact Hws|]. intros k v Hk. cbn in Hk. rewrite <- Hk. do 2 f_equal. lia.
Qed.

Lemma iter_reads {E} `{PageTableEntry E} table (m : Mem) ws :
  mapM (fun a => m !! a) (Table.iter_mut table) = Some ws ->
  Table.iter table m = (m, Done (map from_raw ws)).
Proof.
  intros Hw. apply iter_loop_reads. apply mapM_Some in Hw. apply mapM_Some.
  unfold Table.iter_mut in Hw. by apply Forall2_fmap_l in Hw.
Qed.

Lemma iter_loop_run {E} `{PageTableEntry E} n : forall table i (m : Mem),
  (forall k, i <= k < i + Z.of_nat n -> m !! Table.entry_at table k = Some 0) ->
  Table.iter_loop n table i m = (m, Done (replicate n (from_raw 0))).
Proof.
  induction n as [|n IH]; intros table i m Hz; cbn [Table.iter_loop replicate]; [done|].
  rewrite (bind_done _ _ _ _ _ (load_some _ _ _ (Hz i ltac:(lia)))).
  by rewrite (bind_done _ _ _ _ _ (IH table (i + 1) m ltac:(intros; apply Hz; lia))).
Qed.

(** A cleared table reads as a new one, and no word outside of it has changed. *)
Lemma clear_iter {E} `{PageTableEntry E} table (m : Mem) :
  (forall k, 0 <= k < ENTRIES_PER_TABLE -> is_Some (m !! Table.entry_at table k)) ->
  exists m', Table.clear table m = (m', Done tt) /\ Table.iter table m' = (m', Done (Table.new (E := E))) /\
    (forall a, (forall k, 0 <= k < ENTRIES_PER_TABLE -> a <> Table.entry_at table k) -> m' !! a = m !! a).
Proof.
  intros Hp. destruct (clear_loop_run (Z.to_nat ENTRIES_PER_TABLE) table 0 m) as (m' & Ec & Hz & Ho); [done|].
  exists m'. split; [exact Ec|]. split; [by apply iter_loop_run|done].
Qed.

(** ** The properties *)

Module Claims.

(** C32: the entries that the kernel writes decode to what they were built from: for a 4 KiB aligned
    physical address below 2^52 the page entries of the three sizes are present, are pages (the
    two large ones are no tables), carry the address, and are writable, user-accessible, global
    and executable exactly as the attributes say; the table entries are present tables, no pages,
    and carry the address.  A table whose words are all there and that is cleared reads, entry by
    entry, as a new table, and no word outside of it has changed. *)
Theorem entry_roundtrip `{Bitflags} p attr :
  0 <= p < 2 ^ 52 -> p mod 4096 = 0 ->
  (is_page (new_page p attr) = true /\ entry_addr (new_page p attr) = p) /\
  (is_page (new_large_page p attr) = true /\ is_table (new_large_page p attr) = false /\
   entry_addr (new_large_page p attr) = p) /\
  (is_page (new_huge_page p attr) = true /\ is_table (new_huge_page p attr) = false /\
   entry_addr (new_huge_page p attr) = p) /\
  (forall w, w = pte_raw (new_page p attr) \/ w = pde_raw (new_large_page p attr) \/
             w = pdpte_raw (new_huge_page p attr) ->
     Z.testbit w 1 = contains (vm_rights attr) VMRights.WRITE /\
     Z.testbit w 2 = user attr /\ Z.testbit w 8 = global attr /\
     Z.testbit w 63 = negb (contains (vm_rights attr) VMRights.EXECUTE)) /\
  (is_table (pml4e_new_table p) = true /\ entry_addr (pml4e_new_table p) = p) /\
  (is_table (pdpte_new_table p) = true /\ is_page (pdpte_new_table p) = false /\ entry_addr (pdpte_new_table p) = p) /\
  (is_table (pde_new_table p) = true /\ is_page (pde_new_table p) = false /\ entry_addr (pde_new_table p) = p) /\
  (forall E `(PageTableEntry E) table m,
     (forall k, 0 <= k < ENTRIES_PER_TABLE -> is_Some (m !! Table.entry_at table k)) ->
     exists m', Table.clear table m = (m', Done tt) /\ Table.iter table m' = (m', Done (Table.new (E := E))) /\
       (forall a, (forall k, 0 <= k < ENTRIES_PER_TABLE -> a <> Table.entry_at table k) -> m' !! a = m !! a)).
Proof.
  intros Hp Ha. pose proof (aligned_addr p Hp Ha) as Ep.
  destruct (new_page_decode p attr) as (_ & P1 & P2). destruct (new_large_page_decode p attr) as (_ & L1 & L2 & L3).
  destruct (new_huge_page_decode p attr) as (_ & G1 & G2 & G3). destruct (table_word_decode p) as (T1 & T2 & T3).
  rewrite Ep in P2, L3, G3, T3. split_and!; try done.
  - intros w Hw. destruct (build_flags_spec attr) as (_ & _ & F1 & F2 & F8 & F63 & _).
    destruct Hw as [-> |[-> | ->]]; cbn [pte_raw new_page pde_raw new_large_page pdpte_raw new_huge_page];
      rewrite !entry_word_bit by lia; [done|..]; rewrite !Z.lor_spec, F1, F2, F8, F63; by rewrite !orb_false_r.
  - cbn [is_table is_page pdpte_new_table pde_new_table Pdpte_entry Pde_entry pdpte_raw pde_raw]. by rewrite T1, T2.
  - cbn [is_table is_page pdpte_new_table pde_new_table Pdpte_entry Pde_entry pdpte_raw pde_raw]. by rewrite T1, T2.
  - cbn [is_table is_page pdpte_new_table pde_new_table Pdpte_entry Pde_entry pdpte_raw pde_raw]. by rewrite T1, T2.
  - cbn [is_table is_page pdpte_new_table pde_new_table Pdpte_entry Pde_entry pdpte_raw pde_raw]. by rewrite T1, T2.
  - intros E HE table m. apply clear_iter.
Qed.

Lemma entry_roundtrip_witness :
  entry_addr (new_page (H := ref_bitflags) 0x5000 VMAttributesImpl.device) = 0x5000.
Proof. apply (entry_roundtrip (H := ref_bitflags) 0x5000 VMAttributesImpl.device); [lia|reflexivity]. Defined.
End Claims.
