(* ===== verification/Frames.v ===== *)
(** Frame capabilities: [src/kernel/src/objects/frame.rs].

    [arg1] of a frame capability packs four bit fields: the size (bits 0-5),
    the device flag (bit 6), the cache policy (bits 7-9) and the ASID the frame
    is mapped in (bits 10-25); [arg2] is the mapped virtual address.  The
    [raw_*] functions decode a [CapRaw]; the methods read the entry first. *)
From S2P Require Import Prelude Errors Caps Tcb PageTable.

Module FrameSizeImpl.

(** [FrameSize::bits] and [size as usize]. *)
Definition bits (f : FrameSize) : Z :=
  match f with Small => 12 | Large => 21 | Huge => 30 end.

(** [FrameSize::bytes]. *)
Definition bytes (f : FrameSize) : Z := bit (bits f).

(** [FrameSize::from_bits]. *)
Definition from_bits (b : Z) : option FrameSize :=
  match b with
  | 12 => Some Small
  | 21 => Some Large
  | 30 => Some Huge
  | _ => None
  end.

(** [FrameSize::align_mask]. *)
Definition align_mask (f : FrameSize) : Z := bytes f - 1.

(** [FrameSize::is_aligned]. *)
Definition is_aligned (f : FrameSize) (addr : Z) : bool := Z.land addr (align_mask f) =? 0.

End FrameSizeImpl.

Module FrameCap.

Definition CACHE_POLICY_OFFSET : Z := 7.
Definition CACHE_POLICY_WIDTH : Z := 3.
Definition IS_DEVICE_OFFSET : Z := 6.
Definition MAPPED_ASID_OFFSET : Z := 10.
Definition MAPPED_ASID_WIDTH : Z := 16.
Definition MAPPED_VADDR_OFFSET : Z := 0.
Definition SIZE_BITS_OFFSET : Z := 0.
Definition SIZE_BITS_WIDTH : Z := 6.

(** The [arg1] built by [mint] and [mint_with_cache]. *)
Definition frame_arg1 (size : FrameSize) (is_device : bool) (cache_v : Z) : Z :=
  Z.lor (Z.lor (shl64 (FrameSizeImpl.bits size) SIZE_BITS_OFFSET)
               (shl64 (bool_as_usize is_device) IS_DEVICE_OFFSET))
        (shl64 cache_v CACHE_POLICY_OFFSET).

Definition frame_cap (paddr_v a1 rights_v : Z) : CapRaw :=
  set_rights rights_v (set_arg2 0 (set_arg1 a1 (set_paddr paddr_v (default_with_type Frame)))).

(** [FrameCap::mint]. *)
Definition mint `{Build} {S} (paddr_v : Z) (size : FrameSize) (is_device : bool) (rights_v : Z)
  : M S CapRaw :=
  do! debug_assert (Z.land paddr_v (bit (FrameSizeImpl.bits size) - 1) =? 0) in
  let cache_v := if is_device then cache_as_usize Uncacheable else cache_as_usize WriteBack in
  ret (frame_cap paddr_v (frame_arg1 size is_device cache_v) rights_v).

(** [FrameCap::mint_with_cache]. *)
Definition mint_with_cache (paddr_v : Z) (size : FrameSize) (is_device : bool)
  (policy : CachePolicy) (rights_v : Z) : CapRaw :=
  frame_cap paddr_v (frame_arg1 size is_device (cache_as_usize policy)) rights_v.

(** [FrameCap::size]. *)
Definition raw_size (c : CapRaw) : FrameSize :=
  default Small (FrameSizeImpl.from_bits (get_field (arg1 c) SIZE_BITS_OFFSET SIZE_BITS_WIDTH)).
Definition size (c : CapRef FrameObj) : M Slots FrameSize :=
  let! r := entry_get (raw c) in ret (raw_size r).

(** [FrameCap::size_bytes]. *)
Definition size_bytes (c : CapRef FrameObj) : M Slots Z :=
  let! f := size c in ret (FrameSizeImpl.bytes f).

(** [FrameCap::size_bits]. *)
Definition size_bits (c : CapRef FrameObj) : M Slots Z :=
  let! f := size c in ret (FrameSizeImpl.bits f).

(** [FrameCap::is_device]. *)
Definition raw_is_device (c : CapRaw) : bool :=
  negb (Z.land (Z.shiftr (arg1 c) IS_DEVICE_OFFSET) 1 =? 0).
Definition is_device (c : CapRef FrameObj) : M Slots bool :=
  let! r := entry_get (raw c) in ret (raw_is_device r).

(** [FrameCap::cache_policy]. *)
Definition raw_cache_policy (c : CapRaw) : CachePolicy :=
  match get_field (arg1 c) CACHE_POLICY_OFFSET CACHE_POLICY_WIDTH with
  | 0 => WriteBack
  | 1 => WriteThrough
  | 2 => Uncacheable
  | 3 => WriteCombining
  | _ => WriteBack
  end.
Definition cache_policy (c : CapRef FrameObj) : M Slots CachePolicy :=
  let! r := entry_get (raw c) in ret (raw_cache_policy r).

(** [FrameCap::set_cache_policy]. *)
Definition set_cache_policy (c : CapRef FrameObj) (policy : CachePolicy) : M Slots unit :=
  let! r := entry_get (raw c) in
  entry_set (raw c)
    (set_arg1 (set_field (arg1 r) CACHE_POLICY_OFFSET CACHE_POLICY_WIDTH (cache_as_usize policy)) r).

(** [FrameCap::mapped_asid]. *)
Definition raw_mapped_asid (c : CapRaw) : Z :=
  get_field (arg1 c) MAPPED_ASID_OFFSET MAPPED_ASID_WIDTH.
Definition mapped_asid (c : CapRef FrameObj) : M Slots Z :=
  let! r := entry_get (raw c) in ret (raw_mapped_asid r).

(** [FrameCap::mapped_vaddr]. *)
Definition mapped_vaddr (c : CapRef FrameObj) : M Slots Z :=
  let! r := entry_get (raw c) in ret (arg2 r).

(** [FrameCap::is_mapped]. *)
Definition is_mapped (c : CapRef FrameObj) : M Slots bool :=
  let! a := mapped_asid c in ret (negb (a =? 0)).

(** [FrameCap::set_mapped]. *)
Definition set_mapped (c : CapRef FrameObj) (asid vaddr : Z) : M Slots (result unit SysError) :=
  let! m := is_mapped c in
  if m then ret (Err FrameAlreadyMapped)
  else
    let! r := entry_get (raw c) in
    do! entry_set (raw c)
      (set_arg2 vaddr (set_arg1 (set_field (arg1 r) MAPPED_ASID_OFFSET MAPPED_ASID_WIDTH asid) r)) in
    ret (Ok tt).

(** [FrameCap::clear_mapped]. *)
Definition clear_mapped (c : CapRef FrameObj) : M Slots unit :=
  let! r := entry_get (raw c) in
  entry_set (raw c)
    (set_arg2 0 (set_arg1
       (Z.land (arg1 r) (not64 (shl64 (mask MAPPED_ASID_WIDTH) MAPPED_ASID_OFFSET))) r)).

(** [FrameCap::vm_rights_from_cap]. *)
Definition raw_vm_rights `{Bitflags} (cap_rights : Z) : Z :=
  let vm := VMRights.NONE in
  let vm := if contains cap_rights CapRights.READ then flags_or vm VMRights.READ else vm in
  let vm := if contains cap_rights CapRights.WRITE then flags_or vm VMRights.WRITE else vm in
  if contains cap_rights CapRights.EXECUTE then flags_or vm VMRights.EXECUTE else vm.
Definition vm_rights_from_cap `{Bitflags} (c : CapRef FrameObj) : M Slots Z :=
  let! r := ref_rights c in ret (raw_vm_rights r).

(** [FrameCap::vm_attributes]. *)
Definition vm_attributes `{Bitflags} (c : CapRef FrameObj) (user_v : bool) : M Slots VMAttributes :=
  let! r := vm_rights_from_cap c in
  let! p := cache_policy c in
  ret (mkAttr r p false user_v).

(** [FrameCap::identify]. *)
Definition identify `{Build} `{X86Addr} (c : CapRef FrameObj) (t : Tcb) : M Slots (Tcb * Z) :=
  let! t := TcbImpl.set_mr t TcbImpl.MR1 (obj_type_as_usize (ref_cap_type c)) in
  let! p := ref_paddr c in
  let! t := TcbImpl.set_mr t TcbImpl.MR2 p in
  let! b := size_bits c in
  let! t := TcbImpl.set_mr t TcbImpl.MR3 b in
  let! d := is_device c in
  let! t := TcbImpl.set_mr t TcbImpl.MR4 (bool_as_usize d) in
  let! v := mapped_vaddr c in
  let! t := TcbImpl.set_mr t TcbImpl.MR5 v in
  let! a := mapped_asid c in
  let! t := TcbImpl.set_mr t TcbImpl.MR6 a in
  ret (t, 6).

End FrameCap.

(** ** Lemmas *)

Lemma from_bits_bits f : FrameSizeImpl.from_bits (FrameSizeImpl.bits f) = Some f.
Proof. by destruct f. Qed.

Lemma bits_range f : 0 <= FrameSizeImpl.bits f < 64.
Proof. destruct f; simpl; lia. Qed.

(** Alignment is divisibility by the frame size. *)
Lemma is_aligned_spec f a :
  FrameSizeImpl.is_aligned f a = true <-> a mod 2 ^ FrameSizeImpl.bits f = 0.
Proof.
  unfold FrameSizeImpl.is_aligned, FrameSizeImpl.align_mask, FrameSizeImpl.bytes.
  change (bit (FrameSizeImpl.bits f) - 1) with (mask (FrameSizeImpl.bits f)).
  pose proof (bits_range f). rewrite mask_ones, Z.land_ones by lia. apply Z.eqb_eq.
Qed.

(** Decoding a freshly minted frame capability. *)
Lemma frame_cap_decode p f d pol r :
  let c := FrameCap.frame_cap p (FrameCap.frame_arg1 f d (cache_as_usize pol)) r in
  FrameCap.raw_size c = f /\ FrameCap.raw_is_device c = d /\
  FrameCap.raw_cache_policy c = pol /\ FrameCap.raw_mapped_asid c = 0.
Proof. by destruct f, d, pol. Qed.

(** VM rights of a capability are its read, write and execute rights. *)
Lemma vm_rights_spec `{BitflagsLaws} r :
  contains (FrameCap.raw_vm_rights r) VMRights.READ = CapRights.includes r CapRights.READ /\
  contains (FrameCap.raw_vm_rights r) VMRights.WRITE = CapRights.includes r CapRights.WRITE /\
  contains (FrameCap.raw_vm_rights r) VMRights.EXECUTE = CapRights.includes r CapRights.EXECUTE.
Proof.
  unfold FrameCap.raw_vm_rights. rewrite !contains_includes, !flags_or_lor.
  by destruct (CapRights.includes r CapRights.READ), (CapRights.includes r CapRights.WRITE),
    (CapRights.includes r CapRights.EXECUTE).
Qed.

(** Setting one field of [arg1] keeps the fields next to it. *)
Lemma raw_is_device_field c : FrameCap.raw_is_device c = negb (get_field (arg1 c) 6 1 =? 0).
Proof. done. Qed.

Section fields.
Context (c : CapRaw) (Hc : u64 (arg1 c)).

Lemma set_asid_fields asid v :
  0 <= asid < 2 ^ 16 ->
  let c' := set_arg2 v (set_arg1 (set_field (arg1 c) 10 16 asid) c) in
  FrameCap.raw_mapped_asid c' = asid /\ arg2 c' = v /\
  FrameCap.raw_size c' = FrameCap.raw_size c /\
  FrameCap.raw_is_device c' = FrameCap.raw_is_device c /\
  FrameCap.raw_cache_policy c' = FrameCap.raw_cache_policy c.
Proof.
  intros Ha c'. rewrite !raw_is_device_field.
  unfold FrameCap.raw_mapped_asid, FrameCap.raw_size, FrameCap.raw_cache_policy,
    FrameCap.MAPPED_ASID_OFFSET, FrameCap.MAPPED_ASID_WIDTH, FrameCap.SIZE_BITS_OFFSET,
    FrameCap.SIZE_BITS_WIDTH, FrameCap.CACHE_POLICY_OFFSET, FrameCap.CACHE_POLICY_WIDTH, c'.
  cbn [arg1 arg2 set_arg1 set_arg2].
  rewrite get_set_same, !get_set_other by (done || lia). done.
Qed.

Lemma set_cache_fields pol :
  let c' := set_arg1 (set_field (arg1 c) 7 3 (cache_as_usize pol)) c in
  FrameCap.raw_cache_policy c' = pol /\
  FrameCap.raw_mapped_asid c' = FrameCap.raw_mapped_asid c /\
  FrameCap.raw_size c' = FrameCap.raw_size c /\
  FrameCap.raw_is_device c' = FrameCap.raw_is_device c.
Proof.
  intros c'. assert (Hp : 0 <= cache_as_usize pol < 2 ^ 3) by (destruct pol; simpl; lia).
  rewrite !raw_is_device_field.
  unfold FrameCap.raw_mapped_asid, FrameCap.raw_size, FrameCap.raw_cache_policy,
    FrameCap.MAPPED_ASID_OFFSET, FrameCap.MAPPED_ASID_WIDTH, FrameCap.SIZE_BITS_OFFSET,
    FrameCap.SIZE_BITS_WIDTH, FrameCap.CACHE_POLICY_OFFSET, FrameCap.CACHE_POLICY_WIDTH, c'.
  cbn [arg1 set_arg1].
  rewrite get_set_same, !get_set_other by (done || lia). split_and!; [by destruct pol|done|done|done].
Qed.

(** Clearing a field is setting it to zero. *)
Lemma clear_field_set off w x :
  Z.land x (not64 (shl64 (mask w) off)) = set_field x off w 0.
Proof. unfold set_field, shl64. by rewrite Z.shiftl_0_l, Z.lor_0_r. Qed.
End fields.

Section methods.
Context (s : Slots) (a : Z) (c : CapRaw) (Ha : s !! a = Some c).

Lemma is_mapped_run :
  FrameCap.is_mapped (mkCapRef a) s = (s, Done (negb (FrameCap.raw_mapped_asid c =? 0))).
Proof.
  unfold FrameCap.is_mapped.
  by rewrite (bind_done _ _ _ s (FrameCap.raw_mapped_asid c)) by by apply entry_read.
Qed.

Lemma set_mapped_run asid v :
  FrameCap.set_mapped (mkCapRef a) asid v s =
  if FrameCap.raw_mapped_asid c =? 0 then
    (<[a := set_arg2 v (set_arg1 (set_field (arg1 c) 10 16 asid) c)]> s, Done (Ok tt))
  else (s, Done (Err FrameAlreadyMapped)).
Proof.
  unfold FrameCap.set_mapped. rewrite (bind_done _ _ _ _ _ is_mapped_run).
  destruct (FrameCap.raw_mapped_asid c =? 0); [|done]. cbn [negb].
  rewrite (bind_done _ _ _ s c) by by apply entry_get_some.
  by rewrite (bind_done _ _ _ _ _ (entry_set_some _ _ _ _ Ha)).
Qed.

Lemma clear_mapped_run :
  FrameCap.clear_mapped (mkCapRef a) s =
  (<[a := set_arg2 0 (set_arg1 (set_field (arg1 c) 10 16 0) c)]> s, Done tt).
Proof.
  unfold FrameCap.clear_mapped.
  rewrite (bind_done _ _ _ s c) by by apply entry_get_some. rewrite clear_field_set.
  by apply entry_set_some with (c := c).
Qed.
End methods.

(** ** The properties *)

Module Claims.

(** C33: the mapping record of a frame capability: on a capability with no recorded mapping,
    [set_mapped] with a non-zero ASID records ASID and address and keeps size, device flag and
    cache policy; a second [set_mapped] then fails without a change whatever its arguments, and
    [clear_mapped] returns to the unmapped state with the same size, device flag and policy. *)
Theorem mapping_record_roundtrip s a c asid v :
  s !! a = Some c -> u64 (arg1 c) -> FrameCap.raw_mapped_asid c = 0 -> 0 < asid < 2 ^ 16 ->
  exists s1 s2 c1 c2,
    FrameCap.set_mapped (mkCapRef a) asid v s = (s1, Done (Ok tt)) /\ s1 = <[a := c1]> s /\
    FrameCap.raw_mapped_asid c1 = asid /\ arg2 c1 = v /\
    (forall asid' v', FrameCap.set_mapped (mkCapRef a) asid' v' s1 = (s1, Done (Err FrameAlreadyMapped))) /\
    FrameCap.clear_mapped (mkCapRef a) s1 = (s2, Done tt) /\ s2 = <[a := c2]> s /\
    FrameCap.raw_mapped_asid c2 = 0 /\ arg2 c2 = 0 /\
    (forall c', c' = c1 \/ c' = c2 ->
       FrameCap.raw_size c' = FrameCap.raw_size c /\
       FrameCap.raw_is_device c' = FrameCap.raw_is_device c /\
       FrameCap.raw_cache_policy c' = FrameCap.raw_cache_policy c /\ paddr c' = paddr c /\ rights c' = rights c).
Proof.
  intros Ha Hc Hm Has.
  set (c1 := set_arg2 v (set_arg1 (set_field (arg1 c) 10 16 asid) c)).
  set (c2 := set_arg2 0 (set_arg1 (set_field (arg1 c1) 10 16 0) c1)).
  assert (H1 : u64 (arg1 c1)) by (by apply set_field_u64).
  destruct (set_asid_fields c Hc asid v) as (A1 & A2 & A3 & A4 & A5); [lia|].
  destruct (set_asid_fields c1 H1 0 0) as (B1 & B2 & B3 & B4 & B5); [lia|].
  fold c1 in A1, A2, A3, A4, A5. fold c2 in B1, B2, B3, B4, B5.
  assert (L1 : <[a := c1]> s !! a = Some c1) by apply lookup_insert_eq.
  exists (<[a := c1]> s), (<[a := c2]> s), c1, c2. split_and!; try done.
  - rewrite (set_mapped_run s a c Ha), Hm. done.
  - intros asid' v'. rewrite (set_mapped_run _ a c1 L1), A1.
    by rewrite (proj2 (Z.eqb_neq asid 0)) by lia.
  - rewrite (clear_mapped_run _ a c1 L1). by rewrite insert_insert_eq.
  - intros c' [-> | ->]; split_and!; done || congruence.
Qed.

Lemma mapping_record_roundtrip_witness :
  exists s1, FrameCap.set_mapped (mkCapRef 64) 3 0x4000
      {[64 := FrameCap.mint_with_cache 0x5000 Small true Uncacheable CapRights.READ]} = (s1, Done (Ok tt)) /\
    FrameCap.set_mapped (mkCapRef 64) 4 0x8000 s1 = (s1, Done (Err FrameAlreadyMapped)).
Proof.
  destruct (mapping_record_roundtrip {[64 := FrameCap.mint_with_cache 0x5000 Small true Uncacheable CapRights.READ]} 64
    (FrameCap.mint_with_cache 0x5000 Small true Uncacheable CapRights.READ) 3 0x4000)
    as (s1 & s2 & c1 & c2 & E & _ & _ & _ & F & _).
  - reflexivity.
  - vm_compute. by split.
  - reflexivity.
  - lia.
  - exists s1. split; [exact E|apply F].
Defined.
End Claims.
