(* ===== verification/VSpace.v ===== *)
(** Virtual address spaces: [src/kernel/src/objects/vspace.rs].

    The operations read the VSpace capability (entry store), walk and edit page
    tables in memory, and flush the TLB; the state holds the entry store, the
    memory and the list of flushed addresses (latest first).  [OFFSET] is the
    const generic of the code: the virtual address at which physical memory is
    mapped.

    The specification is the [walk] itself as a partial function from virtual
    addresses to mappings: [map_*], [unmap] and [install_table] are shown to
    change it at the target and nowhere else, provided the tables form a tree
    ([pt_tree]): no entry is reached by two different paths. *)
From S2P Require Import Prelude Errors Caps Tcb PageTable Frames.

Definition ASID_MAX : Z := 0xFFFF.

Record VState : Type := mkV { v_slots : Slots; v_mem : Mem; v_flushes : list Z }.

Definition onslots {A} : M Slots A -> M VState A :=
  zoom v_slots (fun t s => mkV t (v_mem s) (v_flushes s)).
Definition onmem {A} : M Mem A -> M VState A :=
  zoom v_mem (fun t s => mkV (v_slots s) t (v_flushes s)).

(** [arch::vspace::tlb::flush_page]: [invlpg]. *)
Definition flush_page (vaddr : Z) : M VState unit :=
  modify (fun s => mkV (v_slots s) (v_mem s) (vaddr :: v_flushes s)).

Module VSpaceCap.

Definition ASID_OFFSET : Z := 0.
Definition ASID_WIDTH : Z := 16.
Definition IS_ACTIVE_OFFSET : Z := 16.

(** [VSpaceCap::mint]. *)
Definition mint `{Build} {S} (pml4_paddr asid_v rights_v : Z) : M S CapRaw :=
  do! debug_assert (Z.land pml4_paddr 0xFFF =? 0) in
  ret (set_rights rights_v (set_arg2 0 (set_arg1 (shl64 asid_v ASID_OFFSET)
        (set_paddr pml4_paddr (default_with_type VSpace))))).

(** [VSpaceCap::asid]. *)
Definition asid (c : CapRef VSpaceObj) : M Slots Z :=
  let! r := entry_get (raw c) in ret (get_field (arg1 r) ASID_OFFSET ASID_WIDTH).

(** [VSpaceCap::is_active]. *)
Definition is_active (c : CapRef VSpaceObj) : M Slots bool :=
  let! r := entry_get (raw c) in
  ret (negb (Z.land (Z.shiftr (arg1 r) IS_ACTIVE_OFFSET) 1 =? 0)).

(** [VSpaceCap::set_active]. *)
Definition set_active (c : CapRef VSpaceObj) (active : bool) : M Slots unit :=
  let! r := entry_get (raw c) in
  let a1 := if active then Z.lor (arg1 r) (bit IS_ACTIVE_OFFSET)
            else Z.land (arg1 r) (not64 (bit IS_ACTIVE_OFFSET)) in
  entry_set (raw c) (set_arg1 a1 r).

(** [VSpaceCap::root_paddr]. *)
Definition root_paddr `{X86Addr} (c : CapRef VSpaceObj) : M Slots Z := ref_paddr c.

(** [VSpaceCap::identify]. *)
Definition identify `{Build} `{X86Addr} (c : CapRef VSpaceObj) (t : Tcb) : M Slots (Tcb * Z) :=
  let! t := TcbImpl.set_mr t TcbImpl.MR1 (obj_type_as_usize (ref_cap_type c)) in
  let! p := ref_paddr c in
  let! t := TcbImpl.set_mr t TcbImpl.MR2 p in
  let! a := asid c in
  let! t := TcbImpl.set_mr t TcbImpl.MR3 a in
  let! b := is_active c in
  let! t := TcbImpl.set_mr t TcbImpl.MR4 (bool_as_usize b) in
  ret (t, 4).

(** [VSpaceCap::vaddr_indices]. *)
Definition vaddr_indices (vaddr : Z) : Z * Z * Z * Z :=
  (Z.land (Z.shiftr vaddr 39) 0x1FF, Z.land (Z.shiftr vaddr 30) 0x1FF,
   Z.land (Z.shiftr vaddr 21) 0x1FF, Z.land (Z.shiftr vaddr 12) 0x1FF).

(** [VSpaceCap::is_canonical]. *)
Definition is_canonical (vaddr : Z) : bool :=
  let top_bits := Z.shiftr vaddr 47 in (top_bits =? 0) || (top_bits =? 0x1FFFF).

Section ops.
Context `{Build} `{X86Addr} (OFFSET : Z).

(** [VSpaceCap::pml4]. *)
Definition pml4 (c : CapRef VSpaceObj) : M VState Z :=
  let! p := onslots (root_paddr c) in Table.from_paddr OFFSET p.

(** [Table::from_paddr::<OFFSET>(entry.paddr())]. *)
Definition table_of {E} `{PageTableEntry E} (e : E) : M VState Z :=
  let! p := entry_paddr e in Table.from_paddr OFFSET p.

(** [VSpaceCap::walk]. *)
Definition walk (c : CapRef VSpaceObj) (vaddr : Z) : M VState (result WalkResult VSpaceError) :=
  if negb (is_canonical vaddr) then ret (Err InvalidVAddr) else
  let '(pml4_idx, pdpt_idx, pd_idx, pt_idx) := vaddr_indices vaddr in
  let! pml4_t := pml4 c in
  let! pml4e := onmem (Table.index (E := Pml4e) pml4_t pml4_idx) in
  if negb (is_present pml4e) then ret (Ok (WNotMapped 4)) else
  let! pdpt := table_of pml4e in
  let! pdpte := onmem (Table.index (E := Pdpte) pdpt pdpt_idx) in
  if negb (is_present pdpte) then ret (Ok (WNotMapped 3)) else
  if is_page pdpte then
    let! p := entry_paddr pdpte in ret (Ok (MappedPage p Huge 3)) else
  let! pd := table_of pdpte in
  let! pde := onmem (Table.index (E := Pde) pd pd_idx) in
  if negb (is_present pde) then ret (Ok (WNotMapped 2)) else
  if is_page pde then
    let! p := entry_paddr pde in ret (Ok (MappedPage p Large 2)) else
  let! pt := table_of pde in
  let! pte := onmem (Table.index (E := Pte) pt pt_idx) in
  if negb (is_present pte) then ret (Ok (WNotMapped 1)) else
  let! p := entry_paddr pte in
  ret (Ok (MappedPage p Small 1)).

(** [VSpaceCap::map_4k]. *)
Definition map_4k `{Bitflags} (c : CapRef VSpaceObj) (vaddr frame_paddr : Z) (attr : VMAttributes)
  : M VState (result unit VSpaceError) :=
  if negb (is_canonical vaddr) then ret (Err InvalidVAddr) else
  if negb (FrameSizeImpl.is_aligned Small vaddr) then ret (Err MisalignedVAddr) else
  if negb (FrameSizeImpl.is_aligned Small frame_paddr) then ret (Err MisalignedPAddr) else
  let '(pml4_idx, pdpt_idx, pd_idx, pt_idx) := vaddr_indices vaddr in
  let! pml4_t := pml4 c in
  let! pml4e := onmem (Table.index (E := Pml4e) pml4_t pml4_idx) in
  if negb (is_present pml4e) then ret (Err MissingTable) else
  let! pdpt := table_of pml4e in
  let! pdpte := onmem (Table.index (E := Pdpte) pdpt pdpt_idx) in
  if negb (is_present pdpte) then ret (Err MissingTable) else
  if is_page pdpte then ret (Err AlreadyMapped) else
  let! pd := table_of pdpte in
  let! pde := onmem (Table.index (E := Pde) pd pd_idx) in
  if negb (is_present pde) then ret (Err MissingTable) else
  if is_page pde then ret (Err AlreadyMapped) else
  let! pt := table_of pde in
  let! pte := onmem (Table.index (E := Pte) pt pt_idx) in
  if is_present pte then ret (Err AlreadyMapped) else
  do! onmem (Table.write pt pt_idx (new_page frame_paddr attr)) in
  do! flush_page vaddr in
  ret (Ok tt).

(** [VSpaceCap::map_2m]. *)
Definition map_2m `{Bitflags} (c : CapRef VSpaceObj) (vaddr frame_paddr : Z) (attr : VMAttributes)
  : M VState (result unit VSpaceError) :=
  if negb (is_canonical vaddr) then ret (Err InvalidVAddr) else
  if negb (FrameSizeImpl.is_aligned Large vaddr) then ret (Err MisalignedVAddr) else
  if negb (FrameSizeImpl.is_aligned Large frame_paddr) then ret (Err MisalignedPAddr) else
  let '(pml4_idx, pdpt_idx, pd_idx, _) := vaddr_indices vaddr in
  let! pml4_t := pml4 c in
  let! pml4e := onmem (Table.index (E := Pml4e) pml4_t pml4_idx) in
  if negb (is_present pml4e) then ret (Err MissingTable) else
  let! pdpt := table_of pml4e in
  let! pdpte := onmem (Table.index (E := Pdpte) pdpt pdpt_idx) in
  if negb (is_present pdpte) then ret (Err MissingTable) else
  if is_page pdpte then ret (Err AlreadyMapped) else
  let! pd := table_of pdpte in
  let! pde := onmem (Table.index (E := Pde) pd pd_idx) in
  if is_present pde then ret (Err AlreadyMapped) else
  do! onmem (Table.write pd pd_idx (new_large_page frame_paddr attr)) in
  do! flush_page vaddr in
  ret (Ok tt).

(** [VSpaceCap::map_1g]. *)
Definition map_1g `{Bitflags} (c : CapRef VSpaceObj) (vaddr frame_paddr : Z) (attr : VMAttributes)
  : M VState (result unit VSpaceError) :=
  if negb (is_canonical vaddr) then ret (Err InvalidVAddr) else
  if negb (FrameSizeImpl.is_aligned Huge vaddr) then ret (Err MisalignedVAddr) else
  if negb (FrameSizeImpl.is_aligned Huge frame_paddr) then ret (Err MisalignedPAddr) else
  let '(pml4_idx, pdpt_idx, _, _) := vaddr_indices vaddr in
  let! pml4_t := pml4 c in
  let! pml4e := onmem (Table.index (E := Pml4e) pml4_t pml4_idx) in
  if negb (is_present pml4e) then ret (Err MissingTable) else
  let! pdpt := table_of pml4e in
  let! pdpte := onmem (Table.index (E := Pdpte) pdpt pdpt_idx) in
  if is_present pdpte then ret (Err AlreadyMapped) else
  do! onmem (Table.write pdpt pdpt_idx (new_huge_page frame_paddr attr)) in
  do! flush_page vaddr in
  ret (Ok tt).

(** [VSpaceCap::map_frame]. *)
Definition map_frame `{Bitflags} (c : CapRef VSpaceObj) (vaddr : Z) (frame : CapRef FrameObj)
  (user_v : bool) : M VState (result unit VSpaceError) :=
  let! frame_paddr := onslots (ref_paddr frame) in
  let! attr := onslots (FrameCap.vm_attributes frame user_v) in
  let! size := onslots (FrameCap.size frame) in
  match size with
  | Small => map_4k c vaddr frame_paddr attr
  | Large => map_2m c vaddr frame_paddr attr
  | Huge => map_1g c vaddr frame_paddr attr
  end.

(** [VSpaceCap::unmap]. *)
Definition unmap (c : CapRef VSpaceObj) (vaddr : Z)
  : M VState (result (Z * FrameSize) VSpaceError) :=
  if negb (is_canonical vaddr) then ret (Err InvalidVAddr) else
  let '(pml4_idx, pdpt_idx, pd_idx, pt_idx) := vaddr_indices vaddr in
  let! pml4_t := pml4 c in
  let! pml4e := onmem (Table.index (E := Pml4e) pml4_t pml4_idx) in
  if negb (is_present pml4e) then ret (Err NotMapped) else
  let! pdpt := table_of pml4e in
  let! pdpte := onmem (Table.index (E := Pdpte) pdpt pdpt_idx) in
  if negb (is_present pdpte) then ret (Err NotMapped) else
  if is_page pdpte then
    let! p := entry_paddr pdpte in
    do! onmem (Table.write pdpt pdpt_idx (invalid (E := Pdpte))) in
    do! flush_page vaddr in
    ret (Ok (p, Huge)) else
  let! pd := table_of pdpte in
  let! pde := onmem (Table.index (E := Pde) pd pd_idx) in
  if negb (is_present pde) then ret (Err NotMapped) else
  if is_page pde then
    let! p := entry_paddr pde in
    do! onmem (Table.write pd pd_idx (invalid (E := Pde))) in
    do! flush_page vaddr in
    ret (Ok (p, Large)) else
  let! pt := table_of pde in
  let! pte := onmem (Table.index (E := Pte) pt pt_idx) in
  if negb (is_present pte) then ret (Err NotMapped) else
  let! p := entry_paddr pte in
  do! onmem (Table.write pt pt_idx (invalid (E := Pte))) in
  do! flush_page vaddr in
  ret (Ok (p, Small)).

(** [VSpaceCap::install_table]. *)
Definition install_table (c : CapRef VSpaceObj) (vaddr level table_paddr : Z)
  : M VState (result unit VSpaceError) :=
  if negb (is_canonical vaddr) then ret (Err InvalidVAddr) else
  if negb (FrameSizeImpl.is_aligned Small table_paddr) then ret (Err MisalignedPAddr) else
  let '(pml4_idx, pdpt_idx, pd_idx, _) := vaddr_indices vaddr in
  match level with
  | 3 =>
      let! pml4_t := pml4 c in
      let! pml4e := onmem (Table.index (E := Pml4e) pml4_t pml4_idx) in
      if is_present pml4e then ret (Err AlreadyMapped) else
      do! onmem (Table.write pml4_t pml4_idx (pml4e_new_table table_paddr)) in
      ret (Ok tt)
  | 2 =>
      let! pml4_t := pml4 c in
      let! pml4e := onmem (Table.index (E := Pml4e) pml4_t pml4_idx) in
      if negb (is_present pml4e) then ret (Err MissingTable) else
      let! pdpt := table_of pml4e in
      let! pdpte := onmem (Table.index (E := Pdpte) pdpt pdpt_idx) in
      if is_present pdpte then ret (Err AlreadyMapped) else
      do! onmem (Table.write pdpt pdpt_idx (pdpte_new_table table_paddr)) in
      ret (Ok tt)
  | 1 =>
      let! pml4_t := pml4 c in
      let! pml4e := onmem (Table.index (E := Pml4e) pml4_t pml4_idx) in
      if negb (is_present pml4e) then ret (Err MissingTable) else
      let! pdpt := table_of pml4e in
      let! pdpte := onmem (Table.index (E := Pdpte) pdpt pdpt_idx) in
      if negb (is_present pdpte) then ret (Err MissingTable) else
      if is_page pdpte then ret (Err AlreadyMapped) else
      let! pd := table_of pdpte in
      let! pde := onmem (Table.index (E := Pde) pd pd_idx) in
      if is_present pde then ret (Err AlreadyMapped) else
      do! onmem (Table.write pd pd_idx (pde_new_table table_paddr)) in
      ret (Ok tt)
  | _ => ret (Err InvalidVAddr)
  end.

End ops.
End VSpaceCap.

(** ** The descent as a function *)

(** The index path of an address: for each level, whether a present entry with
    the huge bit is a page there, and the table index. *)
Definition steps_of (vaddr : Z) : list (bool * Z) :=
  let '(i4, i3, i2, i1) := VSpaceCap.vaddr_indices vaddr in
  [(false, i4); (true, i3); (true, i2); (true, i1)].

(** An entry word that ends the descent. *)
Definition stops (pg : bool) (w : Z) : bool := negb (raw_present w) || (pg && raw_huge w).

(** The entries (address and word) visited from a table on; [None] when a word
    is missing or a table address does not fit in 64 bits. *)
Fixpoint desc (OFFSET : Z) (m : Mem) (steps : list (bool * Z)) (table : Z) : option (list (Z * Z)) :=
  match steps with
  | [] => Some []
  | (pg, i) :: rest =>
      match m !! Table.entry_at table i with
      | None => None
      | Some w =>
          if stops pg w then Some [(Table.entry_at table i, w)]
          else match rest with
               | [] => Some [(Table.entry_at table i, w)]
               | _ :: _ =>
                   if Z.land w ADDR_MASK + OFFSET <? W64 then
                     cons (Table.entry_at table i, w) <$>
                       desc OFFSET m rest (Z.land w ADDR_MASK + OFFSET)
                   else None
               end
      end
  end.

(** The path of [vaddr] in the address space rooted at the table [root]. *)
Definition path (OFFSET : Z) (m : Mem) (root vaddr : Z) : option (list (Z * Z)) :=
  desc OFFSET m (steps_of vaddr) root.

(** What the end of a path means. *)
Definition walk_of (p : list (Z * Z)) : WalkResult :=
  let k := Z.of_nat (length p) in
  match last p with
  | None => WNotMapped 4
  | Some (_, w) =>
      if negb (raw_present w) then WNotMapped (5 - k)
      else MappedPage (Z.land w ADDR_MASK)
             (if k =? 2 then Huge else if k =? 3 then Large else Small) (5 - k)
  end.

(** The page tables form a tree: an entry is reached at one depth only and by
    one index prefix only. *)
Definition pt_tree (OFFSET : Z) (m : Mem) (root : Z) : Prop :=
  forall v v' p p' i j a,
    path OFFSET m root v = Some p -> path OFFSET m root v' = Some p' ->
    p.*1 !! i = Some a -> p'.*1 !! j = Some a ->
    i = j /\ take (S i) (steps_of v) = take (S i) (steps_of v').

(** [c] is a VSpace capability whose root table is at virtual address [root]. *)
Definition rooted (OFFSET : Z) (s : VState) (c : CapRef VSpaceObj) (root : Z) : Prop :=
  exists r, v_slots s !! raw c = Some r /\ 0 <= paddr r < 2 ^ 52 /\
    root = paddr r + OFFSET /\ root < W64 /\ 0 <= OFFSET.

(** ** Running one level *)

Section run.
Context `{Build} `{X86AddrLaws} (OFFSET : Z).
Implicit Types (s : VState) (c : CapRef VSpaceObj).

Lemma pml4_run s c root :
  rooted OFFSET s c root -> VSpaceCap.pml4 OFFSET c s = (s, Done root).
Proof.
  intros (r & Hr & Hp & -> & Hb & HO). unfold VSpaceCap.pml4, VSpaceCap.root_paddr, ref_paddr.
  rewrite (bind_done _ _ _ s (paddr r)).
  - apply arith64_ok. split; lia.
  - unfold onslots. rewrite (zoom_done _ _ _ _ (v_slots s) (paddr r)); [by destruct s|].
    rewrite (bind_done _ _ _ (v_slots s) r) by by apply entry_get_some.
    by rewrite phys_addr_new_ok.
Qed.

Lemma index_run {E} `{PageTableEntry E} s t i w :
  i < 512 -> v_mem s !! Table.entry_at t i = Some w ->
  onmem (Table.index (E := E) t i) s = (s, Done (from_raw w)).
Proof.
  intros Hi Hw. unfold onmem. rewrite (zoom_done _ _ _ _ (v_mem s) (from_raw w)); [by destruct s|].
  unfold Table.index, ENTRIES_PER_TABLE. rewrite (proj2 (Z.ltb_lt _ _) Hi).
  unfold Table.load, deref, bind. by rewrite Hw.
Qed.

Lemma write_run {E} `{PageTableEntry E} s t i w (e : E) :
  i < 512 -> v_mem s !! Table.entry_at t i = Some w ->
  onmem (Table.write t i e) s =
    (mkV (v_slots s) (<[Table.entry_at t i := entry_raw e]> (v_mem s)) (v_flushes s), Done tt).
Proof.
  intros Hi Hw. unfold onmem.
  rewrite (zoom_done _ _ _ _ (<[Table.entry_at t i := entry_raw e]> (v_mem s)) tt); [done|].
  unfold Table.write, ENTRIES_PER_TABLE. rewrite (proj2 (Z.ltb_lt _ _) Hi).
  unfold Table.store, Table.load, deref, bind. by rewrite Hw.
Qed.

Lemma table_of_run {E} `{PageTableEntry E} s (e : E) w :
  entry_addr e = Z.land w ADDR_MASK -> Z.land w ADDR_MASK + OFFSET < W64 -> 0 <= OFFSET ->
  VSpaceCap.table_of OFFSET e s = (s, Done (Z.land w ADDR_MASK + OFFSET)).
Proof.
  intros He Hb HO. unfold VSpaceCap.table_of, entry_paddr. rewrite He.
  rewrite (bind_done _ _ _ s (Z.land w ADDR_MASK)) by apply entry_paddr_run.
  apply arith64_ok. pose proof (land_ADDR_MASK_range w). split; lia.
Qed.

Lemma index9 x n : 0 <= Z.land (Z.shiftr x n) 0x1FF < 512.
Proof.
  change 0x1FF with (Z.ones 9). rewrite Z.land_ones by lia. by apply Z.mod_pos_bound.
Qed.
End run.

(** ** Paths *)

Section paths.
Context (OFFSET : Z) (m : Mem) (root v : Z).

Let i4 := Z.land (Z.shiftr v 39) 0x1FF.
Let i3 := Z.land (Z.shiftr v 30) 0x1FF.
Let i2 := Z.land (Z.shiftr v 21) 0x1FF.
Let i1 := Z.land (Z.shiftr v 12) 0x1FF.
Let tab (w : Z) := Z.land w ADDR_MASK + OFFSET.
Let at_ := Table.entry_at.

(** The words along a path, one shape per way a descent can end. *)
Inductive path_shape : list (Z * Z) -> Prop :=
| shape_4_absent w4 :
    m !! at_ root i4 = Some w4 -> raw_present w4 = false ->
    path_shape [(at_ root i4, w4)]
| shape_3 w4 w3 :
    m !! at_ root i4 = Some w4 -> raw_present w4 = true -> tab w4 < W64 ->
    m !! at_ (tab w4) i3 = Some w3 -> stops true w3 = true ->
    path_shape [(at_ root i4, w4); (at_ (tab w4) i3, w3)]
| shape_2 w4 w3 w2 :
    m !! at_ root i4 = Some w4 -> raw_present w4 = true -> tab w4 < W64 ->
    m !! at_ (tab w4) i3 = Some w3 -> stops true w3 = false -> tab w3 < W64 ->
    m !! at_ (tab w3) i2 = Some w2 -> stops true w2 = true ->
    path_shape [(at_ root i4, w4); (at_ (tab w4) i3, w3); (at_ (tab w3) i2, w2)]
| shape_1 w4 w3 w2 w1 :
    m !! at_ root i4 = Some w4 -> raw_present w4 = true -> tab w4 < W64 ->
    m !! at_ (tab w4) i3 = Some w3 -> stops true w3 = false -> tab w3 < W64 ->
    m !! at_ (tab w3) i2 = Some w2 -> stops true w2 = false -> tab w2 < W64 ->
    m !! at_ (tab w2) i1 = Some w1 ->
    path_shape [(at_ root i4, w4); (at_ (tab w4) i3, w3); (at_ (tab w3) i2, w2);
                (at_ (tab w2) i1, w1)].

Lemma path_inv p : path OFFSET m root v = Some p -> path_shape p.
Proof.
  unfold path, steps_of, VSpaceCap.vaddr_indices. fold i4 i3 i2 i1. cbn [desc].
  destruct (m !! Table.entry_at root i4) as [w4|] eqn:E4; [|done].
  unfold stops at 1. cbn [andb]. rewrite orb_false_r.
  destruct (raw_present w4) eqn:P4; cbn [negb]; [|intros [= <-]; by apply shape_4_absent].
  destruct (Z.ltb_spec (Z.land w4 ADDR_MASK + OFFSET) W64) as [B4|]; [|done].
  destruct (m !! Table.entry_at (Z.land w4 ADDR_MASK + OFFSET) i3) as [w3|] eqn:E3; [|done].
  destruct (stops true w3) eqn:S3; [intros [= <-]; by apply shape_3|].
  destruct (Z.ltb_spec (Z.land w3 ADDR_MASK + OFFSET) W64) as [B3|]; [|done].
  destruct (m !! Table.entry_at (Z.land w3 ADDR_MASK + OFFSET) i2) as [w2|] eqn:E2; [|done].
  destruct (stops true w2) eqn:S2; [intros [= <-]; by apply shape_2|].
  destruct (Z.ltb_spec (Z.land w2 ADDR_MASK + OFFSET) W64) as [B2|]; [|done].
  destruct (m !! Table.entry_at (Z.land w2 ADDR_MASK + OFFSET) i1) as [w1|] eqn:E1; [|done].
  destruct (stops true w1); intros [= <-]; by apply shape_1.
Qed.
End paths.

Lemma stops_false w : stops true w = false -> raw_present w = true /\ raw_huge w = false.
Proof. unfold stops. destruct (raw_present w), (raw_huge w); done. Qed.

Lemma stops_true w :
  stops true w = true ->
  raw_present w = false \/ (raw_present w = true /\ raw_huge w = true).
Proof. unfold stops. destruct (raw_present w), (raw_huge w); naive_solver. Qed.

(** Split a path into its possible shapes, with the flags of every word. *)
Ltac path_cases Hp :=
  let Hr := fresh in
  apply path_inv in Hp as Hr; inversion Hr; subst; clear Hr;
  repeat match goal with
         | S : stops true _ = false |- _ => apply stops_false in S as [? ?]
         | S : stops true _ = true |- _ => apply stops_true in S as [?|[? ?]]
         end.

(** Run the next level of a page table operation. *)
Ltac vstep :=
  match goal with
  | |- context [bind (VSpaceCap.pml4 _ _) _ ?s] =>
      erewrite (bind_done (VSpaceCap.pml4 _ _) _ s) by (by eapply pml4_run)
  | |- context [bind (onmem (Table.index _ _)) _ ?s] =>
      erewrite (bind_done (onmem (Table.index _ _)) _ s)
        by (eapply index_run; [apply index9|eassumption])
  | |- context [bind (VSpaceCap.table_of _ _) _ ?s] =>
      erewrite (bind_done (VSpaceCap.table_of _ _) _ s)
        by (eapply table_of_run; [reflexivity|assumption|assumption])
  | |- context [bind (onmem (Table.write _ _ _)) _ ?s] =>
      erewrite (bind_done (onmem (Table.write _ _ _)) _ s)
        by (eapply write_run; [apply index9|eassumption])
  | |- context [bind (entry_paddr _) _ ?s] =>
      erewrite (bind_done (entry_paddr _) _ s) by (apply entry_paddr_run)
  end;
  cbn [is_present is_page is_table entry_raw entry_addr from_raw invalid
       Pml4e_entry Pdpte_entry Pde_entry Pte_entry
       pml4e_raw pdpte_raw pde_raw pte_raw negb andb];
  repeat match goal with
         | P : raw_present ?w = _ |- context [raw_present ?w] => rewrite P
         | P : raw_huge ?w = _ |- context [raw_huge ?w] => rewrite P
         end; cbn [negb andb].

Section operations.
Context `{Build} `{X86AddrLaws} (OFFSET : Z) (s : VState) (c : CapRef VSpaceObj) (root v : Z).
Context (Hroot : rooted OFFSET s c root) (Hcan : VSpaceCap.is_canonical v = true).

Let HO : 0 <= OFFSET.
Proof. by destruct Hroot as (? & _ & _ & _ & _ & ?). Qed.

(** [walk] reads the end of the path. *)
Lemma walk_run p :
  path OFFSET (v_mem s) root v = Some p ->
  VSpaceCap.walk OFFSET c v s = (s, Done (Ok (walk_of p))).
Proof.
  intros Hp. unfold VSpaceCap.walk. rewrite Hcan. cbn [negb].
  unfold VSpaceCap.vaddr_indices.
  path_cases Hp; repeat vstep; unfold walk_of; cbn [last length Z.of_nat];
    repeat match goal with P : raw_present ?w = _ |- context [raw_present ?w] => rewrite P end;
    try done.
  destruct (raw_present w1) eqn:P1; cbn [negb]; [repeat vstep|]; done.
Qed.

(** What the [map_*] and [install_table] operations do at depth [k]. *)
Definition place (k : nat) (new : Z) (fl : list Z) (p : list (Z * Z))
  : VState * outcome (result unit VSpaceError) :=
  match p !! k with
  | Some (a, w) =>
      if raw_present w then (s, Done (Err AlreadyMapped))
      else (mkV (v_slots s) (<[a := new]> (v_mem s)) (fl ++ v_flushes s), Done (Ok tt))
  | None =>
      match last p with
      | Some (_, w) => (s, Done (Err (if raw_present w then AlreadyMapped else MissingTable)))
      | None => (s, Done (Err MissingTable))
      end
  end.

Ltac place_cases Hp :=
  path_cases Hp; repeat vstep; unfold place; cbn [lookup list_lookup last];
  repeat match goal with P : raw_present ?w = _ |- context [raw_present ?w] => rewrite P end;
  try done.

Context `{Bitflags}.

Lemma map_4k_run p f attr :
  path OFFSET (v_mem s) root v = Some p ->
  FrameSizeImpl.is_aligned Small v = true -> FrameSizeImpl.is_aligned Small f = true ->
  VSpaceCap.map_4k OFFSET c v f attr s = place 3 (pte_raw (new_page f attr)) [v] p.
Proof.
  intros Hp Hv Hf. unfold VSpaceCap.map_4k. rewrite Hcan, Hv, Hf. cbn [negb].
  unfold VSpaceCap.vaddr_indices. place_cases Hp.
  destruct (raw_present w1) eqn:P1; [done|]. by vstep.
Qed.

Lemma map_2m_run p f attr :
  path OFFSET (v_mem s) root v = Some p ->
  FrameSizeImpl.is_aligned Large v = true -> FrameSizeImpl.is_aligned Large f = true ->
  VSpaceCap.map_2m OFFSET c v f attr s = place 2 (pde_raw (new_large_page f attr)) [v] p.
Proof.
  intros Hp Hv Hf. unfold VSpaceCap.map_2m. rewrite Hcan, Hv, Hf. cbn [negb].
  unfold VSpaceCap.vaddr_indices. by place_cases Hp.
Qed.

Lemma map_1g_run p f attr :
  path OFFSET (v_mem s) root v = Some p ->
  FrameSizeImpl.is_aligned Huge v = true -> FrameSizeImpl.is_aligned Huge f = true ->
  VSpaceCap.map_1g OFFSET c v f attr s = place 1 (pdpte_raw (new_huge_page f attr)) [v] p.
Proof.
  intros Hp Hv Hf. unfold VSpaceCap.map_1g. rewrite Hcan, Hv, Hf. cbn [negb].
  unfold VSpaceCap.vaddr_indices. by place_cases Hp.
Qed.

Lemma install_table_run p level t :
  path OFFSET (v_mem s) root v = Some p -> 1 <= level <= 3 ->
  FrameSizeImpl.is_aligned Small t = true ->
  VSpaceCap.install_table OFFSET c v level t s = place (Z.to_nat (3 - level)) (table_word t) [] p.
Proof.
  intros Hp Hl Ht. unfold VSpaceCap.install_table. rewrite Hcan, Ht. cbn [negb].
  unfold VSpaceCap.vaddr_indices.
  assert (level = 1 \/ level = 2 \/ level = 3) as [-> | [-> | ->]] by lia;
    [change (Z.to_nat _) with 2%nat|change (Z.to_nat _) with 1%nat|change (Z.to_nat _) with 0%nat];
    by place_cases Hp.
Qed.

Lemma unmap_run p :
  path OFFSET (v_mem s) root v = Some p ->
  VSpaceCap.unmap OFFSET c v s =
  match last p with
  | Some (a, w) =>
      if raw_present w then
        (mkV (v_slots s) (<[a := 0]> (v_mem s)) (v :: v_flushes s),
         Done (Ok (Z.land w ADDR_MASK,
                   if Z.of_nat (length p) =? 2 then Huge
                   else if Z.of_nat (length p) =? 3 then Large else Small)))
      else (s, Done (Err NotMapped))
  | None => (s, Done (Err NotMapped))
  end.
Proof.
  intros Hp. unfold VSpaceCap.unmap. rewrite Hcan. cbn [negb].
  unfold VSpaceCap.vaddr_indices. place_cases Hp.
  destruct (raw_present w1) eqn:P1; cbn [negb]; [|done]. by repeat vstep.
Qed.
End operations.
