(* ===== verification/Mapping.v ===== *)
(** What mapping, unmapping and installing tables do to an address space.

    The files [PageTable] and [VSpace] hold the code; here the operations are
    related to [walk]: they change what it answers in the region they are asked
    for and nowhere else, as long as the page tables form a tree in memory
    ([pt_wf]), which they all preserve. *)
From S2P Require Import Prelude Errors Caps Tcb PageTable Frames VSpace.

(** ** Writing an entry of a tree *)

Lemma desc_ext OFFSET (m m' : Mem) steps t p :
  desc OFFSET m steps t = Some p -> (forall a, a ∈ p.*1 -> m' !! a = m !! a) ->
  desc OFFSET m' steps t = Some p.
Proof.
  revert t p. induction steps as [|[pg i] steps IH]; intros t p; [done|]. cbn [desc].
  destruct (m !! Table.entry_at t i) as [w|] eqn:E; [|done].
  assert (Ha : forall q, p = (Table.entry_at t i, w) :: q ->
    (forall a, a ∈ p.*1 -> m' !! a = m !! a) -> m' !! Table.entry_at t i = Some w).
  { intros q -> Hm. rewrite <- E. apply Hm. set_solver. }
  destruct (stops pg w) eqn:Es; [|destruct steps as [|st steps]].
  1, 2: intros [= <-] Hm; rewrite (Ha [] eq_refl Hm), Es; done.
  destruct (Z.ltb_spec (Z.land w ADDR_MASK + OFFSET) W64) as [Hb|]; [|done].
  destruct (desc OFFSET m (st :: steps) _) as [q|] eqn:Eq; [|done].
  intros [= <-] Hm. rewrite (Ha q eq_refl Hm), Es, (proj2 (Z.ltb_lt _ _) Hb).
  erewrite IH; [done|exact Eq|]. intros a Hq. apply Hm. set_solver.
Qed.

(** The last word of a path may be replaced by another one that ends it. *)
Lemma desc_replace OFFSET (m : Mem) steps t p a w w' :
  desc OFFSET m steps t = Some (p ++ [(a, w)]) -> a ∉ p.*1 ->
  (forall pg i, steps !! length p = Some (pg, i) -> stops pg w' = true) \/
    S (length p) = length steps ->
  desc OFFSET (<[a := w']> m) steps t = Some (p ++ [(a, w')]).
Proof.
  revert t p. induction steps as [|[pg i] steps IH]; intros t p; [by destruct p|]. cbn [desc].
  destruct (m !! Table.entry_at t i) as [w0|] eqn:E; [|done].
  destruct p as [|[b wb] p]; cbn [app].
  - intros Hd _ Hstop. assert (Table.entry_at t i = a) as ->.
    { destruct (stops pg w0); [by injection Hd|]. destruct steps; [by injection Hd|].
      destruct (_ <? W64); [|done]. destruct (desc _ _ _ _); [|done]. by injection Hd. }
    rewrite lookup_insert_eq. destruct Hstop as [Hs|Hs]; [by rewrite (Hs pg i)|].
    cbn [length] in Hs. destruct steps; [|done]. by destruct (stops pg w').
  - intros Hd Ha Hstop. destruct (stops pg w0) eqn:Es; [injection Hd; by destruct p|].
    destruct steps as [|st steps]; [injection Hd; by destruct p|].
    destruct (Z.ltb_spec (Z.land w0 ADDR_MASK + OFFSET) W64) as [Hb|]; [|done].
    destruct (desc OFFSET m (st :: steps) _) as [q|] eqn:Eq; [|done].
    injection Hd as <- <- ->. rewrite lookup_insert_ne by set_solver.
    rewrite E, Es, (proj2 (Z.ltb_lt _ _) Hb).
    erewrite IH; [done|exact Eq|set_solver|].
    destruct Hstop as [Hs|Hs]; [left; exact Hs|right; cbn [length] in *; lia].
Qed.

(** Every address has a path (all tables are backed by memory), and the tables
    form a tree. *)
Definition pt_wf (OFFSET : Z) (m : Mem) (root : Z) : Prop :=
  (forall v, is_Some (path OFFSET m root v)) /\ pt_tree OFFSET m root.

Lemma length_steps v : length (steps_of v) = 4%nat.
Proof. done. Qed.

Lemma desc_length OFFSET m steps t p :
  desc OFFSET m steps t = Some p -> (length p <= length steps)%nat.
Proof.
  revert t p. induction steps as [|[pg i] steps IH]; intros t p; cbn [desc]; [by intros [= <-]|].
  destruct (m !! _) as [w|]; [|done]. destruct (stops pg w); [intros [= <-]; simpl; lia|].
  destruct steps as [|st steps]; [intros [= <-]; simpl; lia|]. destruct (_ <? W64); [|done].
  destruct (desc OFFSET m (st :: steps) _) as [q|] eqn:E; [|done].
  intros [= <-]. apply IH in E. simpl in *. lia.
Qed.

(** Two addresses that agree on the indices of a path have the same path. *)
Lemma desc_prefix OFFSET m steps steps' t p a w :
  desc OFFSET m steps t = Some (p ++ [(a, w)]) -> length steps = length steps' ->
  take (S (length p)) steps = take (S (length p)) steps' ->
  desc OFFSET m steps' t = Some (p ++ [(a, w)]).
Proof.
  revert steps' t p. induction steps as [|[pg i] steps IH]; intros [|[pg' i'] steps'] t p Hd Hl Ht;
    try done.
  injection Ht as <- <- Ht. cbn [desc] in *.
  destruct (m !! _) as [w0|]; [|done]. destruct (stops pg w0); [done|].
  destruct steps as [|st steps], steps' as [|st' steps']; try done.
  destruct (_ <? W64); [|done].
  destruct (desc OFFSET m (st :: steps) _) as [q|] eqn:E; [|done].
  destruct p as [|x p].
  { exfalso. injection Hd as _ _ ->. cbn [desc] in E. destruct st as [? ?].
    destruct (m !! _); [|done]. destruct (stops _ _); [done|]. destruct steps; [done|].
    destruct (_ <? W64); [|done]. by destruct (desc _ _ _ _). }
  injection Hd as <- ->. erewrite IH; [done|exact E|simpl in *; lia|exact Ht].
Qed.

(** The last, absent word of a path may be replaced by a link to an empty table. *)
Lemma desc_extend OFFSET (m : Mem) steps t p a w w' pg pg' i' :
  desc OFFSET m steps t = Some (p ++ [(a, w)]) -> a ∉ p.*1 ->
  fst <$> steps !! length p = Some pg -> stops pg w' = false ->
  Z.land w' ADDR_MASK + OFFSET < W64 -> steps !! S (length p) = Some (pg', i') ->
  a <> Table.entry_at (Z.land w' ADDR_MASK + OFFSET) i' ->
  m !! Table.entry_at (Z.land w' ADDR_MASK + OFFSET) i' = Some 0 ->
  desc OFFSET (<[a := w']> m) steps t =
    Some (p ++ [(a, w'); (Table.entry_at (Z.land w' ADDR_MASK + OFFSET) i', 0)]).
Proof.
  intros Hd Ha Hpg Hs Hb Hi' Hne H0. revert t p Hd Ha Hpg Hi'.
  induction steps as [|[pg0 i] steps IH]; intros t p; [by destruct p|]. cbn [desc].
  destruct (m !! Table.entry_at t i) as [w0|] eqn:E; [|done].
  destruct p as [|[b wb] p]; cbn [app length fmap option_fmap option_map lookup list_lookup fst].
  - intros Hd _ [= ->] Hi'. assert (Table.entry_at t i = a) as ->.
    { destruct (stops pg w0); [by injection Hd|]. destruct steps; [by injection Hd|].
      destruct (_ <? W64); [|done]. destruct (desc _ _ _ _); [|done]. by injection Hd. }
    rewrite lookup_insert_eq, Hs. destruct steps as [|st steps]; [done|]. injection Hi' as ->.
    rewrite (proj2 (Z.ltb_lt _ _) Hb). cbn [desc]. rewrite lookup_insert_ne, H0 by done. done.
  - intros Hd Ha Hpg Hi'. destruct (stops pg0 w0) eqn:Es; [injection Hd; by destruct p|].
    destruct steps as [|st steps]; [injection Hd; by destruct p|].
    destruct (Z.ltb_spec (Z.land w0 ADDR_MASK + OFFSET) W64) as [Hb0|]; [|done].
    destruct (desc OFFSET m (st :: steps) _) as [q|] eqn:Eq; [|done].
    injection Hd as <- <- ->. rewrite lookup_insert_ne by set_solver.
    rewrite E, Es, (proj2 (Z.ltb_lt _ _) Hb0).
    erewrite IH; [done|exact Eq|set_solver|done|done].
Qed.

(** A zeroed table at [t] that no path visits yet. *)
Definition fresh_table (OFFSET : Z) (m : Mem) (root t : Z) : Prop :=
  (forall i, 0 <= i < 512 -> m !! Table.entry_at t i = Some 0) /\
  (forall v p a i, path OFFSET m root v = Some p -> a ∈ p.*1 -> 0 <= i < 512 ->
     a <> Table.entry_at t i).

Section tree.
Context (OFFSET : Z) (m : Mem) (root : Z) (Hwf : pt_wf OFFSET m root).

Lemma tree_nodup v p : path OFFSET m root v = Some p -> NoDup p.*1.
Proof.
  intros Hp. apply NoDup_alt. intros i j a Hi Hj. by apply (proj2 Hwf v v p p i j a).
Qed.

Lemma last_fresh v p a w : path OFFSET m root v = Some (p ++ [(a, w)]) -> a ∉ p.*1.
Proof.
  intros Hp. apply tree_nodup in Hp. rewrite fmap_app in Hp. apply NoDup_app in Hp as (_ & Hd & _).
  intros Hin. by apply (Hd a Hin), list_elem_of_singleton.
Qed.

(** Replacing the last word of the path of [v] leaves the paths that do not
    share its indices. *)
Lemma write_other v p a w w' :
  path OFFSET m root v = Some (p ++ [(a, w)]) ->
  forall v', take (S (length p)) (steps_of v') <> take (S (length p)) (steps_of v) ->
    path OFFSET (<[a := w']> m) root v' = path OFFSET m root v'.
Proof.
  intros Hp v' Hv'. destruct (proj1 Hwf v') as [p' Hp']. rewrite Hp'.
  eapply desc_ext; [exact Hp'|]. intros b Hb. rewrite lookup_insert_ne; [done|].
  intros <-. apply list_elem_of_lookup in Hb as [j Hj].
  destruct (proj2 Hwf v v' _ p' (length p) j a Hp Hp') as [_ E]; [|done|by apply Hv'].
  rewrite fmap_app, lookup_app_r by (by rewrite length_fmap).
  by rewrite length_fmap, Nat.sub_diag.
Qed.

Lemma steps_shape v k :
  (k < 3)%nat -> exists pg i, fst <$> steps_of v !! k = Some pg /\
    steps_of v !! S k = Some (true, i) /\ 0 <= i < 512.
Proof.
  intros Hk. unfold steps_of, VSpaceCap.vaddr_indices.
  destruct k as [|[|[|k]]]; [..|lia]; simpl; eexists _, _; (split_and!; [done|done|apply index9..]).
Qed.

(** Replacing the last word of the path of [v] by another stopping word. *)
Lemma write_leaf v p a w w' :
  path OFFSET m root v = Some (p ++ [(a, w)]) ->
  stops true w' = true /\ p <> [] \/ raw_present w' = false \/ S (length p) = 4%nat ->
  (forall v', take (S (length p)) (steps_of v') = take (S (length p)) (steps_of v) ->
     path OFFSET m root v' = Some (p ++ [(a, w)]) /\
     path OFFSET (<[a := w']> m) root v' = Some (p ++ [(a, w')])) /\
  (forall v', take (S (length p)) (steps_of v') <> take (S (length p)) (steps_of v) ->
     path OFFSET (<[a := w']> m) root v' = path OFFSET m root v') /\
  pt_wf OFFSET (<[a := w']> m) root.
Proof.
  intros Hp Hs.
  pose proof (last_fresh v p a w Hp) as Ha.
  assert (Hlen : forall v, length (steps_of v) = 4%nat) by done.
  assert (Hsame : forall v', take (S (length p)) (steps_of v') = take (S (length p)) (steps_of v) ->
    path OFFSET m root v' = Some (p ++ [(a, w)]) /\
    path OFFSET (<[a := w']> m) root v' = Some (p ++ [(a, w')])).
  { intros v' E. assert (Hv' : path OFFSET m root v' = Some (p ++ [(a, w)]))
      by (eapply desc_prefix; [exact Hp|done|done]).
    split; [done|]. eapply desc_replace; [exact Hv'|done|]. rewrite Hlen.
    destruct Hs as [[Hs Hne]|[Hs|Hs]]; [|left|by right].
    - left. intros pg i Hpg. destruct p as [|x [|y [|z [|]]]]; try done; simpl in Hpg; by injection Hpg as <- _.
    - intros pg i _. unfold stops. by rewrite Hs. }
  assert (Hother := write_other v p a w w' Hp).
  split_and!; [exact Hsame|done|].
  assert (Hall : forall v', exists p1 p2, path OFFSET m root v' = Some p1 /\
    path OFFSET (<[a := w']> m) root v' = Some p2 /\ p2.*1 = p1.*1).
  { intros v'. destruct (decide (take (S (length p)) (steps_of v') = take (S (length p)) (steps_of v)))
      as [E|E].
    - exists (p ++ [(a, w)]), (p ++ [(a, w')]).
      destruct (Hsame v' E). split_and!; [done|done|by rewrite !fmap_app].
    - destruct (proj1 Hwf v') as [p' Hp']. exists p', p'. rewrite Hother by done. done. }
  split.
  - intros v'. destruct (Hall v') as (? & ? & _ & -> & _). by eexists.
  - intros v1 v2 p1 p2 i j b H1 H2 Hi Hj.
    destruct (Hall v1) as (q1 & q1' & Q1 & Q1' & E1). destruct (Hall v2) as (q2 & q2' & Q2 & Q2' & E2).
    rewrite H1 in Q1'. injection Q1' as <-. rewrite H2 in Q2'. injection Q2' as <-.
    rewrite E1 in Hi. rewrite E2 in Hj. by eapply (proj2 Hwf).
Qed.

(** Replacing the last word of the path of [v] by a link to a fresh table. *)
Lemma write_table v p a w w' :
  path OFFSET m root v = Some (p ++ [(a, w)]) -> (length p < 3)%nat ->
  raw_present w' = true -> raw_huge w' = false -> Z.land w' ADDR_MASK + OFFSET < W64 ->
  fresh_table OFFSET m root (Z.land w' ADDR_MASK + OFFSET) ->
  (forall v', take (S (length p)) (steps_of v') = take (S (length p)) (steps_of v) ->
     exists b, path OFFSET (<[a := w']> m) root v' = Some (p ++ [(a, w'); (b, 0)])) /\
  (forall v', take (S (length p)) (steps_of v') <> take (S (length p)) (steps_of v) ->
     path OFFSET (<[a := w']> m) root v' = path OFFSET m root v') /\
  pt_wf OFFSET (<[a := w']> m) root.
Proof.
  intros Hp Hl P1 P2 Hb [F0 Ff]. pose proof (last_fresh v p a w Hp) as Ha.
  set (T := Z.land w' ADDR_MASK + OFFSET) in *. set (k := length p) in *.
  assert (Hin : a ∈ (p ++ [(a, w)]).*1) by (rewrite fmap_app; set_solver).
  assert (Hsame : forall v', take (S k) (steps_of v') = take (S k) (steps_of v) ->
    exists i, 0 <= i < 512 /\ steps_of v' !! S k = Some (true, i) /\
      path OFFSET m root v' = Some (p ++ [(a, w)]) /\
      path OFFSET (<[a := w']> m) root v' = Some (p ++ [(a, w'); (Table.entry_at T i, 0)])).
  { intros v' E. destruct (steps_shape v' k Hl) as (pg & i & Hpg & Hi & Hr). exists i.
    assert (Hv' : path OFFSET m root v' = Some (p ++ [(a, w)]))
      by (eapply desc_prefix; [exact Hp|done|done]).
    split; [done|]. split; [done|]. split; [done|]. eapply desc_extend; [exact Hv'|done|exact Hpg| |done|exact Hi|by eapply Ff|by apply F0].
    unfold stops. rewrite P1, P2. by destruct pg. }
  assert (Hother := write_other v p a w w' Hp).
  split_and!; [|done|].
  { intros v' E. destruct (Hsame v' E) as (i & _ & _ & _ & ->). by eexists. }
  assert (Hcase : forall v' q i b, path OFFSET (<[a := w']> m) root v' = Some q -> q.*1 !! i = Some b ->
    (exists q0, path OFFSET m root v' = Some q0 /\ q0.*1 !! i = Some b) \/
    (i = S k /\ take (S k) (steps_of v') = take (S k) (steps_of v) /\
     exists ix, 0 <= ix < 512 /\ steps_of v' !! S k = Some (true, ix) /\ b = Table.entry_at T ix)).
  { intros v' q i b Hq Hi. destruct (decide (take (S k) (steps_of v') = take (S k) (steps_of v))) as [E|E].
    - destruct (Hsame v' E) as (ix & Hr & Hix & Hv' & Hn). rewrite Hn in Hq. injection Hq as <-.
      change (p ++ [(a, w'); (Table.entry_at T ix, 0)]) with (p ++ [(a, w')] ++ [(Table.entry_at T ix, 0)]) in Hi.
      rewrite app_assoc, fmap_app in Hi. apply lookup_snoc_Some in Hi as [[_ Hi]|[-> Hi]]; [left|right].
      + exists (p ++ [(a, w)]). split; [done|]. by rewrite !fmap_app in *.
      + split; [rewrite length_fmap, length_app, Nat.add_comm; done|].
        split; [done|]. exists ix. simpl in Hi. naive_solver.
    - left. rewrite Hother in Hq by done. eauto. }
  split.
  - intros v'. destruct (decide (take (S k) (steps_of v') = take (S k) (steps_of v))) as [E|E].
    + destruct (Hsame v' E) as (i & _ & _ & _ & ->). by eexists.
    + rewrite Hother by done. apply Hwf.
  - intros v1 v2 q1 q2 i j b H1 H2 Hi Hj.
    destruct (Hcase v1 q1 i b H1 Hi) as [(q1' & Q1 & I1)|(-> & T1 & x1 & R1 & X1 & ->)];
      destruct (Hcase v2 q2 j _ H2 Hj) as [(q2' & Q2 & I2)|(-> & T2 & x2 & R2 & X2 & E2)].
    + by eapply (proj2 Hwf).
    + subst. exfalso. eapply (Ff v1 q1' _ x2 Q1); [apply list_elem_of_lookup; eauto|done|done].
    + exfalso. eapply (Ff v2 q2' _ x1 Q2); [apply list_elem_of_lookup; eauto|done|done].
    + split; [done|]. assert (x2 = x1) as -> by (unfold Table.entry_at in E2; lia).
      by rewrite (take_S_r _ _ _ X1), (take_S_r _ _ _ X2), T1, T2.
Qed.
End tree.

(** ** Addresses and indices *)

Lemma idx_divmod v n : 0 <= n -> Z.land (Z.shiftr v n) 0x1FF = (v / 2 ^ n) mod 512.
Proof.
  intros. change 0x1FF with (Z.ones 9). by rewrite Z.land_ones, Z.shiftr_div_pow2 by lia.
Qed.

Lemma div_pow_mono x y n k : 0 <= n <= k -> x / 2 ^ n = y / 2 ^ n -> x / 2 ^ k = y / 2 ^ k.
Proof.
  intros Hk E. replace k with (n + (k - n)) by lia. rewrite Z.pow_add_r by lia.
  by rewrite <- !Z.div_div, E by (apply Z.pow_nonzero || apply Z.pow_pos_nonneg; lia).
Qed.

Lemma canonical_cases v :
  VSpaceCap.is_canonical v = true -> v / 2 ^ 47 = 0 \/ v / 2 ^ 47 = 0x1FFFF.
Proof.
  unfold VSpaceCap.is_canonical. rewrite Z.shiftr_div_pow2 by lia.
  intros [H|H]%orb_true_iff; [left|right]; by apply Z.eqb_eq.
Qed.

(** Depth of the leaf entry of a frame size, and the bits it covers. *)
Definition leaf_depth (f : FrameSize) : nat := match f with Small => 3 | Large => 2 | Huge => 1 end.

(** Bits of an address below an entry of a level-[level] table's parent: the region the
    entry covers when [level] counts from 0 (page) to 3 (PML4 slot). *)
Definition level_bits (level : Z) : Z := 12 + 9 * level.

Lemma steps_same_region level v v' :
  0 <= level <= 3 -> VSpaceCap.is_canonical v = true -> VSpaceCap.is_canonical v' = true ->
  take (S (Z.to_nat (3 - level))) (steps_of v') = take (S (Z.to_nat (3 - level))) (steps_of v) <->
  v' / 2 ^ level_bits level = v / 2 ^ level_bits level.
Proof.
  intros Hl Hc%canonical_cases Hc'%canonical_cases.
  split.
  - unfold steps_of, VSpaceCap.vaddr_indices, level_bits. rewrite !idx_divmod by lia.
    assert (level = 0 \/ level = 1 \/ level = 2 \/ level = 3) as [-> |[-> | [-> | ->]]] by lia;
      [change (12 + 9 * 0) with 12; change (Z.to_nat (3 - 0)) with 3%nat
      |change (12 + 9 * 1) with 21; change (Z.to_nat (3 - 1)) with 2%nat
      |change (12 + 9 * 2) with 30; change (Z.to_nat (3 - 2)) with 1%nat
      |change (12 + 9 * 3) with 39; change (Z.to_nat (3 - 3)) with 0%nat]; cbn [take]; intros E.
    + injection E as E4 E3 E2 E1. Z.to_euclidean_division_equations; lia.
    + injection E as E4 E3 E2. Z.to_euclidean_division_equations; lia.
    + injection E as E4 E3. Z.to_euclidean_division_equations; lia.
    + injection E as E4. Z.to_euclidean_division_equations; lia.
  - unfold level_bits, steps_of, VSpaceCap.vaddr_indices. intros E. rewrite !idx_divmod by lia.
    pose proof (div_pow_mono v' v (12 + 9 * level)) as Hd.
    assert (level = 0 \/ level = 1 \/ level = 2 \/ level = 3) as [-> |[-> | [-> | ->]]] by lia;
      [change (Z.to_nat (3 - 0)) with 3%nat|change (Z.to_nat (3 - 1)) with 2%nat|change (Z.to_nat (3 - 2)) with 1%nat
      |change (Z.to_nat (3 - 3)) with 0%nat]; cbn [take];
      rewrite ?(Hd 39), ?(Hd 30), ?(Hd 21), ?(Hd 12) by (assumption || lia); done.
Qed.

Lemma steps_same_page f v v' :
  VSpaceCap.is_canonical v = true -> VSpaceCap.is_canonical v' = true ->
  take (S (leaf_depth f)) (steps_of v') = take (S (leaf_depth f)) (steps_of v) <->
  v' / 2 ^ FrameSizeImpl.bits f = v / 2 ^ FrameSizeImpl.bits f.
Proof.
  intros Hc Hc'.
  destruct f; [apply (steps_same_region 0)|apply (steps_same_region 1)|apply (steps_same_region 2)];
    done || lia.
Qed.

(** ** Mapping and unmapping *)

(** An absent entry is the last one of its path. *)
Lemma path_absent_last OFFSET m root v p k a w :
  path OFFSET m root v = Some p -> p !! k = Some (a, w) -> raw_present w = false ->
  p = take k p ++ [(a, w)].
Proof.
  intros Hp Hk Hw. path_cases Hp; destruct k as [|[|[|[|k]]]]; try done;
    injection Hk as <- <-; try congruence; done.
Qed.

(** The length of a path that ends on a page fixes the size of the page. *)
Lemma path_leaf_length OFFSET m root v p a w :
  path OFFSET m root v = Some p -> last p = Some (a, w) -> raw_present w = true ->
  length p = S (leaf_depth (if Z.of_nat (length p) =? 2 then Huge
                            else if Z.of_nat (length p) =? 3 then Large else Small)).
Proof. intros Hp Hl Hw. path_cases Hp; simpl in *; simplify_eq; congruence || done. Qed.

Section mapping.
Context `{Build} `{X86AddrLaws} `{Bitflags} (OFFSET : Z).
Implicit Types (s : VState) (c : CapRef VSpaceObj).

(** The three [map_*] functions, by frame size. *)
Definition map_size (f : FrameSize) : CapRef VSpaceObj -> Z -> Z -> VMAttributes ->
    M VState (result unit VSpaceError) :=
  match f with
  | Small => VSpaceCap.map_4k OFFSET
  | Large => VSpaceCap.map_2m OFFSET
  | Huge => VSpaceCap.map_1g OFFSET
  end.

Definition leaf_word (f : FrameSize) (p : Z) (attr : VMAttributes) : Z :=
  match f with
  | Small => pte_raw (new_page p attr)
  | Large => pde_raw (new_large_page p attr)
  | Huge => pdpte_raw (new_huge_page p attr)
  end.

Lemma leaf_word_decode f p attr :
  raw_present (leaf_word f p attr) = true /\
  Z.land (leaf_word f p attr) ADDR_MASK = Z.land p ADDR_MASK /\
  (f = Small \/ stops true (leaf_word f p attr) = true).
Proof.
  destruct f; simpl.
  - destruct (new_page_decode p attr) as (? & ? & ?). auto.
  - destruct (new_large_page_decode p attr) as (Hp & Hh & _ & Ha). simpl in *. split_and!; [done..|].
    right. unfold stops. apply andb_true_iff in Hh as [_ ->]. apply orb_true_r.
  - destruct (new_huge_page_decode p attr) as (Hp & Hh & _ & Ha). simpl in *. split_and!; [done..|].
    right. unfold stops. apply andb_true_iff in Hh as [_ ->]. apply orb_true_r.
Qed.

Lemma map_size_run f s c root v p q attr :
  rooted OFFSET s c root -> VSpaceCap.is_canonical v = true ->
  path OFFSET (v_mem s) root v = Some q ->
  FrameSizeImpl.is_aligned f v = true -> FrameSizeImpl.is_aligned f p = true ->
  map_size f c v p attr s = place s (leaf_depth f) (leaf_word f p attr) [v] q.
Proof.
  intros. destruct f; [by eapply map_4k_run|by eapply map_2m_run|by eapply map_1g_run].
Qed.

(** Two states whose memories differ at the leaf entry of [v] only. *)
Lemma walk_other f s s' c root v :
  rooted OFFSET s c root -> rooted OFFSET s' c root -> pt_wf OFFSET (v_mem s) root ->
  VSpaceCap.is_canonical v = true ->
  (forall v', take (S (leaf_depth f)) (steps_of v') <> take (S (leaf_depth f)) (steps_of v) ->
     path OFFSET (v_mem s') root v' = path OFFSET (v_mem s) root v') ->
  forall v', VSpaceCap.is_canonical v' = true ->
    v' / 2 ^ FrameSizeImpl.bits f <> v / 2 ^ FrameSizeImpl.bits f ->
    snd (VSpaceCap.walk OFFSET c v' s') = snd (VSpaceCap.walk OFFSET c v' s).
Proof.
  intros Hr Hr' Hwf Hc Ho v' Hc' Hne. destruct (proj1 Hwf v') as [q' Hq'].
  erewrite (walk_run OFFSET s); [|done|done|exact Hq'].
  erewrite walk_run; [done|done|done|]. rewrite Ho; [exact Hq'|].
  intros E. by apply Hne, steps_same_page.
Qed.

Lemma unmap_ok s c root v p f s' :
  pt_wf OFFSET (v_mem s) root -> rooted OFFSET s c root -> VSpaceCap.is_canonical v = true ->
  VSpaceCap.unmap OFFSET c v s = (s', Done (Ok (p, f))) ->
  pt_wf OFFSET (v_mem s') root /\ rooted OFFSET s' c root /\
  (forall v', VSpaceCap.is_canonical v' = true ->
     v' / 2 ^ FrameSizeImpl.bits f = v / 2 ^ FrameSizeImpl.bits f ->
     VSpaceCap.walk OFFSET c v' s = (s, Done (Ok (MappedPage p f (4 - Z.of_nat (leaf_depth f))))) /\
     VSpaceCap.walk OFFSET c v' s' = (s', Done (Ok (WNotMapped (4 - Z.of_nat (leaf_depth f)))))) /\
  (forall v', VSpaceCap.is_canonical v' = true ->
     v' / 2 ^ FrameSizeImpl.bits f <> v / 2 ^ FrameSizeImpl.bits f ->
     snd (VSpaceCap.walk OFFSET c v' s') = snd (VSpaceCap.walk OFFSET c v' s)) /\
  v_flushes s' = v :: v_flushes s.
Proof.
  intros Hwf Hroot Hcan Hun. destruct (proj1 Hwf v) as [q Hq].
  rewrite (unmap_run OFFSET s c root v Hroot Hcan q Hq) in Hun.
  destruct (last q) as [[a w]|] eqn:El; [|done].
  destruct (raw_present w) eqn:Hw; [|done]. injection Hun as <- <- Hf.
  pose proof El as Eq. apply last_Some in Eq as [q0 Eq].
  pose proof (path_leaf_length _ _ _ _ _ _ _ Hq El Hw) as Hl. rewrite Hf in Hl.
  assert (Hlen : length q0 = leaf_depth f) by (rewrite Eq, length_app in Hl; simpl in Hl; lia).
  rewrite Eq in Hq, Hf.
  destruct (write_leaf OFFSET (v_mem s) root Hwf v _ a w 0 Hq) as (Pv & Po & Wf').
  { right; left. done. }
  rewrite Hlen in Po, Pv. split_and!; [done|done| |by eapply walk_other|done].
  intros v' Hc' E. destruct (Pv v') as [P1 P2]; [by apply steps_same_page|].
  split; (erewrite walk_run; [|done|done|first [exact P1|exact P2]]); unfold walk_of;
    rewrite last_snoc; [rewrite Hw, Hf|change (raw_present 0) with false];
    cbn [negb]; rewrite length_app, Hlen; by destruct f.
Qed.

Lemma place_ok s k new fl q s' :
  place s k new fl q = (s', Done (Ok tt)) ->
  exists a w, q !! k = Some (a, w) /\ raw_present w = false /\
    s' = mkV (v_slots s) (<[a := new]> (v_mem s)) (fl ++ v_flushes s).
Proof.
  unfold place. destruct (q !! k) as [[a w]|] eqn:E.
  - destruct (raw_present w) eqn:P; [done|]. intros [= <-]. eauto.
  - by destruct (last q) as [[? ?]|].
Qed.

Lemma place_err s k new fl q s' e : place s k new fl q = (s', Done (Err e)) -> s' = s.
Proof.
  unfold place. destruct (q !! k) as [[a w]|] eqn:E.
  - destruct (raw_present w); [by intros [= <-]|done].
  - destruct (last q) as [[? ?]|]; by intros [= <-].
Qed.

Lemma rooted_mem s c root m' fl :
  rooted OFFSET s c root -> rooted OFFSET (mkV (v_slots s) m' fl) c root.
Proof. done. Qed.

(** The entry a successful mapping writes. *)
Lemma map_size_path f s c root v p attr s' :
  pt_wf OFFSET (v_mem s) root -> rooted OFFSET s c root -> VSpaceCap.is_canonical v = true ->
  FrameSizeImpl.is_aligned f v = true -> FrameSizeImpl.is_aligned f p = true ->
  map_size f c v p attr s = (s', Done (Ok tt)) ->
  exists q a w, length q = leaf_depth f /\ raw_present w = false /\
    s' = mkV (v_slots s) (<[a := leaf_word f p attr]> (v_mem s)) (v :: v_flushes s) /\
    (forall v', take (S (leaf_depth f)) (steps_of v') = take (S (leaf_depth f)) (steps_of v) ->
       path OFFSET (v_mem s) root v' = Some (q ++ [(a, w)]) /\
       path OFFSET (v_mem s') root v' = Some (q ++ [(a, leaf_word f p attr)])) /\
    (forall v', take (S (leaf_depth f)) (steps_of v') <> take (S (leaf_depth f)) (steps_of v) ->
       path OFFSET (v_mem s') root v' = path OFFSET (v_mem s) root v') /\
    pt_wf OFFSET (v_mem s') root.
Proof.
  intros Hwf Hroot Hcan Hv Hal Hmap. destruct (proj1 Hwf v) as [q Hq].
  rewrite (map_size_run f s c root v p q) in Hmap by done.
  apply place_ok in Hmap as (a & w & Hk & Hw & ->).
  pose proof (path_absent_last _ _ _ _ _ _ _ _ Hq Hk Hw) as Eq.
  assert (Hlen : length (take (leaf_depth f) q) = leaf_depth f)
    by (rewrite length_take; apply lookup_lt_Some in Hk; lia).
  destruct (leaf_word_decode f p attr) as (Dp & Da & Ds).
  rewrite Eq in Hq. destruct (write_leaf OFFSET (v_mem s) root Hwf v _ a w (leaf_word f p attr) Hq)
    as (Pv & Po & Wf').
  { destruct Ds as [-> |Ds]; [by right; right; rewrite Hlen|left]. split; [done|].
    intros E. rewrite E in Hlen. by destruct f. }
  rewrite Hlen in Po, Pv. exists (take (leaf_depth f) q), a, w. by split_and!.
Qed.

(** A successful mapping is seen by [walk], changes no other page, keeps the
    page tables well formed and flushes the page. *)
Lemma map_size_ok f s c root v p attr s' :
  pt_wf OFFSET (v_mem s) root -> rooted OFFSET s c root ->
  VSpaceCap.is_canonical v = true -> 0 <= p < 2 ^ 52 ->
  FrameSizeImpl.is_aligned f v = true -> FrameSizeImpl.is_aligned f p = true ->
  map_size f c v p attr s = (s', Done (Ok tt)) ->
  pt_wf OFFSET (v_mem s') root /\ rooted OFFSET s' c root /\
  (forall v', VSpaceCap.is_canonical v' = true ->
     v' / 2 ^ FrameSizeImpl.bits f = v / 2 ^ FrameSizeImpl.bits f ->
     VSpaceCap.walk OFFSET c v' s = (s, Done (Ok (WNotMapped (4 - Z.of_nat (leaf_depth f))))) /\
     VSpaceCap.walk OFFSET c v' s' =
       (s', Done (Ok (MappedPage p f (4 - Z.of_nat (leaf_depth f)))))) /\
  (forall v', VSpaceCap.is_canonical v' = true ->
     v' / 2 ^ FrameSizeImpl.bits f <> v / 2 ^ FrameSizeImpl.bits f ->
     snd (VSpaceCap.walk OFFSET c v' s') = snd (VSpaceCap.walk OFFSET c v' s)) /\
  v_flushes s' = v :: v_flushes s.
Proof.
  intros Hwf Hroot Hcan Hp Hv Hal Hmap.
  destruct (map_size_path f s c root v p attr s') as (q & a & w & Hlen & Hw & -> & Pv & Po & Wf');
    [done..|].
  destruct (leaf_word_decode f p attr) as (Dp & Da & Ds).
  split_and!; [done|done| |by eapply walk_other|done].
  intros v' Hc' E. destruct (Pv v') as [P1 P2]; [by apply steps_same_page|].
  split; (erewrite walk_run; [|done|done|first [exact P1|exact P2]]); unfold walk_of;
    rewrite last_snoc, length_app, Hlen; [rewrite Hw; by destruct f|].
  rewrite Dp, Da, aligned_addr; [by destruct f|done|].
  apply is_aligned_spec in Hal. destruct f; simpl in Hal; Z.to_euclidean_division_equations; lia.
Qed.

(** The permission bits of the entry. *)
Lemma leaf_word_flags f p attr :
  Z.testbit (leaf_word f p attr) 0 = true /\
  Z.testbit (leaf_word f p attr) 1 = contains (vm_rights attr) VMRights.WRITE /\
  Z.testbit (leaf_word f p attr) 2 = user attr /\
  Z.testbit (leaf_word f p attr) 63 = negb (contains (vm_rights attr) VMRights.EXECUTE).
Proof.
  destruct (build_flags_spec attr) as (_ & F0 & F1 & F2 & _ & F63 & _).
  destruct f; unfold leaf_word; cbn [pte_raw new_page pde_raw new_large_page pdpte_raw new_huge_page];
    rewrite !entry_word_bit by lia; [done|..];
    rewrite !Z.lor_spec, F0, F1, F2, F63; by rewrite !orb_false_r.
Qed.

(** [map_frame] maps the frame of the capability with the rights of the capability. *)
Lemma map_frame_run s c (fr : CapRef FrameObj) r v u :
  v_slots s !! raw fr = Some r -> 0 <= paddr r < 2 ^ 52 ->
  VSpaceCap.map_frame OFFSET c v fr u s =
  map_size (FrameCap.raw_size r) c v (paddr r)
    (mkAttr (FrameCap.raw_vm_rights (rights r)) (FrameCap.raw_cache_policy r) false u) s.
Proof.
  intros Hr Hp. unfold VSpaceCap.map_frame, ref_paddr, FrameCap.vm_attributes,
    FrameCap.vm_rights_from_cap, FrameCap.cache_policy, FrameCap.size, ref_rights, onslots.
  assert (Hs : mkV (v_slots s) (v_mem s) (v_flushes s) = s) by by destruct s.
  assert (Hg := entry_get_some _ _ _ Hr). unfold zoom.
  unfold bind at 1. rewrite (bind_done _ _ _ _ _ Hg), phys_addr_new_ok by done. cbn [unwrap_or_panic].
  unfold ret at 1. rewrite Hs.
  unfold bind at 1. unfold bind at 1. rewrite (bind_done _ _ _ _ _ (entry_read _ _ _ rights Hr)).
  unfold ret at 1. unfold bind at 1.
  rewrite (entry_read _ _ _ FrameCap.raw_cache_policy Hr). unfold ret at 1. rewrite Hs.
  unfold bind at 1. rewrite (entry_read _ _ _ FrameCap.raw_size Hr), Hs.
  by destruct (FrameCap.raw_size r).
Qed.

(** What an operation that fills an absent entry at level [lvl] answers, from what [walk] answers. *)
Definition place_answer (lvl : Z) (r : WalkResult) : result unit VSpaceError :=
  match r with
  | WNotMapped l => if l =? lvl then Ok tt else Err (if lvl <? l then MissingTable else AlreadyMapped)
  | _ => Err AlreadyMapped
  end.

Lemma place_outcome s root v q k w fl :
  path OFFSET (v_mem s) root v = Some q -> (k < 4)%nat ->
  snd (place s k w fl q) = Done (place_answer (4 - Z.of_nat k) (walk_of q)).
Proof.
  intros Hq Hk. unfold walk_of, place, place_answer.
  path_cases Hq; destruct k as [|[|[|[|k]]]]; try lia; simpl;
    repeat match goal with P : raw_present ?w = _ |- _ => rewrite P end; simpl; try done;
    destruct (raw_present w1); done.
Qed.

Lemma map_size_outcome f s c root v p attr r :
  pt_wf OFFSET (v_mem s) root -> rooted OFFSET s c root -> VSpaceCap.is_canonical v = true ->
  FrameSizeImpl.is_aligned f v = true -> FrameSizeImpl.is_aligned f p = true ->
  VSpaceCap.walk OFFSET c v s = (s, Done (Ok r)) ->
  snd (map_size f c v p attr s) = Done (place_answer (4 - Z.of_nat (leaf_depth f)) r).
Proof.
  intros Hwf Hroot Hcan Hv Hal Hwalk. destruct (proj1 Hwf v) as [q Hq].
  erewrite walk_run in Hwalk by done. injection Hwalk as <-.
  erewrite map_size_run by done. eapply place_outcome; [exact Hq|by destruct f; cbn; lia].
Qed.

Lemma install_outcome s c root v level t r :
  pt_wf OFFSET (v_mem s) root -> rooted OFFSET s c root -> VSpaceCap.is_canonical v = true ->
  1 <= level <= 3 -> FrameSizeImpl.is_aligned Small t = true ->
  VSpaceCap.walk OFFSET c v s = (s, Done (Ok r)) ->
  snd (VSpaceCap.install_table OFFSET c v level t s) = Done (place_answer (level + 1) r).
Proof.
  intros Hwf Hroot Hcan Hl Hal Hwalk. destruct (proj1 Hwf v) as [q Hq].
  erewrite walk_run in Hwalk by done. injection Hwalk as <-. erewrite install_table_run by done.
  erewrite place_outcome; [|exact Hq|lia]. do 2 f_equal. lia.
Qed.

Lemma unmap_outcome s c root v r :
  pt_wf OFFSET (v_mem s) root -> rooted OFFSET s c root -> VSpaceCap.is_canonical v = true ->
  VSpaceCap.walk OFFSET c v s = (s, Done (Ok r)) ->
  snd (VSpaceCap.unmap OFFSET c v s) = Done match r with MappedPage p f _ => Ok (p, f) | _ => Err NotMapped end.
Proof.
  intros Hwf Hroot Hcan Hwalk. destruct (proj1 Hwf v) as [q Hq].
  erewrite walk_run in Hwalk by done. injection Hwalk as <-. erewrite unmap_run by done. unfold walk_of.
  destruct (last q) as [[a w]|]; [|done]. by destruct (raw_present w).
Qed.

Lemma map_size_err f s c root v p attr s' e :
  pt_wf OFFSET (v_mem s) root -> rooted OFFSET s c root ->
  map_size f c v p attr s = (s', Done (Err e)) -> s' = s.
Proof.
  intros Hwf Hroot Hm. destruct (VSpaceCap.is_canonical v) eqn:Hc.
  2: { destruct f; cbn [map_size] in Hm; unfold VSpaceCap.map_4k, VSpaceCap.map_2m, VSpaceCap.map_1g in Hm;
       rewrite Hc in Hm; by injection Hm. }
  destruct (FrameSizeImpl.is_aligned f v) eqn:Hv.
  2: { destruct f; cbn [map_size] in Hm; unfold VSpaceCap.map_4k, VSpaceCap.map_2m, VSpaceCap.map_1g in Hm;
       rewrite Hc, Hv in Hm; by injection Hm. }
  destruct (FrameSizeImpl.is_aligned f p) eqn:Hp.
  2: { destruct f; cbn [map_size] in Hm; unfold VSpaceCap.map_4k, VSpaceCap.map_2m, VSpaceCap.map_1g in Hm;
       rewrite Hc, Hv, Hp in Hm; by injection Hm. }
  destruct (proj1 Hwf v) as [q Hq]. erewrite map_size_run in Hm by done. by eapply place_err.
Qed.

(** A table installed at [level] leaves its region unmapped, one level deeper. *)
Lemma install_table_ok s c root v level t s' :
  pt_wf OFFSET (v_mem s) root -> rooted OFFSET s c root -> VSpaceCap.is_canonical v = true ->
  1 <= level <= 3 -> FrameSizeImpl.is_aligned Small t = true -> 0 <= t < 2 ^ 52 ->
  t + OFFSET < W64 -> fresh_table OFFSET (v_mem s) root (t + OFFSET) ->
  VSpaceCap.install_table OFFSET c v level t s = (s', Done (Ok tt)) ->
  pt_wf OFFSET (v_mem s') root /\ rooted OFFSET s' c root /\
  (forall v', VSpaceCap.is_canonical v' = true ->
     v' / 2 ^ level_bits level = v / 2 ^ level_bits level ->
     VSpaceCap.walk OFFSET c v' s = (s, Done (Ok (WNotMapped (level + 1)))) /\
     VSpaceCap.walk OFFSET c v' s' = (s', Done (Ok (WNotMapped level)))) /\
  (forall v', VSpaceCap.is_canonical v' = true ->
     v' / 2 ^ level_bits level <> v / 2 ^ level_bits level ->
     snd (VSpaceCap.walk OFFSET c v' s') = snd (VSpaceCap.walk OFFSET c v' s)) /\
  v_flushes s' = v_flushes s.
Proof.
  intros Hwf Hroot Hcan Hl Hal Ht Hb Hf Hi. destruct (proj1 Hwf v) as [q Hq].
  erewrite install_table_run in Hi by done. apply place_ok in Hi as (a & w & Hk & Hw & ->).
  pose proof (path_absent_last _ _ _ _ _ _ _ _ Hq Hk Hw) as Eq. set (k := Z.to_nat (3 - level)) in *.
  assert (Hlen : length (take k q) = k)
    by (rewrite length_take; apply lookup_lt_Some in Hk; lia).
  destruct (table_word_decode t) as (Dp & Dh & Da).
  rewrite (aligned_addr t) in Da; [|done|by apply is_aligned_spec in Hal].
  rewrite Eq in Hq.
  destruct (write_table OFFSET (v_mem s) root Hwf v _ a w (table_word t) Hq) as (Pv & Po & Wf');
    rewrite ?Da; [rewrite Hlen; unfold k; lia|done..|].
  rewrite Hlen in Po, Pv. split_and!; [done|done| | |done].
  - intros v' Hc' E. apply steps_same_region in E; [|lia|done..].
    destruct (Pv v' E) as [b Hp']. split.
    + assert (Hq' : path OFFSET (v_mem s) root v' = Some (take k q ++ [(a, w)]))
        by (eapply desc_prefix; [exact Hq|done|by rewrite Hlen]).
      erewrite walk_run; [|done|done|exact Hq']. unfold walk_of. rewrite last_snoc, Hw, length_app, Hlen.
      do 4 f_equal. unfold k. simpl. lia.
    + erewrite walk_run; [|done|done|exact Hp']. unfold walk_of.
      rewrite last_app. cbn [last]. change (raw_present 0) with false. rewrite length_app, Hlen.
      do 4 f_equal. unfold k. simpl. lia.
  - intros v' Hc' Hne. destruct (proj1 Hwf v') as [q' Hq'].
    erewrite (walk_run OFFSET s); [|done|done|exact Hq'].
    erewrite walk_run; [done|done|done|]. cbn [v_mem]. rewrite Po; [exact Hq'|].
    intros E. apply Hne, steps_same_region; done || lia.
Qed.
End mapping.

(** ** A zeroed root table *)

Lemma zeroed_root OFFSET m root v :
  (forall i, 0 <= i < 512 -> m !! Table.entry_at root i = Some 0) ->
  path OFFSET m root v =
    Some [(Table.entry_at root (Z.land (Z.shiftr v 39) 0x1FF), 0)].
Proof.
  intros Hz. unfold path, steps_of, VSpaceCap.vaddr_indices. cbn [desc].
  by rewrite Hz by apply index9.
Qed.

(** An address space whose root table is zeroed is well formed. *)
Lemma pt_wf_zeroed OFFSET m root :
  (forall i, 0 <= i < 512 -> m !! Table.entry_at root i = Some 0) -> pt_wf OFFSET m root.
Proof.
  intros Hz. split.
  - intros v. rewrite zeroed_root by done. by eexists.
  - intros v v' p p' i j a. rewrite !zeroed_root by done. intros [= <-] [= <-].
    destruct i as [|[|]], j as [|[|]]; try done. cbn. intros [= <-] [= E]. split; [done|].
    unfold steps_of, VSpaceCap.vaddr_indices. do 2 f_equal. unfold Table.entry_at in E. lia.
Qed.

(** ** Reachable address spaces *)

(** One operation on the address space, successful or not.  What the code leaves to its callers: frames
    and tables are at physical addresses below 2^52, and a table that is installed is reachable at
    [OFFSET], zeroed, and not yet part of the address space. *)
Inductive vspace_step `{Build} `{X86Addr} `{Bitflags} (OFFSET : Z) (c : CapRef VSpaceObj) (root : Z)
  : VState -> VState -> Prop :=
| step_map f v p attr s s' r :
    0 <= p < 2 ^ 52 -> map_size OFFSET f c v p attr s = (s', Done r) ->
    vspace_step OFFSET c root s s'
| step_unmap v s s' r :
    VSpaceCap.unmap OFFSET c v s = (s', Done r) -> vspace_step OFFSET c root s s'
| step_install v level t s s' r :
    0 <= t < 2 ^ 52 -> t + OFFSET < W64 -> fresh_table OFFSET (v_mem s) root (t + OFFSET) ->
    VSpaceCap.install_table OFFSET c v level t s = (s', Done r) ->
    vspace_step OFFSET c root s s'.

Section steps.
Context `{Build} `{X86AddrLaws} `{Bitflags} (OFFSET : Z) (c : CapRef VSpaceObj) (root : Z).

Lemma map_size_guards f v p attr s s' :
  map_size OFFSET f c v p attr s = (s', Done (Ok tt)) ->
  VSpaceCap.is_canonical v = true /\ FrameSizeImpl.is_aligned f v = true /\
  FrameSizeImpl.is_aligned f p = true.
Proof.
  destruct f; cbn [map_size]; unfold VSpaceCap.map_4k, VSpaceCap.map_2m, VSpaceCap.map_1g;
    destruct (VSpaceCap.is_canonical v); try done; destruct (FrameSizeImpl.is_aligned _ v); try done;
    by destruct (FrameSizeImpl.is_aligned _ p).
Qed.

(** What a successful [map_frame] grants: the frame at every address of its page and nothing at
    another, with the rights of the capability, which stays as it is. *)
Lemma map_frame_grants `{!BitflagsLaws} s v (fr : CapRef FrameObj) r u s' :
  pt_wf OFFSET (v_mem s) root -> rooted OFFSET s c root -> v_slots s !! raw fr = Some r ->
  0 <= paddr r < 2 ^ 52 -> VSpaceCap.map_frame OFFSET c v fr u s = (s', Done (Ok tt)) ->
  let f := FrameCap.raw_size r in
  v_slots s' = v_slots s /\ VSpaceCap.is_canonical v = true /\
  (forall v', VSpaceCap.is_canonical v' = true ->
     v' / 2 ^ FrameSizeImpl.bits f = v / 2 ^ FrameSizeImpl.bits f ->
     VSpaceCap.walk OFFSET c v' s' = (s', Done (Ok (MappedPage (paddr r) f (4 - Z.of_nat (leaf_depth f)))))) /\
  (forall v', VSpaceCap.is_canonical v' = true ->
     v' / 2 ^ FrameSizeImpl.bits f <> v / 2 ^ FrameSizeImpl.bits f ->
     snd (VSpaceCap.walk OFFSET c v' s') = snd (VSpaceCap.walk OFFSET c v' s)) /\
  exists q a w, path OFFSET (v_mem s') root v = Some (q ++ [(a, w)]) /\
  Z.testbit w 0 = true /\
  Z.testbit w 1 = CapRights.includes (rights r) CapRights.WRITE /\
  Z.testbit w 2 = u /\
  Z.testbit w 63 = negb (CapRights.includes (rights r) CapRights.EXECUTE).
Proof.
  intros Hwf Hr Hfr Hp Hm f. erewrite map_frame_run in Hm by done. fold f in Hm.
  destruct (map_size_guards _ _ _ _ _ _ Hm) as (Hc & Hv & Hal).
  destruct (vm_rights_spec (rights r)) as (_ & Ew & Ex).
  destruct (map_size_ok OFFSET f s c root v _ _ s' Hwf Hr Hc Hp Hv Hal Hm) as (_ & _ & Wp & Wo & _).
  destruct (map_size_path OFFSET f s c root v _ _ s' Hwf Hr Hc Hv Hal Hm) as (q & a & w & _ & _ & -> & Pv & _).
  split_and!; [done|done|intros v' Hc' E; by apply Wp|done|].
  eexists q, a, _. split; [by apply Pv|].
  destruct (leaf_word_flags f (paddr r)
    (mkAttr (FrameCap.raw_vm_rights (rights r)) (FrameCap.raw_cache_policy r) false u)) as (-> & -> & -> & ->).
  cbn [vm_rights user]. by rewrite Ew, Ex.
Qed.

Lemma unmap_err s v s' e :
  pt_wf OFFSET (v_mem s) root -> rooted OFFSET s c root ->
  VSpaceCap.unmap OFFSET c v s = (s', Done (Err e)) -> s' = s.
Proof.
  intros Hwf Hr Hu. destruct (VSpaceCap.is_canonical v) eqn:Hc.
  - destruct (proj1 Hwf v) as [q Hq]. erewrite unmap_run in Hu by done.
    destruct (last q) as [[a w]|]; [|by injection Hu]. by destruct (raw_present w); injection Hu.
  - unfold VSpaceCap.unmap in Hu. rewrite Hc in Hu. by injection Hu.
Qed.

(** [unmap] succeeds where [walk] finds a page. *)
Lemma unmap_of_walk s v p f l :
  pt_wf OFFSET (v_mem s) root -> rooted OFFSET s c root -> VSpaceCap.is_canonical v = true ->
  VSpaceCap.walk OFFSET c v s = (s, Done (Ok (MappedPage p f l))) ->
  exists s', VSpaceCap.unmap OFFSET c v s = (s', Done (Ok (p, f))).
Proof.
  intros Hwf Hr Hc Hw. destruct (proj1 Hwf v) as [q Hq].
  erewrite walk_run in Hw by done. erewrite unmap_run by done. unfold walk_of in Hw.
  destruct (last q) as [[a w]|]; [|done]. destruct (raw_present w); [|done].
  injection Hw as <- <- <-. by eexists.
Qed.

Lemma install_table_guards v level t s s' :
  VSpaceCap.install_table OFFSET c v level t s = (s', Done (Ok tt)) ->
  VSpaceCap.is_canonical v = true /\ FrameSizeImpl.is_aligned Small t = true /\ 1 <= level <= 3.
Proof.
  unfold VSpaceCap.install_table. destruct (VSpaceCap.is_canonical v); [|done].
  destruct (FrameSizeImpl.is_aligned Small t); [|done]. cbn [negb].
  unfold VSpaceCap.vaddr_indices. intros Hi. split_and!; [done|done|..];
    destruct level as [|[[| |]|[| |]|]|]; done.
Qed.

Lemma install_table_err s v level t s' e :
  pt_wf OFFSET (v_mem s) root -> rooted OFFSET s c root ->
  VSpaceCap.install_table OFFSET c v level t s = (s', Done (Err e)) -> s' = s.
Proof.
  intros Hwf Hr Hi. destruct (VSpaceCap.is_canonical v) eqn:Hc.
  2: { unfold VSpaceCap.install_table in Hi. rewrite Hc in Hi. by injection Hi. }
  destruct (FrameSizeImpl.is_aligned Small t) eqn:Ha.
  2: { unfold VSpaceCap.install_table in Hi. rewrite Hc, Ha in Hi. by injection Hi. }
  destruct (decide (1 <= level <= 3)) as [Hl|Hl].
  - destruct (proj1 Hwf v) as [q Hq]. erewrite install_table_run in Hi by done. by eapply place_err.
  - unfold VSpaceCap.install_table in Hi. rewrite Hc, Ha in Hi. cbn [negb] in Hi.
    unfold VSpaceCap.vaddr_indices in Hi.
    destruct level as [|[[| |]|[| |]|]|]; try (by injection Hi); exfalso; apply Hl; lia.
Qed.

Lemma step_wf s s' :
  vspace_step OFFSET c root s s' -> pt_wf OFFSET (v_mem s) root -> rooted OFFSET s c root ->
  pt_wf OFFSET (v_mem s') root /\ rooted OFFSET s' c root.
Proof.
  intros Hs Hwf Hr. destruct Hs as [f v p attr s s' [[]|e] Hp Hm|v s s' [[p f]|e] Hu|v level t s s' [[]|e] Ht Hb Hf Hi].
  - destruct (map_size_guards _ _ _ _ _ _ Hm) as (? & ? & ?).
    edestruct (map_size_ok OFFSET f) as (? & ? & _); [exact Hwf|exact Hr|..]; done.
  - apply map_size_err with (root := root) in Hm as ->; done.
  - destruct (VSpaceCap.is_canonical v) eqn:Hc.
    + edestruct unmap_ok as (? & ? & _); [exact Hwf|exact Hr|..]; done.
    + unfold VSpaceCap.unmap in Hu. by rewrite Hc in Hu.
  - apply unmap_err in Hu as ->; done.
  - destruct (install_table_guards _ _ _ _ _ Hi) as (? & ? & ?).
    edestruct install_table_ok as (? & ? & _); [exact Hwf|exact Hr|..]; done.
  - apply install_table_err in Hi as ->; done.
Qed.

(** [install_table] does not check that: it puts the root table below itself. *)
Lemma install_root s r :
  v_slots s !! raw c = Some r -> rooted OFFSET s c root -> FrameSizeImpl.is_aligned Small (paddr r) = true ->
  (forall i, 0 <= i < 512 -> v_mem s !! Table.entry_at root i = Some 0) ->
  exists s', VSpaceCap.install_table OFFSET c 0 3 (paddr r) s = (s', Done (Ok tt)) /\ ~ pt_wf OFFSET (v_mem s') root.
Proof.
  intros Hc Hr Hal Hz. pose proof (zeroed_root OFFSET (v_mem s) root 0 Hz) as Hq.
  change (Z.land (Z.shiftr 0 39) 0x1FF) with 0 in Hq.
  erewrite install_table_run; [|exact Hr|done|exact Hq|lia|done]. unfold place. cbn [lookup list_lookup].
  change (raw_present 0) with false. cbv iota. eexists. split; [reflexivity|]. cbn [v_mem]. intros [_ Ht].
  set (a := Table.entry_at root 0) in *. set (m := <[a := table_word (paddr r)]> (v_mem s)) in *.
  destruct Hr as (r' & Hr' & Hp & -> & Hb & _). rewrite Hc in Hr'. injection Hr' as <-.
  destruct (table_word_decode (paddr r)) as (Dp & Dh & Da).
  rewrite (aligned_addr (paddr r)) in Da; [|done|by apply is_aligned_spec in Hal].
  assert (Hpath : path OFFSET m (paddr r + OFFSET) 0 = Some (replicate 4 (a, table_word (paddr r)))).
  { unfold path. change (steps_of 0) with [(false, 0); (true, 0); (true, 0); (true, 0)].
    assert (Hm : m !! Table.entry_at (paddr r + OFFSET) 0 = Some (table_word (paddr r))) by apply lookup_insert_eq.
    apply Z.ltb_lt in Hb. cbn [desc]. unfold stops.
    do 4 (rewrite ?Hm, ?Dp, ?Dh, ?Da, ?Hb; cbn [negb orb andb]). done. }
  by destruct (Ht 0 0 _ _ 0%nat 1%nat a Hpath Hpath eq_refl eq_refl).
Qed.

Lemma steps_wf s s' :
  rtc (vspace_step OFFSET c root) s s' -> pt_wf OFFSET (v_mem s) root -> rooted OFFSET s c root ->
  pt_wf OFFSET (v_mem s') root /\ rooted OFFSET s' c root.
Proof.
  induction 1 as [|s s1 s' Hs _ IH]; [done|]. intros Hwf Hr.
  destruct (step_wf _ _ Hs Hwf Hr). by apply IH.
Qed.
End steps.

(** ** A concrete address space *)

(** [n] zero words from address [a] on. *)
Fixpoint zeroed (a : Z) (n : nat) : Mem :=
  match n with O => ∅ | S n => <[a := 0]> (zeroed (a + 8) n) end.

Lemma zeroed_lookup a n i : 0 <= i < Z.of_nat n -> zeroed a n !! (a + 8 * i) = Some 0.
Proof.
  revert a i. induction n as [|n IH]; intros a i Hi; [lia|]. cbn [zeroed].
  destruct (decide (i = 0)) as [->|]; [by rewrite Z.mul_0_r, Z.add_0_r, lookup_insert_eq|].
  rewrite lookup_insert_ne by lia. replace (a + 8 * i) with (a + 8 + 8 * (i - 1)) by lia.
  apply IH. lia.
Qed.

(** A VSpace capability in entry 64 with a zeroed root table at physical
    address 0x1000, a second zeroed table at 0x2000, and a read-only 1 GiB frame
    capability in entry 128; physical memory is mapped at virtual address 0. *)
Definition demo_cap : CapRef VSpaceObj := mkCapRef 64.
Definition demo_frame : CapRef FrameObj := mkCapRef 128.
Definition demo : VState :=
  mkV (<[64 := set_paddr 0x1000 (default_with_type VSpace)]>
        {[128 := FrameCap.mint_with_cache 0x40000000 Huge false WriteBack CapRights.READ]})
    (zeroed 0x1000 1024) [].

Lemma demo_rooted : rooted 0 demo demo_cap 0x1000.
Proof. eexists. split; [done|]. by vm_compute. Qed.

Lemma demo_wf : pt_wf 0 (v_mem demo) 0x1000.
Proof. apply pt_wf_zeroed. intros i Hi. apply zeroed_lookup. lia. Qed.

Lemma demo_fresh : fresh_table 0 (v_mem demo) 0x1000 0x2000.
Proof.
  split.
  - intros i Hi. unfold Table.entry_at. replace (8192 + 8 * i) with (4096 + 8 * (512 + i)) by lia.
    apply (zeroed_lookup 4096 1024). lia.
  - intros v p a i. rewrite zeroed_root by (intros j Hj; apply zeroed_lookup; lia).
    intros [= <-] Ha Hi. apply list_elem_of_singleton in Ha as ->. unfold Table.entry_at.
    pose proof (index9 v 39). cbn [fst]. lia.
Qed.

(** After installing the second table for the first 512 GiB. *)
Definition demo2 : VState :=
  fst (VSpaceCap.install_table (H := true) (H0 := ref_x86addr) 0 demo_cap 0x40000000 3 0x2000 demo).

Lemma demo2_run :
  VSpaceCap.install_table (H := true) (H0 := ref_x86addr) 0 demo_cap 0x40000000 3 0x2000 demo
  = (demo2, Done (Ok tt)).
Proof. apply injective_projections; [reflexivity|vm_compute; reflexivity]. Qed.

Lemma demo2_wf : pt_wf 0 (v_mem demo2) 0x1000 /\ rooted 0 demo2 demo_cap 0x1000.
Proof.
  pose proof ref_x86addr_laws as L.
  edestruct (install_table_ok (H := true) (H1 := L) 0 demo) as (W & R & _); [..|exact demo2_run|];
    [apply demo_wf|apply demo_rooted|done|lia|done|lia|done|apply demo_fresh|].
  by split.
Qed.

(** ** The properties *)

Module Claims.
Section claims.
Context `{Build} `{X86AddrLaws} `{Bitflags} (OFFSET : Z).
Implicit Types (s : VState) (c : CapRef VSpaceObj).

(** C1: in a well-formed address space, a successful [map_4k], [map_2m] or [map_1g] of a frame below
    2^52 (so that page and frame are aligned) makes [walk] answer the mapped frame, with its size and level, for every address of the page (none of which was mapped before), leaves the
    answer for every other canonical address as it was, keeps the page tables a well-formed tree
    and flushes exactly the mapped address. *)
Theorem map_updates_walk f s c root v p attr s' :
  pt_wf OFFSET (v_mem s) root -> rooted OFFSET s c root ->
  VSpaceCap.is_canonical v = true -> 0 <= p < 2 ^ 52 ->
  FrameSizeImpl.is_aligned f v = true -> FrameSizeImpl.is_aligned f p = true ->
  map_size OFFSET f c v p attr s = (s', Done (Ok tt)) ->
  pt_wf OFFSET (v_mem s') root /\ rooted OFFSET s' c root /\
  (forall v', VSpaceCap.is_canonical v' = true ->
     v' / 2 ^ FrameSizeImpl.bits f = v / 2 ^ FrameSizeImpl.bits f ->
     VSpaceCap.walk OFFSET c v' s = (s, Done (Ok (WNotMapped (4 - Z.of_nat (leaf_depth f))))) /\
     VSpaceCap.walk OFFSET c v' s' =
       (s', Done (Ok (MappedPage p f (4 - Z.of_nat (leaf_depth f)))))) /\
  (forall v', VSpaceCap.is_canonical v' = true ->
     v' / 2 ^ FrameSizeImpl.bits f <> v / 2 ^ FrameSizeImpl.bits f ->
     snd (VSpaceCap.walk OFFSET c v' s') = snd (VSpaceCap.walk OFFSET c v' s)) /\
  v_flushes s' = v :: v_flushes s.
Proof. apply map_size_ok. Qed.

(** C25: the operations on a well-formed address space return, and at a canonical address what they
    return is a function of what [walk] answers for it.  An aligned [map_*], or [install_table] of an
    aligned table at level 1, 2 or 3, succeeds exactly when the walk stops, unmapped, at the level of the entry it writes; it gives [MissingTable]
    when the walk stops above, and [AlreadyMapped] when it finds a page or a lower table; [unmap]
    returns the page found, or [NotMapped].  An operation that fails, for whatever argument, leaves
    the capabilities, the page tables and the flush log exactly as they were. *)
Theorem vspace_outcomes s c root v r :
  pt_wf OFFSET (v_mem s) root -> rooted OFFSET s c root -> VSpaceCap.is_canonical v = true ->
  VSpaceCap.walk OFFSET c v s = (s, Done (Ok r)) ->
  (forall f p attr, FrameSizeImpl.is_aligned f v = true -> FrameSizeImpl.is_aligned f p = true ->
     snd (map_size OFFSET f c v p attr s) = Done (place_answer (4 - Z.of_nat (leaf_depth f)) r)) /\
  (forall level t, 1 <= level <= 3 -> FrameSizeImpl.is_aligned Small t = true ->
     snd (VSpaceCap.install_table OFFSET c v level t s) = Done (place_answer (level + 1) r)) /\
  snd (VSpaceCap.unmap OFFSET c v s) =
    Done match r with MappedPage p f _ => Ok (p, f) | _ => Err NotMapped end /\
  (forall v' s' e, (exists f p attr, map_size OFFSET f c v' p attr s = (s', Done (Err e))) \/
     (exists level t, VSpaceCap.install_table OFFSET c v' level t s = (s', Done (Err e))) \/
     VSpaceCap.unmap OFFSET c v' s = (s', Done (Err e)) -> s' = s).
Proof.
  intros Hwf Hr Hc Hw. split_and!.
  - intros f p attr Hv Hp. by eapply map_size_outcome.
  - intros level t Hl Ht. by eapply install_outcome.
  - by eapply unmap_outcome.
  - intros v' s' e [(f & p & attr & Hm)|[(level & t & Hi)|Hu]];
      [by eapply map_size_err|by eapply install_table_err|by eapply unmap_err].
Qed.

(** C9: in a well-formed address space, a successful [unmap] at a canonical address returns the frame and size that [walk] reported for the whole page,
    leaves the page unmapped and every other canonical address as it was, keeps the page tables
    well formed and flushes exactly the address. *)
Theorem unmap_updates_walk s c root v p f s' :
  pt_wf OFFSET (v_mem s) root -> rooted OFFSET s c root -> VSpaceCap.is_canonical v = true ->
  VSpaceCap.unmap OFFSET c v s = (s', Done (Ok (p, f))) ->
  pt_wf OFFSET (v_mem s') root /\ rooted OFFSET s' c root /\
  (forall v', VSpaceCap.is_canonical v' = true ->
     v' / 2 ^ FrameSizeImpl.bits f = v / 2 ^ FrameSizeImpl.bits f ->
     VSpaceCap.walk OFFSET c v' s = (s, Done (Ok (MappedPage p f (4 - Z.of_nat (leaf_depth f))))) /\
     VSpaceCap.walk OFFSET c v' s' = (s', Done (Ok (WNotMapped (4 - Z.of_nat (leaf_depth f)))))) /\
  (forall v', VSpaceCap.is_canonical v' = true ->
     v' / 2 ^ FrameSizeImpl.bits f <> v / 2 ^ FrameSizeImpl.bits f ->
     snd (VSpaceCap.walk OFFSET c v' s') = snd (VSpaceCap.walk OFFSET c v' s)) /\
  v_flushes s' = v :: v_flushes s.
Proof. apply unmap_ok. Qed.

(** Mapping a page and unmapping it is a round trip: [unmap] succeeds at any address of the
    page, returns the frame that was mapped, and afterwards [walk] answers for every canonical
    address what it answered before the mapping. *)
Lemma map_unmap_roundtrip f s c root v p attr s1 v' :
  pt_wf OFFSET (v_mem s) root -> rooted OFFSET s c root ->
  VSpaceCap.is_canonical v = true -> 0 <= p < 2 ^ 52 ->
  FrameSizeImpl.is_aligned f v = true -> FrameSizeImpl.is_aligned f p = true ->
  map_size OFFSET f c v p attr s = (s1, Done (Ok tt)) ->
  VSpaceCap.is_canonical v' = true ->
  v' / 2 ^ FrameSizeImpl.bits f = v / 2 ^ FrameSizeImpl.bits f ->
  exists s2, VSpaceCap.unmap OFFSET c v' s1 = (s2, Done (Ok (p, f))) /\
    forall a, VSpaceCap.is_canonical a = true ->
      snd (VSpaceCap.walk OFFSET c a s2) = snd (VSpaceCap.walk OFFSET c a s).
Proof.
  intros Hwf Hr Hc Hp Hv Hal Hm Hc' E.
  destruct (map_size_ok OFFSET f s c root v p attr s1) as (Wf1 & R1 & Wp & Wo & _); [done..|].
  pose proof (proj2 (Wp v' Hc' E)) as Hw.
  destruct (unmap_of_walk OFFSET c root s1 v' p f _ Wf1 R1 Hc' Hw) as [s2 Hu].
  exists s2. split; [done|]. intros a Ha.
  destruct (unmap_ok OFFSET s1 c root v' p f s2) as (_ & _ & Up & Uo & _); [done..|].
  destruct (decide (a / 2 ^ FrameSizeImpl.bits f = v / 2 ^ FrameSizeImpl.bits f)) as [Ea|Ea].
  - rewrite (proj2 (Up a Ha ltac:(congruence))). by rewrite (proj1 (Wp a Ha Ea)).
  - rewrite Uo by (done || congruence). by apply Wo.
Qed.

(** C19: in a well-formed address space, a successful [install_table] with a table that is zeroed, not
    yet in use, below 2^52 and reachable at the offset of physical memory leaves its whole region unmapped,
    one level deeper than before, changes the answer of [walk] for no other address, keeps the
    page tables well formed and flushes nothing. *)
Theorem install_table_updates_walk s c root v level t s' :
  pt_wf OFFSET (v_mem s) root -> rooted OFFSET s c root -> VSpaceCap.is_canonical v = true ->
  1 <= level <= 3 -> FrameSizeImpl.is_aligned Small t = true -> 0 <= t < 2 ^ 52 ->
  t + OFFSET < W64 -> fresh_table OFFSET (v_mem s) root (t + OFFSET) ->
  VSpaceCap.install_table OFFSET c v level t s = (s', Done (Ok tt)) ->
  pt_wf OFFSET (v_mem s') root /\ rooted OFFSET s' c root /\
  (forall v', VSpaceCap.is_canonical v' = true ->
     v' / 2 ^ level_bits level = v / 2 ^ level_bits level ->
     VSpaceCap.walk OFFSET c v' s = (s, Done (Ok (WNotMapped (level + 1)))) /\
     VSpaceCap.walk OFFSET c v' s' = (s', Done (Ok (WNotMapped level)))) /\
  (forall v', VSpaceCap.is_canonical v' = true ->
     v' / 2 ^ level_bits level <> v / 2 ^ level_bits level ->
     snd (VSpaceCap.walk OFFSET c v' s') = snd (VSpaceCap.walk OFFSET c v' s)) /\
  v_flushes s' = v_flushes s.
Proof. apply install_table_ok. Qed.

(** C14: from a capability whose root table is zeroed, every sequence of mapping, unmapping and
    table-installing operations (failing ones included) keeps the page tables a well-formed tree,
    so [walk] returns an answer for every canonical address.  The callers keep frames and tables below
    2^52 and install only tables that are zeroed, reachable at the offset of physical memory and not
    yet part of the address space; [install_table] checks none of this.  The condition on tables is
    needed: [install_table] puts a zeroed root table below itself and reports success, and what it
    leaves is no tree. *)
Theorem reachable_walk_total s c root :
  rooted OFFSET s c root -> (forall i, 0 <= i < 512 -> v_mem s !! Table.entry_at root i = Some 0) ->
  (forall s' v, rtc (vspace_step OFFSET c root) s s' -> VSpaceCap.is_canonical v = true ->
     pt_wf OFFSET (v_mem s') root /\
     exists r, VSpaceCap.walk OFFSET c v s' = (s', Done (Ok r))) /\
  (forall r, v_slots s !! raw c = Some r -> FrameSizeImpl.is_aligned Small (paddr r) = true ->
     exists s', VSpaceCap.install_table OFFSET c 0 3 (paddr r) s = (s', Done (Ok tt)) /\
       ~ pt_wf OFFSET (v_mem s') root).
Proof.
  intros Hr Hz. split.
  - intros s' v Hs Hc. destruct (steps_wf OFFSET c root s s' Hs) as [Wf R]; [by apply pt_wf_zeroed|done|].
    split; [done|]. destruct (proj1 Wf v) as [q Hq]. eexists. by eapply walk_run.
  - intros r Hc Ha. by apply install_root.
Qed.

(** C26: the rights of a mapping.  In a well-formed address space, a successful [map_frame] of a frame
    below 2^52 maps the frame named by the capability, and
    the entry it writes is writable exactly when the capability has WRITE, executable exactly when
    it has EXECUTE, and accessible to user mode exactly when asked for.  READ is not consulted: the
    entry is present, and so readable, whatever the capability allows, also when it has no right at
    all. *)
Theorem map_frame_rights `{!BitflagsLaws} s c root v (fr : CapRef FrameObj) r u s' :
  pt_wf OFFSET (v_mem s) root -> rooted OFFSET s c root -> v_slots s !! raw fr = Some r ->
  0 <= paddr r < 2 ^ 52 -> VSpaceCap.map_frame OFFSET c v fr u s = (s', Done (Ok tt)) ->
  VSpaceCap.walk OFFSET c v s' =
    (s', Done (Ok (MappedPage (paddr r) (FrameCap.raw_size r)
                     (4 - Z.of_nat (leaf_depth (FrameCap.raw_size r)))))) /\
  exists q a w, path OFFSET (v_mem s') root v = Some (q ++ [(a, w)]) /\
    Z.testbit w 0 = true /\
    Z.testbit w 1 = CapRights.includes (rights r) CapRights.WRITE /\
    Z.testbit w 2 = u /\
    Z.testbit w 63 = negb (CapRights.includes (rights r) CapRights.EXECUTE).
Proof.
  intros Hwf Hr Hfr Hp Hm.
  destruct (map_frame_grants OFFSET c root s v fr r u s') as (_ & Hc & Wp & _ & L); [done..|].
  split; [by apply Wp|done].
Qed.
End claims.

(** *** Witnesses: the concrete address space [demo] *)

Lemma install_table_updates_walk_witness :
  exists s', VSpaceCap.install_table (H := true) (H0 := ref_x86addr) 0 demo_cap 0x40000000 3 0x2000 demo
    = (s', Done (Ok tt)) /\
  VSpaceCap.walk (H := true) (H0 := ref_x86addr) 0 demo_cap 0x12345678 s' = (s', Done (Ok (WNotMapped 3))).
Proof.
  exists demo2. split; [exact demo2_run|].
  apply (install_table_updates_walk (H := true) (H1 := ref_x86addr_laws) 0 demo demo_cap 0x1000 0x40000000 3 0x2000 demo2
    demo_wf demo_rooted eq_refl ltac:(lia) eq_refl ltac:(lia) eq_refl demo_fresh demo2_run);
    reflexivity.
Defined.

Definition demo3 : VState :=
  fst (map_size (H := true) (H0 := ref_x86addr) (H2 := ref_bitflags) 0 Huge demo_cap 0x40000000
         0x80000000 VMAttributesImpl.default demo2).

Lemma demo3_run :
  map_size (H := true) (H0 := ref_x86addr) (H2 := ref_bitflags) 0 Huge demo_cap 0x40000000
    0x80000000 VMAttributesImpl.default demo2 = (demo3, Done (Ok tt)).
Proof. apply injective_projections; [reflexivity|vm_compute; reflexivity]. Qed.

Lemma map_updates_walk_witness :
  VSpaceCap.walk (H := true) (H0 := ref_x86addr) 0 demo_cap 0x40000123 demo3
  = (demo3, Done (Ok (MappedPage 0x80000000 Huge 3))).
Proof.
  apply (map_updates_walk (H := true) (H1 := ref_x86addr_laws) (H2 := ref_bitflags) 0 Huge demo2 demo_cap
    0x1000 0x40000000 0x80000000 VMAttributesImpl.default demo3 (proj1 demo2_wf) (proj2 demo2_wf)
    eq_refl ltac:(lia) eq_refl eq_refl demo3_run); reflexivity.
Defined.

Lemma vspace_outcomes_witness :
  snd (map_size (H := true) (H0 := ref_x86addr) (H2 := ref_bitflags) 0 Small demo_cap 0x1000 0x5000
         VMAttributesImpl.default demo2) = Done (Err MissingTable) /\
  snd (VSpaceCap.install_table (H := true) (H0 := ref_x86addr) 0 demo_cap 0x1000 2 0x9000 demo2) = Done (Ok tt).
Proof.
  destruct (vspace_outcomes (H := true) (H1 := ref_x86addr_laws) (H2 := ref_bitflags) 0 demo2 demo_cap
    0x1000 0x1000 (WNotMapped 3) (proj1 demo2_wf) (proj2 demo2_wf) eq_refl) as (Hm & Hi & _ & _).
  - apply injective_projections; [reflexivity|vm_compute; reflexivity].
  - split; [exact (Hm Small 0x5000 VMAttributesImpl.default eq_refl eq_refl)|].
    apply (Hi 2 0x9000); [lia|reflexivity].
Defined.

Lemma demo3_wf : pt_wf 0 (v_mem demo3) 0x1000 /\ rooted 0 demo3 demo_cap 0x1000.
Proof.
  destruct (map_size_ok (H := true) (H1 := ref_x86addr_laws) (H2 := ref_bitflags) 0 Huge demo2 demo_cap
    0x1000 0x40000000 0x80000000 VMAttributesImpl.default demo3 (proj1 demo2_wf) (proj2 demo2_wf)
    eq_refl ltac:(lia) eq_refl eq_refl demo3_run) as (W & R & _). by split.
Qed.

Definition demo4 : VState := fst (VSpaceCap.unmap (H := true) (H0 := ref_x86addr) 0 demo_cap 0x40001000 demo3).

Lemma unmap_updates_walk_witness :
  VSpaceCap.walk (H := true) (H0 := ref_x86addr) 0 demo_cap 0x40000000 demo4
  = (demo4, Done (Ok (WNotMapped 3))).
Proof.
  apply (unmap_updates_walk (H := true) (H1 := ref_x86addr_laws) 0 demo3 demo_cap 0x1000 0x40001000
    0x80000000 Huge demo4 (proj1 demo3_wf) (proj2 demo3_wf) eq_refl); [|reflexivity..].
  apply injective_projections; [reflexivity|vm_compute; reflexivity].
Defined.

Lemma reachable_walk_total_witness :
  exists r, VSpaceCap.walk (H := true) (H0 := ref_x86addr) 0 demo_cap 0x40001000 demo3 = (demo3, Done (Ok r)).
Proof.
  refine (proj2 (proj1 (reachable_walk_total (H := true) (H1 := ref_x86addr_laws) (H2 := ref_bitflags) 0 demo demo_cap
    0x1000 demo_rooted _) demo3 0x40001000 _ eq_refl)); [intros i Hi; apply zeroed_lookup; lia|].
  eapply rtc_l; [eapply step_install; [..|exact demo2_run]; [lia|reflexivity|exact demo_fresh]|].
  apply rtc_once. eapply step_map; [|exact demo3_run]. lia.
Defined.

Lemma map_frame_rights_witness :
  exists s' q a w,
    VSpaceCap.map_frame (H := true) (H0 := ref_x86addr) (H1 := ref_bitflags) 0 demo_cap 0x40000000 demo_frame true demo2
      = (s', Done (Ok tt)) /\
    path 0 (v_mem s') 0x1000 0x40000000 = Some (q ++ [(a, w)]) /\ Z.testbit w 0 = true /\ Z.testbit w 1 = false.
Proof.
  eexists.
  assert (Hrun : VSpaceCap.map_frame (H := true) (H0 := ref_x86addr) (H1 := ref_bitflags) 0 demo_cap
    0x40000000 demo_frame true demo2 = (fst (VSpaceCap.map_frame (H := true) (H0 := ref_x86addr)
    (H1 := ref_bitflags) 0 demo_cap 0x40000000 demo_frame true demo2), Done (Ok tt)))
    by (apply injective_projections; [reflexivity|vm_compute; reflexivity]).
  destruct (map_frame_rights (H := true) (H1 := ref_x86addr_laws) (H2 := ref_bitflags)
    (H3 := ref_bitflags_laws) 0 demo2
    demo_cap 0x1000 0x40000000 demo_frame
    (FrameCap.mint_with_cache 0x40000000 Huge false WriteBack CapRights.READ) true _ (proj1 demo2_wf)
    (proj2 demo2_wf) eq_refl ltac:(simpl; lia) Hrun) as (_ & q & a & w & Hq & Hp & Hw & _).
  exists q, a, w. split_and!; [exact Hrun|exact Hq|exact Hp|exact Hw].
Defined.
End Claims.
