(* ===== verification/Untyped.v ===== *)
(** Null capabilities and untyped memory: [src/kernel/src/objects/nullcap.rs]
    and [src/kernel/src/objects/untyped.rs].

    [retype] carves objects out of an untyped region: it reads and advances the
    watermark in the untyped capability, zeroes the memory of new CNodes and
    address spaces and writes one capability per destination slot.  The state
    holds the capability entries and the memory words; [write_bytes] clears both
    views of the bytes it covers (entries start at multiples of their 64-byte
    size, words at multiples of 8). *)
From S2P Require Import Prelude Errors Caps CNode Tcb PageTable Frames VSpace Mapping.

Module NullCap.

(** [NullCap::mint]. *)
Definition mint : CapRaw := CapRaw_default.

(** [NullCap::insert]: the entry becomes a capability of type [T]. *)
Definition insert {T} (self : CapRef NullObjT) (r : CapRaw) : M Slots (CapRef T) :=
  do! entry_set (raw self) r in ret (mkCapRef (raw self)).

(** [NullCap::insert_raw]. *)
Definition insert_raw (self : CapRef NullObjT) (r : CapRaw) : M Slots unit :=
  entry_set (raw self) r.

(** [NullCap::identify]. *)
Definition identify `{Build} {S} (self : CapRef NullObjT) (t : Tcb) : M S (Tcb * Z) :=
  let! t := TcbImpl.set_mr t TcbImpl.MR1 (obj_type_as_usize (ref_cap_type self)) in
  ret (t, 1).

End NullCap.

(** ** State *)

Record UState : Type := mkU { u_slots : Slots; u_mem : Mem }.

Definition uslots {A} : M Slots A -> M UState A := zoom u_slots (fun t s => mkU t (u_mem s)).

(** [n] entries, [n] words from an address on. *)
Fixpoint zero_entries (n : nat) (a : Z) (s : Slots) : Slots :=
  match n with O => s | S n => zero_entries n (a + CNODE_ENTRY_SZ) (<[a := CapRaw_default]> s) end.
Fixpoint zero_words (n : nat) (a : Z) (m : Mem) : Mem :=
  match n with O => m | S n => zero_words n (a + 8) (<[a := 0]> m) end.

(** [core::ptr::write_bytes(addr as *mut u8, 0, count)]. *)
Definition write_bytes (addr count : Z) : M UState unit :=
  modify (fun s => mkU (zero_entries (Z.to_nat (count / CNODE_ENTRY_SZ)) addr (u_slots s))
                       (zero_words (Z.to_nat (count / 8)) addr (u_mem s))).

Module UntypedCap.

Definition MIN_BIT_SIZE : Z := 4.
Definition ADDR_MASK : Z := mask MIN_BIT_SIZE.

(** [CapRef<UntypedObj>::mint]. *)
Definition mint (paddr_v bit_sz : Z) (is_device_v : bool) : CapRaw :=
  set_rights CapRights.CONTROL (set_arg2 (Z.land bit_sz (mask 6))
    (set_arg1 (bool_as_usize is_device_v) (set_paddr paddr_v (default_with_type Untyped)))).

(** [bit_size]. *)
Definition raw_bit_size (r : CapRaw) : Z := Z.land (arg2 r) (mask 6).
Definition bit_size (c : CapRef UntypedObj) : M Slots Z :=
  let! r := entry_get (raw c) in ret (raw_bit_size r).

(** [size]. *)
Definition size (c : CapRef UntypedObj) : M Slots Z :=
  let! b := bit_size c in ret (bit b).

(** [free_offset]. *)
Definition raw_free_offset (r : CapRaw) : Z := Z.shiftr (arg2 r) 6.
Definition free_offset (c : CapRef UntypedObj) : M Slots Z :=
  let! r := entry_get (raw c) in ret (raw_free_offset r).

(** [set_free_offset]. *)
Definition set_free_offset (c : CapRef UntypedObj) (off : Z) : M Slots unit :=
  let! cap := entry_get (raw c) in
  entry_set (raw c) (set_arg2 (Z.lor (Z.land (arg2 cap) (mask 6)) (shl64 off 6)) cap).

(** [is_device]. *)
Definition raw_is_device (r : CapRaw) : bool := negb (arg1 r =? 0).
Definition is_device (c : CapRef UntypedObj) : M Slots bool :=
  let! r := entry_get (raw c) in ret (raw_is_device r).

(** [object_alignment]. *)
Definition object_alignment (obj_type : ObjType) (bit_size_v : Z) : Z :=
  match obj_type with
  | Frame => bit_size_v
  | VSpace => PAGE_BITS_4K
  | CNode =>
      let entry_sz := CNODE_ENTRY_BIT_SZ in
      let radix := saturating_sub bit_size_v entry_sz in
      entry_sz + radix
  | Tcb_ => 10
  | _ => bit_size_v
  end.

(** [object_size]. *)
Definition object_size (obj_type : ObjType) (user_bits : Z) : option Z :=
  match obj_type with
  | Frame =>
      match user_bits with
      | 12 | 21 | 30 => Some (bit user_bits)
      | _ => None
      end
  | VSpace => Some (bit PAGE_BITS_4K)
  | CNode =>
      if (CNODE_ENTRY_BIT_SZ <=? user_bits) && (user_bits <=? 48) then Some (bit user_bits)
      else None
  | Tcb_ => Some (bit 10)
  | Untyped =>
      if (MIN_BIT_SIZE <=? user_bits) && (user_bits <=? 48) then Some (bit user_bits) else None
  | _ => None
  end.

(** [slots.iter().any(|cap| NullCap::try_from(cap).is_err())], the [n] entries from [i] on. *)
Fixpoint any_not_null (n : nat) (slots : CNodeCap.Slice) (i : Z) : M Slots bool :=
  match n with
  | O => ret false
  | S n =>
      let! r := cap_try_from (T := NullObjT) (CNodeCap.slot_addr slots i) in
      match r with
      | Err _ => ret true
      | Ok _ => any_not_null n slots (i + 1)
      end
  end.

(** The [match obj_type] of the loop of [retype]: the capability of one object. *)
Definition make_cap `{Build} `{Bitflags} (c : CapRef UntypedObj) (obj_type : ObjType)
  (bit_size_v obj_size addr : Z) : M UState (result CapRaw SysError) :=
  match obj_type with
  | Untyped =>
      let! d := uslots (is_device c) in ret (Ok (mint addr bit_size_v d))
  | CNode =>
      let radix_sz := saturating_sub bit_size_v CNODE_ENTRY_BIT_SZ in
      let guard_bits := saturating_sub 64 radix_sz in
      do! write_bytes addr obj_size in
      let! cap := CNodeCap.mint addr radix_sz guard_bits 0 CapRights.CONTROL in
      ret (Ok cap)
  | Frame =>
      match FrameSizeImpl.from_bits bit_size_v with
      | None => ret (Err InvalidValue)
      | Some size_v =>
          let! d := uslots (is_device c) in
          let! cap := FrameCap.mint addr size_v d (flags_or CapRights.READ CapRights.WRITE) in
          ret (Ok cap)
      end
  | VSpace =>
      do! write_bytes addr obj_size in
      let asid := Z.land (Z.shiftr addr PAGE_BITS_4K) 0xFFFF in
      let asid := if asid =? 0 then 1 else asid in
      let! cap := VSpaceCap.mint addr asid CapRights.CONTROL in
      ret (Ok cap)
  | _ => ret (Err InvalidValue)
  end.

(** The [for] loop of [retype], the [n] slots from [i] on. *)
Fixpoint retype_loop `{Build} `{Bitflags} (n : nat) (c : CapRef UntypedObj) (obj_type : ObjType)
  (bit_size_v : Z) (slots : CNodeCap.Slice) (base_paddr free_off obj_size i : Z)
  : M UState (result unit SysError) :=
  match n with
  | O => ret (Ok tt)
  | S n =>
      let! a := add64 base_paddr free_off in
      let! o := mul64 i obj_size in
      let! addr := add64 a o in
      let? cap := make_cap c obj_type bit_size_v obj_size addr in
      do! uslots (entry_set (CNodeCap.slot_addr slots i) cap) in
      retype_loop n c obj_type bit_size_v slots base_paddr free_off obj_size (i + 1)
  end.

(** [o.ok_or(SysError::InvalidValue)]. *)
Definition ok_or_invalid {S A} (o : option A) : M S (result A SysError) :=
  ret match o with Some a => Ok a | None => Err InvalidValue end.

(** The device check of [retype]. *)
Definition device_ok (obj_type : ObjType) : bool :=
  match obj_type with Frame | Untyped => true | _ => false end.

(** [retype]. *)
Definition retype `{Build} `{Bitflags} `{X86Addr} (c : CapRef UntypedObj) (obj_type : ObjType)
  (bit_size_v : Z) (slots : CNodeCap.Slice) : M UState (result unit SysError) :=
  let! occupied := uslots (any_not_null (Z.to_nat (CNodeCap.len slots)) slots 0) in
  if occupied then ret (Err SlotNotEmpty) else
  let! dev_mem := uslots (is_device c) in
  if dev_mem && negb (device_ok obj_type) then ret (Err InvalidValue) else
  let align_bits := object_alignment obj_type bit_size_v in
  let? obj_size := ok_or_invalid (object_size obj_type bit_size_v) in
  let count := CNodeCap.len slots in
  let? tot_size := ok_or_invalid (checked_mul count obj_size) in
  let! off := uslots (free_offset c) in
  let! free_off := alignup off align_bits in
  let? required := ok_or_invalid (checked_add free_off tot_size) in
  let! sz := uslots (size c) in
  if sz <? required then ret (Err OutOfMemory) else
  let! base_paddr := uslots (ref_paddr c) in
  let? done_ := retype_loop (Z.to_nat count) c obj_type bit_size_v slots base_paddr free_off obj_size 0 in
  let! end_ := add64 free_off tot_size in
  do! uslots (set_free_offset c end_) in
  ret (Ok tt).

(** [identify]. *)
Definition identify `{Build} `{X86Addr} (c : CapRef UntypedObj) (t : Tcb) : M Slots (Tcb * Z) :=
  let! t := TcbImpl.set_mr t TcbImpl.MR1 (obj_type_as_usize (ref_cap_type c)) in
  let! p := ref_paddr c in
  let! t := TcbImpl.set_mr t TcbImpl.MR2 p in
  let! b := bit_size c in
  let! t := TcbImpl.set_mr t TcbImpl.MR3 b in
  let! d := is_device c in
  let! t := TcbImpl.set_mr t TcbImpl.MR4 (bool_as_usize d) in
  let! f := free_offset c in
  let! t := TcbImpl.set_mr t TcbImpl.MR5 f in
  ret (t, 5).

End UntypedCap.

(** ** Zeroing *)

Lemma zero_entries_other n a s b :
  b < a \/ a + Z.of_nat n * CNODE_ENTRY_SZ <= b -> zero_entries n a s !! b = s !! b.
Proof.
  unfold CNODE_ENTRY_SZ. revert a s. induction n as [|n IH]; intros a s Hb; [done|]. cbn [zero_entries].
  unfold CNODE_ENTRY_SZ. rewrite IH by lia. by rewrite lookup_insert_ne by lia.
Qed.

Lemma zero_words_other n a m b :
  b < a \/ a + Z.of_nat n * 8 <= b -> zero_words n a m !! b = m !! b.
Proof.
  revert a m. induction n as [|n IH]; intros a m Hb; [done|]. cbn [zero_words].
  rewrite IH by lia. by rewrite lookup_insert_ne by lia.
Qed.

Lemma zero_words_at n a m i :
  0 <= i < Z.of_nat n -> zero_words n a m !! (a + 8 * i) = Some 0.
Proof.
  revert a m i. induction n as [|n IH]; intros a m i Hi; [lia|]. cbn [zero_words].
  destruct (Z.eq_dec i 0) as [->|].
  - rewrite zero_words_other by lia. by rewrite Z.mul_0_r, Z.add_0_r, lookup_insert_eq.
  - replace (a + 8 * i) with (a + 8 + 8 * (i - 1)) by lia. apply IH. lia.
Qed.

(** [write_bytes] leaves what is outside its range. *)
Lemma write_bytes_run addr count s :
  0 <= count -> exists s1, write_bytes addr count s = (s1, Done tt) /\
    (forall a, a < addr \/ addr + count <= a -> u_slots s1 !! a = u_slots s !! a) /\
    (forall a, a < addr \/ addr + count <= a -> u_mem s1 !! a = u_mem s !! a) /\
    (forall j, 0 <= j < count / 8 -> u_mem s1 !! (addr + 8 * j) = Some 0).
Proof.
  intros Hc. eexists. split; [reflexivity|]. cbn [u_slots u_mem]. split_and!.
  - intros a Ha. apply zero_entries_other. unfold CNODE_ENTRY_SZ.
    rewrite Z2Nat.id by (apply Z.div_pos; lia). pose proof (Z.mul_div_le count 64). lia.
  - intros a Ha. apply zero_words_other.
    rewrite Z2Nat.id by (apply Z.div_pos; lia). pose proof (Z.mul_div_le count 8). lia.
  - intros j Hj. apply zero_words_at. rewrite Z2Nat.id; [done|apply Z.div_pos; lia].
Qed.

(** ** The watermark *)

Lemma mask6 : mask 6 = Z.ones 6.
Proof. done. Qed.

(** The size field and the watermark share [arg2]: 6 and 58 bits. *)
Lemma pack_watermark x off :
  0 <= off < 2 ^ 58 ->
  let y := Z.lor (Z.land x (mask 6)) (shl64 off 6) in
  Z.land y (mask 6) = Z.land x (mask 6) /\ Z.shiftr y 6 = off /\ u64 y.
Proof.
  intros Hoff y. assert (E : shl64 off 6 = Z.shiftl off 6).
  { unfold shl64. apply wrap_small. rewrite Z.shiftl_mul_pow2 by lia. unfold u64, W64. lia. }
  unfold y. rewrite E, mask6. split_and!.
  - apply Z.bits_inj'; intros i Hi. rewrite !Z.land_spec, Z.lor_spec, Z.land_spec, Z.shiftl_spec, testbit_ones by lia.
    destruct (Z.ltb_spec i 6); [|by rewrite !andb_false_r].
    rewrite (Z.testbit_neg_r off) by lia. by rewrite orb_false_r, !andb_true_r.
  - apply Z.bits_inj'; intros i Hi. rewrite Z.shiftr_spec, Z.lor_spec, Z.land_spec, Z.shiftl_spec, testbit_ones by lia.
    rewrite (proj2 (Z.ltb_ge (i + 6) 6)) by lia. rewrite andb_false_r. cbn [orb]. f_equal. lia.
  - apply lor_u64; [|rewrite <- E; apply shl64_u64].
    rewrite Z.land_ones by lia. pose proof (Z.mod_pos_bound x (2 ^ 6)). unfold u64, W64. lia.
Qed.

(** An untyped capability over an aligned region of physical memory. *)
Record untyped_wf (r : CapRaw) : Prop := mk_untyped_wf {
  uwf_arg2 : u64 (arg2 r);
  uwf_base : 0 <= paddr r;
  uwf_fits : paddr r + 2 ^ UntypedCap.raw_bit_size r <= 2 ^ 52;
  uwf_aligned : paddr r mod 2 ^ UntypedCap.raw_bit_size r = 0;
  uwf_mark : UntypedCap.raw_free_offset r <= 2 ^ UntypedCap.raw_bit_size r
}.

Lemma raw_bit_size_range r : 0 <= UntypedCap.raw_bit_size r < 64.
Proof. unfold UntypedCap.raw_bit_size. rewrite mask6. apply land_mask6_range. Qed.

Lemma free_offset_nonneg r : u64 (arg2 r) -> 0 <= UntypedCap.raw_free_offset r.
Proof. intros [? _]. by apply Z.shiftr_nonneg. Qed.

(** ** One object *)

(** The requests that [retype] can satisfy: an accepted size, no TCB, and no
    CNode with more than one entry. *)
Definition retypable (t : ObjType) (bs size : Z) : Prop :=
  UntypedCap.object_size t bs = Some size /\ t <> Tcb_ /\ (t = CNode -> bs = CNODE_ENTRY_BIT_SZ).

(** The size of an object is the power of two it is aligned to. *)
Lemma object_size_align t bs size :
  UntypedCap.object_size t bs = Some size ->
  size = 2 ^ UntypedCap.object_alignment t bs /\ 4 <= UntypedCap.object_alignment t bs <= 48.
Proof.
  destruct t; simpl; try done.
  - unfold UntypedCap.MIN_BIT_SIZE. destruct (Z.leb_spec 4 bs), (Z.leb_spec bs 48); try done.
    intros [= <-]. rewrite bit_pow by lia. done.
  - unfold CNODE_ENTRY_BIT_SZ, saturating_sub. destruct (Z.leb_spec 6 bs), (Z.leb_spec bs 48); try done.
    intros [= <-]. rewrite bit_pow by lia. replace (6 + Z.max 0 (bs - 6)) with bs by lia. split; [done|lia].
  - intros [= <-]. by split.
  - intros E. assert (bs = 12 \/ bs = 21 \/ bs = 30) as [-> | [-> | ->]].
    { repeat match type of E with
             | context [match ?p with _ => _ end] => destruct p; try discriminate E
             end; auto. }
    all: injection E as <-; vm_compute; split; [reflexivity|split; discriminate].
  - intros [= <-]. vm_compute. split; [reflexivity|split; discriminate].
Qed.

Lemma size_pos t bs size : UntypedCap.object_size t bs = Some size -> 0 < size.
Proof. intros E%object_size_align. destruct E as [-> ?]. apply Z.pow_pos_nonneg; lia. Qed.

(** [s'] agrees with [s] outside [lo, hi). *)
Definition same_outside (lo hi : Z) (s s' : UState) : Prop :=
  forall a, a < lo \/ hi <= a ->
    u_slots s' !! a = u_slots s !! a /\ u_mem s' !! a = u_mem s !! a.

Lemma same_outside_refl lo hi s : same_outside lo hi s s.
Proof. done. Qed.

(** What the capability of an object of [size] bytes says of it: its size and whether it is device
    memory, with full rights, nothing carved and nothing mapped.  The guard size of a CNode of one
    entry is 64, of which six bits are kept: it consumes no bits of a pointer. *)
Definition describes `{Bitflags} (t : ObjType) (size : Z) (device : bool) (cap : CapRaw) : Prop :=
  match t with
  | Untyped =>
      2 ^ UntypedCap.raw_bit_size cap = size /\ UntypedCap.raw_free_offset cap = 0 /\
      UntypedCap.raw_is_device cap = device /\ rights cap = CapRights.CONTROL
  | CNode =>
      CNodeCap.raw_radix_bits cap = 0 /\ CNodeCap.raw_guard_bits cap = 0 /\ arg2 cap = 0 /\
      rights cap = CapRights.CONTROL
  | Frame =>
      2 ^ FrameSizeImpl.bits (FrameCap.raw_size cap) = size /\ FrameCap.raw_is_device cap = device /\
      FrameCap.raw_cache_policy cap = (if device then Uncacheable else WriteBack) /\
      FrameCap.raw_mapped_asid cap = 0 /\ rights cap = flags_or CapRights.READ CapRights.WRITE
  | VSpace => rights cap = CapRights.CONTROL
  | _ => False
  end.

(** A capability for a new object. *)
Definition new_object `{Bitflags} (t : ObjType) (size : Z) (device : bool) (addr : Z) (cap : CapRaw) : Prop :=
  cap_type cap = t /\ paddr cap = addr /\ CNodeEntry.mdb_isolated cap /\ describes t size device cap.

Section retype.
Context `{Build} `{Bitflags} (c : CapRef UntypedObj).
Implicit Types (s : UState).

Lemma uslots_run {A} (m : M Slots A) s x :
  m (u_slots s) = (u_slots s, Done x) -> uslots m s = (s, Done x).
Proof. intros E. unfold uslots. rewrite (zoom_done _ _ _ _ _ _ E). by destruct s. Qed.

Lemma is_device_run s r :
  u_slots s !! raw c = Some r -> uslots (UntypedCap.is_device c) s = (s, Done (UntypedCap.raw_is_device r)).
Proof. intros Hr. by apply uslots_run, entry_read. Qed.

Lemma describes_mint addr bs d :
  0 <= bs < 64 -> describes Untyped (2 ^ bs) d (UntypedCap.mint addr bs d).
Proof.
  intros Hb. assert (E : Z.land (Z.land bs (mask 6)) (mask 6) = bs).
  { rewrite mask6, <- Z.land_assoc, Z.land_diag, Z.land_ones by lia. by apply Z.mod_small. }
  unfold describes, UntypedCap.raw_bit_size, UntypedCap.raw_free_offset, UntypedCap.mint.
  cbn [arg2 set_rights set_arg2]. rewrite E. split_and!; [done| |by destruct d|done].
  rewrite mask6, Z.land_ones, Z.mod_small by lia. rewrite Z.shiftr_div_pow2 by lia. by apply Z.div_small.
Qed.

Lemma make_cap_run s r t bs size addr :
  retypable t bs size -> u_slots s !! raw c = Some r -> addr mod size = 0 ->
  exists s1 cap, UntypedCap.make_cap c t bs size addr s = (s1, Done (Ok cap)) /\
    new_object t size (UntypedCap.raw_is_device r) addr cap /\ same_outside addr (addr + size) s s1 /\
    (t = VSpace -> forall j, 0 <= j < 512 -> u_mem s1 !! (addr + 8 * j) = Some 0) /\
    (UntypedCap.device_ok t = true -> s1 = s).
Proof.
  intros (Hsz & Ht & Hcn) Hr Ha. destruct (object_size_align _ _ _ Hsz) as [-> Hal].
  destruct (write_bytes_run addr (2 ^ UntypedCap.object_alignment t bs) s) as (s1 & E1 & Os & Om & Z1);
    [apply Z.pow_nonneg; lia|].
  destruct t; try done; cbn [UntypedCap.make_cap].
  - rewrite (bind_done _ _ _ _ _ (is_device_run s r Hr)). eexists s, _.
    split; [reflexivity|]. split_and!; try done. cbn [UntypedCap.object_size] in Hsz.
    unfold UntypedCap.MIN_BIT_SIZE in Hsz. destruct (Z.leb_spec 4 bs), (Z.leb_spec bs 48); try done.
    split_and!; try done; apply (describes_mint addr bs); lia.
  - rewrite Hcn in * by done. rewrite (bind_done _ _ _ _ _ E1).
    destruct (mint_run s1 addr 0 64 0 CapRights.CONTROL) as (cap & E & ? & ? & ? & ? & ? & ? & ?); [done|].
    change (saturating_sub 64 (saturating_sub CNODE_ENTRY_BIT_SZ CNODE_ENTRY_BIT_SZ)) with 64.
    change (saturating_sub CNODE_ENTRY_BIT_SZ CNODE_ENTRY_BIT_SZ) with 0.
    rewrite (bind_done _ _ _ _ _ E). eexists s1, cap. split_and!; [done|by split_and!| |done|done].
    intros a Ho. by split; [apply Os|apply Om].
  - assert (exists f, FrameSizeImpl.from_bits bs = Some f /\ bs = FrameSizeImpl.bits f) as (f & -> & ->).
    { cbn [UntypedCap.object_size] in Hsz.
      repeat match type of Hsz with
             | context [match ?p with _ => _ end] => destruct p; try discriminate Hsz
             end; eexists; by split. }
    rewrite (bind_done _ _ _ _ _ (is_device_run s r Hr)). unfold FrameCap.mint.
    apply (is_aligned_spec f) in Ha. change (bit (FrameSizeImpl.bits f) - 1) with (FrameSizeImpl.align_mask f).
    unfold FrameSizeImpl.is_aligned in Ha. rewrite Ha. unfold debug_assert. rewrite andb_false_r.
    eexists s, _. split; [reflexivity|]. split_and!; try done.
    by destruct f, (UntypedCap.raw_is_device r); split_and!.
  - rewrite (bind_done _ _ _ _ _ E1). unfold VSpaceCap.mint.
    apply (is_aligned_spec Small) in Ha. change 0xFFF with (FrameSizeImpl.align_mask Small).
    unfold FrameSizeImpl.is_aligned in Ha. rewrite Ha. unfold debug_assert. rewrite andb_false_r.
    eexists s1, _. split; [reflexivity|]. split; [done|]. split_and!; [|intros _ j Hj; by apply Z1|done].
    intros a Ho. by split; [apply Os|apply Om].
Qed.

(** ** The loop over the destination slots *)

Context (slots : CNodeCap.Slice) (r : CapRaw) (t : ObjType) (bs size off : Z).
Context (Hwf : untyped_wf r) (Hty : retypable t bs size) (Hoff : 0 <= off) (Hal : off mod size = 0).
Context (Hfit : off + CNodeCap.len slots * size <= 2 ^ UntypedCap.raw_bit_size r).

(** The untyped capability and the destination slots are not in the region. *)
Definition separate : Prop :=
  forall a, a = raw c \/ (exists i, 0 <= i < CNodeCap.len slots /\ a = CNodeCap.slot_addr slots i) ->
    a < paddr r \/ paddr r + 2 ^ UntypedCap.raw_bit_size r <= a.

Let addr_of (i : Z) : Z := paddr r + off + i * size.

(** A region with room for an object of [size] is aligned to [size]. *)
Lemma addr_aligned i : 0 <= i < CNodeCap.len slots -> addr_of i mod size = 0.
Proof.
  intros Hi. pose proof (size_pos _ _ _ (proj1 Hty)). destruct (object_size_align _ _ _ (proj1 Hty)) as [E Hr].
  set (a := UntypedCap.object_alignment t bs) in *. destruct Hwf as [_ _ _ Hb _].
  pose proof (raw_bit_size_range r) as Hbr. set (b := UntypedCap.raw_bit_size r) in *.
  assert (Hab : a <= b).
  { apply (Z.pow_le_mono_r_iff 2); [lia|lia|]. rewrite <- E. nia. }
  assert (Hp : paddr r mod size = 0).
  { apply Z.mod_divide; [lia|]. apply Z.mod_divide in Hb; [|lia]. rewrite E.
    eapply Z.divide_trans; [|exact Hb]. exists (2 ^ (b - a)). rewrite <- Z.pow_add_r by lia. f_equal. lia. }
  unfold addr_of. rewrite Z.mod_add by lia. rewrite Z.add_mod, Hp, Hal by lia. by rewrite Z.mod_0_l by lia.
Qed.

Context (Hsep : separate).
Context (Hself : forall i, 0 <= i < CNodeCap.len slots -> CNodeCap.slot_addr slots i <> raw c).

Lemma slots_apart i a :
  0 <= i -> i < CNodeCap.len slots -> a = raw c \/ (exists j, 0 <= j < CNodeCap.len slots /\ a = CNodeCap.slot_addr slots j) ->
  a < addr_of i \/ addr_of (CNodeCap.len slots) <= a.
Proof.
  intros Hi Hl Ha. pose proof (size_pos _ _ _ (proj1 Hty)). destruct (Hsep a Ha); unfold addr_of; [left|right]; nia.
Qed.

Lemma addr_arith i s :
  0 <= i < CNodeCap.len slots ->
  (let! a := add64 (paddr r) off in let! o := mul64 i size in add64 a o) s = (s, Done (addr_of i)).
Proof.
  intros Hi. pose proof (size_pos _ _ _ (proj1 Hty)). destruct Hwf as [_ Hb Hf _ _].
  assert (0 <= i * size /\ paddr r + off + i * size < 2 ^ 52) by nia.
  unfold add64, mul64.
  rewrite (bind_done _ _ _ s (paddr r + off)) by (apply arith64_ok; unfold u64, W64; lia).
  rewrite (bind_done _ _ _ s (i * size)) by (apply arith64_ok; unfold u64, W64; lia).
  apply arith64_ok. unfold u64, W64, addr_of. lia.
Qed.

Lemma retype_loop_run n i s :
  0 <= i -> i + Z.of_nat n = CNodeCap.len slots -> u_slots s !! raw c = Some r ->
  (forall j, i <= j < CNodeCap.len slots -> is_Some (u_slots s !! CNodeCap.slot_addr slots j)) ->
  exists s', UntypedCap.retype_loop n c t bs slots (paddr r) off size i s = (s', Done (Ok tt)) /\
    (forall j, i <= j < CNodeCap.len slots -> exists cap,
       u_slots s' !! CNodeCap.slot_addr slots j = Some cap /\
       new_object t size (UntypedCap.raw_is_device r) (addr_of j) cap) /\
    (t = VSpace -> forall j k, i <= j < CNodeCap.len slots -> 0 <= k < 512 ->
       u_mem s' !! (addr_of j + 8 * k) = Some 0) /\
    (forall a, (forall j, i <= j < CNodeCap.len slots -> a <> CNodeCap.slot_addr slots j) ->
       a < addr_of i \/ addr_of (CNodeCap.len slots) <= a -> u_slots s' !! a = u_slots s !! a) /\
    (forall a, a < addr_of i \/ addr_of (CNodeCap.len slots) <= a -> u_mem s' !! a = u_mem s !! a) /\
    (UntypedCap.device_ok t = true -> u_mem s' = u_mem s /\
       forall a, (forall j, i <= j < CNodeCap.len slots -> a <> CNodeCap.slot_addr slots j) ->
         u_slots s' !! a = u_slots s !! a).
Proof.
  revert i s. induction n as [|n IH]; intros i s Hi Hn Hr Hs.
  { exists s. split; [done|]. split_and!; [intros; lia..|done|done|done]. }
  pose proof (size_pos _ _ _ (proj1 Hty)) as Hsz. assert (Hil : 0 <= i < CNodeCap.len slots) by lia.
  assert (Hnext : addr_of i + size <= addr_of (CNodeCap.len slots)) by (unfold addr_of; nia).
  assert (Hstep : addr_of (i + 1) = addr_of i + size) by (unfold addr_of; lia).
  destruct (make_cap_run s r t bs size (addr_of i) Hty Hr (addr_aligned i Hil)) as (s1 & cap & E1 & N1 & O1 & Z1 & D1).
  assert (Hslot : forall j, 0 <= j < CNodeCap.len slots ->
    u_slots s1 !! CNodeCap.slot_addr slots j = u_slots s !! CNodeCap.slot_addr slots j).
  { intros j Hj. apply O1. destruct (slots_apart i (CNodeCap.slot_addr slots j)); eauto with lia. }
  destruct (Hs i) as [e He]; [lia|]. rewrite <- (Hslot i) in He by lia.
  set (s2 := mkU (<[CNodeCap.slot_addr slots i := cap]> (u_slots s1)) (u_mem s1)).
  assert (Hset : uslots (entry_set (CNodeCap.slot_addr slots i) cap) s1 = (s2, Done tt))
    by (unfold uslots; by erewrite zoom_done by (by eapply entry_set_some)).
  destruct (IH (i + 1) s2) as (s' & E & C & Zm & Os & Om & Dm); [lia|lia| | |].
  { cbn [u_slots s2]. rewrite lookup_insert_ne by (by apply Hself). rewrite <- Hr. apply O1.
    destruct (slots_apart i (raw c)); auto with lia. }
  { intros j Hj. cbn [u_slots s2]. rewrite lookup_insert. case_decide; [by eexists|].
    rewrite Hslot by lia. apply Hs. lia. }
  exists s'. split_and!.
  - cbn [UntypedCap.retype_loop]. pose proof (addr_arith i s Hil) as Ea.
    unfold bind in Ea |- *. destruct (add64 (paddr r) off s) as [? [a| | |]]; try done.
    destruct (mul64 i size _) as [? [o| | |]]; try done. rewrite Ea, E1, Hset. exact E.
  - intros j Hj. destruct (Z.eq_dec j i) as [->|]; [|apply C; lia].
    exists cap. split; [|done]. rewrite Os; [cbn [u_slots s2]; by rewrite lookup_insert_eq| |].
    + intros j Hj'. unfold CNodeCap.slot_addr, CNODE_ENTRY_SZ. lia.
    + destruct (slots_apart i (CNodeCap.slot_addr slots i)); [lia|lia|eauto|left; lia|by right].
  - intros Et j k Hj Hk. destruct (Z.eq_dec j i) as [->|]; [|apply Zm; [done|lia|done]].
    assert (size = 4096) by (destruct Hty as [E' _]; rewrite Et in E'; by injection E').
    rewrite Om by lia. cbn [u_mem s2]. by apply Z1.
  - intros a Ha Ho. rewrite Os; [|intros j Hj; apply Ha; lia|lia].
    cbn [u_slots s2]. rewrite lookup_insert_ne by (intros E'; by apply (Ha i); [lia|]).
    apply O1. lia.
  - intros a Ho. rewrite Om by lia. cbn [u_mem s2]. apply O1. lia.
  - intros Hd. destruct (Dm Hd) as [-> Dr]. specialize (D1 Hd). unfold s2 in Dr |- *. cbn [u_mem u_slots] in *.
    rewrite D1 in Dr |- *. split; [done|]. intros a Ha. rewrite Dr by (intros j Hj; apply Ha; lia).
    apply lookup_insert_ne. intros E'. by apply (Ha i); [lia|].
Qed.
End retype.

(** ** The whole operation *)

Lemma any_null n slots i (s : Slots) :
  (forall j, i <= j < i + Z.of_nat n -> exists e, s !! CNodeCap.slot_addr slots j = Some e /\ cap_type e = NullObj) ->
  UntypedCap.any_not_null n slots i s = (s, Done false).
Proof.
  revert i. induction n as [|n IH]; intros i Hs; [done|]. cbn [UntypedCap.any_not_null].
  destruct (Hs i) as (e & He & Ht); [lia|]. unfold cap_try_from.
  rewrite (bind_done _ _ _ s (Ok (mkCapRef (CNodeCap.slot_addr slots i)))); [apply IH; intros; apply Hs; lia|].
  rewrite (bind_done _ _ _ s e) by by apply entry_get_some. by rewrite Ht.
Qed.

Lemma any_occupied n slots i (s : Slots) :
  (forall j, i <= j < i + Z.of_nat n -> is_Some (s !! CNodeCap.slot_addr slots j)) ->
  (exists j e, i <= j < i + Z.of_nat n /\ s !! CNodeCap.slot_addr slots j = Some e /\ cap_type e <> NullObj) ->
  UntypedCap.any_not_null n slots i s = (s, Done true).
Proof.
  revert i. induction n as [|n IH]; intros i Hs (j & e & Hj & He & Ht); [lia|]. cbn [UntypedCap.any_not_null].
  destruct (Hs i) as [e0 He0]; [lia|]. unfold cap_try_from, bind at 1.
  rewrite (bind_done _ _ _ s e0) by by apply entry_get_some.
  destruct (decide (OBJ_TYPE = cap_type e0)) as [E|E]; [|done]. cbn [ret].
  apply IH; [intros; apply Hs; lia|]. exists j, e. split_and!; try done; [|lia].
  destruct (Z.eq_dec j i) as [->|]; [|lia]. rewrite He in He0. injection He0 as <-. by destruct Ht.
Qed.

(** What a successful [retype] leaves: the watermark advanced past the objects, one isolated
    capability per slot for consecutive aligned objects, zeroed address spaces, and nothing
    else changed; the memory of frames and of untyped objects, which may be that of a device, is
    not touched at all. *)
Record carved `{Bitflags} (c : CapRef UntypedObj) (slots : CNodeCap.Slice) (r : CapRaw) (t : ObjType)
  (size off : Z) (s s' : UState) : Prop := {
  carved_self : exists r', u_slots s' !! raw c = Some r' /\ untyped_wf r' /\
    UntypedCap.raw_free_offset r' = off + CNodeCap.len slots * size /\
    UntypedCap.raw_bit_size r' = UntypedCap.raw_bit_size r /\
    r = set_arg2 (arg2 r) r';
  carved_objects : forall i, 0 <= i < CNodeCap.len slots -> exists cap,
    u_slots s' !! CNodeCap.slot_addr slots i = Some cap /\
    new_object t size (UntypedCap.raw_is_device r) (paddr r + off + i * size) cap /\
    paddr cap mod size = 0;
  carved_zero : t = VSpace -> forall i j, 0 <= i < CNodeCap.len slots -> 0 <= j < 512 ->
    u_mem s' !! (paddr r + off + i * size + 8 * j) = Some 0;
  carved_slots : forall a, a <> raw c ->
    (forall i, 0 <= i < CNodeCap.len slots -> a <> CNodeCap.slot_addr slots i) ->
    a < paddr r + off \/ paddr r + off + CNodeCap.len slots * size <= a ->
    u_slots s' !! a = u_slots s !! a;
  carved_mem : forall a,
    a < paddr r + off \/ paddr r + off + CNodeCap.len slots * size <= a ->
    u_mem s' !! a = u_mem s !! a;
  carved_untouched : UntypedCap.device_ok t = true ->
    u_mem s' = u_mem s /\
    forall a, a <> raw c -> (forall i, 0 <= i < CNodeCap.len slots -> a <> CNodeCap.slot_addr slots i) ->
      u_slots s' !! a = u_slots s !! a
}.

Section retype_ok.
Context `{Build} `{Bitflags} `{X86AddrLaws} (c : CapRef UntypedObj) (slots : CNodeCap.Slice).
Context (r : CapRaw) (t : ObjType) (bs size : Z) (s : UState).
Context (Hr : u_slots s !! raw c = Some r) (Hwf : untyped_wf r).
Context (Hlen : 0 <= CNodeCap.len slots < W64).
Context (Hnull : forall i, 0 <= i < CNodeCap.len slots ->
  exists e, u_slots s !! CNodeCap.slot_addr slots i = Some e /\ cap_type e = NullObj).
Context (Hsize : UntypedCap.object_size t bs = Some size).
Context (Hdev : UntypedCap.raw_is_device r = true -> UntypedCap.device_ok t = true).

Let off : Z := align_to (UntypedCap.raw_free_offset r) (UntypedCap.object_alignment t bs).

Lemma off_bounds : UntypedCap.raw_free_offset r <= off /\ 0 <= off < 2 ^ 53 /\ off mod size = 0.
Proof.
  destruct (object_size_align _ _ _ Hsize) as [-> Ha].
  destruct (align_to_spec (UntypedCap.raw_free_offset r) (UntypedCap.object_alignment t bs)) as [Hb Hm]; [lia|].
  destruct Hwf as [Ha2 Hp Hf _ Hk]. pose proof (free_offset_nonneg r Ha2).
  assert (2 ^ UntypedCap.object_alignment t bs <= 2 ^ 48) by (apply Z.pow_le_mono_r; lia).
  fold off in Hb, Hm. split_and!; lia.
Qed.

(** The guards before the capacity test. *)
Lemma retype_guards :
  UntypedCap.retype c t bs slots s =
  if W64 <=? CNodeCap.len slots * size then (s, Done (Err InvalidValue))
  else if W64 <=? off + CNodeCap.len slots * size then (s, Done (Err InvalidValue))
  else if 2 ^ UntypedCap.raw_bit_size r <? off + CNodeCap.len slots * size then (s, Done (Err OutOfMemory))
  else (let? done_ := UntypedCap.retype_loop (Z.to_nat (CNodeCap.len slots)) c t bs slots (paddr r) off size 0 in
        let! end_ := add64 off (CNodeCap.len slots * size) in
        do! uslots (UntypedCap.set_free_offset c end_) in ret (Ok tt)) s.
Proof.
  destruct off_bounds as (Hob & Hor & _). destruct Hwf as [Ha2 Hp Hf Hb Hk].
  pose proof (raw_bit_size_range r) as Hbr. pose proof (free_offset_nonneg r Ha2) as Hfo.
  destruct (object_size_align _ _ _ Hsize) as [_ Hal].
  assert (Hneg : forall x, (W64 <=? x) = negb (x <? W64))
    by (intros x; destruct (Z.leb_spec W64 x), (Z.ltb_spec x W64); done || lia).
  unfold UntypedCap.retype.
  rewrite (bind_done _ _ _ s false) by (apply uslots_run, any_null; intros; apply Hnull; lia).
  rewrite (bind_done _ _ _ _ _ (is_device_run c s r Hr)).
  assert (Hd : UntypedCap.raw_is_device r && negb (UntypedCap.device_ok t) = false).
  { destruct (UntypedCap.raw_is_device r); [|done]. by rewrite Hdev. }
  rewrite Hd, Hsize. unfold UntypedCap.ok_or_invalid at 1. rewrite bind_ret.
  unfold UntypedCap.ok_or_invalid at 1, checked_mul. rewrite bind_ret, Hneg.
  destruct (CNodeCap.len slots * size <? W64) eqn:E1; cbn [negb]; [|done].
  rewrite (bind_done _ _ _ s (UntypedCap.raw_free_offset r)) by (by apply uslots_run, entry_read).
  assert (2 ^ UntypedCap.object_alignment t bs <= 2 ^ 48) by (apply Z.pow_le_mono_r; lia).
  rewrite (bind_done _ _ _ s off) by (apply alignup_run; unfold W64; lia).
  unfold UntypedCap.ok_or_invalid, checked_add. rewrite bind_ret, Hneg.
  destruct (off + CNodeCap.len slots * size <? W64) eqn:E2; cbn [negb]; [|done].
  rewrite (bind_done _ _ _ s (2 ^ UntypedCap.raw_bit_size r)).
  2: { apply uslots_run. unfold UntypedCap.size.
       rewrite (bind_done _ _ _ (u_slots s) (UntypedCap.raw_bit_size r)) by by apply entry_read.
       by rewrite bit_pow. }
  destruct (_ <? off + _); [done|].
  rewrite (bind_done _ _ _ s (paddr r)); [done|]. apply uslots_run. unfold ref_paddr.
  rewrite (bind_done _ _ _ (u_slots s) r) by by apply entry_get_some.
  assert (0 < 2 ^ UntypedCap.raw_bit_size r) by (apply Z.pow_pos_nonneg; lia).
  by rewrite phys_addr_new_ok by lia.
Qed.

(** Advancing the watermark. *)
Lemma set_free_offset_run s1 v :
  u_slots s1 !! raw c = Some r -> 0 <= v <= 2 ^ UntypedCap.raw_bit_size r ->
  exists r', uslots (UntypedCap.set_free_offset c v) s1 =
      (mkU (<[raw c := r']> (u_slots s1)) (u_mem s1), Done tt) /\
    untyped_wf r' /\ UntypedCap.raw_free_offset r' = v /\
    UntypedCap.raw_bit_size r' = UntypedCap.raw_bit_size r /\ r = set_arg2 (arg2 r) r'.
Proof.
  intros Hs1 Hv. destruct Hwf as [Ha2 Hp Hf Hb Hk].
  destruct (pack_watermark (arg2 r) v) as (P1 & P2 & P3); [lia|].
  eexists. split.
  - unfold uslots. erewrite zoom_done; [reflexivity|]. unfold UntypedCap.set_free_offset.
    rewrite (bind_done _ _ _ (u_slots s1) r) by by apply entry_get_some. by eapply entry_set_some.
  - assert (Eb : UntypedCap.raw_bit_size (set_arg2 (Z.lor (Z.land (arg2 r) (mask 6)) (shl64 v 6)) r)
      = UntypedCap.raw_bit_size r) by exact P1.
    split; [|split; [exact P2|split; [exact Eb|by destruct r]]].
    split; rewrite ?Eb; try done. change (Z.shiftr (Z.lor (Z.land (arg2 r) (mask 6)) (shl64 v 6)) 6
      <= 2 ^ UntypedCap.raw_bit_size r). lia.
Qed.

Context (Hsep : separate c slots r).
Context (Hself : forall i, 0 <= i < CNodeCap.len slots -> CNodeCap.slot_addr slots i <> raw c).

Lemma retype_run :
  t <> Tcb_ -> (t = CNode -> bs = CNODE_ENTRY_BIT_SZ) ->
  off + CNodeCap.len slots * size <= 2 ^ UntypedCap.raw_bit_size r ->
  exists s', UntypedCap.retype c t bs slots s = (s', Done (Ok tt)) /\ carved c slots r t size off s s'.
Proof.
  intros Ht Hcn Hfit. destruct off_bounds as (Hob & Hor & Hom).
  assert (Hty : retypable t bs size) by done.
  pose proof (size_pos t bs size Hsize) as Hsz. destruct (raw_bit_size_range r).
  assert (Hb52 : 2 ^ UntypedCap.raw_bit_size r <= 2 ^ 52) by (destruct Hwf; lia).
  rewrite retype_guards. rewrite !(proj2 (Z.leb_gt _ _)), (proj2 (Z.ltb_ge _ _)) by (unfold W64; nia).
  destruct (retype_loop_run c slots r t bs size off Hwf Hty (proj1 Hor) Hom Hfit Hsep Hself
    (Z.to_nat (CNodeCap.len slots)) 0 s) as (s1 & E & C & Zm & Os & Om & Dm); [lia|lia|done| |].
  { intros j Hj. destruct (Hnull j Hj) as (e & -> & _). by eexists. }
  rewrite (bind_done _ _ _ _ _ E).
  rewrite (bind_done _ _ _ s1 (off + CNodeCap.len slots * size)) by (apply arith64_ok; unfold u64, W64; nia).
  assert (Hs1 : u_slots s1 !! raw c = Some r).
  { rewrite Os; [done| |]; [intros j Hj; by apply not_eq_sym, Hself|].
    rewrite Z.mul_0_l, Z.add_0_r. destruct (Hsep (raw c)); [by left|left; lia|right; lia]. }
  destruct (set_free_offset_run s1 (off + CNodeCap.len slots * size) Hs1) as (r' & E' & W' & F' & B' & A'); [nia|].
  rewrite (bind_done _ _ _ _ _ E'). eexists. split; [done|]. split; cbn [u_slots u_mem].
  - exists r'. rewrite lookup_insert_eq. by split_and!.
  - intros i Hi. destruct (C i Hi) as (cap & Hcap & Hn). exists cap.
    rewrite lookup_insert_ne by (by apply not_eq_sym, Hself). split; [done|]. split; [done|].
    destruct Hn as (_ & -> & _). apply (addr_aligned slots r t bs size off); done || lia.
  - intros Et i j Hi Hj. by apply Zm.
  - intros a Ha Hns Ho. rewrite lookup_insert_ne by done. apply Os; [done|].
    rewrite Z.mul_0_l, Z.add_0_r. done.
  - intros a Ho. apply Om. rewrite Z.mul_0_l, Z.add_0_r. done.
  - intros Hd. destruct (Dm Hd) as [-> Dr]. split; [done|].
    intros a Ha Hns. rewrite lookup_insert_ne by done. by apply Dr.
Qed.
End retype_ok.

(** ** Requests that fail *)

Lemma any_not_null_reads n slots i (s s' : Slots) b :
  UntypedCap.any_not_null n slots i s = (s', Done b) -> s' = s.
Proof.
  revert i. induction n as [|n IH]; intros i; cbn [UntypedCap.any_not_null]; [by intros [= ->]|].
  unfold cap_try_from, entry_get, bind at 1, bind at 1.
  destruct (s !! CNodeCap.slot_addr slots i) as [e|]; [|done]. cbn [deref ret].
  destruct (decide (OBJ_TYPE = cap_type e)); cbn [ret]; [apply IH|by intros [= ->]].
Qed.

Lemma uslots_reads {A} (m : M Slots A) s s' x :
  (forall t t' y, m t = (t', Done y) -> t' = t) -> uslots m s = (s', Done x) -> s' = s.
Proof.
  intros Hm. unfold uslots, zoom. destruct (m (u_slots s)) as [t' o] eqn:E. intros [= <- ->].
  rewrite (Hm _ _ _ E). by destruct s.
Qed.

Lemma entry_read_reads {A} a (f : CapRaw -> A) (s s' : Slots) x :
  (let! r := entry_get a in ret (f r)) s = (s', Done x) -> s' = s.
Proof.
  unfold bind, entry_get. destruct (s !! a); cbn [deref ret undef]; [|done]. by intros [= ->].
Qed.

Lemma arith64_reads `{Build} {S} x (s s' : S) y : arith64 x s = (s', Done y) -> s' = s.
Proof. unfold arith64. destruct (_ && _); [by intros [= ->]|]. by destruct debug_build; intros [= ->]. Qed.

Section errors.
Context `{Build} `{Bitflags}.

Lemma retype_loop_err n c t bs slots base off size i s s' e :
  UntypedCap.object_size t bs = Some size ->
  UntypedCap.retype_loop n c t bs slots base off size i s = (s', Done (Err e)) -> s' = s /\ t = Tcb_.
Proof.
  intros Hsz. revert i s. induction n as [|n IH]; intros i s; [done|]. cbn [UntypedCap.retype_loop].
  intros (s1 & a & E1%arith64_reads & E)%bind_inv. subst s1.
  apply bind_inv in E as (s1 & o & E1%arith64_reads & E). subst s1.
  apply bind_inv in E as (s1 & addr & E1%arith64_reads & E). subst s1.
  apply bind_inv in E as (s1 & [cap|e'] & E1 & E).
  - apply bind_inv in E as (s2 & [] & _ & E). apply IH in E as [-> ->].
    by cbn [UntypedCap.make_cap] in E1.
  - injection E as -> ->. destruct t; try done; cbn [UntypedCap.make_cap] in E1.
    + by apply bind_inv in E1 as (? & ? & _ & ?).
    + apply bind_inv in E1 as (? & ? & _ & E1). by apply bind_inv in E1 as (? & ? & _ & ?).
    + by injection E1.
    + cbn [UntypedCap.object_size] in Hsz.
      destruct (FrameSizeImpl.from_bits bs) eqn:Ef.
      * apply bind_inv in E1 as (? & ? & _ & E1). by apply bind_inv in E1 as (? & ? & _ & ?).
      * repeat match type of Hsz with
               | context [match ?p with _ => _ end] => destruct p; try discriminate Hsz
               end; discriminate Ef.
    + apply bind_inv in E1 as (? & ? & _ & E1). by apply bind_inv in E1 as (? & ? & _ & ?).
Qed.

Lemma retype_err `{X86Addr} c t bs slots s s' e :
  UntypedCap.retype c t bs slots s = (s', Done (Err e)) -> s' = s.
Proof.
  unfold UntypedCap.retype.
  intros (s1 & b & E1%(uslots_reads _ _ _ _ ltac:(intros; by eapply any_not_null_reads)) & E)%bind_inv.
  subst s1. destruct b; [by injection E|].
  apply bind_inv in E as (s1 & d & E1%(uslots_reads _ _ _ _ ltac:(intros; by eapply entry_read_reads)) & E).
  subst s1. destruct (d && _); [by injection E|].
  destruct (UntypedCap.object_size t bs) as [size|] eqn:Hsz; [|by injection E].
  unfold UntypedCap.ok_or_invalid in E. rewrite !bind_ret in E.
  destruct (checked_mul _ _) as [tot|]; [|by injection E].
  apply bind_inv in E as (s1 & off & E1%(uslots_reads _ _ _ _ ltac:(intros; by eapply entry_read_reads)) & E).
  subst s1. apply bind_inv in E as (s1 & foff & E1 & E).
  assert (s1 = s) as ->.
  { unfold alignup in E1. apply bind_inv in E1 as (s2 & ? & E2%arith64_reads & E1). subst s2.
    apply bind_inv in E1 as (s2 & ? & E2%arith64_reads & E1). subst s2. by injection E1. } clear E1.
  rewrite bind_ret in E. destruct (checked_add _ _) as [req|]; [|by injection E].
  apply bind_inv in E as (s1 & sz & E1 & E).
  assert (s1 = s) as ->.
  { revert E1. apply uslots_reads. intros ? ? ? Ht. unfold UntypedCap.size, UntypedCap.bit_size in Ht.
    apply bind_inv in Ht as (? & ? & E2%entry_read_reads & E3). subst. by injection E3. } clear E1.
  destruct (_ <? _); [by injection E|].
  apply bind_inv in E as (s1 & base & E1 & E).
  assert (s1 = s) as ->.
  { revert E1. apply uslots_reads. intros ? ? ? Ht. unfold ref_paddr, entry_get, bind in Ht.
    destruct (_ !! _); cbn in Ht; [|done]. destruct (phys_addr_new _); by injection Ht. } clear E1.
  apply bind_inv in E as (s1 & [[]|e'] & E1 & E).
  - apply bind_inv in E as (? & ? & _ & E). by apply bind_inv in E as (? & ? & _ & E).
  - injection E as <- <-. by eapply retype_loop_err.
Qed.
End errors.

(** ** Requests *)

(** A request that [retype] looks at: empty slots and a well-formed untyped capability, both outside
    the region, an object size it accepts, and a type that the region may hold (a device region holds
    frames and untyped objects only; [device_refused] is the other case). *)
Record request (c : CapRef UntypedObj) (slots : CNodeCap.Slice) (r : CapRaw) (t : ObjType)
  (bs size : Z) (s : UState) : Prop := {
  rq_self : u_slots s !! raw c = Some r;
  rq_wf : untyped_wf r;
  rq_len : 0 <= CNodeCap.len slots < W64;
  rq_null : forall i, 0 <= i < CNodeCap.len slots ->
    exists e, u_slots s !! CNodeCap.slot_addr slots i = Some e /\ cap_type e = NullObj;
  rq_size : UntypedCap.object_size t bs = Some size;
  rq_device : UntypedCap.raw_is_device r = true -> UntypedCap.device_ok t = true;
  rq_separate : separate c slots r
}.

(** Where the first object of a request starts. *)
Definition start_of (r : CapRaw) (t : ObjType) (bs : Z) : Z :=
  align_to (UntypedCap.raw_free_offset r) (UntypedCap.object_alignment t bs).

(** A device region refuses what is not a frame or an untyped object. *)
Lemma device_refused `{Build} `{Bitflags} `{X86Addr} (c : CapRef UntypedObj) (slots : CNodeCap.Slice) r t bs (s : UState) :
  u_slots s !! raw c = Some r -> UntypedCap.raw_is_device r = true -> UntypedCap.device_ok t = false ->
  (forall i, 0 <= i < CNodeCap.len slots ->
     exists e, u_slots s !! CNodeCap.slot_addr slots i = Some e /\ cap_type e = NullObj) ->
  UntypedCap.retype c t bs slots s = (s, Done (Err InvalidValue)).
Proof.
  intros Hr Hd Ht Hn. unfold UntypedCap.retype.
  rewrite (bind_done _ _ _ s false) by (apply uslots_run, any_null; intros; apply Hn; lia).
  by rewrite (bind_done _ _ _ s true), Ht by (rewrite <- Hd; by apply is_device_run).
Qed.

Section requests.
Context `{Build} `{Bitflags} `{X86AddrLaws}.
Context (c : CapRef UntypedObj) (slots : CNodeCap.Slice) (r : CapRaw) (t : ObjType) (bs size : Z).
Context (s : UState) (R : request c slots r t bs size s).

Lemma request_run :
  cap_type r = Untyped -> t <> Tcb_ -> (t = CNode -> bs = CNODE_ENTRY_BIT_SZ) ->
  start_of r t bs + CNodeCap.len slots * size <= 2 ^ UntypedCap.raw_bit_size r ->
  exists s', UntypedCap.retype c t bs slots s = (s', Done (Ok tt)) /\
    carved c slots r t size (start_of r t bs) s s'.
Proof.
  destruct R as [Hr Hwf Hl Hn Hs Hd Hsep]. intros Hcap Ht Hc Hf. apply retype_run; try done.
  intros i Hi E. destruct (Hn i Hi) as (e & He & Hnull). rewrite E, Hr in He. injection He as <-. congruence.
Qed.

Lemma request_too_big :
  2 ^ UntypedCap.raw_bit_size r < start_of r t bs + CNodeCap.len slots * size ->
  UntypedCap.retype c t bs slots s =
    (s, Done (Err (if start_of r t bs + CNodeCap.len slots * size <? W64 then OutOfMemory else InvalidValue))).
Proof.
  destruct R as [Hr Hwf Hl Hn Hs Hd Hsep]. intros Hf.
  rewrite (retype_guards c slots r t bs size s) by done. fold (start_of r t bs).
  assert (0 <= start_of r t bs)
    by (pose proof (off_bounds r t bs size Hwf Hs) as (_ & ? & _); unfold start_of; lia).
  destruct (Z.leb_spec W64 (CNodeCap.len slots * size)).
  { by rewrite (proj2 (Z.ltb_ge _ _)) by lia. }
  destruct (Z.leb_spec W64 (start_of r t bs + CNodeCap.len slots * size)).
  { by rewrite (proj2 (Z.ltb_ge _ _)) by lia. }
  by rewrite !(proj2 (Z.ltb_lt _ _)) by lia.
Qed.

(** The start of the loop of a request that fits. *)
Lemma request_loop :
  0 < CNodeCap.len slots ->
  start_of r t bs + CNodeCap.len slots * size <= 2 ^ UntypedCap.raw_bit_size r ->
  exists k : M UState (result unit SysError), UntypedCap.retype c t bs slots s =
    (let? done_ :=
       (let? cap := UntypedCap.make_cap c t bs size (paddr r + start_of r t bs) in
        do! uslots (entry_set (CNodeCap.slot_addr slots 0) cap) in k) in
     let! end_ := add64 (start_of r t bs) (CNodeCap.len slots * size) in
     do! uslots (UntypedCap.set_free_offset c end_) in ret (Ok tt)) s.
Proof.
  destruct R as [Hr Hwf Hl Hn Hs Hd Hsep]. intros Hp Hf.
  pose proof (off_bounds r t bs size Hwf Hs) as (_ & Ho & _). fold (start_of r t bs) in Ho.
  pose proof (size_pos _ _ _ Hs) as Hsz.
  assert (Hb52 : paddr r + 2 ^ UntypedCap.raw_bit_size r <= 2 ^ 52 /\ 0 <= paddr r) by (destruct Hwf; lia).
  destruct (Z.to_nat (CNodeCap.len slots)) as [|n] eqn:En; [lia|].
  eexists. rewrite (retype_guards c slots r t bs size s) by done. fold (start_of r t bs).
  rewrite !(proj2 (Z.leb_gt _ _)), (proj2 (Z.ltb_ge _ _)) by (unfold W64; nia).
  rewrite En. cbn [UntypedCap.retype_loop].
  unfold bind at 1. unfold add64, mul64.
  rewrite (bind_done _ _ _ s (paddr r + start_of r t bs)) by (apply arith64_ok; unfold u64, W64; nia).
  rewrite (bind_done _ _ _ s (0 * size)) by (apply arith64_ok; unfold u64, W64; lia).
  rewrite (bind_done _ _ _ s (paddr r + start_of r t bs))
    by (rewrite Z.mul_0_l, Z.add_0_r; apply arith64_ok; unfold u64, W64; nia).
  reflexivity.
Qed.

Lemma request_tcb :
  t = Tcb_ -> 0 < CNodeCap.len slots ->
  start_of r t bs + CNodeCap.len slots * size <= 2 ^ UntypedCap.raw_bit_size r ->
  UntypedCap.retype c t bs slots s = (s, Done (Err InvalidValue)).
Proof. intros Et Hp Hf. destruct (request_loop Hp Hf) as [k ->]. by rewrite Et. Qed.

Lemma request_cnode :
  t = CNode -> CNODE_ENTRY_BIT_SZ < bs -> 0 < CNodeCap.len slots ->
  start_of r t bs + CNodeCap.len slots * size <= 2 ^ UntypedCap.raw_bit_size r ->
  snd (UntypedCap.retype c t bs slots s) = Panic.
Proof.
  intros Et Hbs Hp Hf. destruct (request_loop Hp Hf) as [k ->].
  destruct R as [_ _ _ _ Hs _ _]. rewrite Et in Hs |- *. cbn [UntypedCap.make_cap].
  unfold UntypedCap.object_size, CNODE_ENTRY_BIT_SZ in Hs.
  destruct (Z.leb_spec 6 bs), (Z.leb_spec bs 48); try done. unfold CNODE_ENTRY_BIT_SZ in *.
  unfold bind, write_bytes, modify.
  rewrite mint_panics; [done|]. unfold saturating_sub. rewrite !Z.land_ones by lia.
  rewrite !Z.mod_small by lia. lia.
Qed.
End requests.

(** ** A concrete untyped region *)

(** 64 KiB at physical address 0x100000 named by entry 64, and empty entries from 0x1000 on. *)
Definition demo_untyped : CapRef UntypedObj := mkCapRef 64.
Definition demo_raw : CapRaw := UntypedCap.mint 0x100000 16 false.
Definition demo_slots (i n : Z) : CNodeCap.Slice := CNodeCap.mkSlice (0x1000 + i * CNODE_ENTRY_SZ) n.
Definition demo_ustate : UState :=
  mkU (<[64 := demo_raw]> (zero_entries 4 0x1000 ∅)) ∅.

Lemma demo_untyped_wf : untyped_wf demo_raw.
Proof. by split; vm_compute. Qed.

Lemma demo_request t bs size i n :
  UntypedCap.object_size t bs = Some size -> 0 <= i -> 0 <= n -> i + n <= 4 ->
  request demo_untyped (demo_slots i n) demo_raw t bs size demo_ustate.
Proof.
  intros Hs Hi Hn Hl. split; [done|apply demo_untyped_wf|cbn; unfold W64; lia| |done|done|].
  - intros j Hj. cbn in Hj. exists CapRaw_default. split; [|done]. unfold CNodeCap.slot_addr, CNODE_ENTRY_SZ. cbn [CNodeCap.base demo_slots].
    unfold CNODE_ENTRY_SZ. assert (i + j = 0 \/ i + j = 1 \/ i + j = 2 \/ i + j = 3) as E by lia.
    replace (4096 + i * 64 + j * 64) with (4096 + (i + j) * 64) by lia.
    destruct E as [-> |[-> |[-> | ->]]]; reflexivity.
  - intros a Ha. left. change (paddr demo_raw) with 0x100000.
    destruct Ha as [-> |(j & Hj & ->)]; [by vm_compute|]. cbn in Hj. unfold CNodeCap.slot_addr, CNODE_ENTRY_SZ. cbn [CNodeCap.base demo_slots].
    unfold CNODE_ENTRY_SZ. lia.
Qed.

(** ** The properties *)

Module Claims.
Section claims.
Context `{Build} `{Bitflags} `{X86AddrLaws}.

(** C5: carving objects.  Take a well-formed untyped capability and empty slots, both outside the
    region, and a request for a size that [object_size] accepts, of frames, untyped objects, address
    spaces or CNodes of one entry, which fits behind the aligned watermark.  Unless the region is
    device memory and the type is neither frame nor untyped, [retype] succeeds, and leaves one
    MDB-isolated capability of the requested type per slot, for consecutive objects aligned to their
    size that start at the aligned watermark, with their size, the device flag of the region, the
    rights of their type and nothing mapped; the watermark moves past the last object, the untyped
    capability is otherwise as it was, new address spaces are zeroed, and every other entry and
    memory word is unchanged; frames and untyped objects are carved without touching their memory.
    In a device region [retype] into empty slots refuses every other type with [InvalidValue] and
    changes nothing.  (CNodes of more than one entry and TCBs are excluded, see the errors below; a
    CNode of one entry consumes no bits of a pointer.) *)
Theorem retype_carves c slots r t bs size s :
  (request c slots r t bs size s -> cap_type r = Untyped ->
   t <> Tcb_ -> (t = CNode -> bs = CNODE_ENTRY_BIT_SZ) ->
   start_of r t bs + CNodeCap.len slots * size <= 2 ^ UntypedCap.raw_bit_size r ->
   exists s', UntypedCap.retype c t bs slots s = (s', Done (Ok tt)) /\
     carved c slots r t size (start_of r t bs) s s') /\
  (u_slots s !! raw c = Some r -> UntypedCap.raw_is_device r = true -> UntypedCap.device_ok t = false ->
   (forall i, 0 <= i < CNodeCap.len slots ->
      exists e, u_slots s !! CNodeCap.slot_addr slots i = Some e /\ cap_type e = NullObj) ->
   UntypedCap.retype c t bs slots s = (s, Done (Err InvalidValue))).
Proof. split; [apply request_run|apply device_refused]. Qed.

(** C11: the objects of two successive successful [retype] calls on one untyped capability are
    disjoint: every object of the first ends at or before the start of every object of the second. *)
Theorem retype_disjoint c slots1 r1 t1 bs1 size1 s s1 slots2 r2 t2 bs2 size2 s2 i j cap1 cap2 :
  request c slots1 r1 t1 bs1 size1 s -> cap_type r1 = Untyped ->
  t1 <> Tcb_ -> (t1 = CNode -> bs1 = CNODE_ENTRY_BIT_SZ) ->
  start_of r1 t1 bs1 + CNodeCap.len slots1 * size1 <= 2 ^ UntypedCap.raw_bit_size r1 ->
  UntypedCap.retype c t1 bs1 slots1 s = (s1, Done (Ok tt)) ->
  request c slots2 r2 t2 bs2 size2 s1 ->
  t2 <> Tcb_ -> (t2 = CNode -> bs2 = CNODE_ENTRY_BIT_SZ) ->
  start_of r2 t2 bs2 + CNodeCap.len slots2 * size2 <= 2 ^ UntypedCap.raw_bit_size r2 ->
  UntypedCap.retype c t2 bs2 slots2 s1 = (s2, Done (Ok tt)) ->
  0 <= i < CNodeCap.len slots1 -> 0 <= j < CNodeCap.len slots2 ->
  u_slots s1 !! CNodeCap.slot_addr slots1 i = Some cap1 ->
  u_slots s2 !! CNodeCap.slot_addr slots2 j = Some cap2 ->
  paddr cap1 + size1 <= paddr cap2.
Proof.
  intros R1 U1 N1 K1 F1 E1 R2 N2 K2 F2 E2 Hi Hj H1' H2'.
  destruct (request_run _ _ _ _ _ _ _ R1 U1 N1 K1 F1) as (s1' & E1' & [Cs Co _ _ _ _]).
  rewrite E1 in E1'. injection E1' as <-. destruct Cs as (r' & Hr' & _ & Hoff & _ & Er).
  rewrite (rq_self _ _ _ _ _ _ _ R2) in Hr'. injection Hr' as <-.
  assert (U2 : cap_type r2 = Untyped) by (rewrite Er in U1; exact U1).
  assert (Hp : paddr r1 = paddr r2) by (by rewrite Er).
  destruct (request_run _ _ _ _ _ _ _ R2 U2 N2 K2 F2) as (s2' & E2' & [_ Co2 _ _ _ _]).
  rewrite E2 in E2'. injection E2' as <-.
  destruct (Co i Hi) as (c1 & L1 & (_ & P1 & _) & _). rewrite H1' in L1. injection L1 as <-.
  destruct (Co2 j Hj) as (c2 & L2 & (_ & P2 & _) & _). rewrite H2' in L2. injection L2 as <-.
  pose proof (off_bounds r2 t2 bs2 size2 (rq_wf _ _ _ _ _ _ _ R2) (rq_size _ _ _ _ _ _ _ R2)) as [Ho _].
  fold (start_of r2 t2 bs2) in Ho.
  pose proof (size_pos _ _ _ (rq_size _ _ _ _ _ _ _ R1)). pose proof (size_pos _ _ _ (rq_size _ _ _ _ _ _ _ R2)).
  rewrite P1, P2, <- Hp. nia.
Qed.

(** C28: whatever the state, a [retype] that returns an error has changed nothing: no slot, no
    memory and no watermark.  A request that does not fit behind the aligned watermark returns
    [OutOfMemory], or [InvalidValue] when its end does not fit in 64 bits, in both build profiles:
    no panic and no wrap-around.  Two of the types that [object_size] accepts cannot be created: a
    request that fits and has a slot to fill always panics when it is for CNodes of two entries or
    more, as the guard size computed for a 64-bit address space fails the 32-bit assertion of
    [CNodeCap::mint], and a request for TCBs is always refused with [InvalidValue].  (The region may
    hold the type; a device region refuses CNodes and TCBs with [InvalidValue].) *)
Theorem retype_errors c slots t bs s :
  (forall s' e, UntypedCap.retype c t bs slots s = (s', Done (Err e)) -> s' = s) /\
  (forall r size, request c slots r t bs size s ->
     2 ^ UntypedCap.raw_bit_size r < start_of r t bs + CNodeCap.len slots * size ->
     UntypedCap.retype c t bs slots s =
       (s, Done (Err (if start_of r t bs + CNodeCap.len slots * size <? W64 then OutOfMemory else InvalidValue)))) /\
  (forall r size, request c slots r t bs size s -> 0 < CNodeCap.len slots ->
     start_of r t bs + CNodeCap.len slots * size <= 2 ^ UntypedCap.raw_bit_size r ->
     (t = CNode -> CNODE_ENTRY_BIT_SZ < bs -> snd (UntypedCap.retype c t bs slots s) = Panic) /\
     (t = Tcb_ -> UntypedCap.retype c t bs slots s = (s, Done (Err InvalidValue)))).
Proof.
  split_and!; [intros s' e; apply retype_err|intros r size; apply request_too_big|].
  intros r size R Hl Hf. split; intros ->.
  - intros Hb. by apply (request_cnode c slots r CNode bs size s R).
  - by apply (request_tcb c slots r Tcb_ bs size s R).
Qed.

(** The root table of every address space made by [retype] is an empty, well-formed page
    table when physical memory is identity mapped: every canonical address is unmapped there. *)
Lemma retype_vspace_ready c slots r bs size s s' i cap :
  request c slots r VSpace bs size s -> cap_type r = Untyped ->
  start_of r VSpace bs + CNodeCap.len slots * size <= 2 ^ UntypedCap.raw_bit_size r ->
  UntypedCap.retype c VSpace bs slots s = (s', Done (Ok tt)) ->
  0 <= i < CNodeCap.len slots -> u_slots s' !! CNodeCap.slot_addr slots i = Some cap ->
  pt_wf 0 (u_mem s') (paddr cap) /\
  forall v fl, VSpaceCap.is_canonical v = true ->
    VSpaceCap.walk 0 (mkCapRef (CNodeCap.slot_addr slots i)) v (mkV (u_slots s') (u_mem s') fl) =
      (mkV (u_slots s') (u_mem s') fl, Done (Ok (WNotMapped 4))).
Proof.
  intros R U F E Hi Hcap.
  destruct (request_run _ _ _ _ _ _ _ R U) as (s1 & E1 & [_ Co Cz _ _ _]); [done..|].
  rewrite E in E1. injection E1 as <-. destruct (Co i Hi) as (c' & L & (_ & P & _) & _).
  rewrite Hcap in L. injection L as <-.
  pose proof (off_bounds r VSpace bs size (rq_wf _ _ _ _ _ _ _ R) (rq_size _ _ _ _ _ _ _ R)) as (_ & Ho & _).
  fold (start_of r VSpace bs) in Ho. pose proof (size_pos _ _ _ (rq_size _ _ _ _ _ _ _ R)).
  assert (Hz : forall j, 0 <= j < 512 -> u_mem s' !! Table.entry_at (paddr cap) j = Some 0).
  { intros j Hj. unfold Table.entry_at. rewrite P. by apply Cz. }
  split; [by apply pt_wf_zeroed|]. intros v fl Hv.
  erewrite walk_run; [|eexists; split; [exact Hcap|]|exact Hv|apply zeroed_root; exact Hz].
  - done.
  - destruct (rq_wf _ _ _ _ _ _ _ R) as [_ Hb Hf _ _]. rewrite P. unfold W64. split_and!; [nia..|lia].
Qed.
End claims.

(** *** Witnesses: the concrete region [demo_ustate] *)

Lemma retype_carves_witness :
  exists s', UntypedCap.retype (H := true) (H0 := ref_bitflags) (H1 := ref_x86addr) demo_untyped Frame 12
    (demo_slots 0 2) demo_ustate = (s', Done (Ok tt)) /\
    carved (H := ref_bitflags) demo_untyped (demo_slots 0 2) demo_raw Frame 4096 0 demo_ustate s'.
Proof.
  apply (proj1 (retype_carves (H := true) (H0 := ref_bitflags) (H2 := ref_x86addr_laws) demo_untyped
    (demo_slots 0 2) demo_raw Frame 12 4096 demo_ustate)).
  - apply demo_request; [reflexivity|lia..].
  - reflexivity.
  - discriminate.
  - discriminate.
  - vm_compute. discriminate.
Defined.

(** After two 4 KiB frames. *)
Definition demo_ustate2 : UState :=
  fst (UntypedCap.retype (H := true) (H0 := ref_bitflags) (H1 := ref_x86addr) demo_untyped Frame 12
    (demo_slots 0 2) demo_ustate).
Definition demo_raw2 : CapRaw := set_arg2 (Z.lor 16 (shl64 8192 6)) demo_raw.

Lemma demo_request2 t bs size :
  UntypedCap.object_size t bs = Some size ->
  request demo_untyped (demo_slots 2 1) demo_raw2 t bs size demo_ustate2.
Proof.
  intros Hs. split; [by vm_compute|by split; vm_compute|cbn; unfold W64; lia| |done|done|].
  - intros j Hj. cbn in Hj. assert (j = 0) as -> by lia. exists CapRaw_default. by vm_compute.
  - intros a Ha. left. change (paddr demo_raw2) with 0x100000.
    destruct Ha as [-> |(j & Hj & ->)]; [by vm_compute|]. cbn in Hj. assert (j = 0) as -> by lia. by vm_compute.
Qed.

Lemma retype_disjoint_witness :
  exists cap1 cap2,
    u_slots demo_ustate2 !! CNodeCap.slot_addr (demo_slots 0 2) 1 = Some cap1 /\
    u_slots (fst (UntypedCap.retype (H := true) (H0 := ref_bitflags) (H1 := ref_x86addr) demo_untyped Untyped 14
      (demo_slots 2 1) demo_ustate2)) !! CNodeCap.slot_addr (demo_slots 2 1) 0 = Some cap2 /\
    paddr cap1 + 4096 <= paddr cap2.
Proof.
  eexists _, _. split; [vm_compute; reflexivity|]. split; [vm_compute; reflexivity|].
  eapply (retype_disjoint (H := true) (H0 := ref_bitflags) (H2 := ref_x86addr_laws) demo_untyped
    (demo_slots 0 2) demo_raw Frame 12 4096 demo_ustate demo_ustate2
    (demo_slots 2 1) demo_raw2 Untyped 14 16384 _ 1 0).
  - apply demo_request; [reflexivity|lia..].
  - reflexivity.
  - discriminate.
  - discriminate.
  - vm_compute. discriminate.
  - vm_compute. reflexivity.
  - apply demo_request2. reflexivity.
  - discriminate.
  - discriminate.
  - vm_compute. discriminate.
  - vm_compute. reflexivity.
  - vm_compute. split; [discriminate|reflexivity].
  - vm_compute. split; [discriminate|reflexivity].
  - vm_compute. reflexivity.
  - vm_compute. reflexivity.
Defined.

Lemma retype_errors_witness :
  UntypedCap.retype (H := true) (H0 := ref_bitflags) (H1 := ref_x86addr) demo_untyped Untyped 16
    (demo_slots 0 2) demo_ustate = (demo_ustate, Done (Err OutOfMemory)) /\
  snd (UntypedCap.retype (H := false) (H0 := ref_bitflags) (H1 := ref_x86addr) demo_untyped CNode 7
    (demo_slots 0 1) demo_ustate) = Panic.
Proof.
  split.
  - apply (retype_errors (H := true) (H0 := ref_bitflags) (H2 := ref_x86addr_laws) demo_untyped
      (demo_slots 0 2) Untyped 16 demo_ustate) with (r := demo_raw) (size := 65536).
    + apply demo_request; [reflexivity|lia..].
    + vm_compute. reflexivity.
  - apply (retype_errors (H := false) (H0 := ref_bitflags) (H2 := ref_x86addr_laws) demo_untyped
      (demo_slots 0 1) CNode 7 demo_ustate) with (r := demo_raw) (size := 128).
    + apply demo_request; [reflexivity|lia..].
    + reflexivity.
    + vm_compute. discriminate.
    + reflexivity.
    + reflexivity.
Defined.

(** After one address space. *)
Definition demo_ustate3 : UState :=
  fst (UntypedCap.retype (H := true) (H0 := ref_bitflags) (H1 := ref_x86addr) demo_untyped VSpace 0
    (demo_slots 0 1) demo_ustate).

End Claims.
