(* ===== verification/Lifecycle.v ===== *)
(** From untyped memory to a page: the operations of [Untyped], [CSpace], [Frames] and [VSpace] one
    after the other, as a thread uses them.

    A thread retypes a part of an untyped region into frames, whose capabilities go to slots of its
    root CNode; it names one of them by a capability pointer; the frame it finds is mapped in an
    address space.  The operations share the capability entries and the page-table words of one
    [VState].  The theorem follows one frame through all of them, and then asks what the untyped
    capability and the frame capability know of it: nothing. *)
From S2P Require Import Prelude Errors Caps Dll CNode Tcb CSpace PageTable Frames VSpace Mapping Untyped.

(** An operation on entries and memory, in the state of an address space. *)
Definition on_untyped {A} : M UState A -> M VState A :=
  zoom (fun s => mkU (v_slots s) (v_mem s)) (fun u s => mkV (u_slots u) (u_mem u) (v_flushes s)).

(** The slots of the root CNode [rc] from [first] on. *)
Definition window (rc : CapRaw) (first : Z) (slots : CNodeCap.Slice) : Prop :=
  CNodeCap.base slots = paddr rc + first * CNODE_ENTRY_SZ /\ 0 <= first /\
  first + CNodeCap.len slots <= 2 ^ CNodeCap.raw_radix_bits rc.

(** The pointer [cptr] spells the guard of [rc] and the index [i], in its low bits. *)
Definition spells (rc : CapRaw) (cptr i : Z) : Prop :=
  (cptr / 2 ^ CNodeCap.raw_radix_bits rc) mod 2 ^ CNodeCap.raw_guard_bits rc = arg2 rc /\
  cptr mod 2 ^ CNodeCap.raw_radix_bits rc = i.

(** The number of bits that [rc] consumes. *)
Definition level (rc : CapRaw) : Z := CNodeCap.raw_guard_bits rc + CNodeCap.raw_radix_bits rc.

(** ** Naming a slot *)

Lemma spells_resolves s cur rc cptr i :
  s !! cur = Some rc -> cap_type rc = CNode -> spells rc cptr i ->
  resolves s cur (bits_of cptr (Z.to_nat (level rc))) (paddr rc + i * CNODE_ENTRY_SZ) [].
Proof.
  intros Hc Ht [Hg Hi]. destruct (raw_bits_range rc) as [Rg Rr]. unfold level.
  rewrite Z2Nat.inj_add, bits_of_app by lia. apply resolves_last. exists rc.
  rewrite !length_bits_of, !bits_val_bits_of, !Z2Nat.id by lia.
  rewrite Z.shiftr_div_pow2 by lia. by rewrite Hg, Hi.
Qed.

Lemma window_slot rc first slots i :
  window rc first slots -> CNodeCap.slot_addr slots i = paddr rc + (first + i) * CNODE_ENTRY_SZ.
Proof. intros [E _]. unfold CNodeCap.slot_addr. rewrite E. ring. Qed.

(** ** Entries that [retype] keeps *)

Section carved.
Context `{Bitflags} (c : CapRef UntypedObj) (slots : CNodeCap.Slice) (r : CapRaw) (bs size off : Z).
Context (u u' : UState) (R : request c slots r Frame bs size u) (Hu : cap_type r = Untyped).
Context (C : carved c slots r Frame size off u u').

(** An entry that is neither empty nor untyped memory is not written. *)
Lemma carved_keeps a e :
  u_slots u !! a = Some e -> cap_type e <> NullObj -> cap_type e <> Untyped -> u_slots u' !! a = Some e.
Proof.
  intros He Hn Hn'. rewrite <- He. apply (carved_untouched _ _ _ _ _ _ _ _ C eq_refl).
  - intros ->. rewrite (rq_self _ _ _ _ _ _ _ R) in He. by injection He as <-.
  - intros i Hi ->. destruct (rq_null _ _ _ _ _ _ _ R i Hi) as (e' & He' & Ht). rewrite He in He'. by injection He' as <-.
Qed.

(** The CNodes are the ones there were: what is new is frames. *)
Lemma carved_cnode a e : u_slots u' !! a = Some e -> cap_type e = CNode -> u_slots u !! a = Some e.
Proof.
  intros He Ht. destruct (carved_untouched _ _ _ _ _ _ _ _ C eq_refl) as [_ K].
  destruct (decide (a = raw c)) as [-> |Hc].
  { destruct (carved_self _ _ _ _ _ _ _ _ C) as (r' & Hr' & _ & _ & _ & Er). rewrite He in Hr'.
    injection Hr' as <-. rewrite Er in Hu. cbn [cap_type set_arg2] in Hu. congruence. }
  rewrite <- K; [done|done|]. intros i Hi ->.
  destruct (carved_objects _ _ _ _ _ _ _ _ C i Hi) as (cap & Hcap & (Hf & _) & _).
  rewrite He in Hcap. injection Hcap as <-. congruence.
Qed.

Lemma carved_consume : cnodes_consume (u_slots u) -> cnodes_consume (u_slots u').
Proof. intros Hc a e He Ht. apply (Hc a e); [by apply carved_cnode|done]. Qed.
End carved.

(** ** One frame, from its region to its page *)

(** A thread at [a] with the CNode [rc] as its root, and an address space [vc] with its root table
    at [rt] whose page [v] of size [f] can be mapped. *)
Record ready `{TcbLayout} `{Build} `{X86Addr} (OFFSET : Z) (ts : Tcbs) (a : Z) (rc : CapRaw)
  (vc : CapRef VSpaceObj) (rt v : Z) (f : FrameSize) (s : VState) : Prop := {
  rd_roots : roots_stored ts (v_slots s);
  rd_thread : exists t, ts !! a = Some t /\ cspace_root t = rc;
  rd_cnode : cap_type rc = CNode;
  rd_level : 1 <= level rc <= CNODE_DEPTH;
  rd_consume : cnodes_consume (v_slots s);
  rd_vspace : exists vr, v_slots s !! raw vc = Some vr /\ cap_type vr = VSpace;
  rd_rooted : rooted OFFSET s vc rt;
  rd_tables : pt_wf OFFSET (v_mem s) rt;
  rd_canonical : VSpaceCap.is_canonical v = true;
  rd_aligned : FrameSizeImpl.is_aligned f v = true;
  rd_unmapped : VSpaceCap.walk OFFSET vc v s = (s, Done (Ok (WNotMapped (4 - Z.of_nat (leaf_depth f)))))
}.

Section lifecycle.
Context `{Build} `{Bitflags} `{!BitflagsLaws} `{X86AddrLaws} `{TcbLayout} (OFFSET : Z).
Context (ts : Tcbs) (a : Z) (rc : CapRaw) (vc : CapRef VSpaceObj) (rt v : Z) (f : FrameSize) (s : VState).
Context (Rd : ready OFFSET ts a rc vc rt v f s).
Context (c : CapRef UntypedObj) (slots : CNodeCap.Slice) (r : CapRaw) (first : Z).

Let size : Z := FrameSizeImpl.bytes f.
Let bs : Z := FrameSizeImpl.bits f.
Let off : Z := start_of r Frame bs.

Context (R : request c slots r Frame bs size (mkU (v_slots s) (v_mem s))) (Hu : cap_type r = Untyped).
Context (Hfit : off + CNodeCap.len slots * size <= 2 ^ UntypedCap.raw_bit_size r).
Context (Hw : window rc first slots).

(** The state behind the [retype]: frames in the slots, page tables as they were. *)
Lemma retype_frames :
  exists s1, on_untyped (UntypedCap.retype c Frame bs slots) s = (s1, Done (Ok tt)) /\
    v_mem s1 = v_mem s /\ v_flushes s1 = v_flushes s /\
    carved c slots r Frame size off (mkU (v_slots s) (v_mem s)) (mkU (v_slots s1) (v_mem s1)).
Proof.
  destruct (request_run c slots r Frame bs size _ R Hu) as (u' & E & C); [done..|].
  exists (mkV (u_slots u') (u_mem u') (v_flushes s)). split_and!.
  - unfold on_untyped. by rewrite (zoom_done (fun s => mkU (v_slots s) (v_mem s)) _ _ s _ _ E).
  - apply (carved_untouched _ _ _ _ _ _ _ _ C eq_refl).
  - done.
  - by destruct u'.
Qed.

Context (s1 : VState) (Em : v_mem s1 = v_mem s).
Context (C : carved c slots r Frame size off (mkU (v_slots s) (v_mem s)) (mkU (v_slots s1) (v_mem s1))).

Lemma found_slot fuel cptr i :
  (Z.to_nat (level rc) < fuel)%nat -> 0 <= i < CNodeCap.len slots -> spells rc cptr (first + i) ->
  TcbCSpace.cspace a (v_slots s1) = (v_slots s1, Done (Ok (mkCSpace (cspace_root_addr a)))) /\
  CSpaceImpl.lookup_with_depth fuel (mkCSpace (cspace_root_addr a)) cptr (level rc) (v_slots s1) =
    (v_slots s1, Done (Ok (CNodeCap.slot_addr slots i))).
Proof.
  intros Hf Hi Hsp. destruct Rd as [Hro (t & Ht & Hrc) Hcn Hlv Hcc _ _ _ _ _ _].
  assert (Hroot : v_slots s1 !! cspace_root_addr a = Some rc).
  { apply (carved_keeps c slots r bs size off _ _ R Hu C); [|congruence..].
    cbn [u_slots]. rewrite <- Hrc. by apply Hro. }
  split.
  - unfold TcbCSpace.cspace, CSpaceImpl.new. rewrite (bind_done _ _ _ _ _ (entry_get_some _ _ _ Hroot)).
    by rewrite decide_False by tauto.
  - apply lookup_ok; [done|done| |].
    + exact (carved_consume c slots r size off _ _ Hu C Hcc).
    + rewrite (window_slot rc first slots i Hw). by apply spells_resolves.
Qed.

(** The address space is as it was. *)
Lemma rooted_kept : rooted OFFSET s1 vc rt.
Proof.
  destruct Rd as [_ _ _ _ _ (vr & Hvr & Hvt) (vr' & Hvr' & Hb) _ _ _ _]. exists vr. split.
  - by apply (carved_keeps c slots r bs size off _ _ R Hu C); [|congruence..].
  - rewrite Hvr in Hvr'. by injection Hvr' as ->.
Qed.

Lemma walk_kept v' :
  VSpaceCap.is_canonical v' = true -> exists w,
    VSpaceCap.walk OFFSET vc v' s = (s, Done (Ok w)) /\ VSpaceCap.walk OFFSET vc v' s1 = (s1, Done (Ok w)).
Proof.
  intros Hv. destruct Rd as [_ _ _ _ _ _ Hro Hwf _ _ _]. destruct (proj1 Hwf v') as [p Hp].
  exists (walk_of p). split; [by eapply walk_run|]. eapply walk_run; [apply rooted_kept|done|by rewrite Em].
Qed.

Lemma size_pow : size = 2 ^ FrameSizeImpl.bits f.
Proof. apply bit_pow. pose proof (bits_range f). lia. Qed.

(** The capability in a slot is that of the frame, and can be mapped. *)
Lemma new_frame_mapped i u :
  0 <= i < CNodeCap.len slots ->
  let fr := mkCapRef (CNodeCap.slot_addr slots i) in
  let p := paddr r + off + i * size in
  exists cap s2, v_slots s1 !! raw fr = Some cap /\ cap_type cap = Frame /\
    FrameCap.raw_mapped_asid cap = 0 /\
    VSpaceCap.map_frame OFFSET vc v fr u s1 = (s2, Done (Ok tt)) /\ v_slots s2 = v_slots s1 /\
    (forall v', VSpaceCap.is_canonical v' = true -> v' / size = v / size ->
       VSpaceCap.walk OFFSET vc v' s2 = (s2, Done (Ok (MappedPage p f (4 - Z.of_nat (leaf_depth f)))))) /\
    (forall v', VSpaceCap.is_canonical v' = true -> v' / size <> v / size ->
       snd (VSpaceCap.walk OFFSET vc v' s2) = snd (VSpaceCap.walk OFFSET vc v' s)) /\
    exists q x w, path OFFSET (v_mem s2) rt v = Some (q ++ [(x, w)]) /\
      Z.testbit w 1 = true /\ Z.testbit w 2 = u /\ Z.testbit w 63 = true.
Proof.
  intros Hi fr p. destruct Rd as [_ _ _ _ _ _ _ Hwf Hc Hal Hun].
  destruct (carved_objects _ _ _ _ _ _ _ _ C i Hi)
    as (cap & Hcap & (Ht & Hp & _ & Hsz & _ & _ & Hm & Hrt) & Hpa). fold p in Hp.
  assert (Hf : FrameCap.raw_size cap = f).
  { rewrite size_pow in Hsz. apply Z.pow_inj_r in Hsz; [|lia| |]; [|apply bits_range..].
    by destruct f, (FrameCap.raw_size cap). }
  assert (Hp52 : 0 <= paddr cap < 2 ^ 52).
  { rewrite Hp. pose proof (off_bounds r Frame bs size (rq_wf _ _ _ _ _ _ _ R) (rq_size _ _ _ _ _ _ _ R)) as (_ & Ho & _).
    destruct (rq_wf _ _ _ _ _ _ _ R) as [_ Hb Hfi _ _]. fold (start_of r Frame bs) in Ho. fold off in Ho.
    pose proof (size_pos _ _ _ (rq_size _ _ _ _ _ _ _ R)). unfold p. nia. }
  destruct (walk_kept v Hc) as (w & Ew & Ew1). rewrite Hun in Ew. injection Ew as <-.
  assert (Hrun : snd (VSpaceCap.map_frame OFFSET vc v fr u s1) = Done (Ok tt)).
  { rewrite (map_frame_run OFFSET s1 vc fr cap v u Hcap Hp52), Hf.
    erewrite map_size_outcome; [|by rewrite Em|exact rooted_kept|done|done| |exact Ew1];
      [cbn; by rewrite Z.eqb_refl|].
    apply is_aligned_spec. by rewrite <- size_pow. }
  destruct (VSpaceCap.map_frame OFFSET vc v fr u s1) as [s2 o] eqn:E. cbn [snd] in Hrun. subst o.
  destruct (map_frame_grants OFFSET vc rt s1 v fr cap u s2) as (K & _ & Wp & Wo & L);
    [by rewrite Em|exact rooted_kept|done..|].
  rewrite Hf, <- size_pow, Hp in Wp. rewrite Hf, <- size_pow in Wo.
  exists cap, s2. split_and!; try done.
  - intros v' Hv' Hne. rewrite Wo by done. destruct (walk_kept v' Hv') as (w & -> & ->). done.
  - destruct L as (q & x & w & Hq & _ & Hb). rewrite Hrt, flags_or_lor in Hb. by exists q, x, w.
Qed.
End lifecycle.

(** ** A concrete system *)

(** The address space [demo2] of [Mapping], whose entry is 64 and whose page at 0x40000000 can hold a
    1 GiB frame; a thread with the root entry 0x7000, a CNode of 16 slots at 0x8000 with the 4-bit
    guard 5; and 2 GiB of untyped memory at 0x80000000 in the entry 192. *)
Definition life_layout : TcbLayout := fun a => a + 0x7000.
Definition life_root : CapRaw := set_paddr 0x8000 demo_root.
Definition life_threads : Tcbs := {[0 := rooted_thread life_root]}.
Definition life_untyped : CapRaw := UntypedCap.mint 0x80000000 31 false.
Definition life_slots : CNodeCap.Slice := CNodeCap.mkSlice (0x8000 + 3 * CNODE_ENTRY_SZ) 2.
Definition life : VState :=
  mkV (<[192 := life_untyped]> (<[0x7000 := life_root]> (v_slots demo2 ∪ null_entries 16 0x8000)))
    (v_mem demo2) [].

Lemma life_consume : cnodes_consume (v_slots life).
Proof.
  apply (bool_decide_unpack (map_Forall (fun _ c => cap_type c = CNode ->
    CNodeCap.raw_radix_bits c + CNodeCap.raw_guard_bits c <> 0) (v_slots life))). by vm_compute.
Qed.

Lemma life_ready :
  ready (H := life_layout) (H0 := dev) (H1 := ref_x86addr) 0 life_threads 0 life_root demo_cap 0x1000
    0x40000000 Huge life.
Proof.
  split.
  - intros a t Ht. unfold life_threads in Ht. apply lookup_singleton_Some in Ht as [<- <-]. by vm_compute.
  - by eexists.
  - done.
  - by vm_compute.
  - exact life_consume.
  - by vm_compute; eexists.
  - eexists. split; [vm_compute; reflexivity|]. by vm_compute.
  - apply demo2_wf.
  - done.
  - done.
  - apply injective_projections; [reflexivity|vm_compute; reflexivity].
Qed.

Lemma life_request :
  request (mkCapRef 192) life_slots life_untyped Frame 30 (FrameSizeImpl.bytes Huge)
    (mkU (v_slots life) (v_mem life)).
Proof.
  split; [by vm_compute|by split; vm_compute|cbn; unfold W64; lia| |done|done|].
  - intros j Hj. cbn in Hj. exists CapRaw_default.
    assert (j = 0 \/ j = 1) as [-> | ->] by lia; by vm_compute.
  - intros x Hx. left. change (paddr life_untyped) with 0x80000000.
    destruct Hx as [-> |(j & Hj & ->)]; [by vm_compute|]. cbn in Hj.
    assert (j = 0 \/ j = 1) as [-> | ->] by lia; by vm_compute.
Qed.

(** ** The property *)

Module Claims.
Section claims.
Context `{Build} `{Bitflags} `{!BitflagsLaws} `{X86AddrLaws} `{TcbLayout} (OFFSET : Z).

(** C10: memory from untyped to page.  A thread has a root CNode and an untyped capability with room
    for frames of size [f]; the slots [first], [first + 1], ... of the CNode are empty;
    slots and untyped capability lie outside the region; and every CNode of the store has radix or
    guard bits.  Then
    [retype] succeeds; a pointer that spells the CNode's guard and the index [first + i] is looked up
    in the thread's CSpace to the slot of the frame [i], which is a frame capability; and
    [map_frame] maps it on a page that has its tables and is free: every address of the page then
    walks to the frame carved at [i] times its size behind the watermark, writable and not
    executable, and no other address changes.  The mapping leaves no trace in the capabilities:
    [is_mapped] of the frame is still false, and [revoke] on the untyped capability, when the
    mapping database has nothing behind it, erases nothing: the frames carved from it were never
    linked to it. *)
Theorem untyped_to_page ts a rc vc rt v f s c slots r first i cptr u fuel :
  ready OFFSET ts a rc vc rt v f s ->
  let size := FrameSizeImpl.bytes f in
  let off := start_of r Frame (FrameSizeImpl.bits f) in
  request c slots r Frame (FrameSizeImpl.bits f) size (mkU (v_slots s) (v_mem s)) ->
  cap_type r = Untyped -> off + CNodeCap.len slots * size <= 2 ^ UntypedCap.raw_bit_size r ->
  window rc first slots -> 0 <= i < CNodeCap.len slots -> spells rc cptr (first + i) ->
  (Z.to_nat (level rc) < fuel)%nat ->
  let self := mkCSpace (cspace_root_addr a) in
  let sl := CNodeCap.slot_addr slots i in
  exists s1 s2,
    on_untyped (UntypedCap.retype c Frame (FrameSizeImpl.bits f) slots) s = (s1, Done (Ok tt)) /\
    TcbCSpace.cspace a (v_slots s1) = (v_slots s1, Done (Ok self)) /\
    CSpaceImpl.lookup_with_depth fuel self cptr (level rc) (v_slots s1) = (v_slots s1, Done (Ok sl)) /\
    cap_try_from (T := FrameObj) sl (v_slots s1) = (v_slots s1, Done (Ok (mkCapRef sl))) /\
    VSpaceCap.map_frame OFFSET vc v (mkCapRef sl) u s1 = (s2, Done (Ok tt)) /\
    (forall v', VSpaceCap.is_canonical v' = true -> v' / size = v / size ->
       VSpaceCap.walk OFFSET vc v' s2 =
         (s2, Done (Ok (MappedPage (paddr r + off + i * size) f (4 - Z.of_nat (leaf_depth f)))))) /\
    (forall v', VSpaceCap.is_canonical v' = true -> v' / size <> v / size ->
       snd (VSpaceCap.walk OFFSET vc v' s2) = snd (VSpaceCap.walk OFFSET vc v' s)) /\
    (exists q x w, path OFFSET (v_mem s2) rt v = Some (q ++ [(x, w)]) /\
       Z.testbit w 1 = true /\ Z.testbit w 2 = u /\ Z.testbit w 63 = true) /\
    FrameCap.is_mapped (mkCapRef sl) (v_slots s2) = (v_slots s2, Done false) /\
    (mdb_next r = None -> forall n,
       CNodeEntry.revoke (S n) (raw c) (v_slots s2) = (v_slots s2, Done tt)).
Proof.
  intros Rd size off R Hu Hfit Hw Hi Hsp Hf self sl.
  destruct (retype_frames f s c slots r R Hu Hfit) as (s1 & E1 & Em & _ & C).
  destruct (found_slot OFFSET ts a rc vc rt v f s Rd c slots r first R Hu Hw s1 C fuel cptr i Hf Hi Hsp) as [Ec El].
  destruct (new_frame_mapped OFFSET ts a rc vc rt v f s Rd c slots r R Hu Hfit s1 Em C i u Hi)
    as (cap & s2 & Hcap & Ht & Hm & E2 & K & Wp & Wo & L).
  exists s1, s2. split_and!; try done.
  - unfold cap_try_from. rewrite (bind_done _ _ _ _ _ (entry_get_some _ _ _ Hcap)). by rewrite Ht.
  - cbn [raw] in Hcap. fold sl in Hcap. rewrite K, (is_mapped_run _ _ _ Hcap). by rewrite Hm.
  - intros Hn n. destruct (carved_self _ _ _ _ _ _ _ _ C) as (r' & Hr' & _ & _ & _ & Er).
    rewrite K. unfold CNodeEntry.revoke. rewrite (bind_done _ _ _ _ _ (entry_get_some _ _ _ Hr')).
    rewrite Er in Hn. cbn [mdb_next set_arg2] in Hn. by rewrite Hn.
Qed.
End claims.

(** *** Witness: the concrete system *)

Lemma untyped_to_page_witness :
  exists s1 s2,
    CSpaceImpl.lookup_with_depth (H := dev) 9 (mkCSpace 0x7000) 0x54 8 (v_slots s1) =
      (v_slots s1, Done (Ok 0x8100)) /\
    VSpaceCap.map_frame (H := dev) (H0 := ref_x86addr) (H1 := ref_bitflags) 0 demo_cap 0x40000000
      (mkCapRef 0x8100) true s1 = (s2, Done (Ok tt)) /\
    VSpaceCap.walk (H := dev) (H0 := ref_x86addr) 0 demo_cap 0x41234567 s2 =
      (s2, Done (Ok (MappedPage 0xC0000000 Huge 3))).
Proof.
  destruct (untyped_to_page (H := dev) (H0 := ref_bitflags) (H1 := ref_bitflags_laws)
    (H3 := ref_x86addr_laws) (H4 := life_layout) 0 life_threads 0 life_root demo_cap 0x1000 0x40000000 Huge
    life (mkCapRef 192) life_slots life_untyped 3 1 0x54 true 9)
    as (s1 & s2 & _ & _ & El & _ & Em & Ww & _).
  - exact life_ready.
  - exact life_request.
  - reflexivity.
  - vm_compute. discriminate.
  - split; [reflexivity|]. split; [lia|]. vm_compute. discriminate.
  - cbn. lia.
  - split; reflexivity.
  - vm_compute. lia.
  - exists s1, s2. split_and!; [exact El|exact Em|]. apply Ww; reflexivity.
Defined.
End Claims.
