(* ===== verification/Scheduler.v ===== *)
(** The per-core EDF scheduler: [src/kernel/src/scheduler/executor.rs].

    The ready queue is [heapless::BinaryHeap<Entry, Min, 64>], a crate outside the repository: a
    class of operations ([BinaryHeap]) with its documented behaviour ([BinaryHeapLaws]).  The
    functions of type [-> !] end by restoring a trap frame or by halting: they return a
    [Transfer], the thread the processor goes on with.  TCBs and scheduling contexts live in
    stores indexed by address. *)
From S2P Require Import Prelude Caps Dll CNode Tcb.

(** [MAX_TCB_PER_CORE]. *)
Definition MAX_TCB_PER_CORE : nat := 64.

(** [u64::MAX]. *)
Definition U64_MAX : Z := W64 - 1.

(** [struct Entry]. *)
Record Entry : Type := mkEntry { e_deadline : Z; e_tcb : Z }.

#[export] Instance Entry_eq_dec : EqDecision Entry.
Proof. solve_decision. Defined.

(** The derived [Ord]: lexicographic. *)
Definition entry_le (a b : Entry) : Prop :=
  e_deadline a < e_deadline b \/ (e_deadline a = e_deadline b /\ e_tcb a <= e_tcb b).

(** [enum SchedError]. *)
Inductive SchedError : Type := QueueFull | InvalidState | NotFound.

(** ** The ready queue *)

(** [BinaryHeap<Entry, Min, N>]: [new], [push] ([None] is [Err(item)]), [pop] and [peek]. *)
Class BinaryHeap : Type := {
  heap : Type;
  heap_new : heap;
  heap_push : Entry -> heap -> option heap;
  heap_pop : heap -> option (Entry * heap);
  heap_peek : heap -> option Entry
}.

(** "[push] pushes an item onto the binary heap", an error when its [N] places are taken; "[pop]
    removes the top item (the smallest, in a min-heap) and returns it, or [None] if empty";
    "[peek] returns the top item, or [None] if empty".  [contents] lists the items held. *)
Class BinaryHeapLaws `{BinaryHeap} : Type := {
  contents : heap -> list Entry;
  heap_new_empty : contents heap_new = [];
  heap_push_room : forall e h, (length (contents h) < MAX_TCB_PER_CORE)%nat ->
    exists h', heap_push e h = Some h' /\ Permutation (contents h') (e :: contents h);
  heap_push_full : forall e h, (MAX_TCB_PER_CORE <= length (contents h))%nat -> heap_push e h = None;
  heap_pop_empty : forall h, contents h = [] -> heap_pop h = None;
  heap_pop_top : forall h, contents h <> [] ->
    exists e h', heap_pop h = Some (e, h') /\ Permutation (contents h) (e :: contents h') /\
      Forall (entry_le e) (contents h);
  heap_peek_empty : forall h, contents h = [] -> heap_peek h = None;
  heap_peek_top : forall h, contents h <> [] ->
    exists e, heap_peek h = Some e /\ e ∈ contents h /\ Forall (entry_le e) (contents h)
}.

(** ** The executor *)

(** What the processor goes on with when a [-> !] function ends. *)
Inductive Transfer : Type := Resume (tcb : Z) | Halted.

Section executor.
Context `{BinaryHeap}.

(** [struct Executor] and the memory it works on. *)
Record Exec : Type := mkExec {
  e_tcbs : Tcbs;
  e_ctxs : gmap Z SchedContext;
  ready : heap;
  current : option Entry;
  idle : option Z
}.

Definition set_tcbs (v : Tcbs) (s : Exec) : Exec := mkExec v (e_ctxs s) (ready s) (current s) (idle s).
Definition set_ctxs (v : gmap Z SchedContext) (s : Exec) : Exec :=
  mkExec (e_tcbs s) v (ready s) (current s) (idle s).
Definition set_ready (v : heap) (s : Exec) : Exec :=
  mkExec (e_tcbs s) (e_ctxs s) v (current s) (idle s).
Definition set_current (v : option Entry) (s : Exec) : Exec :=
  mkExec (e_tcbs s) (e_ctxs s) (ready s) v (idle s).
Definition set_idle_field (v : option Z) (s : Exec) : Exec :=
  mkExec (e_tcbs s) (e_ctxs s) (ready s) (current s) v.

Definition ontcbs {A} : M Tcbs A -> M Exec A := zoom e_tcbs set_tcbs.
End executor.
Arguments Exec _ : clear implicits.
Arguments Exec {_}.

Module Executor.
Section ops.
Context `{BinaryHeap}.

(** [Executor::new], over given stores. *)
Definition new (t : Tcbs) (c : gmap Z SchedContext) : Exec := mkExec t c heap_new None None.

(** [Executor::set_idle]. *)
Definition set_idle (tcb : Z) : M Exec unit :=
  do! ontcbs (tcb_upd tcb (set_state Inactive)) in
  modify (set_idle_field (Some tcb)).

(** [Executor::deadline_of]. *)
Definition deadline_of (tcb : Z) : M Exec Z :=
  let! t := ontcbs (tcb_get tcb) in
  match sched_context t with
  | None => ret U64_MAX
  | Some sc => fun s => (let! c := deref (e_ctxs s !! sc) in ret (deadline c)) s
  end.

(** [self.ready.push(e)], with what the caller does when it is full. *)
Definition push_or {A} (e : Entry) (full ok : M Exec A) : M Exec A := fun s =>
  match heap_push e (ready s) with
  | Some h => ok (set_ready h s)
  | None => full s
  end.

(** [Executor::enqueue]. *)
Definition enqueue (tcb : Z) : M Exec (result unit SchedError) :=
  let! t := ontcbs (tcb_get tcb) in
  if negb (bool_decide (state t = Inactive)) then ret (Err InvalidState) else
  let! d := deadline_of tcb in
  push_or (mkEntry d tcb) (ret (Err QueueFull)) (ret (Ok tt)).

(** [Executor::should_preempt]. *)
Definition should_preempt (s : Exec) : bool :=
  match current s, heap_peek (ready s) with
  | Some cur, Some next => e_deadline next <? e_deadline cur
  | None, Some _ => true
  | _, _ => false
  end.

(** [Executor::context_switch]. *)
Definition context_switch (next : Entry) : M Exec Transfer :=
  let! cur := gets current in
  do! modify (set_current None) in
  do! match cur with
      | Some cur =>
          let! t := ontcbs (tcb_get (e_tcb cur)) in
          if bool_decide (state t = Running) then
            do! ontcbs (tcb_upd (e_tcb cur) (set_state Inactive)) in
            push_or cur panic (ret tt)
          else ret tt
      | None => ret tt
      end in
  do! ontcbs (tcb_upd (e_tcb next) (set_state Running)) in
  do! modify (set_current (Some next)) in
  ret (Resume (e_tcb next)).

(** [Executor::inc_tick]. *)
Definition inc_tick `{Build} : M Exec unit :=
  let! cur := gets current in
  match cur with
  | None => ret tt
  | Some e =>
      let! t := ontcbs (tcb_get (e_tcb e)) in
      match sched_context t with
      | None => ret tt
      | Some sc =>
          let! ctxs := gets e_ctxs in
          let! c := deref (ctxs !! sc) in
          let! n := add64 (ticks_consumed c) 1 in
          modify (set_ctxs (<[sc := mkSchedContext (ticks c) n (deadline c) (thread c)]> ctxs))
      end
  end.

(** [Executor::preempt]: [None] when it returns to the interrupted thread. *)
Definition preempt `{Build} : M Exec (option Transfer) :=
  do! inc_tick in
  let! p := gets should_preempt in
  if negb p then ret None else
  fun s =>
    match heap_pop (ready s) with
    | None => panic s
    | Some (next, h) => (let! t := context_switch next in ret (Some t)) (set_ready h s)
    end.

(** [Executor::schedule]. *)
Definition schedule : M Exec Transfer := fun s =>
  match heap_pop (ready s) with
  | Some (next, h) => context_switch next (set_ready h s)
  | None =>
      match idle s with
      | Some i => context_switch (mkEntry U64_MAX i) s
      | None => ret Halted s
      end
  end.

(** [Executor::yield_current]. *)
Definition yield_current : M Exec Transfer :=
  let! cur := gets current in
  do! modify (set_current None) in
  do! match cur with
      | Some cur =>
          do! ontcbs (tcb_upd (e_tcb cur) (set_state Inactive)) in
          push_or cur panic (ret tt)
      | None => ret tt
      end in
  schedule.

(** The [matches!] of [block_current] and [wake]. *)
Definition is_blocked (t : ThreadState) : bool :=
  match t with
  | BlockedOnReceive | BlockedOnSend | BlockedOnReply | BlockedOnNotification => true
  | _ => false
  end.

(** [Executor::block_current]. *)
Definition block_current (st : ThreadState) : M Exec Transfer :=
  do! assertM (is_blocked st) in
  let! cur := gets current in
  do! modify (set_current None) in
  do! match cur with
      | Some cur => ontcbs (tcb_upd (e_tcb cur) (set_state st))
      | None => ret tt
      end in
  schedule.

(** [Executor::wake]. *)
Definition wake (tcb : Z) : M Exec (result unit SchedError) :=
  let! t := ontcbs (tcb_get tcb) in
  if negb (is_blocked (state t)) then ret (Err InvalidState) else
  do! ontcbs (tcb_upd tcb (set_state Inactive)) in
  enqueue tcb.

(** [Executor::run]. *)
Definition run : M Exec Transfer := schedule.

End ops.
End Executor.

(** ** Saved contexts

    The registers of a thread that does not run are in the trap frame of its TCB.  The executor reads
    a trap frame only to restore it: no operation writes one, so it never saves the registers of the
    thread it takes the processor from. *)

Section frames.
Context `{BinaryHeap}.

Definition keeps_frames {A} (m : M Exec A) : Prop := forall s, context <$> e_tcbs (m s).1 = context <$> e_tcbs s.

Lemma keeps_same {A} (m : M Exec A) : (forall s, e_tcbs (m s).1 = e_tcbs s) -> keeps_frames m.
Proof. intros Hm s. by rewrite Hm. Qed.

Lemma keeps_bind {A B} (m : M Exec A) (f : A -> M Exec B) :
  keeps_frames m -> (forall a, keeps_frames (f a)) -> keeps_frames (let! a := m in f a).
Proof.
  intros Hm Hf s. unfold bind. specialize (Hm s). destruct (m s) as [s' [a| | |]]; try done.
  rewrite Hf. exact Hm.
Qed.

Lemma keeps_state a st : keeps_frames (ontcbs (tcb_upd a (set_state st))).
Proof.
  intros s. unfold ontcbs, zoom, tcb_upd. destruct (e_tcbs s !! a) as [t|] eqn:E; [|done]. cbn.
  rewrite fmap_insert. apply insert_id. by rewrite lookup_fmap, E.
Qed.

Lemma keeps_get a : keeps_frames (ontcbs (tcb_get a)).
Proof. apply keeps_same. intros s. unfold ontcbs, zoom, tcb_get, deref. by destruct (e_tcbs s !! a). Qed.

Lemma keeps_push {A} e (full ok : M Exec A) : keeps_frames full -> keeps_frames ok -> keeps_frames (Executor.push_or e full ok).
Proof. intros Hf Ho s. unfold Executor.push_or. destruct (heap_push e (ready s)); [by rewrite Ho|by rewrite Hf]. Qed.

Lemma keeps_ret {A} (a : A) : keeps_frames (ret a).
Proof. by apply keeps_same. Qed.
Lemma keeps_panic {A} : keeps_frames (panic (A := A)).
Proof. by apply keeps_same. Qed.
Lemma keeps_gets {A} (f : Exec -> A) : keeps_frames (gets f).
Proof. by apply keeps_same. Qed.
Lemma keeps_modify f : (forall s, e_tcbs (f s) = e_tcbs s) -> keeps_frames (modify f).
Proof. intros Hf. apply keeps_same. exact Hf. Qed.

Lemma keeps_context_switch next : keeps_frames (Executor.context_switch next).
Proof.
  apply keeps_bind; [apply keeps_gets|]. intros cur. apply keeps_bind; [by apply keeps_modify|]. intros _. apply keeps_bind.
  - destruct cur as [cur|]; [|apply keeps_ret]. apply keeps_bind; [apply keeps_get|]. intros t.
    destruct (bool_decide _); [|apply keeps_ret]. apply keeps_bind; [apply keeps_state|]. intros _.
    apply keeps_push; [apply keeps_panic|apply keeps_ret].
  - intros _. apply keeps_bind; [apply keeps_state|]. intros _. apply keeps_bind; [by apply keeps_modify|]. intros _. apply keeps_ret.
Qed.

Lemma keeps_inc_tick `{Build} : keeps_frames Executor.inc_tick.
Proof.
  apply keeps_bind; [apply keeps_gets|]. intros [e|]; [|apply keeps_ret]. apply keeps_bind; [apply keeps_get|]. intros t.
  destruct (sched_context t) as [sc|]; [|apply keeps_ret]. apply keeps_bind; [apply keeps_gets|]. intros ctxs.
  apply keeps_bind; [apply keeps_same; intros s; unfold deref; by destruct (ctxs !! sc)|]. intros c.
  apply keeps_bind; [apply keeps_same; intros s; unfold add64, arith64; by repeat case_match|]. intros n. by apply keeps_modify.
Qed.

Lemma keeps_preempt `{Build} : keeps_frames Executor.preempt.
Proof.
  apply keeps_bind; [apply keeps_inc_tick|]. intros _. apply keeps_bind; [apply keeps_gets|]. intros [|]; [|apply keeps_ret].
  intros s. cbn [negb]. destruct (heap_pop (ready s)) as [[next h]|]; [|done].
  rewrite (keeps_bind (Executor.context_switch next) (fun t => ret (Some t)) (keeps_context_switch next) (fun t => keeps_ret _)). done.
Qed.
End frames.

(** ** A reference heap: an unsorted list, searched for its minimum *)

Definition entry_leb (a b : Entry) : bool :=
  (e_deadline a <? e_deadline b) || ((e_deadline a =? e_deadline b) && (e_tcb a <=? e_tcb b)).

Lemma entry_leb_spec a b : if entry_leb a b then entry_le a b else entry_le b a.
Proof.
  unfold entry_leb, entry_le.
  destruct (Z.ltb_spec (e_deadline a) (e_deadline b)), (Z.eqb_spec (e_deadline a) (e_deadline b)),
    (Z.leb_spec (e_tcb a) (e_tcb b)); simpl; lia.
Qed.

Lemma entry_le_trans a b c : entry_le a b -> entry_le b c -> entry_le a c.
Proof. unfold entry_le. lia. Qed.

Lemma entry_le_refl a : entry_le a a.
Proof. unfold entry_le. lia. Qed.

(** The minimum of [m :: l] and the other items. *)
Fixpoint take_min (m : Entry) (l : list Entry) : Entry * list Entry :=
  match l with
  | [] => (m, [])
  | x :: l =>
      if entry_leb m x then let '(r, l') := take_min m l in (r, x :: l')
      else let '(r, l') := take_min x l in (r, m :: l')
  end.

Lemma take_min_spec m l r l' :
  take_min m l = (r, l') -> Permutation (m :: l) (r :: l') /\ Forall (entry_le r) (m :: l).
Proof.
  revert m r l'. induction l as [|x l IH]; intros m r l'; cbn [take_min].
  { intros [= <- <-]. split; [done|]. apply Forall_singleton, entry_le_refl. }
  pose proof (entry_leb_spec m x) as Hmx. destruct (entry_leb m x).
  - destruct (take_min m l) as [r0 l0] eqn:E. intros [= <- <-]. apply IH in E as [P F].
    apply Forall_cons in F as [Fm Fl]. split.
    + etrans; [apply Permutation_swap|]. rewrite P. apply Permutation_swap.
    + rewrite !Forall_cons. split_and!; [done|by eapply entry_le_trans|done].
  - destruct (take_min x l) as [r0 l0] eqn:E. intros [= <- <-]. apply IH in E as [P F].
    apply Forall_cons in F as [Fx Fl]. split.
    + rewrite P. apply Permutation_swap.
    + rewrite !Forall_cons. split_and!; [by eapply entry_le_trans|done|done].
Qed.

Definition ref_heap : BinaryHeap :=
  {| heap := list Entry;
     heap_new := [];
     heap_push e h := if (length h <? MAX_TCB_PER_CORE)%nat then Some (e :: h) else None;
     heap_pop h := match h with [] => None | x :: l => Some (take_min x l) end;
     heap_peek h := match h with [] => None | x :: l => Some (fst (take_min x l)) end |}.

Definition ref_heap_laws : @BinaryHeapLaws ref_heap.
Proof.
  refine (@Build_BinaryHeapLaws ref_heap (fun h => h) _ _ _ _ _ _ _); simpl.
  - done.
  - intros e h Hl. rewrite (proj2 (Nat.ltb_lt _ _) Hl). by eexists.
  - intros e h Hl. by rewrite (proj2 (Nat.ltb_ge _ _) Hl).
  - by intros h ->.
  - intros [|x l] Hn; [done|]. destruct (take_min x l) as [r l'] eqn:E.
    exists r, l'. split; [done|]. by apply take_min_spec.
  - by intros h ->.
  - intros [|x l] Hn; [done|]. destruct (take_min x l) as [r l'] eqn:E.
    apply take_min_spec in E as [P F]. exists r. split; [done|]. split; [|done].
    simpl. rewrite P. set_solver.
Defined.

(** ** The scheduler invariant *)

Section invariant.
Context `{BinaryHeapLaws}.
Implicit Types (s : Exec).

(** Ready threads are distinct, inactive and at most 64; the current thread is running; the
    pointers held lead to TCBs and scheduling contexts. *)
Record sched_inv (s : Exec) : Prop := {
  inv_cap : (length (contents (ready s)) <= MAX_TCB_PER_CORE)%nat;
  inv_nodup : NoDup (e_tcb <$> contents (ready s));
  inv_ready : forall e, e ∈ contents (ready s) ->
    exists t, e_tcbs s !! e_tcb e = Some t /\ state t = Inactive;
  inv_current : forall e, current s = Some e ->
    exists t, e_tcbs s !! e_tcb e = Some t /\ state t = Running;
  inv_idle : forall i, idle s = Some i -> is_Some (e_tcbs s !! i);
  inv_ctx : forall a t p, e_tcbs s !! a = Some t -> sched_context t = Some p ->
    is_Some (e_ctxs s !! p)
}.

(** The threads the scheduler holds. *)
Definition held s : list Entry :=
  contents (ready s) ++ match current s with Some e => [e] | None => [] end.

(** [s] and [s'] differ at most in the states of the threads of [l]. *)
Definition only_states (l : list Z) (t t' : Tcbs) : Prop :=
  (forall a, a ∉ l -> t' !! a = t !! a) /\
  (forall a x, t !! a = Some x -> exists st, t' !! a = Some (set_state st x)).

Lemma set_state_id t : set_state (state t) t = t.
Proof. by destruct t. Qed.

Lemma only_states_refl l t : only_states l t t.
Proof. split; [done|]. intros a x Hx. exists (state x). by rewrite set_state_id. Qed.

Lemma only_states_upd l t t' a x st :
  only_states l t t' -> t' !! a = Some x -> a ∈ l -> only_states l t (<[a := set_state st x]> t').
Proof.
  intros [Ho Hs] Hx Ha. split.
  - intros b Hb. rewrite lookup_insert_ne by (intros ->; done). by apply Ho.
  - intros b y Hy. destruct (decide (a = b)) as [->|Hn].
    + rewrite lookup_insert_eq. destruct (Hs b y Hy) as [st' Hst]. rewrite Hx in Hst. injection Hst as ->.
      exists st. by destruct y.
    + rewrite lookup_insert_ne by done. by apply Hs.
Qed.

Lemma ontcbs_get s a t : e_tcbs s !! a = Some t -> ontcbs (tcb_get a) s = (s, Done t).
Proof.
  intros Ht. unfold ontcbs. erewrite zoom_done by (by apply tcb_get_some). by destruct s.
Qed.

Lemma ontcbs_upd s a t f :
  e_tcbs s !! a = Some t ->
  ontcbs (tcb_upd a f) s = (set_tcbs (<[a := f t]> (e_tcbs s)) s, Done tt).
Proof. intros Ht. unfold ontcbs. by erewrite zoom_done by (by apply tcb_upd_some). Qed.

(** The entries of the current thread, if any. *)
Definition cur_list s : list Entry := match current s with Some e => [e] | None => [] end.

Lemma current_not_ready s e :
  sched_inv s -> current s = Some e -> e_tcb e ∉ e_tcb <$> contents (ready s).
Proof.
  intros Hi Hc Hin. apply list_elem_of_fmap in Hin as (e' & E & Hin).
  destruct (inv_current s Hi e Hc) as (t & Ht & Hr). destruct (inv_ready s Hi e' Hin) as (t' & Ht' & Hr').
  rewrite <- E, Ht in Ht'. injection Ht' as <-. congruence.
Qed.

(** Updating the state of one thread keeps what the invariant says of the pointers. *)
Lemma ctx_upd s a t st :
  sched_inv s -> e_tcbs s !! a = Some t ->
  forall b x p, <[a := set_state st t]> (e_tcbs s) !! b = Some x -> sched_context x = Some p ->
    is_Some (e_ctxs s !! p).
Proof.
  intros Hi Ht b x p. rewrite lookup_insert. case_decide as E; [|by apply inv_ctx].
  intros [= <-]. by apply (inv_ctx s Hi a t).
Qed.

(** Parking the current thread in the ready queue: what [context_switch] and [yield_current] do
    first. *)
Lemma park_run s e :
  sched_inv s -> current s = Some e -> (length (contents (ready s)) < MAX_TCB_PER_CORE)%nat ->
  exists t h, e_tcbs s !! e_tcb e = Some t /\ state t = Running /\ heap_push e (ready s) = Some h /\
    let s' := mkExec (<[e_tcb e := set_state Inactive t]> (e_tcbs s)) (e_ctxs s) h None (idle s) in
    sched_inv s' /\ Permutation (contents h) (e :: contents (ready s)).
Proof.
  intros Hi Hc Hl. destruct (inv_current s Hi e Hc) as (t & Ht & Hr).
  destruct (heap_push_room e (ready s) Hl) as (h & Hh & Hp). exists t, h. split_and!; try done.
  pose proof (current_not_ready s e Hi Hc) as Hn. cbv zeta. split; [|done].
  split; cbn [ready e_tcbs e_ctxs current idle].
  - rewrite Hp. simpl. lia.
  - rewrite (Permutation_map e_tcb Hp). simpl. apply NoDup_cons. split; [done|apply inv_nodup, Hi].
  - intros e'. rewrite Hp, elem_of_cons. intros [->|Hin].
    + rewrite lookup_insert_eq. by eexists.
    + rewrite lookup_insert_ne; [by apply inv_ready|].
      intros E. apply Hn. rewrite E. by apply list_elem_of_fmap_2.
  - done.
  - intros i Hii. rewrite lookup_insert. case_decide; [by eexists|]. by apply inv_idle.
  - by apply ctx_upd.
Qed.

(** Starting a thread that is neither ready nor current. *)
Lemma start_inv s next t :
  sched_inv s -> current s = None -> e_tcbs s !! e_tcb next = Some t ->
  e_tcb next ∉ e_tcb <$> contents (ready s) ->
  sched_inv (mkExec (<[e_tcb next := set_state Running t]> (e_tcbs s)) (e_ctxs s) (ready s) (Some next) (idle s)).
Proof.
  intros Hi Hc Ht Hn. split; cbn [ready e_tcbs e_ctxs current idle].
  - apply Hi.
  - apply Hi.
  - intros e Hin. rewrite lookup_insert_ne; [by apply inv_ready|].
    intros E. apply Hn. rewrite E. by apply list_elem_of_fmap_2.
  - intros e [= <-]. rewrite lookup_insert_eq. by eexists.
  - intros i Hii. rewrite lookup_insert. case_decide; [by eexists|]. by apply inv_idle.
  - by apply ctx_upd.
Qed.

Lemma context_switch_run s next t :
  sched_inv s -> e_tcbs s !! e_tcb next = Some t -> e_tcb next ∉ e_tcb <$> contents (ready s) ->
  (forall e, current s = Some e -> e_tcb e <> e_tcb next) ->
  (current s = None \/ (length (contents (ready s)) < MAX_TCB_PER_CORE)%nat) ->
  exists s', Executor.context_switch next s = (s', Done (Resume (e_tcb next))) /\
    sched_inv s' /\ current s' = Some next /\
    Permutation (contents (ready s')) (cur_list s ++ contents (ready s)) /\
    only_states (e_tcb <$> next :: cur_list s) (e_tcbs s) (e_tcbs s') /\
    e_ctxs s' = e_ctxs s /\ idle s' = idle s.
Proof.
  intros Hi Ht Hn Hne Hroom. unfold Executor.context_switch, cur_list.
  rewrite (bind_done _ _ _ s (current s)) by done. destruct (current s) as [cur|] eqn:Hc.
  - destruct Hroom as [?|Hroom]; [done|].
    destruct (park_run s cur Hi Hc Hroom) as (tc & h & Htc & Hrun & Hpush & Hi' & Hp).
    set (s1 := mkExec (<[e_tcb cur := set_state Inactive tc]> (e_tcbs s)) (e_ctxs s) h None (idle s)) in *.
    assert (Ht1 : e_tcbs s1 !! e_tcb next = Some t) by (cbn [e_tcbs s1]; by rewrite lookup_insert_ne by auto).
    exists (mkExec (<[e_tcb next := set_state Running t]> (e_tcbs s1)) (e_ctxs s1) h (Some next) (idle s1)).
    split_and!; [|apply start_inv; [done..|]| done| | |done|done].
    + rewrite (bind_done _ _ _ (set_current None s) tt) by done.
      erewrite bind_done; [|erewrite bind_done by (by apply ontcbs_get);
        rewrite bool_decide_eq_true_2 by done; erewrite bind_done by (by eapply ontcbs_upd);
        unfold Executor.push_or; cbn [ready set_tcbs set_current]; by rewrite Hpush].
      erewrite bind_done by (by eapply (ontcbs_upd s1)). done.
    + cbn [ready s1]. rewrite (Permutation_map e_tcb Hp). simpl. apply not_elem_of_cons. split; [|done].
      intros E. by apply (Hne cur).
    + done.
    + eapply only_states_upd; [|exact Ht1|set_solver]. eapply only_states_upd; [apply only_states_refl|done|set_solver].
  - exists (mkExec (<[e_tcb next := set_state Running t]> (e_tcbs s)) (e_ctxs s) (ready s) (Some next) (idle s)).
    split_and!; [|by apply start_inv|done|done| |done|done].
    + rewrite (bind_done _ _ _ (set_current None s) tt), bind_ret by done.
      assert (Es : set_current None s = s) by (destruct s; cbn in *; by subst). rewrite Es.
      by erewrite bind_done by (by eapply ontcbs_upd).
    + eapply only_states_upd; [apply only_states_refl|done|set_solver].
Qed.

(** Taking the top of the queue. *)
Lemma pop_inv s :
  sched_inv s -> contents (ready s) <> [] ->
  exists next h t, heap_pop (ready s) = Some (next, h) /\ sched_inv (set_ready h s) /\
    Permutation (contents (ready s)) (next :: contents h) /\ Forall (entry_le next) (contents (ready s)) /\
    e_tcbs s !! e_tcb next = Some t /\ (e_tcb next ∉ e_tcb <$> contents h) /\
    (length (contents h) < MAX_TCB_PER_CORE)%nat /\
    (forall e, current s = Some e -> e_tcb e <> e_tcb next).
Proof.
  intros Hi Hne. destruct (heap_pop_top (ready s) Hne) as (next & h & Hpop & Hp & Hf).
  pose proof (inv_nodup s Hi) as Hnd. rewrite (Permutation_map e_tcb Hp) in Hnd.
  apply NoDup_cons in Hnd as [Hn Hnd]. pose proof (inv_cap s Hi) as Hcap. rewrite Hp in Hcap. simpl in Hcap.
  destruct (inv_ready s Hi next) as (t & Ht & Hst); [rewrite Hp; set_solver|].
  exists next, h, t. split_and!; [done| |done|done|done|done|lia|].
  - split; cbn [ready e_tcbs e_ctxs current idle set_ready]; [lia|done| |apply Hi..].
    intros e He. apply (inv_ready s Hi). rewrite Hp. set_solver.
  - intros e Hc E. apply (current_not_ready s e Hi Hc). rewrite E, (Permutation_map e_tcb Hp). set_solver.
Qed.

(** [schedule] with no current thread. *)
Lemma schedule_run s :
  sched_inv s -> current s = None -> contents (ready s) <> [] ->
  exists next s', Executor.schedule s = (s', Done (Resume (e_tcb next))) /\
    sched_inv s' /\ current s' = Some next /\ Forall (entry_le next) (contents (ready s)) /\
    Permutation (contents (ready s)) (next :: contents (ready s')) /\
    only_states [e_tcb next] (e_tcbs s) (e_tcbs s') /\ idle s' = idle s.
Proof.
  intros Hi Hc Hne. destruct (pop_inv s Hi Hne) as (next & h & t & Hpop & Hi' & Hp & Hf & Ht & Hn & Hl & Hcur).
  destruct (context_switch_run (set_ready h s) next t) as (s' & E & Hi2 & Hc2 & Hp2 & Ho & _ & Hid);
    [done|done|done|done|by left|].
  exists next, s'. unfold Executor.schedule. rewrite Hpop.
  unfold cur_list in Hp2, Ho. cbn [current set_ready ready] in Hp2, Ho. rewrite Hc in Hp2, Ho.
  split_and!; try done. rewrite Hp. by rewrite Hp2.
Qed.

Lemma schedule_idle s i :
  sched_inv s -> current s = None -> contents (ready s) = [] -> idle s = Some i ->
  exists s', Executor.schedule s = (s', Done (Resume i)) /\ sched_inv s' /\
    current s' = Some (mkEntry U64_MAX i) /\ contents (ready s') = [] /\
    only_states [i] (e_tcbs s) (e_tcbs s') /\ idle s' = Some i.
Proof.
  intros Hi Hc He Hid. destruct (inv_idle s Hi i Hid) as [t Ht].
  destruct (context_switch_run s (mkEntry U64_MAX i) t) as (s' & E & Hi2 & Hc2 & Hp2 & Ho & _ & Hid2);
    [done|done|rewrite He; simpl; set_solver|congruence|by left|].
  exists s'. unfold Executor.schedule. rewrite heap_pop_empty, Hid by done.
  unfold cur_list in Hp2, Ho. rewrite Hc in Hp2, Ho. rewrite He in Hp2.
  split_and!; try done; [|by rewrite Hid2]. by apply Permutation_nil.
Qed.

Lemma schedule_halt s :
  contents (ready s) = [] -> idle s = None -> Executor.schedule s = (s, Done Halted).
Proof. intros He Hid. unfold Executor.schedule. by rewrite heap_pop_empty, Hid. Qed.

(** ** Preemption *)

(** The current thread has an earliest deadline. *)
Definition edf s : Prop :=
  forall e, current s = Some e -> Forall (fun x => e_deadline e <= e_deadline x) (contents (ready s)).

Definition ticks_ok s : Prop :=
  forall p c, e_ctxs s !! p = Some c -> 0 <= ticks_consumed c /\ ticks_consumed c + 1 < W64.

(** The context whose ticks [inc_tick] counts. *)
Definition current_ctx s : option Z :=
  match current s with
  | Some e => match e_tcbs s !! e_tcb e with Some t => sched_context t | None => None end
  | None => None
  end.

Definition tick (c : SchedContext) : SchedContext :=
  mkSchedContext (ticks c) (ticks_consumed c + 1) (deadline c) (thread c).

Lemma inc_tick_run `{Build} s :
  sched_inv s -> ticks_ok s ->
  Executor.inc_tick s =
    (set_ctxs (match current_ctx s with Some p => alter tick p (e_ctxs s) | None => e_ctxs s end) s, Done tt).
Proof.
  intros Hi Htk. unfold Executor.inc_tick, current_ctx. rewrite (bind_done _ _ _ s (current s)) by done.
  destruct (current s) as [e|] eqn:Hc; simpl; [|by destruct s].
  destruct (inv_current s Hi e Hc) as (t & Ht & _). rewrite (bind_done _ _ _ _ _ (ontcbs_get _ _ _ Ht)), Ht. simpl.
  destruct (sched_context t) as [p|] eqn:Hp; [|by destruct s].
  destruct (inv_ctx s Hi _ _ _ Ht Hp) as [c Hcx]. destruct (Htk p c Hcx).
  rewrite (bind_done _ _ _ s (e_ctxs s)) by done. rewrite Hcx. simpl. rewrite bind_ret.
  rewrite (bind_done _ _ _ s (ticks_consumed c + 1)) by (apply arith64_ok; unfold u64; lia).
  unfold modify. do 2 f_equal. apply map_eq. intros q. destruct (decide (p = q)) as [->|Hne].
  - by rewrite lookup_insert_eq, lookup_alter_eq, Hcx.
  - by rewrite lookup_insert_ne, lookup_alter_ne.
Qed.

Lemma set_ctxs_inv s c :
  sched_inv s -> (forall p, is_Some (e_ctxs s !! p) -> is_Some (c !! p)) -> sched_inv (set_ctxs c s).
Proof.
  intros [C1 C2 C3 C4 C5 C6] Hc. split; try done. intros a t p Ht Hp. apply Hc. by eapply C6.
Qed.

(** Counting a tick keeps the invariant. *)
Lemma inc_tick_inv s f :
  sched_inv s -> sched_inv (set_ctxs (match current_ctx s with Some p => alter f p (e_ctxs s) | None => e_ctxs s end) s).
Proof.
  intros Hi. apply set_ctxs_inv; [done|]. intros p Hp. destruct (current_ctx s) as [q|]; [|done].
  destruct (decide (q = p)) as [->|]; [|by rewrite lookup_alter_ne].
  rewrite lookup_alter_eq. by apply fmap_is_Some.
Qed.

(** Taking the top of the queue and switching to it. *)
Lemma dispatch_run s :
  sched_inv s -> contents (ready s) <> [] ->
  exists next h s', heap_pop (ready s) = Some (next, h) /\ next ∈ contents (ready s) /\
    Executor.context_switch next (set_ready h s) = (s', Done (Resume (e_tcb next))) /\
    sched_inv s' /\ current s' = Some next /\ Forall (entry_le next) (contents (ready s)) /\
    Permutation (held s') (held s) /\
    Forall (fun e => entry_le next e \/ current s = Some e) (contents (ready s')).
Proof.
  intros Hi Hne. destruct (pop_inv s Hi Hne) as (next & h & t & Hpop & Hi' & Hp & Hf & Ht & Hn & Hl & Hcur).
  destruct (context_switch_run (set_ready h s) next t) as (s' & E & Hi2 & Hc2 & Hp2 & _);
    [done|done|done|done|by right|].
  change (cur_list (set_ready h s)) with (cur_list s) in Hp2. cbn [set_ready ready] in Hp2.
  exists next, h, s'. split_and!; try done.
  - rewrite Hp. set_solver.
  - unfold held. rewrite Hc2, Hp2, Hp. unfold cur_list. destruct (current s); simpl.
    + rewrite <- !Permutation_cons_append. apply Permutation_swap.
    + by rewrite <- Permutation_cons_append, app_nil_r.
  - rewrite Hp2, Forall_app. split.
    + unfold cur_list. destruct (current s); [|done]. apply Forall_singleton. by right.
    + rewrite Hp in Hf. apply Forall_cons in Hf as [_ Hf]. eapply Forall_impl; [exact Hf|]. by left.
Qed.

Lemma preempt_run `{Build} s :
  sched_inv s -> ticks_ok s ->
  exists s' o, Executor.preempt s = (s', Done o) /\ sched_inv s' /\ edf s' /\
    (current s' = None -> contents (ready s') = []) /\
    Permutation (held s') (held s) /\
    match o with
    | None => current s' = current s /\ ready s' = ready s /\ e_tcbs s' = e_tcbs s
    | Some tr => exists e, tr = Resume (e_tcb e) /\ current s' = Some e /\ e ∈ contents (ready s) /\
        (forall cur, current s = Some cur -> e_deadline e < e_deadline cur)
    end.
Proof.
  intros Hi Htk. unfold Executor.preempt. rewrite (bind_done _ _ _ _ _ (inc_tick_run s Hi Htk)).
  pose proof (inc_tick_inv s tick Hi) as Hi1. set (s1 := set_ctxs _ s) in *.
  rewrite (bind_done _ _ _ s1 (Executor.should_preempt s)) by done.
  unfold Executor.should_preempt. destruct (decide (contents (ready s) = [])) as [He|He].
  { rewrite heap_peek_empty by done. exists s1, None. split_and!; try done; [by destruct (current s)| ].
    intros e Hc. cbn [ready s1 set_ctxs]. by rewrite He. }
  destruct (heap_peek_top (ready s) He) as (top & Hpk & Htop & Hmin). rewrite Hpk. rewrite Forall_forall in Hmin.
  destruct (dispatch_run s1 Hi1 He) as (next & h & s' & Hpop & Hin & E & Hi2 & Hc2 & Hf & Hh & Hr).
  change (ready s1) with (ready s) in *. change (current s1) with (current s) in *. rewrite Forall_forall in Hf.
  assert (Hdl : e_deadline next = e_deadline top)
    by (pose proof (Hmin next Hin); pose proof (Hf top Htop); unfold entry_le in *; lia).
  assert (Hgo : (forall cur, current s = Some cur -> e_deadline top < e_deadline cur) -> edf s').
  { intros Hlt e Hce. rewrite Hc2 in Hce. injection Hce as <-. eapply Forall_impl; [exact Hr|].
    intros x [Hx|Hx]; [unfold entry_le in Hx; lia|]. specialize (Hlt x Hx). lia. }
  destruct (current s) as [cur|] eqn:Hc; [destruct (Z.ltb_spec (e_deadline top) (e_deadline cur)) as [Hlt|Hge]|];
    cbn [negb].
  2: { exists s1, None. change (current s1) with (current s). rewrite Hc. split_and!; try done.
       intros e Hce. change (current s1) with (current s) in Hce. rewrite Hc in Hce. injection Hce as <-.
       apply Forall_forall. intros x Hx. specialize (Hmin x Hx). unfold entry_le in Hmin. lia. }
  all: exists s', (Some (Resume (e_tcb next))); cbv beta; change (ready s1) with (ready s);
    rewrite Hpop, (bind_done _ _ _ _ _ E); split_and!; try done;
    [apply Hgo; intros c [= <-]; done|by rewrite Hc2|exists next; split_and!; try done].
  intros c [= <-]. lia.
Qed.

(** ** Queueing and waking *)

(** The deadline the code reads for a thread. *)
Definition dl_of s (t : Tcb) : Z :=
  match sched_context t with
  | Some p => match e_ctxs s !! p with Some c => deadline c | None => U64_MAX end
  | None => U64_MAX
  end.

Lemma deadline_of_run s a t :
  sched_inv s -> e_tcbs s !! a = Some t -> Executor.deadline_of a s = (s, Done (dl_of s t)).
Proof.
  intros Hi Ht. unfold Executor.deadline_of, dl_of. rewrite (bind_done _ _ _ _ _ (ontcbs_get _ _ _ Ht)).
  destruct (sched_context t) as [p|] eqn:Hp; [|done].
  destruct (inv_ctx s Hi _ _ _ Ht Hp) as [c Hc]. by rewrite Hc.
Qed.

Lemma enqueue_run s a t :
  sched_inv s -> e_tcbs s !! a = Some t ->
  Executor.enqueue a s =
    if bool_decide (state t = Inactive) then
      match heap_push (mkEntry (dl_of s t) a) (ready s) with
      | Some h => (set_ready h s, Done (Ok tt))
      | None => (s, Done (Err QueueFull))
      end
    else (s, Done (Err InvalidState)).
Proof.
  intros Hi Ht. unfold Executor.enqueue. rewrite (bind_done _ _ _ _ _ (ontcbs_get _ _ _ Ht)).
  destruct (bool_decide (state t = Inactive)); [|done]. cbn [negb].
  rewrite (bind_done _ _ _ _ _ (deadline_of_run _ _ _ Hi Ht)). unfold Executor.push_or.
  by destruct (heap_push _ _).
Qed.

(** Adding an inactive thread that is not queued yet. *)
Lemma push_inv s a t d h :
  sched_inv s -> e_tcbs s !! a = Some t -> state t = Inactive ->
  a ∉ e_tcb <$> contents (ready s) -> heap_push (mkEntry d a) (ready s) = Some h ->
  sched_inv (set_ready h s) /\ Permutation (contents h) (mkEntry d a :: contents (ready s)).
Proof.
  intros Hi Ht Hst Hn Hh.
  assert (Hl : (length (contents (ready s)) < MAX_TCB_PER_CORE)%nat).
  { destruct (Nat.lt_ge_cases (length (contents (ready s))) MAX_TCB_PER_CORE) as [|Hge]; [done|].
    by rewrite heap_push_full in Hh. }
  destruct (heap_push_room (mkEntry d a) (ready s) Hl) as (h' & Hh' & Hp).
  rewrite Hh in Hh'. injection Hh' as <-. split; [|done].
  split; cbn [ready e_tcbs e_ctxs current idle set_ready]; [| | |apply Hi..].
  - rewrite Hp. simpl. lia.
  - rewrite (Permutation_map e_tcb Hp). simpl. apply NoDup_cons. split; [done|apply inv_nodup, Hi].
  - intros e. rewrite Hp, elem_of_cons. intros [-> |Hin]; [by eexists|]. by apply inv_ready.
Qed.

(** A thread that is not running becomes inactive. *)
Lemma inactive_inv s a t t' :
  sched_inv s -> e_tcbs s !! a = Some t -> state t <> Running ->
  state t' = Inactive -> sched_context t' = sched_context t ->
  sched_inv (set_tcbs (<[a := t']> (e_tcbs s)) s).
Proof.
  intros Hi Ht Hst Hia Hsc.
  split; cbn [ready e_tcbs e_ctxs current idle set_tcbs]; [apply Hi|apply Hi| | | |].
  - intros e He. rewrite lookup_insert. case_decide as E; [by eexists|]. by apply inv_ready.
  - intros e He. destruct (inv_current s Hi e He) as (tc & Htc & Hr).
    rewrite lookup_insert_ne; [by exists tc|]. intros ->. congruence.
  - intros i Hii. rewrite lookup_insert. case_decide; [by eexists|]. by apply inv_idle.
  - intros b x p. rewrite lookup_insert. case_decide as E; [|by apply inv_ctx].
    intros [= <-]. rewrite Hsc. by apply (inv_ctx s Hi a t).
Qed.

Lemma unblock_inv s a t :
  sched_inv s -> e_tcbs s !! a = Some t -> state t <> Running ->
  sched_inv (set_tcbs (<[a := set_state Inactive t]> (e_tcbs s)) s).
Proof. intros. by eapply inactive_inv. Qed.

Lemma blocked_not_ready s a t :
  sched_inv s -> e_tcbs s !! a = Some t -> state t <> Inactive -> a ∉ e_tcb <$> contents (ready s).
Proof.
  intros Hi Ht Hst Hin. apply list_elem_of_fmap in Hin as (e & -> & Hin).
  destruct (inv_ready s Hi e Hin) as (t' & Ht' & ?). congruence.
Qed.

Lemma wake_run s a t :
  sched_inv s -> e_tcbs s !! a = Some t ->
  Executor.wake a s =
    if Executor.is_blocked (state t) then
      let s1 := set_tcbs (<[a := set_state Inactive t]> (e_tcbs s)) s in
      match heap_push (mkEntry (dl_of s t) a) (ready s) with
      | Some h => (set_ready h s1, Done (Ok tt))
      | None => (s1, Done (Err QueueFull))
      end
    else (s, Done (Err InvalidState)).
Proof.
  intros Hi Ht. unfold Executor.wake. rewrite (bind_done _ _ _ _ _ (ontcbs_get _ _ _ Ht)).
  destruct (Executor.is_blocked (state t)) eqn:Hb; [|done]. cbn [negb].
  rewrite (bind_done _ _ _ _ _ (ontcbs_upd _ _ _ _ Ht)).
  set (s1 := set_tcbs _ s). assert (Hi1 : sched_inv s1) by (apply unblock_inv; [done..|by intros E; rewrite E in Hb]).
  erewrite enqueue_run; [|done|cbn [e_tcbs s1 set_tcbs]; by rewrite lookup_insert_eq]. done.
Qed.

(** ** Giving up the processor *)

Lemma yield_run s cur :
  sched_inv s -> current s = Some cur -> (length (contents (ready s)) < MAX_TCB_PER_CORE)%nat ->
  exists next s', Executor.yield_current s = (s', Done (Resume (e_tcb next))) /\
    sched_inv s' /\ current s' = Some next /\
    Forall (entry_le next) (cur :: contents (ready s)) /\ Permutation (held s') (held s).
Proof.
  intros Hi Hc Hl. destruct (park_run s cur Hi Hc Hl) as (t & h & Ht & Hr & Hpush & Hi' & Hp).
  set (s1 := mkExec (<[e_tcb cur := set_state Inactive t]> (e_tcbs s)) (e_ctxs s) h None (idle s)) in *.
  destruct (schedule_run s1) as (next & s' & E & Hi2 & Hc2 & Hf & Hp2 & _); [done|done| |].
  { cbn [ready s1]. intros E. rewrite E in Hp. by apply Permutation_nil_cons in Hp. }
  cbn [ready s1] in Hf, Hp2. exists next, s'. split_and!; [|done|done|by rewrite Hp in Hf|].
  - unfold Executor.yield_current. rewrite (bind_done _ _ _ s (current s)), Hc by done.
    rewrite (bind_done _ _ _ (set_current None s) tt) by done.
    erewrite bind_done; [exact E|]. erewrite bind_done by (by apply ontcbs_upd).
    unfold Executor.push_or. cbn [ready set_tcbs set_current]. by rewrite Hpush.
  - unfold held. rewrite Hc, Hc2. rewrite Hp in Hp2.
    by rewrite <- !Permutation_cons_append, <- Hp2.
Qed.

Lemma yield_full s cur :
  sched_inv s -> current s = Some cur -> length (contents (ready s)) = MAX_TCB_PER_CORE ->
  snd (Executor.yield_current s) = Panic.
Proof.
  intros Hi Hc Hl. destruct (inv_current s Hi cur Hc) as (t & Ht & _).
  unfold Executor.yield_current. rewrite (bind_done _ _ _ s (current s)), Hc by done.
  rewrite (bind_done _ _ _ (set_current None s) tt) by done. unfold bind at 1.
  erewrite bind_done by (by apply ontcbs_upd). unfold Executor.push_or. cbn [ready set_tcbs set_current].
  by rewrite heap_push_full by lia.
Qed.

(** Dropping the current thread in a blocked state. *)
Lemma block_inv s cur t st :
  sched_inv s -> current s = Some cur -> e_tcbs s !! e_tcb cur = Some t -> Executor.is_blocked st = true ->
  sched_inv (mkExec (<[e_tcb cur := set_state st t]> (e_tcbs s)) (e_ctxs s) (ready s) None (idle s)).
Proof.
  intros Hi Hc Ht Hb. pose proof (current_not_ready s cur Hi Hc) as Hn.
  split; cbn [ready e_tcbs e_ctxs current idle]; [apply Hi|apply Hi| |done| |].
  - intros e He. rewrite lookup_insert_ne; [by apply inv_ready|].
    intros E. apply Hn. rewrite E. by apply list_elem_of_fmap_2.
  - intros i Hii. rewrite lookup_insert. case_decide; [by eexists|]. by apply inv_idle.
  - by apply ctx_upd.
Qed.

Lemma block_run s cur t st :
  current s = Some cur -> e_tcbs s !! e_tcb cur = Some t -> Executor.is_blocked st = true ->
  Executor.block_current st s =
    Executor.schedule (mkExec (<[e_tcb cur := set_state st t]> (e_tcbs s)) (e_ctxs s) (ready s) None (idle s)).
Proof.
  intros Hc Ht Hb. unfold Executor.block_current. rewrite Hb.
  rewrite (bind_done _ _ _ s tt) by done. rewrite (bind_done _ _ _ s (current s)), Hc by done.
  rewrite (bind_done _ _ _ (set_current None s) tt) by done.
  by erewrite bind_done by (by apply ontcbs_upd).
Qed.
End invariant.

(** ** Reachable schedulers *)

Section steps.
Context `{Build} `{BinaryHeapLaws}.
Implicit Types (s : Exec).

(** The idle thread does not run while nothing is ready. *)
Definition not_idling s : Prop :=
  forall cur, current s = Some cur -> contents (ready s) = [] -> idle s <> Some (e_tcb cur).

(** One call into the scheduler that returns or transfers control.  What the code leaves to its
    callers are three conditions: a thread that is already in the ready queue is not enqueued again,
    a running thread does not become the idle thread, and [run] is not called while nothing is ready
    and the idle thread is already current. *)
Inductive sched_step s s' : Prop :=
| step_enqueue a t r :
    e_tcbs s !! a = Some t -> a ∉ e_tcb <$> contents (ready s) ->
    Executor.enqueue a s = (s', Done r) -> sched_step s s'
| step_wake a t r :
    e_tcbs s !! a = Some t -> Executor.wake a s = (s', Done r) -> sched_step s s'
| step_preempt o :
    Executor.preempt s = (s', Done o) -> sched_step s s'
| step_yield tr :
    Executor.yield_current s = (s', Done tr) -> sched_step s s'
| step_block st tr :
    Executor.block_current st s = (s', Done tr) -> sched_step s s'
| step_run tr :
    not_idling s -> Executor.run s = (s', Done tr) -> sched_step s s'
| step_set_idle a t :
    e_tcbs s !! a = Some t -> state t <> Running -> Executor.set_idle a s = (s', Done tt) ->
    sched_step s s'.

(** A thread that runs is queued again when another one is started. *)
Lemma schedule_inv s s' tr :
  sched_inv s -> not_idling s -> Executor.schedule s = (s', Done tr) -> sched_inv s'.
Proof.
  intros Hi Hc E. unfold Executor.schedule in E. destruct (decide (contents (ready s) = [])) as [He|He].
  - rewrite heap_pop_empty in E by done. destruct (idle s) as [i|] eqn:Hid; [|by injection E as <- _].
    destruct (inv_idle s Hi i Hid) as [t Ht].
    destruct (context_switch_run s (mkEntry U64_MAX i) t) as (s2 & E2 & ? & _);
      [done|done|rewrite He; set_solver| |right; rewrite He; unfold MAX_TCB_PER_CORE; cbn; lia|congruence].
    intros e Hce Hei. apply (Hc e Hce He). by rewrite Hid, Hei.
  - destruct (dispatch_run s Hi He) as (next & h & s2 & Hpop & _ & E2 & ? & _). rewrite Hpop in E. congruence.
Qed.

Lemma drop_none s : current s = None -> set_current None s = s.
Proof. destruct s; cbn. by intros ->. Qed.

Lemma not_idling_none s : current s = None -> not_idling s.
Proof. intros Hc e. by rewrite Hc. Qed.

(** Counting a tick, also one that overflows. *)
Lemma inc_tick_keeps s s' r : sched_inv s -> Executor.inc_tick s = (s', Done r) -> sched_inv s' /\ ready s' = ready s.
Proof.
  intros Hi (? & cur & [= <- <-] & E)%bind_inv. destruct (current s) as [e|] eqn:Hc; [|by injection E as <- _].
  destruct (inv_current s Hi e Hc) as (t & Ht & _). rewrite (bind_done _ _ _ _ _ (ontcbs_get _ _ _ Ht)) in E.
  destruct (sched_context t) as [p|] eqn:Hp; [|by injection E as <- _].
  destruct (inv_ctx s Hi _ _ _ Ht Hp) as [c Hcx]. rewrite (bind_done _ _ _ s (e_ctxs s)), Hcx in E by done.
  cbn [deref] in E. rewrite bind_ret in E. apply bind_inv in E as (s1 & n & E1 & E). unfold add64, arith64 in E1.
  assert (s1 = s) as -> by (destruct (_ && _); [|destruct debug_build]; by injection E1). injection E as <- _. split; [|done].
  apply set_ctxs_inv; [done|]. intros q Hq. rewrite lookup_insert. by case_decide; [eexists|].
Qed.

Lemma preempt_keeps s s' o : sched_inv s -> Executor.preempt s = (s', Done o) -> sched_inv s'.
Proof.
  intros Hi (s1 & [] & [Hi1 Hr]%inc_tick_keeps & E)%bind_inv; [|done]. apply bind_inv in E as (? & p & [= <- <-] & E).
  destruct (Executor.should_preempt s1); [|by injection E as <- _]. cbn [negb] in E.
  destruct (decide (contents (ready s1) = [])) as [He|He]; [by rewrite heap_pop_empty in E|].
  destruct (dispatch_run s1 Hi1 He) as (next & h & s2 & Hpop & _ & E2 & ? & _). rewrite Hpop in E.
  rewrite (bind_done _ _ _ _ _ E2) in E. by injection E as <- _.
Qed.

Lemma yield_keeps s s' tr : sched_inv s -> Executor.yield_current s = (s', Done tr) -> sched_inv s'.
Proof.
  intros Hi E. destruct (current s) as [cur|] eqn:Hc.
  - destruct (Nat.lt_ge_cases (length (contents (ready s))) MAX_TCB_PER_CORE) as [Hl|Hl].
    + destruct (yield_run s cur Hi Hc Hl) as (n & s2 & E2 & ? & _). congruence.
    + pose proof (inv_cap s Hi). pose proof (yield_full s cur Hi Hc ltac:(lia)) as Hp. by rewrite E in Hp.
  - unfold Executor.yield_current in E. rewrite (bind_done _ _ _ s (current s)), Hc in E by done.
    rewrite (bind_done _ _ _ (set_current None s) tt), bind_ret in E by done.
    rewrite drop_none in E by done. eapply schedule_inv; [done|by apply not_idling_none|exact E].
Qed.

Lemma block_keeps s st s' tr : sched_inv s -> Executor.block_current st s = (s', Done tr) -> sched_inv s'.
Proof.
  intros Hi E. destruct (Executor.is_blocked st) eqn:Hb; [|unfold Executor.block_current in E; by rewrite Hb in E].
  destruct (current s) as [cur|] eqn:Hc.
  - destruct (inv_current s Hi cur Hc) as (t & Ht & _). erewrite block_run in E by done.
    eapply schedule_inv; [by eapply block_inv|by apply not_idling_none|exact E].
  - unfold Executor.block_current in E. rewrite Hb, (bind_done _ _ _ s tt) in E by done.
    rewrite (bind_done _ _ _ s (current s)), Hc, (bind_done _ _ _ (set_current None s) tt), bind_ret in E by done.
    rewrite drop_none in E by done. eapply schedule_inv; [done|by apply not_idling_none|exact E].
Qed.

Lemma sched_step_inv s s' : sched_step s s' -> sched_inv s -> sched_inv s'.
Proof.
  intros Hs Hi. destruct Hs as [a t r Ht Hn E|a t r Ht E|o E|tr E|st tr E|tr Hc E|a t Ht Hst E].
  - rewrite (enqueue_run s a t Hi Ht) in E. destruct (bool_decide_reflect (state t = Inactive)); [|by injection E as <- _].
    destruct (heap_push _ _) eqn:Hh; injection E as <- _; [|done]. by eapply push_inv.
  - rewrite (wake_run s a t Hi Ht) in E. cbv zeta in E. destruct (Executor.is_blocked (state t)) eqn:Hb; [|by injection E as <- _].
    assert (state t <> Running /\ state t <> Inactive) as [Hr Hia] by (by split; intros X; rewrite X in Hb).
    pose proof (unblock_inv s a t Hi Ht Hr) as Hi1. pose proof (blocked_not_ready s a t Hi Ht Hia) as Hn.
    destruct (heap_push _ _) as [h|] eqn:Hh; injection E as <- _; [|done].
    refine (proj1 (push_inv _ a (set_state Inactive t) _ h Hi1 _ eq_refl Hn Hh)).
    cbn [e_tcbs set_tcbs]. by rewrite lookup_insert_eq.
  - by eapply preempt_keeps.
  - by eapply yield_keeps.
  - by eapply block_keeps.
  - by eapply schedule_inv.
  - unfold Executor.set_idle in E. rewrite (bind_done _ _ _ _ _ (ontcbs_upd _ _ _ _ Ht)) in E. injection E as <-.
    destruct (unblock_inv s a t Hi Ht Hst) as [C1 C2 C3 C4 C5 C6].
    split; try done. intros i [= <-]. cbn [e_tcbs set_tcbs set_idle_field]. rewrite lookup_insert_eq. by eexists.
Qed.

(** The three conditions are needed. *)
Lemma enqueue_twice s a t :
  sched_inv s -> e_tcbs s !! a = Some t -> a ∈ e_tcb <$> contents (ready s) ->
  (length (contents (ready s)) < MAX_TCB_PER_CORE)%nat ->
  exists s', Executor.enqueue a s = (s', Done (Ok tt)) /\ ~ sched_inv s'.
Proof.
  intros Hi Ht Hin Hl. rewrite (enqueue_run s a t Hi Ht).
  destruct (heap_push_room (mkEntry (dl_of s t) a) (ready s) Hl) as (h & -> & Hp).
  assert (Hst : state t = Inactive).
  { apply list_elem_of_fmap in Hin as (e & -> & He). destruct (inv_ready s Hi e He) as (t' & Ht' & Hst). congruence. }
  rewrite bool_decide_eq_true_2 by done. eexists. split; [reflexivity|]. intros [_ Hnd _ _ _ _].
  cbn [ready set_ready] in Hnd. rewrite (Permutation_map e_tcb Hp) in Hnd. by apply NoDup_cons in Hnd as [? _].
Qed.

Lemma set_idle_current s cur :
  sched_inv s -> current s = Some cur ->
  exists s', Executor.set_idle (e_tcb cur) s = (s', Done tt) /\ ~ sched_inv s'.
Proof.
  intros Hi Hc. destruct (inv_current s Hi cur Hc) as (t & Ht & _). unfold Executor.set_idle.
  rewrite (bind_done _ _ _ _ _ (ontcbs_upd _ _ _ _ Ht)). eexists. split; [reflexivity|]. intros [_ _ _ Hcur _ _].
  destruct (Hcur cur Hc) as (t' & Ht' & Hst). cbn [e_tcbs set_tcbs set_idle_field] in Ht'. rewrite lookup_insert_eq in Ht'.
  by injection Ht' as <-.
Qed.

Lemma run_idling s cur :
  sched_inv s -> current s = Some cur -> contents (ready s) = [] -> idle s = Some (e_tcb cur) ->
  exists s', Executor.run s = (s', Done (Resume (e_tcb cur))) /\ ~ sched_inv s'.
Proof.
  intros Hi Hc He Hid. destruct (inv_current s Hi cur Hc) as (t & Ht & Hr). unfold Executor.run, Executor.schedule.
  rewrite heap_pop_empty, Hid by done. unfold Executor.context_switch.
  rewrite (bind_done _ _ _ s (current s)), Hc, (bind_done _ _ _ (set_current None s) tt) by done.
  destruct (heap_push_room cur (ready s)) as (h & Hh & Hp); [rewrite He; unfold MAX_TCB_PER_CORE; cbn; lia|]. rewrite He in Hp.
  set (s1 := set_ready h (set_tcbs (<[e_tcb cur := set_state Inactive t]> (e_tcbs s)) (set_current None s))).
  rewrite (bind_done _ _ _ s1 tt).
  2: { rewrite (bind_done _ _ _ (set_current None s) t) by (by apply ontcbs_get). rewrite bool_decide_eq_true_2 by done.
       erewrite bind_done by (by apply ontcbs_upd). unfold Executor.push_or. cbn [ready set_tcbs set_current]. by rewrite Hh. }
  erewrite bind_done by (apply (ontcbs_upd s1 (e_tcb cur)), lookup_insert_eq).
  eexists. split; [reflexivity|]. intros Hi'. apply (current_not_ready _ (mkEntry U64_MAX (e_tcb cur)) Hi' eq_refl).
  cbn [ready s1 set_current set_tcbs set_ready e_tcb]. rewrite (Permutation_map e_tcb Hp). set_solver.
Qed.

Lemma new_inv t c :
  (forall a x p, t !! a = Some x -> sched_context x = Some p -> is_Some (c !! p)) ->
  sched_inv (Executor.new t c).
Proof.
  intros Hc. split; cbn [ready current idle e_tcbs e_ctxs Executor.new]; rewrite ?heap_new_empty; try done.
  - simpl. lia.
  - apply NoDup_nil_2.
  - intros e He. by apply not_elem_of_nil in He.
Qed.
End steps.

(** ** A concrete scheduler *)

(** Thread 1024 runs with deadline 20; threads 2048 and 3072 wait with deadlines 30 and 10. *)
Definition demo_tcb (st : ThreadState) (sc : Z) : Tcb :=
  mkTcb TrapFrameImpl.new 0 None CNodeEntry.new (Some sc) CNodeEntry.new CNodeEntry.new
    CNodeEntry.new st None None None (mkIpcState 0 false false false) None None.
Definition demo_tcbs : Tcbs :=
  <[1024 := demo_tcb Running 1]> (<[2048 := demo_tcb Inactive 2]> {[3072 := demo_tcb Inactive 3]}).
Definition demo_ctxs : gmap Z SchedContext :=
  <[1 := mkSchedContext 0 0 20 0]> (<[2 := mkSchedContext 0 0 30 0]> {[3 := mkSchedContext 0 0 10 0]}).
Definition demo_exec : Exec (H := ref_heap) :=
  mkExec (H := ref_heap) demo_tcbs demo_ctxs [mkEntry 30 2048; mkEntry 10 3072]
    (Some (mkEntry 20 1024)) None.

Lemma demo_exec_inv : sched_inv (H0 := ref_heap_laws) demo_exec.
Proof.
  split; cbn.
  - vm_compute. lia.
  - repeat constructor; vm_compute; set_solver.
  - intros e [-> |[-> |Hn%not_elem_of_nil]%elem_of_cons]%elem_of_cons; [..|done];
      eexists; (split; [vm_compute; reflexivity|reflexivity]).
  - intros e [= <-]. eexists. split; [vm_compute; reflexivity|reflexivity].
  - done.
  - assert (Hall : map_Forall (fun (_ : Z) t => match sched_context t with Some p => is_Some (demo_ctxs !! p) | None => True end)
      demo_tcbs).
    { apply map_Forall_insert_2; [by eexists|]. apply map_Forall_insert_2; [by eexists|].
      apply map_Forall_singleton. by eexists. }
    intros a t p Ht Hp. specialize (Hall a t Ht). cbn in Hall. by rewrite Hp in Hall.
Qed.

(** A full ready queue: 64 inactive threads besides the current one. *)
Definition full_entries : list Entry :=
  (fun i => mkEntry 50 (5000 + Z.of_nat i)) <$> seq 0 64.
Definition full_tcbs (st : ThreadState) : Tcbs :=
  <[1024 := demo_tcb Running 1]> (<[2048 := demo_tcb st 2]>
    (list_to_map ((fun e => (e_tcb e, demo_tcb Inactive 3)) <$> full_entries))).
Definition full_exec : Exec (H := ref_heap) :=
  mkExec (H := ref_heap) (full_tcbs BlockedOnReceive) demo_ctxs full_entries (Some (mkEntry 20 1024)) None.

Lemma full_exec_inv : sched_inv (H0 := ref_heap_laws) full_exec.
Proof.
  split; cbn [ready e_tcbs e_ctxs current idle full_exec contents ref_heap_laws].
  - vm_compute. lia.
  - apply (bool_decide_unpack _). vm_compute. exact I.
  - apply Forall_forall. unfold full_entries. rewrite Forall_fmap. apply Forall_seq. intros i Hi.
    cbn [compose e_tcb]. exists (demo_tcb Inactive 3). split; [|done]. unfold full_tcbs.
    rewrite !lookup_insert_ne by (cbn [e_tcb]; lia). apply elem_of_list_to_map_1.
    + rewrite <- list_fmap_compose. apply (bool_decide_unpack _). vm_compute. exact I.
    + apply list_elem_of_fmap. exists (mkEntry 50 (5000 + Z.of_nat i)). split; [done|].
      apply list_elem_of_fmap. exists i. split; [done|]. apply elem_of_seq. lia.
  - intros e [= <-]. eexists. split; [vm_compute; reflexivity|reflexivity].
  - done.
  - assert (Hall : map_Forall (fun (_ : Z) t => match sched_context t with Some p => is_Some (demo_ctxs !! p) | None => True end)
      (full_tcbs BlockedOnReceive)).
    { apply map_Forall_insert_2; [by eexists|]. apply map_Forall_insert_2; [by eexists|].
      intros a t Ht. apply elem_of_list_to_map_2 in Ht. apply list_elem_of_fmap in Ht as (e & [= _ ->] & _).
      by eexists. }
    intros a t p Ht Hp. specialize (Hall a t Ht). cbn in Hall. by rewrite Hp in Hall.
Qed.

(** ** The properties *)

Module Claims.
Section claims.
Context `{Build} `{BinaryHeapLaws}.
Implicit Types (s : Exec).

(** C4: the timer interrupt implements earliest deadline first.  On an executor that meets the
    invariant, while no count of consumed ticks overflows, [preempt] does not panic, and leaves
    as current thread one whose deadline is no later than that of any ready thread (there is a
    current thread unless nothing is ready); it returns to the interrupted thread exactly as it
    was, or resumes a ready thread with a strictly earlier deadline; no thread is lost or
    duplicated, and the invariant holds again. *)
Theorem preempt_edf s :
  sched_inv s -> ticks_ok s ->
  exists s' o, Executor.preempt s = (s', Done o) /\ sched_inv s' /\ edf s' /\
    (current s' = None -> contents (ready s') = []) /\
    Permutation (held s') (held s) /\
    match o with
    | None => current s' = current s /\ ready s' = ready s /\ e_tcbs s' = e_tcbs s
    | Some tr => exists e, tr = Resume (e_tcb e) /\ current s' = Some e /\ e ∈ contents (ready s) /\
        (forall cur, current s = Some cur -> e_deadline e < e_deadline cur)
    end.
Proof. apply preempt_run. Qed.

(** C12: from a new executor whose threads have live scheduling contexts, every sequence of scheduler
    calls that return (failing ones, and calls without a current thread, included) keeps the
    invariant: the ready queue holds at most 64 distinct, inactive threads, the current thread is
    running and not queued, and all pointers lead to live objects.  The callers have to observe three
    conditions, which the code does not check: they do not [enqueue] a thread that is already queued,
    do not make a running thread the idle thread with [set_idle], and do not call [run] while nothing
    is ready and the idle thread is current.  Each is needed: from a state that meets the invariant,
    the call (for [enqueue] with room in the queue) succeeds and leaves one that does not. *)
Theorem scheduler_invariant :
  (forall t c s, (forall a x p, t !! a = Some x -> sched_context x = Some p -> is_Some (c !! p)) ->
   rtc sched_step (Executor.new t c) s -> sched_inv s) /\
  (forall s, sched_inv s ->
   (forall a t, e_tcbs s !! a = Some t -> a ∈ e_tcb <$> contents (ready s) ->
      (length (contents (ready s)) < MAX_TCB_PER_CORE)%nat ->
      exists s', Executor.enqueue a s = (s', Done (Ok tt)) /\ ~ sched_inv s') /\
   (forall cur, current s = Some cur ->
      (exists s', Executor.set_idle (e_tcb cur) s = (s', Done tt) /\ ~ sched_inv s') /\
      (contents (ready s) = [] -> idle s = Some (e_tcb cur) ->
       exists s', Executor.run s = (s', Done (Resume (e_tcb cur))) /\ ~ sched_inv s'))).
Proof.
  split.
  - intros t c s Hc Hs. pose proof (new_inv t c Hc) as Hi. induction Hs as [|s s1 s2 Hs _ IH]; [done|].
    by apply IH, (sched_step_inv s).
  - intros s Hi. split; [intros a t; by apply enqueue_twice|]. intros cur Hc.
    split; [by apply set_idle_current|by apply run_idling].
Qed.

(** [block_current] records the blocked state in the current thread, drops it from the
    scheduler, and resumes the first ready thread, or the idle thread when none is ready, or
    halts; the ready queue loses exactly the resumed thread. *)
Lemma block_outcome s cur t st :
  sched_inv s -> current s = Some cur -> e_tcbs s !! e_tcb cur = Some t ->
  Executor.is_blocked st = true -> idle s <> Some (e_tcb cur) ->
  exists s' tr, Executor.block_current st s = (s', Done tr) /\ sched_inv s' /\
    e_tcbs s' !! e_tcb cur = Some (set_state st t) /\
    match tr with
    | Resume a => exists e, e_tcb e = a /\ current s' = Some e /\
        (Permutation (contents (ready s)) (e :: contents (ready s')) /\
           Forall (entry_le e) (contents (ready s)) \/
         contents (ready s) = [] /\ contents (ready s') = [] /\ idle s = Some a)
    | Halted => contents (ready s) = [] /\ idle s = None /\ current s' = None
    end.
Proof.
  intros Hi Hc Ht Hb Hid. rewrite (block_run s cur t st Hc Ht Hb).
  pose proof (block_inv s cur t st Hi Hc Ht Hb) as Hi1. pose proof (current_not_ready s cur Hi Hc) as Hcn.
  set (s1 := mkExec _ _ _ _ _) in *.
  assert (Hl : e_tcbs s1 !! e_tcb cur = Some (set_state st t)) by (cbn [e_tcbs s1]; by rewrite lookup_insert_eq).
  destruct (decide (contents (ready s) = [])) as [He|He].
  - destruct (idle s) as [i|] eqn:Hi2.
    + destruct (schedule_idle s1 i Hi1) as (s' & E & ? & Hc' & He' & [Ho _] & _); [done..|].
      exists s', (Resume i). split_and!; [done|done|rewrite Ho; [done|set_solver]|].
      exists (mkEntry U64_MAX i). split_and!; [done|done|]. by right.
    + exists s1, Halted. rewrite schedule_halt by done. by split_and!.
  - destruct (schedule_run s1 Hi1) as (next & s' & E & ? & Hc' & Hf & Hp & [Ho _] & _); [done..|].
    exists s', (Resume (e_tcb next)). split_and!; [done|done| |].
    + rewrite Ho; [done|]. intros Hin%list_elem_of_singleton. apply Hcn. rewrite Hin.
      change (ready s1) with (ready s) in Hp. rewrite (Permutation_map e_tcb Hp). set_solver.
    + exists next. split_and!; [done|done|]. by left.
Qed.

(** [enqueue] of a thread that is not queued: it refuses a thread that is not inactive and a
    full queue without changing anything, and otherwise adds exactly the thread, with the deadline
    of its scheduling context ([u64::MAX] without one), and keeps the invariant. *)
Lemma enqueue_outcome s a t :
  sched_inv s -> e_tcbs s !! a = Some t -> a ∉ e_tcb <$> contents (ready s) ->
  exists s' r, Executor.enqueue a s = (s', Done r) /\ sched_inv s' /\
    match r with
    | Err InvalidState => s' = s /\ state t <> Inactive
    | Err QueueFull => s' = s /\ length (contents (ready s)) = MAX_TCB_PER_CORE
    | Err NotFound => False
    | Ok _ => state t = Inactive /\ e_tcbs s' = e_tcbs s /\ current s' = current s /\
        Permutation (contents (ready s')) (mkEntry (dl_of s t) a :: contents (ready s))
    end.
Proof.
  intros Hi Ht Hn. rewrite (enqueue_run s a t Hi Ht).
  destruct (bool_decide_reflect (state t = Inactive)) as [Hs|Hs]; [|by eexists s, (Err InvalidState)].
  destruct (heap_push _ _) as [h|] eqn:Hh.
  - destruct (push_inv s a t _ h Hi Ht Hs Hn Hh). by eexists _, (Ok tt).
  - eexists s, (Err QueueFull). split_and!; try done. pose proof (inv_cap s Hi).
    destruct (Nat.lt_ge_cases (length (contents (ready s))) MAX_TCB_PER_CORE) as [Hl|]; [|lia].
    destruct (heap_push_room (mkEntry (dl_of s t) a) (ready s) Hl) as (? & ? & _). congruence.
Qed.

(** [wake] of a blocked thread always makes it inactive.  With room in the queue it is queued
    once, with its deadline.  With a full queue the call fails but the thread is inactive all the
    same: it is in no queue, and a second [wake] refuses it, so its wake-up is lost. *)
Lemma wake_outcome s a t :
  sched_inv s -> e_tcbs s !! a = Some t -> Executor.is_blocked (state t) = true ->
  exists s' r, Executor.wake a s = (s', Done r) /\ sched_inv s' /\
    e_tcbs s' = <[a := set_state Inactive t]> (e_tcbs s) /\ current s' = current s /\
    match r with
    | Ok _ => Permutation (contents (ready s')) (mkEntry (dl_of s t) a :: contents (ready s))
    | Err e => e = QueueFull /\ length (contents (ready s)) = MAX_TCB_PER_CORE /\
        (a ∉ e_tcb <$> contents (ready s')) /\
        Executor.wake a s' = (s', Done (Err InvalidState))
    end.
Proof.
  intros Hi Ht Hb. pose proof (wake_run s a t Hi Ht) as E. rewrite Hb in E. cbv zeta in E.
  assert (Hst : state t <> Inactive) by (intros X; by rewrite X in Hb).
  pose proof (blocked_not_ready s a t Hi Ht Hst) as Hn.
  assert (Hstep : forall s' r, Executor.wake a s = (s', Done r) -> sched_inv s')
    by (intros s' r E'; eapply sched_step_inv; [by eapply step_wake|done]).
  destruct (Nat.lt_ge_cases (length (contents (ready s))) MAX_TCB_PER_CORE) as [Hl|Hl].
  - destruct (heap_push_room (mkEntry (dl_of s t) a) (ready s) Hl) as (h & Hh & Hp). rewrite Hh in E.
    eexists _, (Ok tt). split; [exact E|]. split; [by eapply Hstep|]. by split_and!.
  - rewrite heap_push_full in E by done. pose proof (inv_cap s Hi). eexists _, (Err QueueFull).
    split; [exact E|]. split; [by eapply Hstep|]. split_and!; try done; [lia|].
    apply (wake_run _ a (set_state Inactive t)); [by eapply Hstep|].
    cbn [e_tcbs set_tcbs]. by rewrite lookup_insert_eq.
Qed.

(** C27: giving up the processor and becoming ready.  [yield_current] with room in the ready queue resumes
    a thread that comes first, in the order of deadlines and addresses, among the ready threads and
    the yielding one, which it keeps in the queue; no thread is lost or duplicated.  When the ready
    queue is full it panics, although giving up the processor only needs the place the next thread
    leaves: the current thread is pushed before one is popped.  [block_current], when the
    current thread is not the idle one, records the blocked state in it, drops it from the scheduler,
    and resumes the first ready thread, or
    the idle thread when none is ready, or halts; the ready queue loses exactly the resumed thread.
    [enqueue] of a thread that is not queued refuses one that is not inactive, and a full queue,
    without changing anything; otherwise it adds exactly the thread, with the deadline of its
    scheduling context ([u64::MAX] without one).  [wake] of a blocked thread always makes it
    inactive: with room in the queue it is queued once, with its deadline; with a full queue the
    call fails but the thread is inactive all the same, in no queue, and a second [wake] refuses it,
    so its wake-up is lost.  All of them keep the invariant. *)
Theorem scheduler_calls s :
  sched_inv s ->
  (forall cur, current s = Some cur ->
   ((length (contents (ready s)) < MAX_TCB_PER_CORE)%nat ->
    exists next s', Executor.yield_current s = (s', Done (Resume (e_tcb next))) /\
      sched_inv s' /\ current s' = Some next /\
      Forall (entry_le next) (cur :: contents (ready s)) /\ Permutation (held s') (held s)) /\
   (length (contents (ready s)) = MAX_TCB_PER_CORE -> snd (Executor.yield_current s) = Panic) /\
   (forall t st, e_tcbs s !! e_tcb cur = Some t -> Executor.is_blocked st = true -> idle s <> Some (e_tcb cur) ->
    exists s' tr, Executor.block_current st s = (s', Done tr) /\ sched_inv s' /\
      e_tcbs s' !! e_tcb cur = Some (set_state st t) /\
      match tr with
      | Resume a => exists e, e_tcb e = a /\ current s' = Some e /\
          (Permutation (contents (ready s)) (e :: contents (ready s')) /\
             Forall (entry_le e) (contents (ready s)) \/
           contents (ready s) = [] /\ contents (ready s') = [] /\ idle s = Some a)
      | Halted => contents (ready s) = [] /\ idle s = None /\ current s' = None
      end)) /\
  (forall a t, e_tcbs s !! a = Some t ->
   (a ∉ e_tcb <$> contents (ready s) ->
    exists s' r, Executor.enqueue a s = (s', Done r) /\ sched_inv s' /\
      match r with
      | Err InvalidState => s' = s /\ state t <> Inactive
      | Err QueueFull => s' = s /\ length (contents (ready s)) = MAX_TCB_PER_CORE
      | Err NotFound => False
      | Ok _ => state t = Inactive /\ e_tcbs s' = e_tcbs s /\ current s' = current s /\
          Permutation (contents (ready s')) (mkEntry (dl_of s t) a :: contents (ready s))
      end) /\
   (Executor.is_blocked (state t) = true ->
    exists s' r, Executor.wake a s = (s', Done r) /\ sched_inv s' /\
      e_tcbs s' = <[a := set_state Inactive t]> (e_tcbs s) /\ current s' = current s /\
      match r with
      | Ok _ => Permutation (contents (ready s')) (mkEntry (dl_of s t) a :: contents (ready s))
      | Err e => e = QueueFull /\ length (contents (ready s)) = MAX_TCB_PER_CORE /\
          (a ∉ e_tcb <$> contents (ready s')) /\
          Executor.wake a s' = (s', Done (Err InvalidState))
      end)).
Proof.
  intros Hi. split.
  - intros cur Hc. split_and!; [by apply yield_run|by eapply yield_full|]. intros t st Ht Hb Hid. by apply (block_outcome s cur t st).
  - intros a t Ht. split; intros; [by apply enqueue_outcome|by apply wake_outcome].
Qed.
End claims.

(** *** Witnesses: the concrete schedulers [demo_exec] and [full_exec] *)

Lemma demo_ticks : ticks_ok (H := ref_heap) demo_exec.
Proof.
  assert (Hall : map_Forall (fun (_ : Z) c => ticks_consumed c = 0) demo_ctxs).
  { apply map_Forall_insert_2; [done|]. apply map_Forall_insert_2; [done|]. by apply map_Forall_singleton. }
  intros p c Hc. specialize (Hall p c Hc). cbn in Hall. rewrite Hall. by vm_compute.
Qed.

Lemma preempt_edf_witness :
  exists s', Executor.preempt (H := ref_heap) (H0 := true) demo_exec = (s', Done (Some (Resume 3072))) /\
    edf (H0 := ref_heap_laws) s'.
Proof.
  destruct (preempt_edf (H := true) (H1 := ref_heap_laws) demo_exec demo_exec_inv demo_ticks)
    as (s' & o & E & _ & Hedf & _).
  exists s'. split; [|exact Hedf]. rewrite E. f_equal.
  apply (f_equal snd) in E. vm_compute in E. by injection E as <-.
Defined.

Lemma scheduler_invariant_witness :
  exists s, rtc (sched_step (H := true) (H1 := ref_heap_laws)) (Executor.new (H := ref_heap) demo_tcbs demo_ctxs) s /\
    sched_inv (H0 := ref_heap_laws) s /\ heap_peek (BinaryHeap := ref_heap) (ready s) = Some (mkEntry 30 2048).
Proof.
  assert (Hs : rtc (sched_step (H := true) (H1 := ref_heap_laws)) (Executor.new (H := ref_heap) demo_tcbs demo_ctxs)
    (fst (Executor.enqueue (H := ref_heap) 2048 (Executor.new (H := ref_heap) demo_tcbs demo_ctxs)))).
  { apply rtc_once. eapply (step_enqueue _ _ 2048 _ (Ok tt)); [vm_compute; reflexivity|apply not_elem_of_nil|].
    vm_compute. reflexivity. }
  eexists. split; [exact Hs|]. split; [|vm_compute; reflexivity].
  apply (proj1 (scheduler_invariant (H := true) (H1 := ref_heap_laws)) demo_tcbs demo_ctxs); [|exact Hs].
  exact (inv_ctx (H0 := ref_heap_laws) demo_exec demo_exec_inv).
Defined.

Lemma scheduler_calls_witness :
  (exists next s', Executor.yield_current (H := ref_heap) demo_exec = (s', Done (Resume (e_tcb next))) /\
    Forall (entry_le next) [mkEntry 20 1024; mkEntry 30 2048; mkEntry 10 3072]) /\
  snd (Executor.yield_current (H := ref_heap) full_exec) = Panic /\
  (exists s' tr, Executor.block_current (H := ref_heap) BlockedOnReceive demo_exec = (s', Done tr) /\
    e_tcbs s' !! 1024 = Some (demo_tcb BlockedOnReceive 1)) /\
  exists s', Executor.wake (H := ref_heap) 2048 full_exec = (s', Done (Err QueueFull)) /\
    Executor.wake (H := ref_heap) 2048 s' = (s', Done (Err InvalidState)).
Proof.
  destruct (scheduler_calls (H := true) (H1 := ref_heap_laws) demo_exec demo_exec_inv) as [Hd _].
  destruct (Hd (mkEntry 20 1024) eq_refl) as (Hy & _ & Hb).
  destruct (scheduler_calls (H := true) (H1 := ref_heap_laws) full_exec full_exec_inv) as [Hf Hw].
  split_and!.
  - destruct Hy as (next & s' & E & _ & _ & F & _); [vm_compute; lia|]. exists next, s'. by split.
  - exact (proj1 (proj2 (Hf (mkEntry 20 1024) eq_refl)) eq_refl).
  - destruct (Hb (demo_tcb Running 1) BlockedOnReceive eq_refl eq_refl ltac:(discriminate)) as (s' & tr & E & _ & L & _).
    exists s', tr. by split.
  - destruct (proj2 (Hw 2048 (demo_tcb BlockedOnReceive 2) eq_refl) eq_refl) as (s' & r & E & _ & _ & _ & Hr).
    exists s'. assert (Er : r = Err QueueFull) by (apply (f_equal snd) in E; vm_compute in E; congruence).
    subst r. split; [exact E|]. apply Hr.
Defined.
End Claims.
