(* ===== verification/Endpoint.v ===== *)
(** Synchronous IPC: [src/kernel/src/objects/endpoint.rs].

    An endpoint is idle, or holds a queue of senders or of receivers, threaded through the TCBs
    (see [Tcb]).  The state holds the capability entries, the endpoint objects by address, the
    executor of the current core with the TCBs, and whether [SCHEDULER] has been set.
    [endpoint.as_object_mut()] is the address in the capability; every use of the reference reads
    or writes the endpoint store. *)
From S2P Require Import Prelude Errors Caps Dll CNode Tcb Scheduler.

(** [enum EndpointState]. *)
Inductive EndpointState : Type := Idle | Send | Recv.

#[export] Instance EndpointState_eq_dec : EqDecision EndpointState.
Proof. solve_decision. Defined.

(** [struct EndpointObj]. *)
Record EndpointObj : Type := mkEp { ep_state : EndpointState; ep_queue : TcbQueue }.

(** [EndpointObj::new] and [default]. *)
Definition EndpointObj_new : EndpointObj := mkEp Idle TcbQueueImpl.new.
Definition EndpointObj_default : EndpointObj := EndpointObj_new.

Definition set_ep_state (v : EndpointState) (e : EndpointObj) : EndpointObj := mkEp v (ep_queue e).
Definition set_ep_queue (v : TcbQueue) (e : EndpointObj) : EndpointObj := mkEp (ep_state e) v.

Section state.
Context `{BinaryHeap}.

Record Ipc : Type := mkIpc {
  i_slots : Slots;
  i_eps : gmap Z EndpointObj;
  i_exec : Exec;
  sched_up : bool
}.

Definition islots {A} : M Slots A -> M Ipc A :=
  zoom i_slots (fun t s => mkIpc t (i_eps s) (i_exec s) (sched_up s)).
Definition iexec {A} : M Exec A -> M Ipc A :=
  zoom i_exec (fun t s => mkIpc (i_slots s) (i_eps s) t (sched_up s)).
Definition itcbs {A} (m : M Tcbs A) : M Ipc A := iexec (ontcbs m).

Definition ep_get (a : Z) : M Ipc EndpointObj := fun s => deref (i_eps s !! a) s.
Definition ep_upd (a : Z) (f : EndpointObj -> EndpointObj) : M Ipc unit := fun s =>
  match i_eps s !! a with
  | Some e => (mkIpc (i_slots s) (<[a := f e]> (i_eps s)) (i_exec s) (sched_up s), Done tt)
  | None => (s, Undef)
  end.

(** A queue operation on the queue of an endpoint. *)
Definition ep_queue_op {A} (a : Z) (m : TcbQueue -> M Tcbs (TcbQueue * A)) : M Ipc A :=
  let! e := ep_get a in
  let! '(q, x) := itcbs (m (ep_queue e)) in
  do! ep_upd a (set_ep_queue q) in
  ret x.

(** [if let Some(sched) = SCHEDULER.get() { ... }]. *)
Definition if_sched (m : M Ipc unit) : M Ipc unit := fun s => if sched_up s then m s else ret tt s.

(** [let _ = ...]: the error is dropped. *)
Definition ignore {A} (m : M Ipc A) : M Ipc unit := do! m in ret tt.
End state.
Arguments Ipc {_}.

(** A message register of a TCB in the store. *)
Definition tcb_get_mr `{Build} (a idx : Z) : M Tcbs Z :=
  let! t := tcb_get a in TcbImpl.get_mr t idx.
Definition tcb_set_mr `{Build} (a idx v : Z) : M Tcbs unit :=
  let! t := tcb_get a in
  let! t' := TcbImpl.set_mr t idx v in
  tcb_upd a (fun _ => t').

Module EndpointCap.

Definition BADGE_OFFSET : Z := 0.
Definition BADGE_WIDTH : Z := 28.

(** [EndpointCap::mint]. *)
Definition mint (paddr_v badge_v rights_v : Z) : CapRaw :=
  set_rights rights_v (set_arg1 (Z.land badge_v (bit BADGE_WIDTH - 1))
    (set_paddr paddr_v (default_with_type Endpoint))).

(** [EndpointCap::badge]. *)
Definition raw_badge (r : CapRaw) : Z :=
  Z.land (Z.shiftr (arg1 r) BADGE_OFFSET) (bit BADGE_WIDTH - 1).
Definition badge (c : CapRef EndpointObjT) : M Slots Z :=
  let! r := entry_get (raw c) in ret (raw_badge r).

(** [EndpointCap::can_send], [can_receive] and [can_grant]. *)
Definition can_send `{Bitflags} (c : CapRef EndpointObjT) : M Slots bool :=
  let! r := ref_rights c in ret (contains r CapRights.SEND).
Definition can_receive `{Bitflags} (c : CapRef EndpointObjT) : M Slots bool :=
  let! r := ref_rights c in ret (contains r CapRights.RECEIVE).
Definition can_grant `{Bitflags} (c : CapRef EndpointObjT) : M Slots bool :=
  let! r := ref_rights c in ret (contains r CapRights.GRANT).

(** [EndpointCap::as_object_mut]: the address of the object. *)
Definition as_object_mut `{X86Addr} (c : CapRef EndpointObjT) : M Slots Z := ref_paddr c.

(** [EndpointCap::as_object]. *)
Definition as_object `{X86Addr} (c : CapRef EndpointObjT) : M Slots Z := ref_paddr c.

(** [EndpointCap::identify]. *)
Definition identify `{Build} `{X86Addr} (c : CapRef EndpointObjT) (t : Tcb) : M Slots (Tcb * Z) :=
  let! t := TcbImpl.set_mr t TcbImpl.MR1 (obj_type_as_usize (ref_cap_type c)) in
  let! p := ref_paddr c in
  let! t := TcbImpl.set_mr t TcbImpl.MR2 p in
  let! b := badge c in
  let! t := TcbImpl.set_mr t TcbImpl.MR3 b in
  let! r := ref_rights c in
  let! t := TcbImpl.set_mr t TcbImpl.MR4 r in
  ret (t, 4).

End EndpointCap.

Module EndpointIpc.
Section ops.
Context `{Build} `{BinaryHeap} `{X86Addr}.

(** The [for i in 0..4] of [do_ipc_transfer], [n] iterations from [i] on. *)
Fixpoint transfer_loop (n : nat) (sender receiver i : Z) : M Tcbs unit :=
  match n with
  | O => ret tt
  | S n =>
      let! val := tcb_get_mr sender (TcbImpl.MR1 + i) in
      do! tcb_set_mr receiver (TcbImpl.MR1 + i) val in
      transfer_loop n sender receiver (i + 1)
  end.

(** [do_ipc_transfer]. *)
Definition do_ipc_transfer (sender receiver badge_v : Z) (can_grant_v : bool) : M Tcbs unit :=
  do! tcb_set_mr receiver TcbImpl.MR1 badge_v in
  transfer_loop 4 sender receiver 0.

(** [do_nb_recv_failed_transfer]. *)
Definition do_nb_recv_failed_transfer (thread_v : Z) : M Tcbs unit :=
  tcb_set_mr thread_v TcbImpl.MR1 0.

(** [setup_caller_cap]. *)
Definition setup_caller_cap (caller_v callee : Z) : M Tcbs (result unit SysError) :=
  do! tcb_upd caller_v (set_state BlockedOnReply) in
  do! tcb_upd caller_v (set_reply_to (Some callee)) in
  do! tcb_upd callee (set_caller (Some caller_v)) in
  ret (Ok tt).

(** [if ep.queue.is_empty() { ep.state = EndpointState::Idle; }]. *)
Definition idle_if_empty (ep : Z) : M Ipc unit :=
  let! e := ep_get ep in
  if TcbQueueImpl.is_empty (ep_queue e) then ep_upd ep (set_ep_state Idle) else ret tt.

Definition append_op (tcb : Z) (q : TcbQueue) : M Tcbs (TcbQueue * unit) :=
  let! q' := TcbQueueImpl.append q tcb in ret (q', tt).

(** [send_ipc]. *)
Definition send_ipc (blocking do_call : bool) (badge_v : Z) (can_grant_v can_grant_reply_v : bool)
  (sender : Z) (endpoint : CapRef EndpointObjT) : M Ipc (result unit SysError) :=
  let! ep := islots (EndpointCap.as_object_mut endpoint) in
  let! e := ep_get ep in
  match ep_state e with
  | Idle | Send =>
      if blocking then
        do! itcbs (tcb_upd sender
              (set_ipc_state (mkIpcState badge_v can_grant_v can_grant_reply_v do_call))) in
        do! itcbs (tcb_upd sender (set_state BlockedOnSend)) in
        do! itcbs (tcb_upd sender (set_blocking_object (Some ep))) in
        do! ep_queue_op ep (append_op sender) in
        do! ep_upd ep (set_ep_state Send) in
        ret (Ok tt)
      else ret (Ok tt)
  | Recv =>
      let! head := ep_queue_op ep TcbQueueImpl.dequeue_head in
      let! receiver := unwrap_or_panic head in
      do! idle_if_empty ep in
      do! itcbs (do_ipc_transfer sender receiver badge_v can_grant_v) in
      let? done_ :=
        (if do_call then
           if can_grant_v || can_grant_reply_v then itcbs (setup_caller_cap sender receiver)
           else do! itcbs (tcb_upd sender (set_state Inactive)) in ret (Ok tt)
         else ret (Ok tt)) in
      do! itcbs (tcb_upd receiver (set_state Running)) in
      do! if_sched
            (do! itcbs (tcb_upd receiver (set_state Inactive)) in
             ignore (iexec (Executor.wake receiver))) in
      ret (Ok tt)
  end.

(** [receive_ipc]. *)
Definition receive_ipc (receiver : Z) (endpoint : CapRef EndpointObjT) (is_blocking : bool)
  : M Ipc (result unit SysError) :=
  let! ep := islots (EndpointCap.as_object_mut endpoint) in
  let! e := ep_get ep in
  match ep_state e with
  | Idle | Recv =>
      if is_blocking then
        do! itcbs (tcb_upd receiver (set_state BlockedOnReceive)) in
        do! itcbs (tcb_upd receiver (set_blocking_object (Some ep))) in
        do! ep_queue_op ep (append_op receiver) in
        do! ep_upd ep (set_ep_state Recv) in
        ret (Ok tt)
      else
        do! itcbs (do_nb_recv_failed_transfer receiver) in
        ret (Ok tt)
  | Send =>
      let! head := ep_queue_op ep TcbQueueImpl.dequeue_head in
      let! sender := unwrap_or_panic head in
      do! idle_if_empty ep in
      let! t := itcbs (tcb_get sender) in
      let ipc := ipc_state t in
      do! itcbs (do_ipc_transfer sender receiver (badge ipc) (can_grant ipc)) in
      if is_call ipc then
        let? done_ :=
          (if can_grant ipc || can_grant_reply ipc then itcbs (setup_caller_cap sender receiver)
           else do! itcbs (tcb_upd sender (set_state Inactive)) in ret (Ok tt)) in
        ret (Ok tt)
      else
        do! itcbs (tcb_upd sender (set_state Inactive)) in
        do! if_sched (ignore (iexec (Executor.wake sender))) in
        ret (Ok tt)
  end.

(** [reply_from_kernel_error]. *)
Definition reply_from_kernel_error {S} (t : Tcb) (error_type : Z) : M S Tcb :=
  let! t := TcbImpl.set_mr t TcbImpl.MR1 0 in
  TcbImpl.set_mr t TcbImpl.MR2 error_type.

(** [reply_from_kernel_success_empty]. *)
Definition reply_from_kernel_success_empty {S} (t : Tcb) : M S Tcb :=
  TcbImpl.set_mr t TcbImpl.MR1 0.

Definition remove_op (tcb : Z) (q : TcbQueue) : M Tcbs (TcbQueue * unit) :=
  let! q' := TcbQueueImpl.remove q tcb in ret (q', tt).

(** [cancel_ipc]. *)
Definition cancel_ipc (tcb : Z) : M Ipc unit :=
  let! t := itcbs (tcb_get tcb) in
  match state t with
  | BlockedOnSend | BlockedOnReceive =>
      do! match blocking_object t with
          | Some ep =>
              do! ep_queue_op ep (remove_op tcb) in
              idle_if_empty ep
          | None => ret tt
          end in
      do! itcbs (tcb_upd tcb (set_state Inactive)) in
      itcbs (tcb_upd tcb (set_blocking_object None))
  | BlockedOnNotification => itcbs (tcb_upd tcb (set_state Inactive))
  | BlockedOnReply =>
      do! match reply_to t with
          | Some callee => itcbs (tcb_upd callee (set_caller None))
          | None => ret tt
          end in
      do! itcbs (tcb_upd tcb (set_reply_to None)) in
      itcbs (tcb_upd tcb (set_state Inactive))
  | _ => ret tt
  end.

(** The re-enqueueing part of [cancel_all_ipc] and [cancel_badged_sends]. *)
Definition restart (tcb : Z) : M Ipc unit :=
  do! itcbs (tcb_upd tcb (set_state Restart)) in
  do! itcbs (tcb_upd tcb (set_blocking_object None)) in
  if_sched
    (do! itcbs (tcb_upd tcb (set_state Inactive)) in
     ignore (iexec (Executor.enqueue tcb))).

(** The [while let] of [cancel_all_ipc]. *)
Fixpoint cancel_all_loop (fuel : nat) (ep : Z) : M Ipc unit :=
  match fuel with
  | O => fun s => (s, NoFuel)
  | S fuel =>
      let! head := ep_queue_op ep TcbQueueImpl.dequeue_head in
      match head with
      | Some tcb => do! restart tcb in cancel_all_loop fuel ep
      | None => ret tt
      end
  end.

(** [cancel_all_ipc]. *)
Definition cancel_all_ipc (fuel : nat) (endpoint : CapRef EndpointObjT) : M Ipc unit :=
  let! ep := islots (EndpointCap.as_object_mut endpoint) in
  let! e := ep_get ep in
  if bool_decide (ep_state e = Idle) then ret tt else
  do! cancel_all_loop fuel ep in
  ep_upd ep (set_ep_state Idle).

(** The [while let] of [cancel_badged_sends]: the new queue. *)
Fixpoint cancel_badged_loop (fuel : nat) (badge_v : Z) (cur : option Z) (new_queue : TcbQueue)
  : M Ipc TcbQueue :=
  match fuel with
  | O => fun s => (s, NoFuel)
  | S fuel =>
      match cur with
      | None => ret new_queue
      | Some tcb =>
          let! t := itcbs (tcb_get tcb) in
          let next := ep_next t in
          if badge (ipc_state t) =? badge_v then
            do! itcbs (tcb_upd tcb (set_ep_next None)) in
            do! itcbs (tcb_upd tcb (set_ep_prev None)) in
            do! restart tcb in
            cancel_badged_loop fuel badge_v next new_queue
          else
            let! q := itcbs (TcbQueueImpl.append new_queue tcb) in
            cancel_badged_loop fuel badge_v next q
      end
  end.

(** [cancel_badged_sends]. *)
Definition cancel_badged_sends (fuel : nat) (endpoint : CapRef EndpointObjT) (badge_v : Z) : M Ipc unit :=
  let! ep := islots (EndpointCap.as_object_mut endpoint) in
  let! e := ep_get ep in
  if negb (bool_decide (ep_state e = Send)) then ret tt else
  let! q := cancel_badged_loop fuel badge_v (q_head (ep_queue e)) TcbQueueImpl.new in
  do! ep_upd ep (set_ep_queue q) in
  idle_if_empty ep.

End ops.
End EndpointIpc.

(** ** Running on the parts of the state *)

Section run.
Context `{BinaryHeap}.
Implicit Types (s : Ipc) (a : Z) (t : Tcb) (m : Tcbs).

Definition tcbs s : Tcbs := e_tcbs (i_exec s).
Definition with_tcbs m s : Ipc := mkIpc (i_slots s) (i_eps s) (set_tcbs m (i_exec s)) (sched_up s).
Definition with_ep a (e : EndpointObj) s : Ipc :=
  mkIpc (i_slots s) (<[a := e]> (i_eps s)) (i_exec s) (sched_up s).

Lemma itcbs_done {A} (p : M Tcbs A) s m x :
  p (tcbs s) = (m, Done x) -> itcbs p s = (with_tcbs m s, Done x).
Proof. intros E. unfold itcbs, iexec, ontcbs, zoom. unfold tcbs in E. by rewrite E. Qed.

Lemma with_tcbs_id s : with_tcbs (tcbs s) s = s.
Proof. by destruct s as [? ? [] ?]. Qed.

Lemma itcbs_get s a t : tcbs s !! a = Some t -> itcbs (tcb_get a) s = (s, Done t).
Proof. intros Ht. rewrite (itcbs_done _ _ (tcbs s) t); [by rewrite with_tcbs_id|by apply tcb_get_some]. Qed.

Lemma itcbs_upd s a t f :
  tcbs s !! a = Some t -> itcbs (tcb_upd a f) s = (with_tcbs (<[a := f t]> (tcbs s)) s, Done tt).
Proof. intros Ht. by apply itcbs_done, tcb_upd_some. Qed.

(** Two updates of one thread. *)
Lemma itcbs_upd2 {B} s a t f g (k : M Ipc B) :
  tcbs s !! a = Some t ->
  (do! itcbs (tcb_upd a f) in do! itcbs (tcb_upd a g) in k) s =
  k (with_tcbs (<[a := g (f t)]> (tcbs s)) s).
Proof.
  intros Ht. rewrite (bind_done _ _ _ _ _ (itcbs_upd s a t f Ht)).
  erewrite bind_done by (apply itcbs_upd; by apply lookup_insert_eq).
  unfold with_tcbs, tcbs. cbn. by rewrite insert_insert_eq.
Qed.

Lemma itcbs_upd3 {B} s a t f g h (k : M Ipc B) :
  tcbs s !! a = Some t ->
  (do! itcbs (tcb_upd a f) in do! itcbs (tcb_upd a g) in do! itcbs (tcb_upd a h) in k) s =
  k (with_tcbs (<[a := h (g (f t))]> (tcbs s)) s).
Proof.
  intros Ht. rewrite (itcbs_upd2 s a t f g _ Ht).
  erewrite bind_done by (apply itcbs_upd; by apply lookup_insert_eq).
  unfold with_tcbs, tcbs. cbn. by rewrite insert_insert_eq.
Qed.

Lemma ep_get_some s a e : i_eps s !! a = Some e -> ep_get a s = (s, Done e).
Proof. intros E. unfold ep_get. by rewrite E. Qed.

Lemma ep_upd_some s a e f : i_eps s !! a = Some e -> ep_upd a f s = (with_ep a (f e) s, Done tt).
Proof. intros E. unfold ep_upd. by rewrite E. Qed.

Lemma ep_queue_op_run {A} s a e (p : TcbQueue -> M Tcbs (TcbQueue * A)) m q x :
  i_eps s !! a = Some e -> p (ep_queue e) (tcbs s) = (m, Done (q, x)) ->
  ep_queue_op a p s = (with_ep a (set_ep_queue q e) (with_tcbs m s), Done x).
Proof.
  intros He Hp. unfold ep_queue_op. rewrite (bind_done _ _ _ _ _ (ep_get_some _ _ _ He)).
  rewrite (bind_done _ _ _ _ _ (itcbs_done _ _ _ _ Hp)).
  by erewrite bind_done by (by eapply ep_upd_some).
Qed.

(** The capability [c] names the endpoint object at [a]. *)
Definition names s (c : CapRef EndpointObjT) a : Prop :=
  exists r, i_slots s !! raw c = Some r /\ 0 <= a < 2 ^ 52 /\ paddr r = a.

Lemma as_object_run `{X86Addr} `{!X86AddrLaws} s c a :
  names s c a -> islots (EndpointCap.as_object_mut c) s = (s, Done a).
Proof.
  intros (r & Hr & Ha & Hp). unfold islots. rewrite (zoom_done _ _ _ _ (i_slots s) a); [by destruct s|].
  unfold EndpointCap.as_object_mut, ref_paddr.
  rewrite (bind_done _ _ _ (i_slots s) r) by by apply entry_get_some.
  by rewrite Hp, phys_addr_new_ok.
Qed.
End run.

(** ** Queues of blocked threads *)

(** What two threads with the same payload share. *)
Lemma payload_fields (t t' : Tcb) :
  payload t' = payload t ->
  state t' = state t /\ blocking_object t' = blocking_object t /\ ipc_state t' = ipc_state t /\
  context t' = context t /\ sched_context t' = sched_context t.
Proof.
  intros E. split_and!; [by apply (f_equal state) in E|by apply (f_equal blocking_object) in E|
    by apply (f_equal ipc_state) in E|by apply (f_equal context) in E|by apply (f_equal sched_context) in E].
Qed.

Lemma relinks_tcb l (m m' : Tcbs) x t :
  relinks l m m' -> m !! x = Some t -> exists t', m' !! x = Some t' /\ payload t' = payload t.
Proof.
  intros [Hp _] Hx. apply (f_equal (fun f => f !! x)) in Hp. rewrite !lookup_fmap, Hx in Hp.
  destruct (m' !! x) as [t'|]; [|done]. apply (inj Some) in Hp. by exists t'.
Qed.

(** A thread outside the queue, or one whose links are kept, may be replaced. *)
Lemma queue_of_upd (m : Tcbs) q l x t t' :
  queue_of m q l -> m !! x = Some t -> link t' = link t -> queue_of (<[x := t']> m) q l.
Proof.
  intros (Hc & Hh & Ht) Hx Hl. split_and!; [|done|done]. by rewrite (links_insert_same m x t).
Qed.

(** All threads of [l] are blocked in state [st] on the endpoint [a]. *)
Definition blocked_on (m : Tcbs) (a : Z) (st : ThreadState) (l : list Z) : Prop :=
  forall x, x ∈ l -> exists t, m !! x = Some t /\ state t = st /\ blocking_object t = Some a.

Lemma blocked_on_relinks L m m' a st l :
  relinks L m m' -> blocked_on m a st l -> blocked_on m' a st l.
Proof.
  intros Hr Hb x Hx. destruct (Hb x Hx) as (t & Ht & Hs & Ho).
  destruct (relinks_tcb _ _ _ _ _ Hr Ht) as (t' & Ht' & Hp). exists t'.
  destruct (payload_fields _ _ Hp) as (-> & -> & _). done.
Qed.

Lemma blocked_on_insert m a st l x t :
  x ∉ l -> blocked_on m a st l -> blocked_on (<[x := t]> m) a st l.
Proof.
  intros Hn Hb y Hy. rewrite lookup_insert_ne by (intros ->; done). by apply Hb.
Qed.

(** The state of the threads that wait on an endpoint. *)
Definition waiting_state (st : EndpointState) : ThreadState :=
  match st with Recv => BlockedOnReceive | _ => BlockedOnSend end.

(** The endpoint at [a] is in order, with the threads [l] waiting: it is idle exactly when none
    wait, and all of them are blocked on it in the state that goes with its own. *)
Record ep_inv `{BinaryHeap} (s : Ipc) (a : Z) (e : EndpointObj) (l : list Z) : Prop := {
  ei_at : i_eps s !! a = Some e;
  ei_queue : queue_of (tcbs s) (ep_queue e) l;
  ei_idle : ep_state e = Idle <-> l = [];
  ei_blocked : blocked_on (tcbs s) a (waiting_state (ep_state e)) l
}.

(** Everything but the TCBs and the endpoint [a] is kept. *)
Definition only_ep `{BinaryHeap} (a : Z) (s s' : Ipc) : Prop :=
  i_slots s' = i_slots s /\ sched_up s' = sched_up s /\ i_exec s' = set_tcbs (tcbs s') (i_exec s) /\
  (forall b, b <> a -> i_eps s' !! b = i_eps s !! b).

(** The threads outside [L] are exactly as they were. *)
Definition spares `{BinaryHeap} (L : list Z) (s s' : Ipc) : Prop :=
  forall z, z ∉ L -> tcbs s' !! z = tcbs s !! z.

Section queues.
Context `{BinaryHeap}.
Implicit Types (s : Ipc) (a x : Z) (t : Tcb).

Lemma only_ep_refl a s : only_ep a s s.
Proof. split_and!; try done. by destruct s as [? ? [] ?]. Qed.

Lemma only_ep_trans a s1 s2 s3 : only_ep a s1 s2 -> only_ep a s2 s3 -> only_ep a s1 s3.
Proof.
  intros (A1 & A2 & A3 & A4) (B1 & B2 & B3 & B4). split_and!; [congruence|congruence| |].
  - rewrite B3, A3. by destruct (i_exec s1).
  - intros b Hb. rewrite B4, A4 by done. done.
Qed.

Lemma only_ep_tcbs a s m : only_ep a s (with_tcbs m s).
Proof. by split_and!. Qed.

Lemma only_ep_ep a s e : only_ep a s (with_ep a e s).
Proof.
  split_and!; try done; [by destruct s as [? ? [] ?]|].
  intros b Hb. cbn. by rewrite lookup_insert_ne by done.
Qed.

(** Blocking a thread at the end of the queue. *)
Lemma append_blocked s a e l x t t1 st :
  ep_inv s a e l -> ep_state e = Idle \/ ep_state e = st -> st <> Idle -> x ∉ l ->
  tcbs s !! x = Some t -> link t1 = link t -> state t1 = waiting_state st ->
  blocking_object t1 = Some a ->
  exists s' e' t', (do! ep_queue_op a (EndpointIpc.append_op x) in do! ep_upd a (set_ep_state st) in
              ret (Ok (E := SysError) tt)) (with_tcbs (<[x := t1]> (tcbs s)) s) = (s', Done (Ok tt)) /\
    ep_inv s' a e' (l ++ [x]) /\ ep_state e' = st /\ only_ep a s s' /\
    tcbs s' !! x = Some t' /\ payload t' = payload t1 /\
    (forall y, y <> x -> payload <$> tcbs s' !! y = payload <$> tcbs s !! y) /\ spares (x :: l) s s'.
Proof.
  intros [Ha Hq Hid Hb] Hst Hne Hx Ht Hl Hs1 Ho1. set (s1 := with_tcbs (<[x := t1]> (tcbs s)) s).
  assert (Hx1 : tcbs s1 !! x = Some t1) by apply lookup_insert_eq.
  pose proof (queue_of_upd _ _ _ _ _ _ Hq Ht Hl) as Hq1.
  destruct (append_queue _ _ _ x t1 Hq1 Hx Hx1) as (m & q & E & Hq' & Hr).
  assert (Hop : EndpointIpc.append_op x (ep_queue e) (tcbs s1) = (m, Done (q, tt)))
    by (unfold EndpointIpc.append_op; by rewrite (bind_done _ _ _ _ _ E)).
  destruct (relinks_tcb _ _ _ _ _ Hr Hx1) as (t' & Ht' & Hp').
  exists (with_ep a (mkEp st q) (with_tcbs m s)), (mkEp st q), t'.
  split; [|split; [split|split_and!]]; try done.
  - rewrite (bind_done _ _ _ _ _ (ep_queue_op_run s1 a e _ m q tt Ha Hop)).
    erewrite bind_done by (apply ep_upd_some; by apply lookup_insert_eq).
    unfold with_ep. cbn. by rewrite insert_insert_eq.
  - apply lookup_insert_eq.
  - split; [done|]. intros E'. by destruct l.
  - cbn [ep_state]. intros y [Hy| ->%list_elem_of_singleton]%elem_of_app.
    + apply (blocked_on_relinks _ _ _ _ _ l Hr); [|done].
      apply blocked_on_insert; [done|]. intros z Hz. destruct (Hb z Hz) as (tz & ? & Hzs & ?).
      exists tz. split_and!; try done. rewrite Hzs. destruct Hst as [E'|<-]; [|done].
      exfalso. apply Hid in E' as ->. by apply not_elem_of_nil in Hz.
    + exists t'. destruct (payload_fields _ _ Hp') as (-> & -> & _). by split_and!.
  - apply (only_ep_trans _ _ (with_tcbs m s)); [apply only_ep_tcbs|apply only_ep_ep].
  - intros y Hy. change (tcbs (with_ep a (mkEp st q) (with_tcbs m s))) with m. destruct Hr as [Hr _].
    apply (f_equal (fun f => f !! y)) in Hr. rewrite !lookup_fmap in Hr. rewrite Hr.
    by rewrite lookup_insert_ne by done.
  - intros z Hz. change (tcbs (with_ep a (mkEp st q) (with_tcbs m s))) with m. destruct Hr as [_ Hr].
    rewrite Hr by set_solver. rewrite lookup_insert_ne by set_solver. done.
Qed.

(** Taking the first thread off the queue. *)
Lemma dequeue_blocked s a e x l :
  ep_inv s a e (x :: l) ->
  exists s' e', (forall B (k : Z -> M Ipc B),
      (let! head := ep_queue_op a TcbQueueImpl.dequeue_head in
       let! r := unwrap_or_panic head in
       do! EndpointIpc.idle_if_empty a in k r) s = k x s') /\
    ep_inv s' a e' l /\ ep_state e' = (if l is [] then Idle else ep_state e) /\ only_ep a s s' /\
    tcbs s' !! x = payload <$> tcbs s !! x /\ relinks (x :: l) (tcbs s) (tcbs s').
Proof.
  intros [Ha Hq Hid Hb]. pose proof Hq as [[Hnd _] _]. apply NoDup_cons in Hnd as [Hxl _].
  destruct (dequeue_head_queue _ _ _ _ Hq) as (m & q & E & Hq' & Hr & Hx).
  pose proof (ep_queue_op_run s a e _ m q (Some x) Ha E) as E1.
  set (e1 := set_ep_queue q e) in *. set (s1 := with_ep a e1 (with_tcbs m s)) in *.
  assert (Ha1 : i_eps s1 !! a = Some e1) by apply lookup_insert_eq.
  assert (Hemp : TcbQueueImpl.is_empty q = if l is [] then true else false).
  { destruct Hq' as (_ & Hh & _). unfold TcbQueueImpl.is_empty. rewrite Hh. by destruct l. }
  assert (Ho1 : only_ep a s s1)
    by (apply (only_ep_trans _ _ (with_tcbs m s)); [apply only_ep_tcbs|apply only_ep_ep]).
  assert (Hb1 : blocked_on m a (waiting_state (ep_state e)) l).
  { apply (blocked_on_relinks _ _ _ _ _ l Hr). intros y Hy. apply Hb. set_solver. }
  exists (if l is [] then with_ep a (set_ep_state Idle e1) s1 else s1), (if l is [] then set_ep_state Idle e1 else e1).
  split; [|split].
  - intros B k. rewrite (bind_done _ _ _ _ _ E1). cbn [unwrap_or_panic]. rewrite bind_ret.
    unfold EndpointIpc.idle_if_empty. erewrite bind_done; [reflexivity|].
    rewrite (bind_done _ _ _ _ _ (ep_get_some _ _ _ Ha1)). unfold e1 at 1. cbn [set_ep_queue ep_queue]. rewrite Hemp.
    destruct l; [|done]. rewrite (ep_upd_some _ _ _ _ Ha1). done.
  - destruct l as [|y l]; split; try done.
    + apply lookup_insert_eq.
    + intros y Hy. by apply not_elem_of_nil in Hy.
    + cbn [set_ep_queue ep_state e1]. split; [|done]. by intros E'%Hid.
  - destruct l; (split; [done|split; [|done]]); [|done].
    apply (only_ep_trans _ _ s1); [done|apply only_ep_ep].
Qed.
End queues.

(** ** The transfer of a message *)

Definition with_registers (l : list Z) (f : TrapFrame) : TrapFrame :=
  mkTrapFrame l (error_code f) (rip f) (cs f) (rflags f) (rsp f) (ss f).

(** The frame [f] with the first [n] registers of [g]. *)
Definition copy_regs (n : nat) (g f : TrapFrame) : TrapFrame :=
  with_registers (take n (registers g) ++ drop n (registers f)) f.

Lemma insert_take_drop (l l' : list Z) i v :
  l !! i = Some v -> (i < length l')%nat ->
  <[i := v]> (take i l ++ drop i l') = take (S i) l ++ drop (S i) l'.
Proof.
  intros Hl Hi. assert (Hlt : length (take i l) = i) by (apply length_take_le, Nat.lt_le_incl; by eapply lookup_lt_Some).
  rewrite insert_app_r_alt by lia. rewrite Hlt, Nat.sub_diag, (take_S_r _ _ _ Hl), <- app_assoc.
  destruct (lookup_lt_is_Some_2 l' i Hi) as [w Hw]. by rewrite (drop_S _ _ _ Hw).
Qed.

Section transfer.
Context `{B : Build} (Hrel : debug_build = false).

Lemma set_mr_release {S} (s : S) f idx v :
  0 <= idx < Z.of_nat (length (registers f)) ->
  TrapFrameImpl.set_mr f idx v s = (s, Done (with_registers (<[Z.to_nat idx := v]> (registers f)) f)).
Proof.
  intros Hi. unfold TrapFrameImpl.set_mr, debug_assert. rewrite Hrel. cbn [andb]. rewrite bind_ret.
  by rewrite (proj2 (Z.ltb_lt _ _)) by lia.
Qed.

Lemma tcb_set_mr_release (m : Tcbs) a t idx v :
  m !! a = Some t -> 0 <= idx < Z.of_nat (length (registers (context t))) ->
  tcb_set_mr a idx v m =
    (<[a := set_context (with_registers (<[Z.to_nat idx := v]> (registers (context t))) (context t)) t]> m, Done tt).
Proof.
  intros Ht Hi. unfold tcb_set_mr. rewrite (bind_done _ _ _ _ _ (tcb_get_some _ _ _ Ht)).
  rewrite (bind_done _ _ _ m
    (set_context (with_registers (<[Z.to_nat idx := v]> (registers (context t))) (context t)) t));
    [by rewrite (tcb_upd_some _ _ _ _ Ht)|].
  unfold TcbImpl.set_mr. by rewrite (bind_done _ _ _ _ _ (set_mr_release _ _ _ _ Hi)).
Qed.

Lemma tcb_get_mr_release (m : Tcbs) a t idx v :
  m !! a = Some t -> 0 <= idx -> registers (context t) !! Z.to_nat idx = Some v ->
  tcb_get_mr a idx m = (m, Done v).
Proof.
  intros Ht Hi Hv. unfold tcb_get_mr. rewrite (bind_done _ _ _ _ _ (tcb_get_some _ _ _ Ht)).
  unfold TcbImpl.get_mr, TrapFrameImpl.get_mr, debug_assert. rewrite Hrel. cbn [andb].
  by rewrite bind_ret, Hv.
Qed.

Lemma transfer_loop_run n i (m : Tcbs) sender receiver ts t f :
  m !! sender = Some ts -> m !! receiver = Some t -> sender <> receiver ->
  context t = copy_regs i (context ts) f ->
  (i + n <= length (registers (context ts)))%nat -> (i + n <= length (registers f))%nat ->
  EndpointIpc.transfer_loop n sender receiver (Z.of_nat i) m =
    (<[receiver := set_context (copy_regs (i + n) (context ts) f) t]> m, Done tt).
Proof.
  revert i m t. induction n as [|n IH]; intros i m t Hs Hr Hne Hc Hl1 Hl2; cbn [EndpointIpc.transfer_loop].
  { rewrite Nat.add_0_r, <- Hc. unfold ret. f_equal. rewrite insert_id; [done|]. rewrite Hr. by destruct t. }
  destruct (lookup_lt_is_Some_2 (registers (context ts)) i) as [v Hv]; [lia|].
  unfold TcbImpl.MR1. rewrite Z.add_0_l.
  rewrite (bind_done _ _ _ m v) by (eapply tcb_get_mr_release; [done|lia|by rewrite Nat2Z.id]).
  erewrite bind_done.
  2: { eapply tcb_set_mr_release; [exact Hr|]. rewrite Hc. cbn. rewrite length_app, length_take, length_drop. lia. }
  replace (Z.of_nat i + 1) with (Z.of_nat (S i)) by lia.
  rewrite (IH (S i) _ (set_context (copy_regs (S i) (context ts) f) t)).
  - rewrite insert_insert_eq. replace (S i + n)%nat with (i + S n)%nat by lia. done.
  - by rewrite lookup_insert_ne.
  - rewrite lookup_insert_eq. do 2 f_equal. rewrite Hc, Nat2Z.id. unfold copy_regs, with_registers. cbn.
    f_equal. apply insert_take_drop; [done|lia].
  - done.
  - done.
  - lia.
  - lia.
Qed.

Lemma do_ipc_transfer_run (m : Tcbs) sender receiver ts tr b g :
  m !! sender = Some ts -> m !! receiver = Some tr -> sender <> receiver ->
  (4 <= length (registers (context ts)))%nat -> (4 <= length (registers (context tr)))%nat ->
  EndpointIpc.do_ipc_transfer sender receiver b g m =
    (<[receiver := set_context (copy_regs 4 (context ts) (context tr)) tr]> m, Done tt).
Proof.
  intros Hs Hr Hne Hl1 Hl2. unfold EndpointIpc.do_ipc_transfer.
  rewrite (bind_done _ _ _ _ _ (tcb_set_mr_release m receiver tr TcbImpl.MR1 b Hr ltac:(unfold TcbImpl.MR1; lia))).
  set (f := with_registers _ _). erewrite (transfer_loop_run 4 0 _ sender receiver ts (set_context f tr) f).
  - rewrite insert_insert_eq.
    assert (Ef : copy_regs 4 (context ts) f = copy_regs 4 (context ts) (context tr))
      by (unfold copy_regs, f, with_registers; cbn; by destruct (registers (context tr))).
    by rewrite Nat.add_0_l, Ef.
  - by rewrite lookup_insert_ne.
  - apply lookup_insert_eq.
  - done.
  - done.
  - lia.
  - unfold f. cbn. rewrite length_insert. lia.
Qed.
End transfer.

(** In the dev profile the first register write fails its assertion. *)
Lemma do_ipc_transfer_dev (m : Tcbs) sender receiver tr b g :
  m !! receiver = Some tr -> EndpointIpc.do_ipc_transfer (H := dev) sender receiver b g m = (m, Panic).
Proof.
  intros Hr. unfold EndpointIpc.do_ipc_transfer, tcb_set_mr, bind at 1.
  by rewrite (bind_done _ _ _ _ _ (tcb_get_some _ _ _ Hr)).
Qed.

(** ** Sending and receiving *)

Section delivery.
Context `{BinaryHeap}.
Implicit Types (s : Ipc) (m : Tcbs) (a x y : Z) (t : Tcb).

(** [m'] is [m] with the threads [x] and [y] replaced. *)
Definition upd_two m m' x X y Y : Prop :=
  m' !! x = Some X /\ m' !! y = Some Y /\ (forall z, z <> x -> z <> y -> m' !! z = m !! z).

Lemma ep_inv_outside s a e l m' :
  ep_inv s a e l -> (forall z, z ∈ l -> m' !! z = tcbs s !! z) -> ep_inv (with_tcbs m' s) a e l.
Proof.
  intros [Ha (Hc & Hh & Ht) Hid Hb] Hm. split; [done|split_and!|done|]; try done.
  - eapply chain_ext; [|exact Hc]. intros z Hz. change (tcbs (with_tcbs m' s)) with m'.
    by rewrite !links_lookup, Hm.
  - intros z Hz. change (tcbs (with_tcbs m' s)) with m'. rewrite Hm by done. by apply Hb.
Qed.

(** A call leaves the caller blocked on the reply, or inactive when there can be none. *)
Definition caller_after (call reply : bool) (callee : Z) t : Tcb :=
  if call then
    if reply then set_reply_to (Some callee) (set_state BlockedOnReply t) else set_state Inactive t
  else t.
Definition callee_after (call reply : bool) (caller_v : Z) t : Tcb :=
  if call && reply then set_caller (Some caller_v) t else t.

Lemma setup_caller_cap_run s x y tx ty :
  tcbs s !! x = Some tx -> tcbs s !! y = Some ty -> x <> y ->
  exists m', itcbs (EndpointIpc.setup_caller_cap x y) s = (with_tcbs m' s, Done (Ok tt)) /\
    upd_two (tcbs s) m' x (set_reply_to (Some y) (set_state BlockedOnReply tx)) y (set_caller (Some x) ty).
Proof.
  intros Hx Hy Hne. eexists. split.
  - apply itcbs_done. unfold EndpointIpc.setup_caller_cap.
    rewrite (bind_done _ _ _ _ _ (tcb_upd_some _ _ _ _ Hx)).
    erewrite bind_done by (apply tcb_upd_some; by apply lookup_insert_eq). rewrite insert_insert_eq.
    erewrite bind_done by (apply tcb_upd_some; by rewrite lookup_insert_ne). reflexivity.
  - split_and!; [by rewrite lookup_insert_ne, lookup_insert_eq by done|apply lookup_insert_eq|].
    intros z Hzx Hzy. by rewrite !lookup_insert_ne by done.
Qed.

Lemma call_part_run s x y tx ty (call reply : bool) :
  tcbs s !! x = Some tx -> tcbs s !! y = Some ty -> x <> y ->
  exists m', (if call then
                if reply then itcbs (EndpointIpc.setup_caller_cap x y)
                else do! itcbs (tcb_upd x (set_state Inactive)) in ret (Ok tt)
              else ret (Ok tt)) s = (with_tcbs m' s, Done (Ok tt)) /\
    upd_two (tcbs s) m' x (caller_after call reply y tx) y (callee_after call reply x ty).
Proof.
  intros Hx Hy Hne. destruct call; [destruct reply|].
  - by apply setup_caller_cap_run.
  - eexists. split; [by rewrite (bind_done _ _ _ _ _ (itcbs_upd _ _ _ _ Hx))|].
    split_and!; [apply lookup_insert_eq|by rewrite lookup_insert_ne by done|].
    intros z Hzx _. by rewrite lookup_insert_ne by done.
  - exists (tcbs s). rewrite with_tcbs_id. split; [done|]. by split_and!.
Qed.

(** [wake] refuses a thread that is not blocked, without a change. *)
Lemma wake_refused (s : Exec) x t :
  e_tcbs s !! x = Some t -> Executor.is_blocked (state t) = false ->
  Executor.wake x s = (s, Done (Err InvalidState)).
Proof.
  intros Hx Hb. unfold Executor.wake. rewrite (bind_done _ _ _ _ _ (ontcbs_get _ _ _ Hx)). by rewrite Hb.
Qed.

Lemma ignored_wake s x t :
  tcbs s !! x = Some t -> Executor.is_blocked (state t) = false ->
  if_sched (ignore (iexec (Executor.wake x))) s = (s, Done tt).
Proof.
  intros Hx Hb. unfold if_sched, ignore. destruct (sched_up s) eqn:Eu; [|done].
  unfold iexec, bind, zoom. rewrite (wake_refused _ _ _ Hx Hb). by destruct s.
Qed.

(** The end of [send_ipc]: the receiver is made runnable and then refused by [wake]. *)
Lemma wake_receiver_run s x t :
  tcbs s !! x = Some t ->
  (do! itcbs (tcb_upd x (set_state Running)) in
   do! if_sched (do! itcbs (tcb_upd x (set_state Inactive)) in ignore (iexec (Executor.wake x))) in
   ret (Ok (E := SysError) tt)) s =
  (with_tcbs (<[x := set_state (if sched_up s then Inactive else Running) t]> (tcbs s)) s, Done (Ok tt)).
Proof.
  intros Hx. rewrite (bind_done _ _ _ _ _ (itcbs_upd _ _ _ _ Hx)).
  set (s1 := with_tcbs _ s). assert (Hx1 : tcbs s1 !! x = Some (set_state Running t)) by apply lookup_insert_eq.
  unfold if_sched. change (sched_up s1) with (sched_up s). unfold bind at 1.
  change (sched_up s1) with (sched_up s). destruct (sched_up s) eqn:Eu; [|done].
  rewrite (bind_done _ _ _ _ _ (itcbs_upd _ _ _ _ Hx1)).
  pose proof (ignored_wake (with_tcbs (<[x := set_state Inactive (set_state Running t)]> (tcbs s1)) s1) x _
    (lookup_insert_eq _ _ _) eq_refl) as E.
  unfold if_sched in E. change (sched_up (with_tcbs _ s1)) with (sched_up s) in E. rewrite Eu in E. rewrite E.
  unfold ret, with_tcbs, s1, tcbs. cbn. by rewrite insert_insert_eq.
Qed.
End delivery.

(** What is left of the other threads when two of them are replaced after a change of links. *)
Lemma relinks_rest `{BinaryHeap} (s s1 s2 : Ipc) x y l :
  relinks (y :: l) (tcbs s) (tcbs s1) -> (forall z, z <> x -> z <> y -> tcbs s2 !! z = tcbs s1 !! z) ->
  (forall z, z <> x -> z <> y -> payload <$> tcbs s2 !! z = payload <$> tcbs s !! z) /\ spares (x :: y :: l) s s2.
Proof.
  intros [Hp Ho] Hm. split; [intros z Hzx Hzy|intros z [Hzx Hz]%not_elem_of_cons].
  - rewrite Hm by done. apply (f_equal (fun f => f !! z)) in Hp. by rewrite !lookup_fmap in Hp.
  - rewrite Hm by set_solver. by apply Ho.
Qed.

Section ipc.
Context `{B : Build} `{BinaryHeap} `{X86AddrLaws}.
Implicit Types (s : Ipc) (a x : Z) (t : Tcb).
Context (s : Ipc) (c : CapRef EndpointObjT) (a : Z) (e : EndpointObj) (l : list Z).
Context (Hc : names s c a).

Lemma send_blocks_run x t call b g gr :
  ep_inv s a e l -> ep_state e <> Recv -> x ∉ l -> tcbs s !! x = Some t ->
  exists s' e' t', EndpointIpc.send_ipc true call b g gr x c s = (s', Done (Ok tt)) /\
    ep_inv s' a e' (l ++ [x]) /\ ep_state e' = Send /\ only_ep a s s' /\ tcbs s' !! x = Some t' /\
    payload t' = payload (set_blocking_object (Some a) (set_state BlockedOnSend
                   (set_ipc_state (mkIpcState b g gr call) t))) /\
    (forall y, y <> x -> payload <$> tcbs s' !! y = payload <$> tcbs s !! y) /\ spares (x :: l) s s'.
Proof.
  intros Hi Hst Hx Ht. unfold EndpointIpc.send_ipc.
  rewrite (bind_done _ _ _ _ _ (as_object_run s c a Hc)).
  rewrite (bind_done _ _ _ _ _ (ep_get_some _ _ _ (ei_at _ _ _ _ Hi))).
  set (t1 := set_blocking_object (Some a) (set_state BlockedOnSend (set_ipc_state (mkIpcState b g gr call) t))).
  destruct (append_blocked s a e l x t t1 Send Hi) as (s' & e' & t' & E & R); try done.
  { destruct (ep_state e); [by left|by right|done]. }
  exists s', e', t'. split; [|exact R].
  destruct (ep_state e); [| |done]; rewrite (itcbs_upd3 s x t _ _ _ _ Ht); exact E.
Qed.

Lemma receive_blocks_run x t :
  ep_inv s a e l -> ep_state e <> Send -> x ∉ l -> tcbs s !! x = Some t ->
  exists s' e' t', EndpointIpc.receive_ipc x c true s = (s', Done (Ok tt)) /\
    ep_inv s' a e' (l ++ [x]) /\ ep_state e' = Recv /\ only_ep a s s' /\ tcbs s' !! x = Some t' /\
    payload t' = payload (set_blocking_object (Some a) (set_state BlockedOnReceive t)) /\
    (forall y, y <> x -> payload <$> tcbs s' !! y = payload <$> tcbs s !! y) /\ spares (x :: l) s s'.
Proof.
  intros Hi Hst Hx Ht. unfold EndpointIpc.receive_ipc.
  rewrite (bind_done _ _ _ _ _ (as_object_run s c a Hc)).
  rewrite (bind_done _ _ _ _ _ (ep_get_some _ _ _ (ei_at _ _ _ _ Hi))).
  set (t1 := set_blocking_object (Some a) (set_state BlockedOnReceive t)).
  destruct (append_blocked s a e l x t t1 Recv Hi) as (s' & e' & t' & E & R); try done.
  { destruct (ep_state e); [by left|done|by right]. }
  exists s', e', t'. split; [|exact R].
  destruct (ep_state e); [|done|]; rewrite (itcbs_upd2 s x t _ _ _ Ht); exact E.
Qed.

(** The message registers of two threads exist. *)
Definition has_regs (t : Tcb) : Prop := (4 <= length (registers (context t)))%nat.

Context (Hrel : debug_build = false).

Lemma send_delivers_run x y tx ty blocking call b g gr :
  ep_inv s a e (y :: l) -> ep_state e = Recv -> x ∉ y :: l ->
  tcbs s !! x = Some tx -> tcbs s !! y = Some ty -> has_regs tx -> has_regs ty ->
  exists s' e', EndpointIpc.send_ipc blocking call b g gr x c s = (s', Done (Ok tt)) /\
    ep_inv s' a e' l /\ only_ep a s s' /\
    tcbs s' !! x = Some (caller_after call (g || gr) y tx) /\
    tcbs s' !! y = Some (set_state (if sched_up s then Inactive else Running)
      (callee_after call (g || gr) x
        (set_context (copy_regs 4 (context tx) (context ty)) (payload ty)))) /\
    (forall z, z <> x -> z <> y -> payload <$> tcbs s' !! z = payload <$> tcbs s !! z) /\ spares (x :: y :: l) s s'.
Proof.
  intros Hi Hst Hx Htx Hty Rx Ry. apply not_elem_of_cons in Hx as [Hxy Hxl].
  unfold EndpointIpc.send_ipc. rewrite (bind_done _ _ _ _ _ (as_object_run s c a Hc)).
  rewrite (bind_done _ _ _ _ _ (ep_get_some _ _ _ (ei_at _ _ _ _ Hi))), Hst.
  destruct (dequeue_blocked s a e y l Hi) as (s1 & e1 & E1 & Hi1 & Hst1 & O1 & Hy1 & RL). pose proof (proj2 RL) as R1.
  rewrite E1. clear E1. rewrite Hty in Hy1. change (tcbs s1 !! y = Some (payload ty)) in Hy1.
  assert (Hx1 : tcbs s1 !! x = Some tx) by (rewrite R1; [done|set_solver]).
  assert (Hyl : y ∉ l) by (pose proof (ei_queue _ _ _ _ Hi) as [[Hnd _] _]; by apply NoDup_cons in Hnd as [? _]).
  rewrite (bind_done _ _ _ _ _ (itcbs_done _ _ _ _ (do_ipc_transfer_run Hrel _ x y tx (payload ty) b g Hx1 Hy1 Hxy Rx Ry))).
  set (ty2 := set_context _ (payload ty)). set (s2 := with_tcbs (<[y := ty2]> (tcbs s1)) s1).
  assert (Hx2 : tcbs s2 !! x = Some tx) by (change (<[y := ty2]> (tcbs s1) !! x = Some tx); by rewrite lookup_insert_ne by done).
  destruct (call_part_run s2 x y tx ty2 call (g || gr) Hx2 (lookup_insert_eq _ _ _) Hxy) as (m3 & E3 & X3 & Y3 & O3).
  rewrite (bind_done _ _ _ _ _ E3).
  rewrite (wake_receiver_run (with_tcbs m3 s2) y _ Y3). eexists _, e1. split; [reflexivity|].
  change (tcbs (with_tcbs m3 s2)) with m3. change (sched_up (with_tcbs m3 s2)) with (sched_up s1).
  pose proof (proj1 (proj2 O1)) as Q2.
  assert (Hrest : forall z, z <> x -> z <> y -> <[y := set_state (if sched_up s1 then Inactive else Running)
      (callee_after call (g || gr) x ty2)]> m3 !! z = tcbs s1 !! z).
  { intros z Hzx Hzy. rewrite lookup_insert_ne, O3 by done.
    change (tcbs s2) with (<[y := ty2]> (tcbs s1)). by rewrite lookup_insert_ne by done. }
  split; [|split; [exact (only_ep_trans _ _ _ _ O1 (only_ep_tcbs a s1 _))|split; [|split]]].
  - apply (ep_inv_outside s1 a e1 l); [done|]. intros z Hz. apply Hrest; intros ->; done.
  - cbn. rewrite lookup_insert_ne by done. exact X3.
  - cbn. rewrite lookup_insert_eq, Q2. done.
  - by apply (relinks_rest s s1).
Qed.

Lemma receive_delivers_run x y tx ty blocking :
  ep_inv s a e (y :: l) -> ep_state e = Send -> x ∉ y :: l ->
  tcbs s !! x = Some tx -> tcbs s !! y = Some ty -> has_regs tx -> has_regs ty ->
  let i := ipc_state ty in
  exists s' e', EndpointIpc.receive_ipc x c blocking s = (s', Done (Ok tt)) /\
    ep_inv s' a e' l /\ only_ep a s s' /\
    tcbs s' !! y = Some (if is_call i then caller_after true (can_grant i || can_grant_reply i) x (payload ty)
                         else set_state Inactive (payload ty)) /\
    tcbs s' !! x = Some (callee_after (is_call i) (can_grant i || can_grant_reply i) y
      (set_context (copy_regs 4 (context ty) (context tx)) tx)) /\
    (forall z, z <> x -> z <> y -> payload <$> tcbs s' !! z = payload <$> tcbs s !! z) /\ spares (x :: y :: l) s s'.
Proof.
  intros Hi Hst Hx Htx Hty Rx Ry i. apply not_elem_of_cons in Hx as [Hxy Hxl].
  unfold EndpointIpc.receive_ipc. rewrite (bind_done _ _ _ _ _ (as_object_run s c a Hc)).
  rewrite (bind_done _ _ _ _ _ (ep_get_some _ _ _ (ei_at _ _ _ _ Hi))), Hst.
  destruct (dequeue_blocked s a e y l Hi) as (s1 & e1 & E1 & Hi1 & Hst1 & O1 & Hy1 & RL). pose proof (proj2 RL) as R1.
  rewrite E1. clear E1. rewrite Hty in Hy1. change (tcbs s1 !! y = Some (payload ty)) in Hy1.
  assert (Hx1 : tcbs s1 !! x = Some tx) by (rewrite R1; [done|set_solver]).
  assert (Hyl : y ∉ l) by (pose proof (ei_queue _ _ _ _ Hi) as [[Hnd _] _]; by apply NoDup_cons in Hnd as [? _]).
  rewrite (bind_done _ _ _ _ _ (itcbs_get _ _ _ Hy1)). change (ipc_state (payload ty)) with i. cbv zeta.
  rewrite (bind_done _ _ _ _ _ (itcbs_done _ _ _ _
    (do_ipc_transfer_run Hrel _ y x (payload ty) tx (badge i) (can_grant i) Hy1 Hx1 (not_eq_sym Hxy) Ry Rx))).
  set (tx2 := set_context _ tx). set (s2 := with_tcbs (<[x := tx2]> (tcbs s1)) s1).
  assert (Hy2 : tcbs s2 !! y = Some (payload ty))
    by (change (<[x := tx2]> (tcbs s1) !! y = Some (payload ty)); by rewrite lookup_insert_ne by done).
  assert (Hx2 : tcbs s2 !! x = Some tx2) by apply lookup_insert_eq.
  assert (Hfin : forall m3, upd_two (tcbs s2) m3 y
      (if is_call i then caller_after true (can_grant i || can_grant_reply i) x (payload ty)
       else set_state Inactive (payload ty)) x
      (callee_after (is_call i) (can_grant i || can_grant_reply i) y tx2) ->
    exists e', ep_inv (with_tcbs m3 s2) a e' l /\ only_ep a s (with_tcbs m3 s2) /\
      m3 !! y = Some (if is_call i then caller_after true (can_grant i || can_grant_reply i) x (payload ty)
                      else set_state Inactive (payload ty)) /\
      m3 !! x = Some (callee_after (is_call i) (can_grant i || can_grant_reply i) y tx2) /\
      (forall z, z <> x -> z <> y -> payload <$> m3 !! z = payload <$> tcbs s !! z) /\
      spares (x :: y :: l) s (with_tcbs m3 s2)).
  { intros m3 (Y3 & X3 & O3). exists e1.
    assert (Hrest : forall z, z <> x -> z <> y -> m3 !! z = tcbs s1 !! z).
    { intros z Hzx Hzy. rewrite O3 by done.
      change (tcbs s2) with (<[x := tx2]> (tcbs s1)). by rewrite lookup_insert_ne by done. }
    split; [|split; [exact (only_ep_trans _ _ _ _ O1 (only_ep_tcbs a s1 _))|split_and!; try done]].
    - apply (ep_inv_outside s1 a e1 l); [done|]. intros z Hz. apply Hrest; intros ->; done.
    - by apply (relinks_rest s s1 (with_tcbs m3 s2) x y l).
    - by apply (relinks_rest s s1). }
  destruct (is_call i).
  - destruct (call_part_run s2 y x (payload ty) tx2 true (can_grant i || can_grant_reply i) Hy2 Hx2 (not_eq_sym Hxy))
      as (m3 & E3 & U3). destruct (Hfin m3 U3) as (e' & F). exists (with_tcbs m3 s2), e'. split; [|exact F].
    by rewrite (bind_done _ _ _ _ _ E3).
  - rewrite (bind_done _ _ _ _ _ (itcbs_upd _ _ _ _ Hy2)).
    destruct (Hfin (<[y := set_state Inactive (payload ty)]> (tcbs s2))) as (e' & F).
    { split_and!; [apply lookup_insert_eq|by rewrite lookup_insert_ne by done|].
      intros z Hzy _. by rewrite lookup_insert_ne by done. }
    eexists _, e'. split; [|exact F].
    by rewrite (bind_done _ _ _ _ _ (ignored_wake (with_tcbs (<[y := set_state Inactive (payload ty)]> (tcbs s2)) s2) y _
      (lookup_insert_eq _ _ _) eq_refl)).
Qed.
End ipc.

(** ** Cancelling *)

Section cancel.
Context `{BinaryHeap}.
Implicit Types (s : Ipc) (a x : Z) (t : Tcb) (l : list Z).

(** Setting the state to idle exactly when the queue is empty. *)
Lemma idle_if_empty_run s a e l :
  i_eps s !! a = Some e -> queue_of (tcbs s) (ep_queue e) l ->
  exists s' e', EndpointIpc.idle_if_empty a s = (s', Done tt) /\ i_eps s' !! a = Some e' /\
    ep_queue e' = ep_queue e /\ ep_state e' = (if l is [] then Idle else ep_state e) /\
    tcbs s' = tcbs s /\ only_ep a s s'.
Proof.
  intros Ha Hq. unfold EndpointIpc.idle_if_empty. rewrite (bind_done _ _ _ _ _ (ep_get_some _ _ _ Ha)).
  assert (Hemp : TcbQueueImpl.is_empty (ep_queue e) = if l is [] then true else false).
  { destruct Hq as (_ & Hh & _). unfold TcbQueueImpl.is_empty. rewrite Hh. by destruct l. }
  rewrite Hemp. destruct l as [|y l].
  - exists (with_ep a (set_ep_state Idle e) s), (set_ep_state Idle e). rewrite (ep_upd_some _ _ _ _ Ha).
    split_and!; try done; [apply lookup_insert_eq|apply only_ep_ep..].
  - exists s, e. split_and!; try done. apply only_ep_refl.
Qed.

Lemma cancel_ipc_run s a e l1 x l2 t :
  ep_inv s a e (l1 ++ x :: l2) -> tcbs s !! x = Some t ->
  exists s' e', EndpointIpc.cancel_ipc x s = (s', Done tt) /\ ep_inv s' a e' (l1 ++ l2) /\
    only_ep a s s' /\ tcbs s' !! x = Some (set_blocking_object None (set_state Inactive (payload t))) /\
    (forall y, y <> x -> payload <$> tcbs s' !! y = payload <$> tcbs s !! y) /\ spares (l1 ++ x :: l2) s s'.
Proof.
  intros [Ha Hq Hid Hb] Ht. destruct (Hb x) as (t' & Ht' & Hs & Ho); [set_solver|].
  rewrite Ht in Ht'. injection Ht' as <-. pose proof Hq as [[Hnd _] _].
  assert (Hx : x ∉ l1 ++ l2).
  { apply NoDup_app in Hnd as (_ & Hd & Hn). apply NoDup_cons in Hn as [? _]. set_solver. }
  destruct (remove_queue _ _ _ _ _ Hq) as (m & q & E & Hq' & Hr & Hmx). rewrite Ht in Hmx.
  assert (Hop : EndpointIpc.remove_op x (ep_queue e) (tcbs s) = (m, Done (q, tt)))
    by (unfold EndpointIpc.remove_op; by rewrite (bind_done _ _ _ _ _ E)).
  set (e1 := set_ep_queue q e). set (s1 := with_ep a e1 (with_tcbs m s)).
  destruct (idle_if_empty_run s1 a e1 (l1 ++ l2)) as (s2 & e2 & E2 & Ha2 & Hq2 & Hst2 & Ht2 & O2);
    [apply lookup_insert_eq|exact Hq'|].
  assert (Ht2x : tcbs s2 !! x = Some (payload t)) by (rewrite Ht2; exact Hmx).
  exists (with_tcbs (<[x := set_blocking_object None (set_state Inactive (payload t))]> (tcbs s2)) s2), e2.
  assert (Hrun : EndpointIpc.cancel_ipc x s =
    (do! itcbs (tcb_upd x (set_state Inactive)) in itcbs (tcb_upd x (set_blocking_object None))) s2).
  { unfold EndpointIpc.cancel_ipc. rewrite (bind_done _ _ _ _ _ (itcbs_get _ _ _ Ht)), Hs, Ho.
    assert (Hop2 : (do! ep_queue_op a (EndpointIpc.remove_op x) in EndpointIpc.idle_if_empty a) s = (s2, Done tt))
      by (by rewrite (bind_done _ _ _ _ _ (ep_queue_op_run s a e _ m q tt Ha Hop))).
    destruct (ep_state e); cbn [waiting_state]; by rewrite (bind_done _ _ _ _ _ Hop2). }
  split; [|split; [|split; [|split; [|split]]]].
  - rewrite Hrun, (bind_done _ _ _ _ _ (itcbs_upd _ _ _ _ Ht2x)).
    erewrite itcbs_upd by (by apply lookup_insert_eq).
    unfold with_tcbs, tcbs. cbn. by rewrite insert_insert_eq.
  - apply (ep_inv_outside s2); [|intros z Hz; by rewrite lookup_insert_ne by (intros <-; done)].
    split; [done|rewrite Ht2, Hq2; exact Hq'| |].
    + rewrite Hst2. destruct (l1 ++ l2) eqn:El; [done|]. split; [|done]. intros E'%Hid. by destruct l1.
    + rewrite Ht2, Hst2. apply (blocked_on_relinks _ _ _ _ _ _ Hr). intros z Hz.
      destruct (Hb z) as (tz & ? & Hzs & ?); [set_solver|]. exists tz. split_and!; try done. rewrite Hzs.
      by destruct (l1 ++ l2); [apply not_elem_of_nil in Hz|].
  - eapply only_ep_trans; [|apply only_ep_tcbs]. eapply only_ep_trans; [|exact O2].
    eapply only_ep_trans; [apply only_ep_tcbs|apply only_ep_ep].
  - apply lookup_insert_eq.
  - intros y Hy. cbn. rewrite lookup_insert_ne by done. rewrite Ht2. change (tcbs s1) with m.
    destruct Hr as [Hr _]. apply (f_equal (fun f => f !! y)) in Hr. by rewrite !lookup_fmap in Hr.
  - intros z Hz. cbn. rewrite lookup_insert_ne by set_solver. rewrite Ht2. by apply Hr.
Qed.
End cancel.

(** ** Restarting threads *)

Lemma payload_tcb (m m' : Tcbs) x t :
  payload <$> m' = payload <$> m -> m !! x = Some t ->
  exists t', m' !! x = Some t' /\ payload t' = payload t.
Proof.
  intros Hp Hx. apply (f_equal (fun f => f !! x)) in Hp. rewrite !lookup_fmap, Hx in Hp.
  destruct (m' !! x) as [t'|]; [|done]. apply (inj Some) in Hp. by exists t'.
Qed.

Section restart.
Context `{BinaryHeapLaws}.
Implicit Types (s : Ipc) (a x : Z) (t : Tcb) (l : list Z) (m : Tcbs).

(** The scheduler invariant does not depend on the queue links of the TCBs. *)
Lemma sched_inv_payload (s : Exec) m :
  sched_inv s -> payload <$> m = payload <$> e_tcbs s -> sched_inv (set_tcbs m s).
Proof.
  intros [C1 C2 C3 C4 C5 C6] Hm.
  assert (Hto : forall x st, (exists t, e_tcbs s !! x = Some t /\ state t = st) ->
    exists t, m !! x = Some t /\ state t = st).
  { intros x st (t & Ht & Hst). destruct (payload_tcb _ _ _ _ Hm Ht) as (t' & Ht' & Hp).
    exists t'. split; [done|]. by destruct (payload_fields _ _ Hp) as (-> & _). }
  split; cbn [ready e_tcbs e_ctxs current idle set_tcbs]; try done.
  - intros e He. by apply Hto, C3.
  - intros e He. by apply Hto, C4.
  - intros i Hi. destruct (C5 i Hi) as [t Ht]. destruct (payload_tcb _ _ _ _ Hm Ht) as (t' & Ht' & _).
    by exists t'.
  - intros x t p Ht Hp. destruct (payload_tcb _ _ _ _ (eq_sym Hm) Ht) as (t' & Ht' & Hpp).
    destruct (payload_fields _ _ Hpp) as (_ & _ & _ & _ & Hsc). apply (C6 x t' p Ht'). congruence.
Qed.

(** The ready-queue entry of the thread [x]. *)
Definition entry_of (s : Exec) x : Entry :=
  mkEntry (match e_tcbs s !! x with Some t => dl_of s t | None => U64_MAX end) x.

Definition unblocked t : Tcb := set_state Inactive (set_blocking_object None t).

(** Room left in the ready queue. *)
Definition room (s : Exec) : nat := MAX_TCB_PER_CORE - length (contents (ready s)).

Lemma restart_run s x t :
  sched_up s = true -> sched_inv (i_exec s) -> tcbs s !! x = Some t -> Executor.is_blocked (state t) = true ->
  exists s', EndpointIpc.restart x s = (s', Done tt) /\ i_slots s' = i_slots s /\ i_eps s' = i_eps s /\
    sched_up s' = true /\ sched_inv (i_exec s') /\ tcbs s' = <[x := unblocked t]> (tcbs s) /\
    e_ctxs (i_exec s') = e_ctxs (i_exec s) /\
    (current (i_exec s') = current (i_exec s) /\ idle (i_exec s') = idle (i_exec s)) /\
    Permutation (contents (ready (i_exec s')))
      (take (room (i_exec s)) [entry_of (i_exec s) x] ++ contents (ready (i_exec s))).
Proof.
  intros Hup Hi Ht Hb.
  assert (Hst : state t <> Running /\ state t <> Inactive) by (by split; intros E; rewrite E in Hb).
  pose proof (blocked_not_ready _ _ _ Hi Ht (proj2 Hst)) as Hn.
  set (t1 := set_blocking_object None (set_state Restart t)).
  unfold EndpointIpc.restart. rewrite (itcbs_upd2 s x t _ _ _ Ht). fold t1.
  set (s1 := with_tcbs (<[x := t1]> (tcbs s)) s). unfold if_sched. change (sched_up s1) with (sched_up s).
  rewrite Hup. assert (Hx1 : tcbs s1 !! x = Some t1) by apply lookup_insert_eq.
  rewrite (bind_done _ _ _ _ _ (itcbs_upd _ _ _ _ Hx1)).
  set (s2 := with_tcbs (<[x := set_state Inactive t1]> (tcbs s1)) s1).
  assert (Et2 : tcbs s2 = <[x := unblocked t]> (tcbs s)) by (unfold s2, s1, tcbs; cbn; by rewrite insert_insert_eq).
  assert (Hi2 : sched_inv (i_exec s2)).
  { assert (E : i_exec s2 = set_tcbs (tcbs s2) (i_exec s)) by done. rewrite E, Et2.
    by apply (inactive_inv _ _ t (unblocked t) Hi Ht (proj1 Hst)). }
  assert (Hx2 : e_tcbs (i_exec s2) !! x = Some (unblocked t))
    by (change (tcbs s2 !! x = Some (unblocked t)); rewrite Et2; apply lookup_insert_eq).
  assert (Edl : dl_of (i_exec s2) (unblocked t) = e_deadline (entry_of (i_exec s) x)).
  { unfold entry_of, dl_of. cbn [e_deadline]. unfold tcbs in Ht. by rewrite Ht. }
  assert (Een : mkEntry (dl_of (i_exec s2) (unblocked t)) x = entry_of (i_exec s) x) by (rewrite Edl; done).
  pose proof (enqueue_run (i_exec s2) x (unblocked t) Hi2 Hx2) as Eq.
  rewrite bool_decide_eq_true_2, Een in Eq by done.
  unfold ignore, iexec. change (ready (i_exec s2)) with (ready (i_exec s)) in Eq.
  destruct (Nat.lt_ge_cases (length (contents (ready (i_exec s)))) MAX_TCB_PER_CORE) as [Hl|Hl].
  - destruct (heap_push_room (entry_of (i_exec s) x) (ready (i_exec s)) Hl) as (h & Hh & Hp).
    rewrite Hh in Eq. exists (mkIpc (i_slots s) (i_eps s) (set_ready h (i_exec s2)) (sched_up s)).
    split; [unfold bind, zoom; by rewrite Eq|]. split_and!; [done..| |exact Et2|done|done|done|].
    + refine (proj1 (push_inv (i_exec s2) x (unblocked t) _ h Hi2 Hx2 eq_refl Hn _)). by rewrite Een.
    + cbn [i_exec ready set_ready]. rewrite Hp. unfold room.
      by destruct (MAX_TCB_PER_CORE - length (contents (ready (i_exec s))))%nat eqn:Er; [lia|destruct n].
  - rewrite heap_push_full in Eq by done. exists s2.
    split; [unfold bind, zoom; rewrite Eq; by destruct s|]. split_and!; [done..|exact Et2|done|done|done|].
    unfold room. by replace (MAX_TCB_PER_CORE - _)%nat with 0%nat by lia.
Qed.

(** Threads restarted one after the other fill the room left in the ready queue. *)
Lemma take_room (s s' : Exec) (en : Entry) (el : list Entry) :
  Permutation (contents (ready s')) (take (room s) [en] ++ contents (ready s)) ->
  Permutation (take (room s') el ++ contents (ready s')) (take (room s) (en :: el) ++ contents (ready s)).
Proof.
  intros Hp. assert (Er : room s' = (room s - 1)%nat).
  { unfold room. rewrite Hp, length_app, length_take. unfold room. simpl. lia. }
  rewrite Hp, Er. destruct (room s) as [|n]; [done|]. replace (S n - 1)%nat with n by lia. cbn [take app]. rewrite take_nil. cbn [app].
  by rewrite Permutation_middle.
Qed.

Lemma entry_of_ext (s s' : Exec) x :
  e_ctxs s' = e_ctxs s ->
  (forall t, e_tcbs s !! x = Some t -> exists t', e_tcbs s' !! x = Some t' /\ payload t' = payload t) ->
  is_Some (e_tcbs s !! x) -> entry_of s' x = entry_of s x.
Proof.
  intros Hc Ht [t Hx]. destruct (Ht t Hx) as (t' & Hx' & Hp).
  destruct (payload_fields _ _ Hp) as (_ & _ & _ & _ & Hs).
  unfold entry_of, dl_of. by rewrite Hx, Hx', Hs, Hc.
Qed.

(** What restarting the threads of [l] does to the rest of the state. *)
Record restarted (l : list Z) s s' : Prop := {
  rs_slots : i_slots s' = i_slots s;
  rs_up : sched_up s' = true;
  rs_inv : sched_inv (i_exec s');
  rs_ctxs : e_ctxs (i_exec s') = e_ctxs (i_exec s);
  rs_current : current (i_exec s') = current (i_exec s) /\ idle (i_exec s') = idle (i_exec s);
  rs_threads : forall x, x ∈ l -> exists t, tcbs s !! x = Some t /\ tcbs s' !! x = Some (unblocked (payload t));
  rs_ready : Permutation (contents (ready (i_exec s')))
    (take (room (i_exec s)) (entry_of (i_exec s) <$> l) ++ contents (ready (i_exec s)))
}.

(** Threads of [l] are in [s], and [s2] has them with the same payload. *)
Definition same_threads (l : list Z) s s2 : Prop :=
  forall y, y ∈ l -> exists t t', tcbs s !! y = Some t /\ tcbs s2 !! y = Some t' /\ payload t' = payload t.

Lemma entries_ext l s s2 :
  same_threads l s s2 -> e_ctxs (i_exec s2) = e_ctxs (i_exec s) ->
  entry_of (i_exec s2) <$> l = entry_of (i_exec s) <$> l.
Proof.
  intros Ht Hc. apply list_fmap_ext. intros k y Hy%list_elem_of_lookup_2.
  destruct (Ht y Hy) as (t & t' & H1 & H2 & Hp). apply entry_of_ext; [done| |by exists t].
  intros t0 H3. exists t'. split; [done|]. unfold tcbs in H1. congruence.
Qed.

Lemma restarted_threads l s s2 s' :
  same_threads l s s2 ->
  (forall x, x ∈ l -> exists t, tcbs s2 !! x = Some t /\ tcbs s' !! x = Some (unblocked (payload t))) ->
  forall x, x ∈ l -> exists t, tcbs s !! x = Some t /\ tcbs s' !! x = Some (unblocked (payload t)).
Proof.
  intros Ht Hl x Hx. destruct (Ht x Hx) as (t & t' & H1 & H2 & Hp). destruct (Hl x Hx) as (t2 & H3 & H4).
  exists t. split; [done|]. rewrite H2 in H3. injection H3 as <-. by rewrite H4, Hp.
Qed.

(** A change of links before the restarts. *)
Lemma restarted_links l s s2 s' :
  same_threads l s s2 -> i_slots s2 = i_slots s -> i_exec s2 = set_tcbs (tcbs s2) (i_exec s) ->
  restarted l s2 s' -> restarted l s s'.
Proof.
  intros Ht Hs He [A1 A2 A3 A4 A5 A6 A7].
  assert (Hc : e_ctxs (i_exec s2) = e_ctxs (i_exec s)) by by rewrite He.
  assert (Hr : ready (i_exec s2) = ready (i_exec s)) by by rewrite He.
  split; try congruence; try done.
  - destruct A5 as [-> ->]. by rewrite He.
  - by apply (restarted_threads l s s2).
  - rewrite A7, (entries_ext l s s2 Ht Hc). unfold room. by rewrite Hr.
Qed.

(** One restart before the others. *)
Lemma restarted_cons x l s s2 s' t :
  tcbs s !! x = Some t -> same_threads l s s2 ->
  i_slots s2 = i_slots s -> e_ctxs (i_exec s2) = e_ctxs (i_exec s) ->
  current (i_exec s2) = current (i_exec s) /\ idle (i_exec s2) = idle (i_exec s) ->
  Permutation (contents (ready (i_exec s2)))
    (take (room (i_exec s)) [entry_of (i_exec s) x] ++ contents (ready (i_exec s))) ->
  tcbs s' !! x = Some (unblocked (payload t)) -> restarted l s2 s' -> restarted (x :: l) s s'.
Proof.
  intros Ht Hl Hs Hc Hcur Hp Hx [A1 A2 A3 A4 A5 A6 A7]. split; try congruence; try done.
  - by destruct A5 as [-> ->].
  - intros y [-> |Hy]%elem_of_cons; [by exists t|]. by apply (restarted_threads l s s2).
  - rewrite A7, (entries_ext l s s2 Hl Hc). by apply take_room.
Qed.

Lemma restarted_nil s : sched_up s = true -> sched_inv (i_exec s) -> restarted [] s s.
Proof.
  intros Hup Hi. split; try done; [intros x Hx; by apply not_elem_of_nil in Hx|]. cbn. by rewrite take_nil.
Qed.

Lemma blocked_same l a st s s2 :
  blocked_on (tcbs s) a st l -> same_threads l s s2 -> blocked_on (tcbs s2) a st l.
Proof.
  intros Hb Ht x Hx. destruct (Hb x Hx) as (t & K1 & ? & ?). destruct (Ht x Hx) as (t0 & t' & K2 & K3 & Hp).
  rewrite K1 in K2. injection K2 as <-. exists t'. destruct (payload_fields _ _ Hp) as (-> & -> & _). done.
Qed.

Lemma cancel_all_loop_run a st l s e fuel :
  i_eps s !! a = Some e -> queue_of (tcbs s) (ep_queue e) l -> blocked_on (tcbs s) a st l ->
  Executor.is_blocked st = true -> sched_up s = true -> sched_inv (i_exec s) -> (length l < fuel)%nat ->
  exists s' q, EndpointIpc.cancel_all_loop fuel a s = (s', Done tt) /\
    i_eps s' = <[a := set_ep_queue q e]> (i_eps s) /\ queue_of (tcbs s') q [] /\ restarted l s s' /\
    (forall y, y ∉ l -> tcbs s' !! y = tcbs s !! y).
Proof.
  intros Ha Hq Hb Hst Hup Hi Hf. revert s e fuel Ha Hq Hb Hup Hi Hf.
  induction l as [|x l IH]; intros s e [|fuel] Ha Hq Hb Hup Hi Hf; [cbn in Hf; lia| |cbn in Hf; lia|];
    cbn [EndpointIpc.cancel_all_loop].
  - rewrite (bind_done _ _ _ _ _ (ep_queue_op_run s a e _ _ _ None Ha (dequeue_head_empty _ _ Hq))).
    exists s, (ep_queue e). rewrite with_tcbs_id.
    assert (Es : set_ep_queue (ep_queue e) e = e) by by destruct e. rewrite Es.
    assert (Ew : with_ep a e s = s) by (unfold with_ep; rewrite insert_id by done; by destruct s). rewrite Ew.
    split_and!; try done; [by rewrite insert_id|by apply restarted_nil].
  - destruct (dequeue_head_queue _ _ _ _ Hq) as (m & q & E & Hq' & [Hrp Hro] & Hmx).
    pose proof Hq as [[Hnd _] _]. apply NoDup_cons in Hnd as [Hxl _].
    destruct (Hb x) as (t & Ht & Hts & _); [set_solver|]. rewrite Ht in Hmx.
    rewrite (bind_done _ _ _ _ _ (ep_queue_op_run s a e _ m q (Some x) Ha E)).
    set (s1 := with_ep a (set_ep_queue q e) (with_tcbs m s)).
    assert (Hi1 : sched_inv (i_exec s1)) by (by apply sched_inv_payload).
    destruct (restart_run s1 x (payload t) Hup Hi1 Hmx) as (s2 & E2 & S2 & P2 & U2 & Hi2 & T2 & X2 & C2 & R2);
      [change (state (payload t)) with (state t); by rewrite Hts|].
    rewrite (bind_done _ _ _ _ _ E2).
    assert (Hother : forall y, y ∈ l -> tcbs s2 !! y = m !! y)
      by (intros y Hy; rewrite T2, lookup_insert_ne by (intros <-; done); done).
    assert (Hsame : same_threads l s s2).
    { intros y Hy. destruct (Hb y) as (ty & Hty & _); [set_solver|].
      destruct (payload_tcb (tcbs s) m y ty Hrp Hty) as (t' & Ht' & Hp). exists ty, t'. by rewrite (Hother y Hy). }
    destruct (IH s2 (set_ep_queue q e) fuel) as (s' & q' & E' & P' & Q' & R' & O').
    + rewrite P2. apply lookup_insert_eq.
    + destruct Hq' as (Hc & Hh & Htl). split_and!; [|done|done].
      eapply chain_ext; [|exact Hc]. intros y Hy. rewrite !links_lookup. by rewrite (Hother y Hy).
    + apply (blocked_same l a st s); [|done]. intros y Hy. apply Hb. set_solver.
    + done.
    + done.
    + cbn in Hf. lia.
    + exists s', q'. split; [done|]. split; [rewrite P', P2; cbn; by rewrite insert_insert_eq|].
      split; [done|]. split.
      * apply (restarted_cons x l s s2 s' t); try done; [|rewrite O', T2 by done; apply lookup_insert_eq].
        rewrite <- (entry_of_ext (i_exec s) (i_exec s1) x); [done|done| |by exists t].
        intros t0 Ht0. by apply (payload_tcb (tcbs s) m).
      * intros y Hy. apply not_elem_of_cons in Hy as [Hyx Hyl]. rewrite O', T2, lookup_insert_ne by done.
        apply Hro. set_solver.
Qed.

(** ** Cancelling the sends of one badge *)

(** The forward links along [l]. *)
Fixpoint nexts m l : Prop :=
  match l with
  | [] => True
  | x :: r => (exists t, m !! x = Some t /\ ep_next t = head r) /\ nexts m r
  end.

Lemma nexts_ext m m' l : (forall x, x ∈ l -> m' !! x = m !! x) -> nexts m l -> nexts m' l.
Proof.
  induction l as [|x l IH]; intros Hm; [done|]. intros [(t & Ht & Hn) Hl]. split.
  - exists t. rewrite Hm by set_solver. done.
  - apply IH; [|done]. intros y Hy. apply Hm. set_solver.
Qed.

Lemma dseg_nexts m p l : dseg (links m) p l None -> nexts m l.
Proof.
  revert p. induction l as [|x l IH]; intros p; [done|]. intros [Hx Hl]. split; [|by eapply IH].
  rewrite links_lookup, or_else_None in Hx. destruct (m !! x) as [t|]; [|done]. exists t. by injection Hx.
Qed.

Lemma queue_nexts m q l : queue_of m q l -> nexts m l.
Proof. intros ([_ Hc] & _ & _). by eapply dseg_nexts. Qed.

Definition badge_of m x : Z := match m !! x with Some t => badge (ipc_state t) | None => 0 end.

Definition matching (b : Z) m l : list Z := filter (fun x => badge_of m x = b) l.
Definition others (b : Z) m l : list Z := filter (fun x => badge_of m x <> b) l.

Lemma badge_of_same l s s2 : same_threads l s s2 -> forall x, x ∈ l -> badge_of (tcbs s2) x = badge_of (tcbs s) x.
Proof.
  intros Ht x Hx. destruct (Ht x Hx) as (t & t' & K1 & K2 & Hp). unfold badge_of. rewrite K1, K2.
  by destruct (payload_fields _ _ Hp) as (_ & _ & -> & _).
Qed.

Lemma filters_same b l s s2 :
  same_threads l s s2 ->
  matching b (tcbs s2) l = matching b (tcbs s) l /\ others b (tcbs s2) l = others b (tcbs s) l.
Proof.
  intros Ht. pose proof (badge_of_same l s s2 Ht) as Hb. clear Ht. unfold matching, others.
  induction l as [|x l IH]; [done|]. destruct IH as [IH1 IH2]; [intros y Hy; apply Hb; set_solver|].
  rewrite !filter_cons, Hb by set_solver. by rewrite IH1, IH2.
Qed.

Lemma same_threads_sub l l' s s2 : (forall x, x ∈ l' -> x ∈ l) -> same_threads l s s2 -> same_threads l' s s2.
Proof. intros Hs Ht x Hx. by apply Ht, Hs. Qed.

Lemma matching_sub b m l x : x ∈ matching b m l -> x ∈ l.
Proof. intros Hx. by apply list_elem_of_filter in Hx as [_ ?]. Qed.

(** Before an iteration: [kept] are the threads of the new queue, [rest] the ones to go through. *)
Definition badged_pre a rest kept s q : Prop :=
  queue_of (tcbs s) q kept /\ nexts (tcbs s) rest /\ NoDup (kept ++ rest) /\
  blocked_on (tcbs s) a BlockedOnSend rest /\ sched_up s = true /\ sched_inv (i_exec s).

(** What going through [rest] leads to. *)
Definition badged_post (b : Z) rest kept s s' q' : Prop :=
  i_eps s' = i_eps s /\ queue_of (tcbs s') q' (kept ++ others b (tcbs s) rest) /\
  restarted (matching b (tcbs s) rest) s s' /\
  (forall y, y ∉ matching b (tcbs s) rest -> payload <$> tcbs s' !! y = payload <$> tcbs s !! y) /\
  (forall y, y ∉ kept ++ rest -> tcbs s' !! y = tcbs s !! y).

Lemma NoDup_kept (x : Z) rest kept :
  NoDup (kept ++ x :: rest) ->
  (x ∉ kept) /\ (x ∉ rest) /\ (forall y, y ∈ rest -> y ∉ kept) /\ NoDup (kept ++ rest).
Proof.
  intros (N1 & N2 & [N3 N4]%NoDup_cons)%NoDup_app. split_and!; [set_solver|done|set_solver|].
  apply NoDup_app. set_solver.
Qed.

Lemma filters_cons b x t rest m :
  m !! x = Some t ->
  matching b m (x :: rest) =
    (if badge (ipc_state t) =? b then [x] else []) ++ matching b m rest /\
  others b m (x :: rest) =
    (if badge (ipc_state t) =? b then [] else [x]) ++ others b m rest.
Proof.
  intros Ht. unfold matching, others. rewrite !filter_cons.
  assert (Hbx : badge_of m x = badge (ipc_state t)) by (unfold badge_of; by rewrite Ht). rewrite Hbx.
  destruct (Z.eqb_spec (badge (ipc_state t)) b); by repeat case_decide.
Qed.

(** An iteration on a thread with the badge. *)
Lemma badged_match_step a b x rest kept s q t :
  badged_pre a (x :: rest) kept s q -> tcbs s !! x = Some t -> badge (ipc_state t) = b ->
  exists s2,
    (forall k : M Ipc TcbQueue,
      (do! itcbs (tcb_upd x (set_ep_next None)) in do! itcbs (tcb_upd x (set_ep_prev None)) in
       do! EndpointIpc.restart x in k) s = k s2) /\
    badged_pre a rest kept s2 q /\
    (forall s' q', badged_post b rest kept s2 s' q' -> badged_post b (x :: rest) kept s s' q').
Proof.
  intros (Hq & [_ Hnx] & (Hxk & Hxr & Hrk & Hnd)%NoDup_kept & Hb & Hup & Hi) Ht Eb.
  destruct (Hb x) as (t0 & Ht0 & Hts & _); [set_solver|]. rewrite Ht in Ht0. injection Ht0 as <-.
  set (s1 := with_tcbs (<[x := payload t]> (tcbs s)) s).
  assert (Hp1 : payload <$> (tcbs s1) = payload <$> tcbs s) by (by apply (payload_insert _ _ t)).
  assert (Hi1 : sched_inv (i_exec s1)) by (by apply sched_inv_payload).
  destruct (restart_run s1 x (payload t) Hup Hi1 (lookup_insert_eq _ _ _)) as
    (s2 & E2 & S2 & P2 & U2 & Hi2 & T2 & X2 & C2 & R2); [change (state (payload t)) with (state t); by rewrite Hts|].
  unfold s1 in T2. cbn in T2. rewrite insert_insert_eq in T2.
  assert (Ho : forall y, y <> x -> tcbs s2 !! y = tcbs s !! y) by (intros y Hy; by rewrite T2, lookup_insert_ne).
  assert (Hsame : same_threads rest s s2).
  { intros y Hy. destruct (Hb y) as (ty & Hty & _); [set_solver|]. exists ty, ty. rewrite Ho by (intros ->; done). done. }
  exists s2. split; [|split].
  - intros k. rewrite (itcbs_upd2 s x t _ _ _ Ht). by rewrite (bind_done _ _ _ _ _ E2).
  - split_and!; try done.
    + destruct Hq as (Hc & Hh & Htl). split_and!; [|done|done]. eapply chain_ext; [|exact Hc].
      intros y Hy. rewrite !links_lookup, Ho; [done|]. intros ->. done.
    + eapply nexts_ext; [|exact Hnx]. intros y Hy. apply Ho. intros ->. done.
    + apply (blocked_same rest a _ s); [intros y Hy; apply Hb; set_solver|done].
  - intros s' q' (P' & Q' & R' & O' & F'). destruct (filters_cons b x t rest _ Ht) as [Em Eo].
    rewrite Eb, Z.eqb_refl in Em, Eo. destruct (filters_same b rest s s2 Hsame) as [Em' Eo'].
    rewrite Em' in R', O'. rewrite Eo' in Q'. unfold badged_post. rewrite Em, Eo.
    split_and!; [by rewrite P', P2|done|..].
    + apply (restarted_cons x _ s s2 s' t); try done.
      * eapply same_threads_sub; [|exact Hsame]. apply matching_sub.
      * rewrite <- (entry_of_ext (i_exec s) (i_exec s1) x); [done|done| |by exists t].
        intros t1 Ht1. by apply (payload_tcb (tcbs s) (tcbs s1)).
      * rewrite F', T2 by set_solver. apply lookup_insert_eq.
    + intros y [Hyx Hym]%not_elem_of_cons. rewrite O' by done. by rewrite Ho.
    + intros y Hy. rewrite F' by set_solver. apply Ho. set_solver.
Qed.

(** An iteration on another thread. *)
Lemma badged_keep_step a b x rest kept s q t :
  badged_pre a (x :: rest) kept s q -> tcbs s !! x = Some t -> badge (ipc_state t) <> b ->
  exists s1 q1, itcbs (TcbQueueImpl.append q x) s = (s1, Done q1) /\
    badged_pre a rest (kept ++ [x]) s1 q1 /\
    (forall s' q', badged_post b rest (kept ++ [x]) s1 s' q' -> badged_post b (x :: rest) kept s s' q').
Proof.
  intros (Hq & [_ Hnx] & Hnd0 & Hb & Hup & Hi) Ht Eb. destruct (NoDup_kept _ _ _ Hnd0) as (Hxk & Hxr & Hrk & _).
  destruct (append_queue _ _ _ x t Hq Hxk Ht) as (m & q1 & E1 & Hq1 & [Hrp Hro]). set (s1 := with_tcbs m s).
  assert (Ho : forall y, y ∈ rest -> tcbs s1 !! y = tcbs s !! y)
    by (intros y Hy; apply Hro; specialize (Hrk y Hy); set_solver).
  assert (Hsame : same_threads rest s s1).
  { intros y Hy. destruct (Hb y) as (ty & Hty & _); [set_solver|]. exists ty, ty. by rewrite Ho. }
  exists s1, q1. split; [by apply itcbs_done|]. split.
  - split_and!; try done; [by eapply nexts_ext|by rewrite <- app_assoc| |by apply sched_inv_payload].
    apply (blocked_same rest a _ s); [intros y Hy; apply Hb; set_solver|done].
  - intros s' q' (P' & Q' & R' & O' & F'). destruct (filters_cons b x t rest _ Ht) as [Em Eo].
    rewrite (proj2 (Z.eqb_neq _ _) Eb) in Em, Eo. destruct (filters_same b rest s s1 Hsame) as [Em' Eo'].
    rewrite Em' in R', O'. rewrite Eo' in Q'. rewrite <- app_assoc in Q', F'. unfold badged_post. rewrite Em, Eo.
    split_and!; [done|done|..].
    + apply (restarted_links _ s s1); try done. eapply same_threads_sub; [|exact Hsame]. apply matching_sub.
    + intros y Hy. rewrite O' by done. apply (f_equal (fun f => f !! y)) in Hrp. by rewrite !lookup_fmap in Hrp.
    + intros y Hy. rewrite F' by done. apply Hro. set_solver.
Qed.

Lemma cancel_badged_loop_run a b rest kept s q fuel :
  badged_pre a rest kept s q -> (length rest < fuel)%nat ->
  exists s' q', EndpointIpc.cancel_badged_loop fuel b (head rest) q s = (s', Done q') /\
    badged_post b rest kept s s' q'.
Proof.
  revert kept s q fuel. induction rest as [|x rest IH]; intros kept s q [|fuel] Hpre Hf;
    [cbn in Hf; lia| |cbn in Hf; lia|]; cbn [EndpointIpc.cancel_badged_loop head].
  - destruct Hpre as (Hq & _ & _ & _ & Hup & Hi). exists s, q. unfold badged_post. cbn. rewrite app_nil_r.
    split_and!; try done. by apply restarted_nil.
  - pose proof Hpre as (_ & [(t & Ht & Hnext) _] & _).
    rewrite (bind_done _ _ _ _ _ (itcbs_get _ _ _ Ht)), Hnext. destruct (Z.eqb_spec (badge (ipc_state t)) b) as [Eb|Eb].
    + destruct (badged_match_step a b x rest kept s q t Hpre Ht Eb) as (s2 & E & Hpre2 & Hpost). rewrite E.
      destruct (IH kept s2 q fuel Hpre2) as (s' & q' & E' & Hp); [cbn in Hf; lia|]. exists s', q'. split; [done|by apply Hpost].
    + destruct (badged_keep_step a b x rest kept s q t Hpre Ht Eb) as (s1 & q1 & E & Hpre2 & Hpost).
      rewrite (bind_done _ _ _ _ _ E).
      destruct (IH (kept ++ [x]) s1 q1 fuel Hpre2) as (s' & q' & E' & Hp); [cbn in Hf; lia|].
      exists s', q'. split; [done|by apply Hpost].
Qed.
End restart.

(** ** The outcomes of the operations *)

Section outcomes.
Context `{BinaryHeap} `{X86AddrLaws}.
Implicit Types (s : Ipc).

(** A blocking send on an endpoint without waiting receivers, and a blocking receive on one
    without waiting senders, put the thread at the end of the endpoint's queue, blocked on the
    endpoint in the matching state (with the badge, grant rights and call flag of a send
    recorded), in both build profiles; the endpoint's queue stays a well-formed list in arrival
    order and nothing else changes. *)
Lemma ipc_blocks_in_order (B : Build) s c a e l x t call b g gr :
  names s c a -> ep_inv s a e l -> x ∉ l -> tcbs s !! x = Some t ->
  (ep_state e <> Recv ->
   exists s' e' t', EndpointIpc.send_ipc true call b g gr x c s = (s', Done (Ok tt)) /\
     ep_inv s' a e' (l ++ [x]) /\ ep_state e' = Send /\ only_ep a s s' /\ tcbs s' !! x = Some t' /\
     payload t' = payload (set_blocking_object (Some a) (set_state BlockedOnSend
                    (set_ipc_state (mkIpcState b g gr call) t))) /\
     (forall y, y <> x -> payload <$> tcbs s' !! y = payload <$> tcbs s !! y) /\ spares (x :: l) s s') /\
  (ep_state e <> Send ->
   exists s' e' t', EndpointIpc.receive_ipc x c true s = (s', Done (Ok tt)) /\
     ep_inv s' a e' (l ++ [x]) /\ ep_state e' = Recv /\ only_ep a s s' /\ tcbs s' !! x = Some t' /\
     payload t' = payload (set_blocking_object (Some a) (set_state BlockedOnReceive t)) /\
     (forall y, y <> x -> payload <$> tcbs s' !! y = payload <$> tcbs s !! y) /\ spares (x :: l) s s').
Proof.
  intros Hc Hi Hx Ht. split; intros Hst; [by apply (send_blocks_run s c a e l)|by apply (receive_blocks_run s c a e l)].
Qed.

(** In the dev profile every message delivery panics: [set_mr] asserts a positive register
    index, and the first register written is [Tcb::MR1], which is 0. *)
Lemma ipc_dev s c a e l x y ty blocking call b g gr :
  names s c a -> ep_inv s a e (y :: l) -> is_Some (tcbs s !! x) -> tcbs s !! y = Some ty ->
  (ep_state e = Recv -> snd (EndpointIpc.send_ipc (H := dev) blocking call b g gr x c s) = Panic) /\
  (ep_state e = Send -> x ∉ y :: l -> snd (EndpointIpc.receive_ipc (H := dev) x c blocking s) = Panic).
Proof.
  intros Hc Hi [tx Hx] Hy.
  destruct (dequeue_blocked s a e y l Hi) as (s1 & e1 & E1 & _ & _ & _ & Hy1 & [_ R1]).
  rewrite Hy in Hy1. change (tcbs s1 !! y = Some (payload ty)) in Hy1.
  assert (Hfail : forall (z w : Z) tz v cg B (k : M Ipc B), tcbs s1 !! z = Some tz ->
    snd ((do! itcbs (EndpointIpc.do_ipc_transfer (H := dev) w z v cg) in k) s1) = Panic).
  { intros z w tz v cg B k Hz. unfold bind, itcbs, iexec, ontcbs, zoom.
    pose proof (do_ipc_transfer_dev (tcbs s1) w z tz v cg Hz) as Ed. unfold tcbs in Ed. by rewrite Ed. }
  split; intros Hst; [unfold EndpointIpc.send_ipc|intros Hn; unfold EndpointIpc.receive_ipc];
    rewrite (bind_done _ _ _ _ _ (as_object_run s c a Hc)),
      (bind_done _ _ _ _ _ (ep_get_some _ _ _ (ei_at _ _ _ _ Hi))), Hst, E1.
  - by eapply Hfail.
  - rewrite (bind_done _ _ _ _ _ (itcbs_get _ _ _ Hy1)). cbv zeta.
    eapply Hfail. rewrite R1 by done. exact Hx.
Qed.

(** Message delivery.  In the release profile a send to an endpoint with waiting receivers takes
    the first receiver off the queue, copies the first four registers of the sender (not the badge)
    into it and sets up the reply link of a call; with the scheduler up the receiver is then left
    [Inactive] and the ready queue is as it was, so the message is delivered to a thread that nothing
    will run.  A receive on an endpoint with waiting senders takes the first sender off the queue and
    copies its first four registers to the receiver; the sender of a call is left waiting for the
    reply (or inactive when none can come), and the sender of a plain message is left [Inactive] with
    the ready queue as it was.  In the dev profile every delivery panics: [set_mr] asserts a positive
    register index, and the first register written is [Tcb::MR1], which is 0. *)
Lemma ipc_delivers s c a e l x y tx ty blocking call b g gr :
  names s c a -> ep_inv s a e (y :: l) -> x ∉ y :: l ->
  tcbs s !! x = Some tx -> tcbs s !! y = Some ty -> has_regs tx -> has_regs ty ->
  (ep_state e = Recv ->
   (exists s' e', EndpointIpc.send_ipc (H := release) blocking call b g gr x c s = (s', Done (Ok tt)) /\
      ep_inv s' a e' l /\ only_ep a s s' /\
      tcbs s' !! x = Some (caller_after call (g || gr) y tx) /\
      tcbs s' !! y = Some (set_state (if sched_up s then Inactive else Running)
        (callee_after call (g || gr) x
          (set_context (copy_regs 4 (context tx) (context ty)) (payload ty)))) /\
      (forall z, z <> x -> z <> y -> payload <$> tcbs s' !! z = payload <$> tcbs s !! z) /\
      spares (x :: y :: l) s s') /\
   snd (EndpointIpc.send_ipc (H := dev) blocking call b g gr x c s) = Panic) /\
  (ep_state e = Send ->
   (exists s' e', EndpointIpc.receive_ipc (H := release) x c blocking s = (s', Done (Ok tt)) /\
      ep_inv s' a e' l /\ only_ep a s s' /\
      tcbs s' !! y = Some (if is_call (ipc_state ty)
        then caller_after true (can_grant (ipc_state ty) || can_grant_reply (ipc_state ty)) x (payload ty)
        else set_state Inactive (payload ty)) /\
      tcbs s' !! x = Some (callee_after (is_call (ipc_state ty))
        (can_grant (ipc_state ty) || can_grant_reply (ipc_state ty)) y
        (set_context (copy_regs 4 (context ty) (context tx)) tx)) /\
      (forall z, z <> x -> z <> y -> payload <$> tcbs s' !! z = payload <$> tcbs s !! z) /\
      spares (x :: y :: l) s s') /\
   snd (EndpointIpc.receive_ipc (H := dev) x c blocking s) = Panic).
Proof.
  intros Hc Hi Hx Htx Hty Rx Ry.
  destruct (ipc_dev s c a e l x y ty blocking call b g gr Hc Hi (mk_is_Some _ _ Htx) Hty) as [Ds Dr].
  split; intros Hst; (split; [|by auto]).
  - by apply (send_delivers_run (B := release) s c a e l Hc eq_refl).
  - by apply (receive_delivers_run (B := release) s c a e l Hc eq_refl).
Qed.

(** Without a partner and without blocking, a send does nothing and a receive clears the register of
    the badge. *)
Lemma ipc_polls s c a e l x tx call b g gr :
  names s c a -> ep_inv s a e l -> tcbs s !! x = Some tx -> has_regs tx ->
  (forall B : Build, ep_state e <> Recv -> EndpointIpc.send_ipc false call b g gr x c s = (s, Done (Ok tt))) /\
  (ep_state e <> Send ->
   EndpointIpc.receive_ipc (H := release) x c false s =
     (with_tcbs (<[x := set_context (with_registers (<[0%nat := 0]> (registers (context tx))) (context tx)) tx]> (tcbs s)) s, Done (Ok tt)) /\
   snd (EndpointIpc.receive_ipc (H := dev) x c false s) = Panic).
Proof.
  intros Hc Hi Hx Hr. split; [intros B Hst; unfold EndpointIpc.send_ipc|intros Hst; unfold EndpointIpc.receive_ipc; split];
    rewrite (bind_done _ _ _ _ _ (as_object_run s c a Hc)), (bind_done _ _ _ _ _ (ep_get_some _ _ _ (ei_at _ _ _ _ Hi))).
  - by destruct (ep_state e).
  - destruct (ep_state e); try done.
    all: erewrite bind_done; [reflexivity|]; apply itcbs_done; unfold EndpointIpc.do_nb_recv_failed_transfer.
    all: apply (tcb_set_mr_release (B := release) eq_refl _ x tx 0 0); [done|]; unfold has_regs in Hr; lia.
  - destruct (ep_state e); try done.
    all: unfold bind at 1, itcbs, iexec, ontcbs, zoom, EndpointIpc.do_nb_recv_failed_transfer, tcb_set_mr.
    all: pose proof (tcb_get_some _ _ _ Hx) as Eg; unfold tcbs in Eg; by rewrite (bind_done _ _ _ _ _ Eg).
Qed.

(** [cancel_all_ipc] with the scheduler up terminates within one step per waiting thread and
    one more, empties the queue and makes the endpoint idle; every waiting thread becomes
    inactive, and the first ones, as many as the ready queue has room for, are queued with their
    deadlines (the others are queued nowhere). *)
Lemma cancel_all_run `{!BinaryHeapLaws} s c a e l fuel :
  names s c a -> ep_inv s a e l -> sched_up s = true -> sched_inv (i_exec s) -> (length l < fuel)%nat ->
  exists s' e', EndpointIpc.cancel_all_ipc fuel c s = (s', Done tt) /\ ep_inv s' a e' [] /\
    restarted l s s' /\ (forall b, b <> a -> i_eps s' !! b = i_eps s !! b) /\ spares l s s'.
Proof.
  intros Hc Hi Hup Hs Hf. destruct Hi as [Ha Hq Hid Hb]. unfold EndpointIpc.cancel_all_ipc.
  rewrite (bind_done _ _ _ _ _ (as_object_run s c a Hc)), (bind_done _ _ _ _ _ (ep_get_some _ _ _ Ha)).
  destruct (bool_decide_reflect (ep_state e = Idle)) as [Hidle|Hidle].
  - apply Hid in Hidle as ->. exists s, e. split_and!; try done. by apply restarted_nil.
  - destruct (cancel_all_loop_run a (waiting_state (ep_state e)) l s e fuel) as (s1 & q & E & P & Q & R & O); try done.
    { by destruct (ep_state e). }
    rewrite (bind_done _ _ _ _ _ E).
    assert (Ha1 : i_eps s1 !! a = Some (set_ep_queue q e)) by (rewrite P; apply lookup_insert_eq).
    exists (with_ep a (mkEp Idle q) s1), (mkEp Idle q). rewrite (ep_upd_some _ _ _ _ Ha1).
    split; [done|]. split; [|split_and!; [by destruct R as [? ? ? ? ? ? ?]; split| |done]].
    2: { intros b Hb'. cbn. by rewrite lookup_insert_ne, P, lookup_insert_ne. }
    split; [apply lookup_insert_eq|done|done|intros x Hx; by apply not_elem_of_nil in Hx].
Qed.

(** [cancel_badged_sends] with the scheduler up goes once through the queue of senders: the
    ones with the badge become inactive and are queued with their deadlines while the ready queue
    has room, the others stay in the queue in their order, still blocked, and the endpoint becomes
    idle when none is left.  No other endpoint and no thread outside the queue changes, and a thread
    that stays keeps everything but its links. *)
Lemma cancel_badged_run `{!BinaryHeapLaws} s c a e l b fuel :
  names s c a -> ep_inv s a e l -> ep_state e = Send -> sched_up s = true -> sched_inv (i_exec s) ->
  (length l < fuel)%nat ->
  exists s' e', EndpointIpc.cancel_badged_sends fuel c b s = (s', Done tt) /\
    ep_inv s' a e' (others b (tcbs s) l) /\ restarted (matching b (tcbs s) l) s s' /\
    (forall b', b' <> a -> i_eps s' !! b' = i_eps s !! b') /\ spares l s s' /\
    (forall y, y ∉ matching b (tcbs s) l -> payload <$> tcbs s' !! y = payload <$> tcbs s !! y).
Proof.
  intros Hc [Ha Hq Hid Hb] Hst Hup Hs Hf. unfold EndpointIpc.cancel_badged_sends.
  rewrite (bind_done _ _ _ _ _ (as_object_run s c a Hc)), (bind_done _ _ _ _ _ (ep_get_some _ _ _ Ha)).
  rewrite bool_decide_eq_true_2 by done. cbn [negb]. rewrite Hst in Hb. pose proof Hq as (Hch & Hh & _). rewrite Hh.
  destruct (cancel_badged_loop_run a b l [] s TcbQueueImpl.new fuel) as (s1 & q & E & P & Q & R & O & F); [|done|].
  { split_and!; try done; [|by eapply queue_nexts|by destruct Hch].
    split_and!; [|done|done]. split; [apply NoDup_nil_2|done]. }
  rewrite (bind_done _ _ _ _ _ E). assert (Ha1 : i_eps s1 !! a = Some e) by by rewrite P.
  rewrite (bind_done _ _ _ _ _ (ep_upd_some _ _ _ _ Ha1)). set (s2 := with_ep a (set_ep_queue q e) s1).
  destruct (idle_if_empty_run s2 a (set_ep_queue q e) (others b (tcbs s) l)) as (s3 & e3 & E3 & A3 & Q3 & S3 & T3 & O3);
    [apply lookup_insert_eq|exact Q|].
  exists s3, e3. destruct O3 as (W1 & W2 & W3 & W4). split; [done|]. split; [|split; [|split; [|split]]].
  - split; [done|by rewrite T3, Q3| |].
    + rewrite S3. cbn [set_ep_queue ep_state]. rewrite Hst. by destruct (others b (tcbs s) l).
    + rewrite T3, S3. change (tcbs s2) with (tcbs s1). intros x Hx.
      pose proof Hx as [Hxb Hxl]%list_elem_of_filter. destruct (Hb x Hxl) as (t & Ht & Hts & Hto).
      assert (Hxm : x ∉ matching b (tcbs s) l) by (intros [? _]%list_elem_of_filter; done).
      specialize (O x Hxm). rewrite Ht in O. destruct (tcbs s1 !! x) as [t'|]; [|done].
      apply (inj Some) in O. exists t'. destruct (payload_fields _ _ O) as (-> & -> & _).
      split_and!; [done| |done]. rewrite Hts. cbn [set_ep_queue ep_state]. rewrite Hst.
      by destruct (others b (tcbs s) l).
  - assert (Ee : i_exec s3 = i_exec s1) by (etrans; [exact W3|]; rewrite T3; by destruct s1 as [? ? [] ?]).
    destruct R as [B1 B2 B3 B4 B5 B6 B7]. split; rewrite ?W1, ?W2, ?Ee; try done. by rewrite T3.
  - intros b' Hb'. rewrite W4 by done. cbn. by rewrite lookup_insert_ne, P.
  - intros z Hz. rewrite T3. by apply F.
  - intros y Hy. rewrite T3. by apply O.
Qed.
End outcomes.

(** ** A concrete endpoint *)

Definition demo_ep_cap : CapRef EndpointObjT := mkCapRef 64.
(** An idle endpoint at 0x5000, the three threads of [demo_exec], and a running scheduler. *)
Definition demo_ipc : Ipc (H := ref_heap) :=
  mkIpc (H := ref_heap) {[64 := EndpointCap.mint 0x5000 7 CapRights.SEND]} {[0x5000 := EndpointObj_new]}
    demo_exec true.

Lemma demo_names : names (H := ref_heap) demo_ipc demo_ep_cap 0x5000.
Proof. eexists. split; [reflexivity|]. split; [lia|reflexivity]. Qed.

Lemma demo_ep_inv : ep_inv (H := ref_heap) demo_ipc 0x5000 EndpointObj_new [].
Proof.
  split; [done| |done|intros x Hx; by apply not_elem_of_nil in Hx].
  split_and!; [|done|done]. split; [apply NoDup_nil_2|done].
Qed.

(** ** The properties *)

Module Claims.
Section claims.
Context `{BinaryHeap} `{X86AddrLaws}.
Implicit Types (s : Ipc).

(** C24: sending and receiving.  A blocking send on an endpoint without waiting receivers, and a blocking
    receive on one without waiting senders, put the thread at the end of the endpoint's queue, blocked
    on the endpoint in the matching state (with the badge, grant rights and call flag of a send
    recorded), in both build profiles; the queue stays a well-formed list in arrival order.  Without
    blocking, such a send does nothing and such a receive clears the register of the badge.  With a partner waiting, in the release profile, a send takes the first receiver off
    the queue, copies the first four registers of the sender (not the badge) into it and sets up the
    reply link of a call; with the scheduler up the receiver is then left [Inactive] and the ready queue
    is as it was, so the message is delivered to a thread that nothing will run.  A receive takes the
    first sender off the queue and copies its first four registers to the receiver; the sender of a
    call is left waiting for the reply (or inactive when none can come), and the sender of a plain
    message is left [Inactive] with the ready queue as it was.  In the dev profile every delivery, and
    every receive that finds no sender and does not block, panics: [set_mr] asserts a positive register
    index, and the first register written is [Tcb::MR1], which is 0.  No other endpoint and no other
    thread changes, apart from the links of the threads in the queue. *)
Theorem ipc_send_receive s c a e l x tx blocking call b g gr :
  names s c a -> ep_inv s a e l -> x ∉ l -> tcbs s !! x = Some tx -> has_regs tx ->
  (forall B : Build,
   (ep_state e <> Recv ->
    exists s' e' t', EndpointIpc.send_ipc true call b g gr x c s = (s', Done (Ok tt)) /\
      ep_inv s' a e' (l ++ [x]) /\ ep_state e' = Send /\ only_ep a s s' /\ tcbs s' !! x = Some t' /\
      payload t' = payload (set_blocking_object (Some a) (set_state BlockedOnSend
                     (set_ipc_state (mkIpcState b g gr call) tx))) /\
      (forall y, y <> x -> payload <$> tcbs s' !! y = payload <$> tcbs s !! y) /\ spares (x :: l) s s') /\
   (ep_state e <> Send ->
    exists s' e' t', EndpointIpc.receive_ipc x c true s = (s', Done (Ok tt)) /\
      ep_inv s' a e' (l ++ [x]) /\ ep_state e' = Recv /\ only_ep a s s' /\ tcbs s' !! x = Some t' /\
      payload t' = payload (set_blocking_object (Some a) (set_state BlockedOnReceive tx)) /\
      (forall y, y <> x -> payload <$> tcbs s' !! y = payload <$> tcbs s !! y) /\ spares (x :: l) s s')) /\
  ((forall B : Build, ep_state e <> Recv -> EndpointIpc.send_ipc false call b g gr x c s = (s, Done (Ok tt))) /\
   (ep_state e <> Send ->
    EndpointIpc.receive_ipc (H := release) x c false s =
      (with_tcbs (<[x := set_context (with_registers (<[0%nat := 0]> (registers (context tx))) (context tx)) tx]> (tcbs s)) s, Done (Ok tt)) /\
    snd (EndpointIpc.receive_ipc (H := dev) x c false s) = Panic)) /\
  (forall y l' ty, l = y :: l' -> tcbs s !! y = Some ty -> has_regs ty ->
   (ep_state e = Recv ->
    (exists s' e', EndpointIpc.send_ipc (H := release) blocking call b g gr x c s = (s', Done (Ok tt)) /\
       ep_inv s' a e' l' /\ only_ep a s s' /\
       tcbs s' !! x = Some (caller_after call (g || gr) y tx) /\
       tcbs s' !! y = Some (set_state (if sched_up s then Inactive else Running)
         (callee_after call (g || gr) x
           (set_context (copy_regs 4 (context tx) (context ty)) (payload ty)))) /\
       (forall z, z <> x -> z <> y -> payload <$> tcbs s' !! z = payload <$> tcbs s !! z) /\
       spares (x :: y :: l') s s') /\
    snd (EndpointIpc.send_ipc (H := dev) blocking call b g gr x c s) = Panic) /\
   (ep_state e = Send ->
    (exists s' e', EndpointIpc.receive_ipc (H := release) x c blocking s = (s', Done (Ok tt)) /\
       ep_inv s' a e' l' /\ only_ep a s s' /\
       tcbs s' !! y = Some (if is_call (ipc_state ty)
         then caller_after true (can_grant (ipc_state ty) || can_grant_reply (ipc_state ty)) x (payload ty)
         else set_state Inactive (payload ty)) /\
       tcbs s' !! x = Some (callee_after (is_call (ipc_state ty))
         (can_grant (ipc_state ty) || can_grant_reply (ipc_state ty)) y
         (set_context (copy_regs 4 (context ty) (context tx)) tx)) /\
       (forall z, z <> x -> z <> y -> payload <$> tcbs s' !! z = payload <$> tcbs s !! z) /\
       spares (x :: y :: l') s s') /\
    snd (EndpointIpc.receive_ipc (H := dev) x c blocking s) = Panic)).
Proof.
  intros Hc Hi Hx Ht Hr. split_and!.
  - intros B. by apply (ipc_blocks_in_order B s c a e l).
  - by apply (ipc_polls s c a e l x tx).
  - by apply (ipc_polls s c a e l x tx call b g gr).
  - intros y l' ty -> Hy Ry. by apply (ipc_delivers s c a e l').
Qed.

(** C15: cancellation.  [cancel_ipc] of a thread waiting on an endpoint removes exactly that thread from
    the queue, wherever it is, keeps the order of the others, makes the endpoint idle when the last
    thread leaves, and leaves the thread inactive and blocked on nothing.  With the scheduler up,
    [cancel_all_ipc] terminates within one step per waiting thread and one more, empties the queue and
    makes the endpoint idle; every waiting thread becomes inactive, and the first ones, as many as the
    ready queue has room for, are queued with their deadlines (the others are queued nowhere).
    [cancel_badged_sends] goes once through the queue of senders: the ones with the badge are treated
    that way, the others stay in the queue in their order, still blocked, and the endpoint becomes
    idle when none is left.  No other endpoint and no thread outside the queue changes, and a thread
    that stays keeps everything but its links. *)
Theorem cancellation `{!BinaryHeapLaws} s a e l :
  ep_inv s a e l ->
  (forall l1 x l2 t, l = l1 ++ x :: l2 -> tcbs s !! x = Some t ->
   exists s' e', EndpointIpc.cancel_ipc x s = (s', Done tt) /\ ep_inv s' a e' (l1 ++ l2) /\
     only_ep a s s' /\ tcbs s' !! x = Some (set_blocking_object None (set_state Inactive (payload t))) /\
     (forall y, y <> x -> payload <$> tcbs s' !! y = payload <$> tcbs s !! y) /\ spares l s s') /\
  (forall c fuel, names s c a -> sched_up s = true -> sched_inv (i_exec s) -> (length l < fuel)%nat ->
   (exists s' e', EndpointIpc.cancel_all_ipc fuel c s = (s', Done tt) /\ ep_inv s' a e' [] /\
      restarted l s s' /\ (forall b, b <> a -> i_eps s' !! b = i_eps s !! b) /\ spares l s s') /\
   (forall b, ep_state e = Send ->
    exists s' e', EndpointIpc.cancel_badged_sends fuel c b s = (s', Done tt) /\
      ep_inv s' a e' (others b (tcbs s) l) /\ restarted (matching b (tcbs s) l) s s' /\
      (forall b', b' <> a -> i_eps s' !! b' = i_eps s !! b') /\ spares l s s' /\
      (forall y, y ∉ matching b (tcbs s) l -> payload <$> tcbs s' !! y = payload <$> tcbs s !! y))).
Proof.
  intros Hi. split.
  - intros l1 x l2 t -> Ht. by apply (cancel_ipc_run s a e l1 x l2 t).
  - intros c fuel Hc Hup Hs Hf. split; [by eapply cancel_all_run|]. intros b Hst. by eapply cancel_badged_run.
Qed.
End claims.

(** *** Witnesses: the endpoint of [demo_ipc] *)

(** A receiver waits, then a sender. *)
Lemma demo_waiting (send : bool) :
  exists s e t, names (H := ref_heap) s demo_ep_cap 0x5000 /\ ep_inv (H := ref_heap) s 0x5000 e [2048] /\
    ep_state e = (if send then Send else Recv) /\ tcbs (H := ref_heap) s !! 2048 = Some t /\ has_regs t /\
    tcbs (H := ref_heap) s !! 1024 = Some (demo_tcb Running 1).
Proof.
  destruct send.
  - destruct (send_blocks_run (B := release) (H := ref_heap) (H1 := ref_x86addr_laws) demo_ipc demo_ep_cap
      0x5000 EndpointObj_new [] demo_names 2048 (demo_tcb Inactive 2) false 7 false false demo_ep_inv
      ltac:(discriminate) (not_elem_of_nil _) eq_refl) as (s & e & t & E & I & St & O & Ht & Hp & Hy).
    exists s, e, t. destruct O as (O1 & _). split_and!; try done.
    + destruct demo_names as (r & Hr & Ha). exists r. by rewrite O1.
    + destruct (payload_fields _ _ Hp) as (_ & _ & _ & Hctx & _). unfold has_regs. rewrite Hctx. vm_compute. lia.
    + vm_compute in E. injection E as <-. reflexivity.
  - destruct (receive_blocks_run (B := release) (H := ref_heap) (H1 := ref_x86addr_laws) demo_ipc demo_ep_cap
      0x5000 EndpointObj_new [] demo_names 2048 (demo_tcb Inactive 2) demo_ep_inv
      ltac:(discriminate) (not_elem_of_nil _) eq_refl) as (s & e & t & E & I & St & O & Ht & Hp & Hy).
    exists s, e, t. destruct O as (O1 & _). split_and!; try done.
    + destruct demo_names as (r & Hr & Ha). exists r. by rewrite O1.
    + destruct (payload_fields _ _ Hp) as (_ & _ & _ & Hctx & _). unfold has_regs. rewrite Hctx. vm_compute. lia.
    + vm_compute in E. injection E as <-. reflexivity.
Qed.

Lemma demo_regs : has_regs (demo_tcb Running 1).
Proof. vm_compute. lia. Qed.

Lemma ipc_send_receive_witness :
  (exists s' e', EndpointIpc.send_ipc (H := dev) (H0 := ref_heap) (H1 := ref_x86addr) true false 7 false false 1024
      demo_ep_cap demo_ipc = (s', Done (Ok tt)) /\ ep_inv (H := ref_heap) s' 0x5000 e' [1024] /\ ep_state e' = Send) /\
  (exists s s' e', EndpointIpc.send_ipc (H := release) (H0 := ref_heap) (H1 := ref_x86addr) true false 7 false false 1024
      demo_ep_cap s = (s', Done (Ok tt)) /\ ep_inv (H := ref_heap) s' 0x5000 e' []) /\
  exists s s' e', EndpointIpc.receive_ipc (H := release) (H0 := ref_heap) (H1 := ref_x86addr) 1024 demo_ep_cap true s
      = (s', Done (Ok tt)) /\ ep_inv (H := ref_heap) s' 0x5000 e' [].
Proof.
  split_and!.
  - destruct (ipc_send_receive (H := ref_heap) (H0 := ref_x86addr) (H1 := ref_x86addr_laws) demo_ipc demo_ep_cap 0x5000 EndpointObj_new []
      1024 (demo_tcb Running 1) true false 7 false false demo_names demo_ep_inv (not_elem_of_nil _) eq_refl demo_regs) as (Hb & _).
    destruct (Hb dev) as [(s' & e' & t' & E & I & St & _) _]; [discriminate|]. exists s', e'. by split_and!.
  - destruct (demo_waiting false) as (s & e & t & Hn & Hi & Hst & Ht & Hr & Hx).
    destruct (ipc_send_receive (H := ref_heap) (H0 := ref_x86addr) (H1 := ref_x86addr_laws) s demo_ep_cap 0x5000 e [2048]
      1024 _ true false 7 false false Hn Hi ltac:(set_solver) Hx demo_regs) as (_ & _ & Hd).
    destruct (Hd 2048 [] t eq_refl Ht Hr) as [Hs _].
    destruct (Hs Hst) as [(s' & e' & E & I & _) _]. exists s, s', e'. by split.
  - destruct (demo_waiting true) as (s & e & t & Hn & Hi & Hst & Ht & Hr & Hx).
    destruct (ipc_send_receive (H := ref_heap) (H0 := ref_x86addr) (H1 := ref_x86addr_laws) s demo_ep_cap 0x5000 e [2048]
      1024 _ true false 7 false false Hn Hi ltac:(set_solver) Hx demo_regs) as (_ & _ & Hd).
    destruct (Hd 2048 [] t eq_refl Ht Hr) as [_ Hs].
    destruct (Hs Hst) as [(s' & e' & E & I & _) _]. exists s, s', e'. by split.
Defined.

(** A thread blocked on the endpoint, in the scheduler of [full_exec]. *)
Definition blocked_tcb : Tcb :=
  set_blocking_object (Some 0x5000) (set_ipc_state (mkIpcState 7 false false false) (demo_tcb BlockedOnSend 2)).
Definition blocked_ipc : Ipc (H := ref_heap) :=
  mkIpc (H := ref_heap) {[64 := EndpointCap.mint 0x5000 7 CapRights.SEND]}
    {[0x5000 := mkEp Send (mkQueue (Some 2048) (Some 2048))]}
    (mkExec (H := ref_heap) {[2048 := blocked_tcb]} demo_ctxs [] None None) true.

Lemma blocked_names : names (H := ref_heap) blocked_ipc demo_ep_cap 0x5000.
Proof. eexists. split; [reflexivity|]. split; [lia|reflexivity]. Qed.

Lemma blocked_inv :
  ep_inv (H := ref_heap) blocked_ipc 0x5000 (mkEp Send (mkQueue (Some 2048) (Some 2048))) [2048] /\
  sched_inv (H0 := ref_heap_laws) (i_exec blocked_ipc).
Proof.
  split; split; try done.
  - split_and!; [|done|done]. split; [apply NoDup_singleton|done].
  - intros x ->%list_elem_of_singleton. by exists blocked_tcb.
  - cbn. lia.
  - apply NoDup_nil_2.
  - intros e He. by apply not_elem_of_nil in He.
  - intros a t p Ht Hp. change (({[2048 := blocked_tcb]} : Tcbs) !! a = Some t) in Ht.
    apply lookup_singleton_Some in Ht as [<- <-]. injection Hp as <-. by eexists.
Qed.

Lemma cancellation_witness :
  (exists s' e', EndpointIpc.cancel_all_ipc (H0 := ref_heap) (H1 := ref_x86addr) 2 demo_ep_cap blocked_ipc = (s', Done tt) /\
    ep_inv (H := ref_heap) s' 0x5000 e' []) /\
  exists s' e', EndpointIpc.cancel_badged_sends (H0 := ref_heap) (H1 := ref_x86addr) 2 demo_ep_cap 7 blocked_ipc = (s', Done tt) /\
    ep_inv (H := ref_heap) s' 0x5000 e' [].
Proof.
  destruct (cancellation (H := ref_heap) (H0 := ref_x86addr) (H1 := ref_x86addr_laws) (H2 := ref_heap_laws) blocked_ipc
    0x5000 _ [2048] (proj1 blocked_inv)) as [_ Hc].
  destruct (Hc demo_ep_cap 2%nat blocked_names eq_refl (proj2 blocked_inv) ltac:(simpl; lia)) as [(s1 & e1 & E1 & I1 & _) Hb].
  destruct (Hb 7 eq_refl) as (s2 & e2 & E2 & I2 & _). split; [by exists s1, e1|]. exists s2, e2. split; [exact E2|exact I2].
Defined.

End Claims.
