(* ===== verification/System.v ===== *)
(** IPC and scheduling together: [src/kernel/src/objects/endpoint.rs] and
    [src/kernel/src/scheduler/executor.rs] on one set of threads.

    The executor and the endpoints hold threads by pointer and record in the TCB what a thread waits
    for.  [sys_inv] says that these records agree: a thread is current, or ready, or in the queue of
    one endpoint, and a thread that is blocked on an endpoint is in its queue.  [sys_step] is one call
    into the executor or one IPC operation, with what a caller has to observe, and the claim is that no
    sequence of them breaks the agreement. *)
From S2P Require Import Prelude Errors Caps Dll CNode Tcb Scheduler Endpoint.

(** Waiting in the queue of an endpoint. *)
Definition waiting (st : ThreadState) : Prop := st = BlockedOnSend \/ st = BlockedOnReceive.

#[export] Instance waiting_dec st : Decision (waiting st) := _.

(** ** Changes that leave the queues alone *)

(** [t] becomes [t']: the links are kept, and so is what a waiting thread waits for; only threads that
    do not wait change their state, and none starts to wait. *)
Record tame (t t' : Tcb) : Prop := {
  tame_link : link t' = link t;
  tame_ctx : sched_context t' = sched_context t;
  tame_regs : has_regs t -> has_regs t';
  tame_state : (state t' = state t /\ blocking_object t' = blocking_object t) \/
    (~ waiting (state t) /\ ~ waiting (state t'))
}.

#[export] Instance tame_preorder : PreOrder tame.
Proof.
  split; [by intros t; split; auto|].
  intros t1 t2 t3 [A1 A2 A3 A4] [B1 B2 B3 B4]. split; [congruence|congruence|auto|].
  destruct A4 as [[E1 E2]|[N1 N2]], B4 as [[E3 E4]|[N3 N4]].
  - left. split; congruence.
  - right. by rewrite <- E1.
  - right. by rewrite E3.
  - by right.
Qed.

Lemma tame_set_state t st : ~ waiting (state t) -> ~ waiting st -> tame t (set_state st t).
Proof. intros H1 H2. by split; auto. Qed.

(** Every thread of [m] changes tamely. *)
Definition calm (m m' : Tcbs) : Prop := forall z, option_Forall2 tame (m !! z) (m' !! z).

#[export] Instance calm_preorder : PreOrder calm.
Proof. split; [by intros m z|]. intros m1 m2 m3 H1 H2 z. by transitivity (m2 !! z). Qed.

Lemma calm_insert m z t t' : m !! z = Some t -> tame t t' -> calm m (<[z := t']> m).
Proof.
  intros Hz Ht y. rewrite lookup_insert. case_decide as E; [|done]. subst y. rewrite Hz. by constructor.
Qed.

Lemma calm_get m m' z t : calm m m' -> m !! z = Some t -> exists t', m' !! z = Some t' /\ tame t t'.
Proof. intros Hc Hz. specialize (Hc z). rewrite Hz in Hc. inversion Hc; subst. by eexists. Qed.

Lemma calm_back m m' z t' : calm m m' -> m' !! z = Some t' -> exists t, m !! z = Some t /\ tame t t'.
Proof. intros Hc Hz. specialize (Hc z). rewrite Hz in Hc. inversion Hc; subst. by eexists. Qed.

Create HintDb calm.
#[export] Hint Resolve tame_set_state : calm.

(** ** The executor's calls *)

Section exec.
Context `{BinaryHeapLaws}.
Implicit Types (s : Exec).

(** The idle thread does not wait on an endpoint. *)
Definition idle_free s : Prop :=
  forall i t, idle s = Some i -> e_tcbs s !! i = Some t -> ~ waiting (state t).

Definition calm_exec s s' : Prop := calm (e_tcbs s) (e_tcbs s') /\ idle s' = idle s.

#[global] Instance calm_exec_preorder : PreOrder calm_exec.
Proof.
  split; [done|]. intros s1 s2 s3 [A1 A2] [B1 B2]. split; [by transitivity (e_tcbs s2)|congruence].
Qed.

Lemma running_free : ~ waiting Running.
Proof. by intros [?|?]. Qed.
Lemma inactive_free : ~ waiting Inactive.
Proof. by intros [?|?]. Qed.
#[local] Hint Resolve running_free inactive_free : calm.

Lemma calm_state s z t st :
  e_tcbs s !! z = Some t -> ~ waiting (state t) -> ~ waiting st ->
  calm_exec s (set_tcbs (<[z := set_state st t]> (e_tcbs s)) s).
Proof. intros Hz H1 H2. split; [|done]. by eapply calm_insert; [|apply tame_set_state]. Qed.

Lemma ontcbs_upd_inv s s' z f r :
  ontcbs (tcb_upd z f) s = (s', Done r) ->
  exists t, e_tcbs s !! z = Some t /\ s' = set_tcbs (<[z := f t]> (e_tcbs s)) s.
Proof.
  destruct (e_tcbs s !! z) as [t|] eqn:Hz.
  - rewrite (ontcbs_upd _ _ _ _ Hz). intros [= <- _]. by exists t.
  - unfold ontcbs, zoom, tcb_upd. by rewrite Hz.
Qed.

Lemma ontcbs_get_inv s s' z t : ontcbs (tcb_get z) s = (s', Done t) -> s' = s /\ e_tcbs s !! z = Some t.
Proof.
  destruct (e_tcbs s !! z) as [t'|] eqn:Hz.
  - rewrite (ontcbs_get _ _ _ Hz). by intros [= <- <-].
  - unfold ontcbs, zoom, tcb_get. by rewrite Hz.
Qed.

Lemma push_or_inv {A} en (ok : M Exec A) s s' r :
  Executor.push_or en panic ok s = (s', Done r) -> exists h, ok (set_ready h s) = (s', Done r).
Proof. unfold Executor.push_or. destruct (heap_push en (ready s)) as [h|]; [by exists h|done]. Qed.

Lemma switch_calm next s s' t tr :
  e_tcbs s !! e_tcb next = Some t -> ~ waiting (state t) ->
  Executor.context_switch next s = (s', Done tr) -> calm_exec s s'.
Proof.
  intros Ht Hw. intros (? & cur & [= <- <-] & E)%bind_inv. apply bind_inv in E as (? & [] & [= <-] & E).
  apply bind_inv in E as (s1 & [] & E1 & E). apply bind_inv in E as (s2 & [] & E2 & E).
  apply bind_inv in E as (s3 & [] & [= <-] & [= <- _]).
  assert (C1 : calm_exec s s1).
  { destruct (current s) as [cur|]; [|by injection E1 as <-].
    apply bind_inv in E1 as (? & tc & [-> Hc]%ontcbs_get_inv & E1). cbn [e_tcbs set_current] in Hc.
    destruct (bool_decide_reflect (state tc = Running)) as [Hr|]; [|by injection E1 as <-].
    apply bind_inv in E1 as (? & [] & (tc' & Hc' & ->)%ontcbs_upd_inv & (h & [= <-])%push_or_inv).
    cbn [e_tcbs set_current] in Hc'. rewrite Hc in Hc'. injection Hc' as <-.
    apply (calm_state s _ tc); rewrite ?Hr; auto with calm. }
  apply ontcbs_upd_inv in E2 as (t1 & Ht1 & ->). transitivity s1; [done|].
  destruct (calm_get _ _ _ _ (proj1 C1) Ht) as (t1' & Ht1' & [_ _ _ S1]). rewrite Ht1 in Ht1'. injection Ht1' as <-.
  apply (calm_state s1 _ t1); auto with calm. destruct S1 as [[-> _]|[_ ?]]; done.
Qed.

Lemma schedule_calm s s' tr :
  sched_inv s -> idle_free s -> Executor.schedule s = (s', Done tr) -> calm_exec s s'.
Proof.
  intros Hi Hf. unfold Executor.schedule. destruct (decide (contents (ready s) = [])) as [He|He].
  - rewrite heap_pop_empty by done. destruct (idle s) as [i|] eqn:Hid; [|by intros [= <- _]].
    destruct (inv_idle s Hi i Hid) as [t Ht]. apply (switch_calm (mkEntry U64_MAX i) s s' t tr Ht). by eapply Hf.
  - destruct (heap_pop_top (ready s) He) as (next & h & -> & Hp & _).
    destruct (inv_ready s Hi next) as (t & Ht & Hst); [rewrite Hp; set_solver|].
    intros E. apply (switch_calm next (set_ready h s) s' t tr Ht) in E; [done|]. rewrite Hst. auto with calm.
Qed.
Lemma calm_idle s s' : calm_exec s s' -> idle_free s -> idle_free s'.
Proof.
  intros [Hc Hid] Hf i t Hi Ht. rewrite Hid in Hi. destruct (calm_back _ _ _ _ Hc Ht) as (t0 & Ht0 & [_ _ _ S]).
  destruct S as [[-> _]|[_ ?]]; [by eapply Hf|done].
Qed.

(** Giving up the processor: the current thread changes its state, and another one is started. *)
Lemma leave_calm s s1 s' tr :
  calm_exec s s1 -> sched_inv s1 -> idle_free s -> Executor.schedule s1 = (s', Done tr) -> calm_exec s s'.
Proof. intros C1 Hi1 Hf E. transitivity s1; [done|]. eapply schedule_calm; [done|by eapply calm_idle|done]. Qed.

Lemma yield_calm s s' tr :
  sched_inv s -> idle_free s -> Executor.yield_current s = (s', Done tr) -> calm_exec s s'.
Proof.
  intros Hi Hf E. destruct (current s) as [cur|] eqn:Hc.
  2: { unfold Executor.yield_current in E. rewrite (bind_done _ _ _ s (current s)), Hc in E by done.
       rewrite (bind_done _ _ _ (set_current None s) tt), bind_ret, drop_none in E by done. by eapply schedule_calm. }
  destruct (Nat.lt_ge_cases (length (contents (ready s))) MAX_TCB_PER_CORE) as [Hl|Hl].
  2: { pose proof (inv_cap s Hi). pose proof (yield_full s cur Hi Hc ltac:(lia)) as Hp. by rewrite E in Hp. }
  destruct (park_run s cur Hi Hc Hl) as (t & h & Ht & Hr & Hpush & Hi' & _).
  set (s1 := mkExec (<[e_tcb cur := set_state Inactive t]> (e_tcbs s)) (e_ctxs s) h None (idle s)) in *.
  unfold Executor.yield_current in E. rewrite (bind_done _ _ _ s (current s)), Hc in E by done.
  rewrite (bind_done _ _ _ (set_current None s) tt) in E by done. rewrite (bind_done _ _ _ s1 tt) in E.
  2: { erewrite bind_done by (by apply ontcbs_upd). unfold Executor.push_or. cbn [ready set_tcbs set_current]. by rewrite Hpush. }
  apply (leave_calm s s1 s' tr); [|done..]. apply (calm_state s (e_tcb cur) t); rewrite ?Hr; auto with calm.
Qed.

Lemma block_calm s st s' tr :
  sched_inv s -> idle_free s -> ~ waiting st ->
  Executor.block_current st s = (s', Done tr) -> calm_exec s s'.
Proof.
  intros Hi Hf Hw E. destruct (Executor.is_blocked st) eqn:Hb.
  2: { unfold Executor.block_current in E. by rewrite Hb in E. }
  destruct (current s) as [cur|] eqn:Hc.
  2: { unfold Executor.block_current in E. rewrite Hb, (bind_done _ _ _ s tt), (bind_done _ _ _ s (current s)), Hc in E by done.
       rewrite (bind_done _ _ _ (set_current None s) tt), bind_ret, drop_none in E by done. by eapply schedule_calm. }
  destruct (inv_current s Hi cur Hc) as (t & Ht & Hr).
  rewrite (block_run s cur t st Hc Ht Hb) in E. apply (leave_calm s _ s' tr) in E; [done| |by apply block_inv|done].
  apply (calm_state s (e_tcb cur) t); rewrite ?Hr; auto with calm.
Qed.

Lemma inc_tick_calm `{Build} s s' r : Executor.inc_tick s = (s', Done r) -> calm_exec s s' /\ current s' = current s /\ ready s' = ready s.
Proof.
  intros (? & cur & [= <- <-] & E)%bind_inv. destruct (current s) as [cur|] eqn:Hc; [|by injection E as <- _].
  apply bind_inv in E as (? & t & [-> _]%ontcbs_get_inv & E). destruct (sched_context t) as [sc|]; [|by injection E as <- _].
  apply bind_inv in E as (? & ctxs & [= <- <-] & E). apply bind_inv in E as (s1 & c & E1 & E).
  assert (s1 = s) as -> by (destruct (e_ctxs s !! sc); by injection E1).
  apply bind_inv in E as (s1 & n & E2 & E). unfold add64, arith64 in E2.
  assert (s1 = s) as -> by (destruct (_ && _); [|destruct debug_build]; by injection E2). by injection E as <- _.
Qed.

Lemma preempt_calm `{Build} s s' o : sched_inv s -> Executor.preempt s = (s', Done o) -> calm_exec s s'.
Proof.
  intros Hi (s1 & [] & (C1 & Hc1 & Hr1)%inc_tick_calm & E)%bind_inv. apply bind_inv in E as (? & p & [= <- <-] & E).
  destruct (Executor.should_preempt s1); [|by injection E as <- _]. cbn [negb] in E. transitivity s1; [done|].
  destruct (heap_pop (ready s1)) as [[next h]|] eqn:Hp; [|done]. apply bind_inv in E as (s2 & tr & E & [= <- _]).
  rewrite Hr1 in Hp. destruct (decide (contents (ready s) = [])) as [He|He]; [by rewrite heap_pop_empty in Hp|].
  destruct (heap_pop_top (ready s) He) as (next' & h' & Hp' & Hpm & _). rewrite Hp in Hp'. injection Hp' as <- <-.
  destruct (inv_ready s Hi next) as (t & Ht & Hst); [rewrite Hpm; set_solver|].
  destruct (calm_get _ _ _ _ (proj1 C1) Ht) as (t1 & Ht1 & [_ _ _ S1]).
  apply (switch_calm next (set_ready h s1) s2 t1 tr Ht1) in E; [done|].
  destruct S1 as [[-> _]|[_ ?]]; [rewrite Hst; auto with calm|done].
Qed.

(** A call into the executor that observes the conditions of [sched_step] and keeps away from the
    threads that wait on endpoints: these are neither woken by [wake] nor made the idle thread, and
    [block_current] is not used to enter their state, which is for [send_ipc] and [receive_ipc] to do.
    The code checks none of this. *)
Inductive exec_step `{Build} s s' : Prop :=
| ex_enqueue a t r :
    e_tcbs s !! a = Some t -> a ∉ e_tcb <$> contents (ready s) ->
    Executor.enqueue a s = (s', Done r) -> exec_step s s'
| ex_wake a t r :
    e_tcbs s !! a = Some t -> ~ waiting (state t) -> Executor.wake a s = (s', Done r) -> exec_step s s'
| ex_preempt o :
    Executor.preempt s = (s', Done o) -> exec_step s s'
| ex_yield tr :
    Executor.yield_current s = (s', Done tr) -> exec_step s s'
| ex_block st tr :
    ~ waiting st -> Executor.block_current st s = (s', Done tr) -> exec_step s s'
| ex_run tr :
    not_idling s -> Executor.run s = (s', Done tr) -> exec_step s s'
| ex_set_idle a t :
    e_tcbs s !! a = Some t -> state t <> Running -> ~ waiting (state t) ->
    Executor.set_idle a s = (s', Done tt) -> exec_step s s'.

Lemma exec_step_inv `{Build} s s' : exec_step s s' -> sched_inv s -> sched_inv s'.
Proof.
  intros Hs. apply sched_step_inv.
  destruct Hs; [by eapply step_enqueue|by eapply step_wake|by eapply step_preempt|by eapply step_yield|
    by eapply step_block|by eapply step_run|by eapply step_set_idle].
Qed.

(** What the executor does with its threads is calm. *)
Lemma exec_step_calm `{Build} s s' :
  exec_step s s' -> sched_inv s -> idle_free s -> calm (e_tcbs s) (e_tcbs s') /\ idle_free s'.
Proof.
  intros Hs Hi Hf.
  assert (Hfin : calm_exec s s' -> calm (e_tcbs s) (e_tcbs s') /\ idle_free s')
    by (intros Hc; split; [apply Hc|by eapply calm_idle]).
  destruct Hs as [a t r Ht Hn E|a t r Ht Hw E|o E|tr E|st tr Hw E|tr Hc E|a t Ht Hr Hw E].
  - apply Hfin. rewrite (enqueue_run s a t Hi Ht) in E. destruct (bool_decide _); [|by injection E as <- _].
    destruct (heap_push _ _); by injection E as <- _.
  - apply Hfin. rewrite (wake_run s a t Hi Ht) in E. destruct (Executor.is_blocked (state t)); [|by injection E as <- _].
    cbv zeta in E. destruct (heap_push _ _); injection E as <- _; (apply (calm_state s a t); auto with calm).
  - apply Hfin. by eapply preempt_calm.
  - apply Hfin. by eapply yield_calm.
  - apply Hfin. by eapply block_calm.
  - apply Hfin. by eapply schedule_calm.
  - unfold Executor.set_idle in E. apply bind_inv in E as (s1 & [] & (t' & Ht' & ->)%ontcbs_upd_inv & [= <-]).
    rewrite Ht in Ht'. injection Ht' as <-. split; [apply (calm_state s a t); auto with calm|].
    intros i ti [= <-]. cbn [e_tcbs set_tcbs set_idle_field]. rewrite lookup_insert_eq. intros [= <-]. apply inactive_free.
Qed.
End exec.

(** ** Threads and endpoints *)

Section system.
Context `{BinaryHeapLaws}.
Implicit Types (s : Ipc) (a x z : Z) (t : Tcb) (Q : Z -> list Z).

(** The system is in order, with the threads [Q a] waiting on the endpoint [a]. *)
Record sys_inv Q s : Prop := {
  sy_up : sched_up s = true;
  sy_sched : sched_inv (i_exec s);
  sy_idle : idle_free (i_exec s);
  sy_regs : forall x t, tcbs s !! x = Some t -> has_regs t;
  sy_queues : forall a e, i_eps s !! a = Some e -> ep_inv s a e (Q a);
  sy_waiting : forall x t, tcbs s !! x = Some t -> waiting (state t) ->
    exists a, blocking_object t = Some a /\ is_Some (i_eps s !! a) /\ x ∈ Q a
}.

(** The threads of a queue wait on its endpoint. *)
Lemma queued_waits s a e l x :
  ep_inv s a e l -> x ∈ l ->
  exists t, tcbs s !! x = Some t /\ waiting (state t) /\ blocking_object t = Some a.
Proof.
  intros Hi Hx. destruct (ei_blocked _ _ _ _ Hi x Hx) as (t & Ht & Hst & Hb). exists t. split_and!; try done.
  rewrite Hst. destruct (ep_state e); [by left|by left|by right].
Qed.

(** An endpoint whose threads are the same is in order. *)
Lemma ep_inv_same s s' a e l :
  ep_inv s a e l -> i_eps s' !! a = Some e -> (forall z, z ∈ l -> tcbs s' !! z = tcbs s !! z) -> ep_inv s' a e l.
Proof.
  intros Hi Ha Hz. destruct (ep_inv_outside s a e l (tcbs s') Hi Hz) as [_ Hq Hid Hb]. by split.
Qed.

Lemma ep_inv_calm s s' a e l :
  ep_inv s a e l -> i_eps s' !! a = Some e -> calm (tcbs s) (tcbs s') -> ep_inv s' a e l.
Proof.
  intros Hi Ha Hc. pose proof Hi as [_ (Hch & Hh & Htl) Hid Hb]. split; [done|split_and!|done|]; try done.
  - eapply chain_ext; [|exact Hch]. intros z Hz. destruct (Hb z Hz) as (t & Ht & _).
    destruct (calm_get _ _ _ _ Hc Ht) as (t' & Ht' & [El _ _ _]). rewrite !links_lookup, Ht, Ht'. cbn. by f_equal.
  - intros z Hz. destruct (queued_waits _ _ _ _ _ Hi Hz) as (t & Ht & Hw & _). destruct (Hb z Hz) as (t0 & Ht0 & Hst & Hbo).
    rewrite Ht in Ht0. injection Ht0 as <-. destruct (calm_get _ _ _ _ Hc Ht) as (t' & Ht' & [_ _ _ S]).
    exists t'. split; [done|]. destruct S as [[-> ->]|[? _]]; [done|]. done.
Qed.

(** A calm change of the threads, whatever the executor does. *)
Lemma sys_calm Q s s' :
  sys_inv Q s -> sched_up s' = true -> sched_inv (i_exec s') -> idle_free (i_exec s') ->
  i_eps s' = i_eps s -> calm (tcbs s) (tcbs s') -> sys_inv Q s'.
Proof.
  intros [C1 C2 C3 C4 C5 C6] Hup Hs Hf He Hc. split; try done.
  - intros x t' Ht'. destruct (calm_back _ _ _ _ Hc Ht') as (t & Ht & [_ _ Hr _]). by eapply Hr, C4.
  - intros a e Ha. rewrite He in Ha. eapply ep_inv_calm; [by apply C5|by rewrite He|done].
  - intros x t' Ht' Hw. destruct (calm_back _ _ _ _ Hc Ht') as (t & Ht & [_ _ _ S]). rewrite He.
    destruct S as [[E1 E2]|[_ ?]]; [|done]. rewrite E2. apply (C6 x t Ht). by rewrite <- E1.
Qed.

(** A change at the endpoint [a], of the threads of [L] only: they were waiting there or nowhere, and
    those that wait now do so in the new queue [l']. *)
Lemma sys_touch Q s s' a e' l' L :
  sys_inv Q s -> sched_up s' = true -> sched_inv (i_exec s') -> idle_free (i_exec s') ->
  (forall b, b <> a -> i_eps s' !! b = i_eps s !! b) -> is_Some (i_eps s !! a) -> ep_inv s' a e' l' -> spares L s s' ->
  (forall z, z ∈ Q a -> z ∈ L) ->
  (forall z, z ∈ L -> z ∈ Q a \/ exists t, tcbs s !! z = Some t /\ ~ waiting (state t)) ->
  (forall z t', z ∈ L -> tcbs s' !! z = Some t' -> has_regs t' /\ (waiting (state t') -> z ∈ l')) ->
  sys_inv (fun b => if decide (b = a) then l' else Q b) s'.
Proof.
  intros [C1 C2 C3 C4 C5 C6] Hup Hs Hf He [e Ha] Hi' Hsp HQ HL Hnew.
  split; try done.
  - intros x t' Ht'. destruct (decide (x ∈ L)) as [Hx|Hx]; [by eapply Hnew|]. rewrite Hsp in Ht' by done. by eapply C4.
  - intros b eb Hb. case_decide as E.
    + subst b. pose proof (ei_at _ _ _ _ Hi') as Ha'. rewrite Hb in Ha'. by injection Ha' as ->.
    + rewrite He in Hb by done. pose proof (C5 b eb Hb) as Hib.
      apply (ep_inv_same s); [done|by rewrite He|]. intros z Hz. apply Hsp. intros HzL.
      destruct (queued_waits _ _ _ _ _ Hib Hz) as (t & Ht & Hw & Hbo). destruct (HL z HzL) as [Hza|(t0 & Ht0 & Hn)].
      * destruct (queued_waits _ _ _ _ _ (C5 a e Ha) Hza) as (t1 & Ht1 & _ & Hbo1). congruence.
      * rewrite Ht in Ht0. by injection Ht0 as <-.
  - intros x t' Ht' Hw. destruct (decide (x ∈ L)) as [Hx|Hx].
    + destruct (Hnew x t' Hx Ht') as [_ Hl]. destruct (queued_waits _ _ _ _ _ Hi' (Hl Hw)) as (t0 & Ht0 & _ & Hbo).
      rewrite Ht' in Ht0. injection Ht0 as <-. exists a. rewrite decide_True by done.
      split_and!; [done|by rewrite (ei_at _ _ _ _ Hi')|auto].
    + rewrite Hsp in Ht' by done. destruct (C6 x t' Ht' Hw) as (b & Hbo & Hb & Hxb). exists b.
      destruct (decide (b = a)) as [-> |Hne]; [by apply HQ in Hxb|]. by rewrite He.
Qed.

(** ** The current thread during an operation *)

(** [s] without its current thread: what holds while the thread that runs changes its own state. *)
Definition drop_current s : Ipc := mkIpc (i_slots s) (i_eps s) (set_current None (i_exec s)) (sched_up s).

Lemma no_current_inv (s : Exec) : sched_inv s -> sched_inv (set_current None s).
Proof. intros [C1 C2 C3 C4 C5 C6]. by split. Qed.

(** The threads that the executor does not hold may change their state. *)
Lemma sched_inv_states (s : Exec) (m : Tcbs) :
  sched_inv s -> (forall z, z ∈ e_tcb <$> held s -> state <$> m !! z = state <$> e_tcbs s !! z) ->
  (forall z, sched_context <$> m !! z = sched_context <$> e_tcbs s !! z) -> sched_inv (set_tcbs m s).
Proof.
  intros [C1 C2 C3 C4 C5 C6] Hst Hsc.
  assert (Hto : forall en st, en ∈ held s -> (exists t, e_tcbs s !! e_tcb en = Some t /\ state t = st) ->
    exists t, m !! e_tcb en = Some t /\ state t = st).
  { intros en st Hen (t & Ht & Hs). specialize (Hst (e_tcb en) (list_elem_of_fmap_2 _ _ _ Hen)).
    rewrite Ht in Hst. destruct (m !! e_tcb en) as [t'|]; [|done]. exists t'. split; [done|]. injection Hst. congruence. }
  unfold held in Hto. split; cbn [ready e_tcbs e_ctxs current idle set_tcbs]; try done.
  - intros en Hen. apply Hto; [set_solver|by apply C3].
  - intros en Hen. apply Hto; [rewrite Hen; set_solver|by apply C4].
  - intros i Hi. destruct (C5 i Hi) as [t Ht]. specialize (Hsc i). rewrite Ht in Hsc. by destruct (m !! i); [eexists|].
  - intros x t p Ht Hp. specialize (Hsc x). rewrite Ht in Hsc. destruct (e_tcbs s !! x) as [t0|] eqn:Ht0; [|done].
    apply (C6 x t0 p Ht0). injection Hsc. congruence.
Qed.

(** A thread that keeps its state and its scheduling context may be replaced. *)
Lemma sched_inv_same (s : Exec) z t t' :
  sched_inv s -> e_tcbs s !! z = Some t -> state t' = state t -> sched_context t' = sched_context t ->
  sched_inv (set_tcbs (<[z := t']> (e_tcbs s)) s).
Proof.
  intros Hi Hz Hst Hsc. apply sched_inv_states; [done|intros y _|intros y]; rewrite lookup_insert;
    (case_decide as E; [subst y; rewrite Hz; cbn; congruence|done]).
Qed.

Lemma drop_sys Q s : sys_inv Q s -> sys_inv Q (drop_current s).
Proof.
  intros Hi. apply (sys_calm Q s); [done|apply Hi| |apply (sy_idle _ _ Hi)|done|done].
  apply no_current_inv, Hi.
Qed.
End system.

(** ** IPC operations of the current thread *)

Section ipc_ops.
Context `{BinaryHeapLaws} `{X86AddrLaws}.
Implicit Types (s : Ipc) (a x z : Z) (t : Tcb) (Q : Z -> list Z).
Context (Q : Z -> list Z) (s : Ipc) (cur : Entry) (Hs : sys_inv Q s).
Context (Hcur : current (i_exec s) = Some cur) (Hidle : idle (i_exec s) <> Some (e_tcb cur)).

Lemma current_runs : exists t, tcbs s !! e_tcb cur = Some t /\ state t = Running.
Proof. apply (inv_current _ (sy_sched _ _ Hs) cur Hcur). Qed.

Lemma current_not_queued a e : i_eps s !! a = Some e -> e_tcb cur ∉ Q a.
Proof.
  intros Ha Hx. destruct (queued_waits _ _ _ _ _ (sy_queues _ _ Hs a e Ha) Hx) as (t & Ht & Hw & _).
  destruct current_runs as (t0 & Ht0 & Hr). rewrite Ht in Ht0. injection Ht0 as <-. rewrite Hr in Hw. by apply running_free in Hw.
Qed.

(** An operation on the endpoint [a] that changes the current thread and the threads waiting there. *)
Lemma op_touch a s1 e' l' :
  only_ep a s s1 -> is_Some (i_eps s !! a) -> ep_inv s1 a e' l' -> spares (e_tcb cur :: Q a) s s1 ->
  (forall z t, z ∈ e_tcb cur :: Q a -> tcbs s !! z = Some t -> exists t', tcbs s1 !! z = Some t' /\
     sched_context t' = sched_context t /\ (has_regs t -> has_regs t') /\ (waiting (state t') -> z ∈ l')) ->
  current (i_exec s1) = Some cur /\ exists Q', sys_inv Q' (drop_current s1).
Proof.
  intros (O1 & O2 & O3 & O4) [e Ha] Hi1 Hsp Hz. pose proof (sy_queues _ _ Hs a e Ha) as Hia.
  destruct current_runs as (tc & Htc & Hrun).
  assert (HL : forall z, z ∈ e_tcb cur :: Q a -> exists t, tcbs s !! z = Some t /\
    (z = e_tcb cur /\ state t = Running \/ z ∈ Q a /\ waiting (state t))).
  { intros z [-> |Hq]%elem_of_cons; [exists tc; auto|].
    destruct (queued_waits _ _ _ _ _ Hia Hq) as (t & Ht & Hw & _). exists t. auto. }
  split; [by rewrite O3|]. exists (fun b => if decide (b = a) then l' else Q b).
  apply (sys_touch Q s _ a e' l' (e_tcb cur :: Q a)); [done| | | |done|by exists e| |done|set_solver| |].
  - cbn. rewrite O2. apply Hs.
  - cbn [i_exec drop_current]. rewrite O3. apply (sched_inv_states (set_current None (i_exec s))); [apply no_current_inv, Hs| |].
    + unfold held. cbn [current ready set_current]. rewrite app_nil_r. intros z Hr.
      change (state <$> tcbs s1 !! z = state <$> tcbs s !! z). rewrite Hsp; [done|]. intros Hin. destruct (HL z Hin) as (t & Ht & Hc).
      apply (blocked_not_ready _ z t (sy_sched _ _ Hs) Ht) in Hr; [done|].
      destruct Hc as [[_ ->]|[_ [-> | ->]]]; done.
    + intros z. change (sched_context <$> tcbs s1 !! z = sched_context <$> tcbs s !! z).
      destruct (decide (z ∈ e_tcb cur :: Q a)) as [Hin|Hout]; [|by rewrite Hsp].
      destruct (HL z Hin) as (t & Ht & _). destruct (Hz z t Hin Ht) as (t' & Ht' & Hsc & _). rewrite Ht, Ht'. cbn. by rewrite Hsc.
  - intros i t Hii Ht. cbn in Hii. rewrite O3 in Hii. cbn in Hii. change (tcbs s1 !! i = Some t) in Ht.
    rewrite Hsp in Ht; [by eapply (sy_idle _ _ Hs)|]. intros Hin. destruct (HL i Hin) as (t0 & Ht0 & [[-> _]|[_ Hw]]); [done|].
    by apply (sy_idle _ _ Hs i t0 Hii Ht0).
  - by apply (ep_inv_same s1); [|apply Hi1|].
  - intros z Hin. destruct (HL z Hin) as (t & Ht & [[-> Hr]|[Hq _]]); [right|by left]. exists t. split; [done|].
    rewrite Hr. apply running_free.
  - intros z t' Hin Ht'. change (tcbs s1 !! z = Some t') in Ht'. destruct (HL z Hin) as (t & Ht & _).
    destruct (Hz z t Hin Ht) as (t1 & Ht1 & _ & Hr & Hw). rewrite Ht' in Ht1. injection Ht1 as <-.
    split; [|done]. apply Hr. by eapply (sy_regs _ _ Hs).
Qed.

(** A thread with the payload of another one agrees with it in what matters here. *)
Lemma payload_agree t t' : payload t' = payload t -> sched_context t' = sched_context t /\ (has_regs t -> has_regs t').
Proof. intros (_ & _ & _ & Hc & Hsc)%payload_fields. split; [done|]. unfold has_regs. by rewrite Hc. Qed.

Lemma payload_lookup s1 z t :
  payload <$> tcbs s1 !! z = payload <$> tcbs s !! z -> tcbs s !! z = Some t ->
  exists t', tcbs s1 !! z = Some t' /\ payload t' = payload t.
Proof. intros E Ht. rewrite Ht in E. destruct (tcbs s1 !! z) as [t'|]; [|done]. apply (inj Some) in E. by exists t'. Qed.

(** The current thread has been put at the end of the queue. *)
Lemma blocked_sys a s1 e' t t' :
  only_ep a s s1 -> is_Some (i_eps s !! a) -> ep_inv s1 a e' (Q a ++ [e_tcb cur]) ->
  tcbs s !! e_tcb cur = Some t -> tcbs s1 !! e_tcb cur = Some t' ->
  sched_context t' = sched_context t -> (has_regs t -> has_regs t') ->
  (forall y, y <> e_tcb cur -> payload <$> tcbs s1 !! y = payload <$> tcbs s !! y) ->
  spares (e_tcb cur :: Q a) s s1 ->
  current (i_exec s1) = Some cur /\ exists Q', sys_inv Q' (drop_current s1).
Proof.
  intros Ho Ha Hi1 Ht Ht' Hsc Hr Hp Hsp. eapply op_touch; try done. intros z tz Hin Htz.
  destruct (decide (z = e_tcb cur)) as [-> |Hne].
  - rewrite Ht in Htz. injection Htz as <-. exists t'. split_and!; try done. intros _. set_solver.
  - destruct (payload_lookup s1 z tz (Hp z Hne) Htz) as (t1 & Ht1 & [Hsc1 Hr1]%payload_agree).
    exists t1. split_and!; try done. intros _. set_solver.
Qed.

(** The first thread of the queue, [y], has been taken off. *)
Lemma delivered_sys a s1 e' y l tx ty X Y :
  only_ep a s s1 -> is_Some (i_eps s !! a) -> Q a = y :: l -> ep_inv s1 a e' l ->
  tcbs s !! e_tcb cur = Some tx -> tcbs s !! y = Some ty -> tcbs s1 !! e_tcb cur = Some X -> tcbs s1 !! y = Some Y ->
  sched_context X = sched_context tx -> (has_regs tx -> has_regs X) -> ~ waiting (state X) ->
  sched_context Y = sched_context ty -> (has_regs ty -> has_regs Y) -> ~ waiting (state Y) ->
  (forall z, z <> e_tcb cur -> z <> y -> payload <$> tcbs s1 !! z = payload <$> tcbs s !! z) ->
  spares (e_tcb cur :: y :: l) s s1 ->
  current (i_exec s1) = Some cur /\ exists Q', sys_inv Q' (drop_current s1).
Proof.
  intros Ho Ha HQ Hi1 Htx Hty HX HY Xs Xr Xw Ys Yr Yw Hp Hsp. eapply op_touch; try done; [by rewrite HQ|]. intros z tz Hin Htz.
  destruct (decide (z = e_tcb cur)) as [-> |Hne]; [|destruct (decide (z = y)) as [-> |Hney]].
  - rewrite Htx in Htz. injection Htz as <-. by exists X.
  - rewrite Hty in Htz. injection Htz as <-. by exists Y.
  - destruct (payload_lookup s1 z tz (Hp z Hne Hney) Htz) as (t1 & Ht1 & [Hsc1 Hr1]%payload_agree).
    exists t1. split_and!; try done. intros _. rewrite HQ in Hin. set_solver.
Qed.
Lemma waiting_head a e : i_eps s !! a = Some e -> ep_state e <> Idle -> exists y l ty, Q a = y :: l /\ tcbs s !! y = Some ty.
Proof.
  intros Ha Hne. pose proof (sy_queues _ _ Hs a e Ha) as Hi. destruct (Q a) as [|y l] eqn:HQ.
  - destruct Hne. by apply (ei_idle _ _ _ _ Hi).
  - destruct (queued_waits _ _ _ _ y Hi) as (ty & Hty & _); [set_solver|]. by exists y, l, ty.
Qed.

Lemma copy_has_regs t g t' : has_regs t -> has_regs (set_context (copy_regs 4 (context t) g) t').
Proof. unfold has_regs, copy_regs, with_registers. cbn. rewrite length_app, length_take. lia. Qed.

Lemma caller_after_facts call reply y t :
  state t = Running ->
  sched_context (caller_after call reply y t) = sched_context t /\
  (has_regs t -> has_regs (caller_after call reply y t)) /\ ~ waiting (state (caller_after call reply y t)).
Proof. intros Hr. destruct call, reply; cbn; rewrite ?Hr; split_and!; try done; by intros [?|?]. Qed.

Context `{B : Build}.

Lemma send_keeps c a blocking call b g gr s1 r :
  names s c a -> is_Some (i_eps s !! a) ->
  EndpointIpc.send_ipc blocking call b g gr (e_tcb cur) c s = (s1, Done r) ->
  current (i_exec s1) = Some cur /\ exists Q', sys_inv Q' (drop_current s1).
Proof.
  intros Hc [e Ha] E. pose proof (sy_queues _ _ Hs a e Ha) as Hi. destruct current_runs as (t & Ht & Hrun).
  pose proof (current_not_queued a e Ha) as Hx. pose proof (sy_regs _ _ Hs _ _ Ht) as Hrt.
  destruct (decide (ep_state e = Recv)) as [Hst|Hst].
  - destruct (waiting_head a e Ha) as (y & l & ty & HQ & Hty); [by rewrite Hst|].
    rewrite HQ in Hi, Hx. pose proof (sy_regs _ _ Hs _ _ Hty) as Hry. destruct B eqn:EB.
    + destruct (ipc_dev s c a e l (e_tcb cur) y ty blocking call b g gr Hc Hi (mk_is_Some _ _ Ht) Hty) as [D _].
      specialize (D Hst). unfold dev in D. by rewrite E in D.
    + destruct (send_delivers_run (B := false) s c a e l Hc eq_refl (e_tcb cur) y t ty blocking call b g gr Hi Hst Hx Ht Hty Hrt Hry)
        as (s2 & e2 & E2 & I2 & O2 & X2 & Y2 & P2 & S2). rewrite E in E2. injection E2 as <- _.
      destruct (caller_after_facts call (g || gr) y t Hrun) as (F1 & F2 & F3). rewrite (sy_up _ _ Hs) in Y2.
      eapply delivered_sys; try done; [by destruct call, (g || gr)| |apply inactive_free].
      intros _. by destruct call, (g || gr); apply copy_has_regs.
  - destruct blocking.
    + destruct (send_blocks_run s c a e (Q a) Hc (e_tcb cur) t call b g gr Hi Hst Hx Ht) as (s2 & e2 & t2 & E2 & I2 & _ & O2 & T2 & P2 & R2 & S2).
      rewrite E in E2. injection E2 as <- _. destruct (payload_agree _ _ P2) as [F1 F2]. by eapply blocked_sys.
    + destruct (ipc_polls s c a e (Q a) (e_tcb cur) t call b g gr Hc Hi Ht Hrt) as [Hn _]. rewrite (Hn B Hst) in E.
      injection E as <- _. split; [done|]. exists Q. by apply drop_sys.
Qed.

Lemma receive_keeps c a blocking s1 r :
  names s c a -> is_Some (i_eps s !! a) ->
  EndpointIpc.receive_ipc (e_tcb cur) c blocking s = (s1, Done r) ->
  current (i_exec s1) = Some cur /\ exists Q', sys_inv Q' (drop_current s1).
Proof.
  intros Hc [e Ha] E. pose proof (sy_queues _ _ Hs a e Ha) as Hi. destruct current_runs as (t & Ht & Hrun).
  pose proof (current_not_queued a e Ha) as Hx. pose proof (sy_regs _ _ Hs _ _ Ht) as Hrt.
  destruct (decide (ep_state e = Send)) as [Hst|Hst].
  - destruct (waiting_head a e Ha) as (y & l & ty & HQ & Hty); [by rewrite Hst|].
    rewrite HQ in Hi, Hx. pose proof (sy_regs _ _ Hs _ _ Hty) as Hry. destruct B eqn:EB.
    + destruct (ipc_dev s c a e l (e_tcb cur) y ty blocking false 0 false false Hc Hi (mk_is_Some _ _ Ht) Hty) as [_ D].
      specialize (D Hst Hx). unfold dev in D. by rewrite E in D.
    + destruct (receive_delivers_run (B := false) s c a e l Hc eq_refl (e_tcb cur) y t ty blocking Hi Hst Hx Ht Hty Hrt Hry)
        as (s2 & e2 & E2 & I2 & O2 & Y2 & X2 & P2 & S2). rewrite E in E2. injection E2 as <- _.
      set (i := ipc_state ty) in *.
      eapply delivered_sys; try done; destruct (is_call i), (can_grant i || can_grant_reply i); cbn; try done;
        try (intros _; by apply copy_has_regs); rewrite ?Hrun; by intros [?|?].
  - destruct blocking.
    + destruct (receive_blocks_run s c a e (Q a) Hc (e_tcb cur) t Hi Hst Hx Ht) as (s2 & e2 & t2 & E2 & I2 & _ & O2 & T2 & P2 & R2 & S2).
      rewrite E in E2. injection E2 as <- _. destruct (payload_agree _ _ P2) as [F1 F2]. by eapply blocked_sys.
    + destruct (ipc_polls s c a e (Q a) (e_tcb cur) t false 0 false false Hc Hi Ht Hrt) as [_ Hn].
      destruct (Hn Hst) as [Hrel Hdev]. destruct B; [unfold dev in Hdev; by rewrite E in Hdev|]. unfold release in Hrel. rewrite Hrel in E. injection E as <- _.
      split; [done|]. exists Q. set (t' := set_context _ t).
      assert (Htt : tame t t') by (split; auto; intros _; unfold has_regs, t'; cbn; by rewrite length_insert).
      apply drop_sys. apply (sys_calm Q s); [done|apply Hs| | |done|by eapply calm_insert].
      * cbn. apply (sched_inv_same _ _ t); try done. apply Hs.
      * intros ii ti Hii. cbn. rewrite lookup_insert. case_decide as Ed; [intros [= <-]|by apply (sy_idle _ _ Hs ii ti)].
        cbn. rewrite Hrun. apply running_free.
Qed.
End ipc_ops.

(** ** Cancellation *)

Section cancel_ops.
Context `{BinaryHeapLaws} `{X86AddrLaws}.
Context (Q : Z -> list Z) (s : Ipc) (Hs : sys_inv Q s).

(** The threads that the executor holds and the idle thread are in no endpoint's queue. *)
Lemma held_not_queued a e z : i_eps s !! a = Some e -> z ∈ e_tcb <$> held (i_exec s) -> z ∉ Q a.
Proof.
  intros Ha Hz Hq. destruct (queued_waits _ _ _ _ _ (sy_queues _ _ Hs a e Ha) Hq) as (t & Ht & Hw & _).
  apply list_elem_of_fmap in Hz as (en & -> & Hen). unfold held in Hen. apply elem_of_app in Hen as [Hr|Hc].
  - destruct (inv_ready _ (sy_sched _ _ Hs) en Hr) as (t0 & Ht0 & Hst). unfold tcbs in Ht. rewrite Ht in Ht0. injection Ht0 as <-.
    rewrite Hst in Hw. by apply inactive_free in Hw.
  - destruct (current (i_exec s)) as [cur|] eqn:Ec; [|set_solver]. apply list_elem_of_singleton in Hc as ->.
    destruct (inv_current _ (sy_sched _ _ Hs) cur Ec) as (t0 & Ht0 & Hst). unfold tcbs in Ht. rewrite Ht in Ht0. injection Ht0 as <-.
    rewrite Hst in Hw. by apply running_free in Hw.
Qed.

Lemma idle_not_queued a e i : i_eps s !! a = Some e -> idle (i_exec s) = Some i -> i ∉ Q a.
Proof.
  intros Ha Hii Hq. destruct (queued_waits _ _ _ _ _ (sy_queues _ _ Hs a e Ha) Hq) as (t & Ht & Hw & _).
  by apply (sy_idle _ _ Hs i t Hii Ht).
Qed.

(** Threads leave the queue of [a] and stop waiting; the others keep their place. *)
Lemma released_sys a e s' e' l' :
  i_eps s !! a = Some e -> sched_up s' = true -> sched_inv (i_exec s') -> idle (i_exec s') = idle (i_exec s) ->
  (forall b, b <> a -> i_eps s' !! b = i_eps s !! b) -> ep_inv s' a e' l' -> spares (Q a) s s' ->
  (forall z t t', z ∈ Q a -> tcbs s !! z = Some t -> tcbs s' !! z = Some t' ->
     context t' = context t /\ (waiting (state t') -> z ∈ l')) ->
  sys_inv (fun b => if decide (b = a) then l' else Q b) s'.
Proof.
  intros Ha Hup Hsi Hid He Hi' Hsp Hz. pose proof (sy_queues _ _ Hs a e Ha) as Hia.
  apply (sys_touch Q s s' a e' l' (Q a)); [done|done|done| |done|by exists e|done|done|done|by left|].
  - intros i t Hii Ht. rewrite Hid in Hii. change (tcbs s' !! i = Some t) in Ht.
    rewrite Hsp in Ht by (by eapply idle_not_queued). by eapply (sy_idle _ _ Hs).
  - intros z t' Hq Ht'. destruct (queued_waits _ _ _ _ _ Hia Hq) as (t & Ht & _).
    destruct (Hz z t t' Hq Ht Ht') as [Hc Hw]. split; [|done].
    pose proof (sy_regs _ _ Hs _ _ Ht) as Hr. unfold has_regs in *. by rewrite Hc.
Qed.

(** Every queue is shorter than the number of threads and one more. *)
Lemma queue_length a e : i_eps s !! a = Some e -> (length (Q a) <= size (tcbs s))%nat.
Proof.
  intros Ha. pose proof (sy_queues _ _ Hs a e Ha) as Hi. destruct (ei_queue _ _ _ _ Hi) as [[Hnd _] _].
  rewrite <- size_dom, <- (size_list_to_set (C := gset Z)) by done. apply subseteq_size. intros z Hz%elem_of_list_to_set.
  destruct (queued_waits _ _ _ _ _ Hi Hz) as (t & Ht & _). by eapply elem_of_dom_2.
Qed.

Lemma cancel_all_keeps c a fuel s' :
  names s c a -> is_Some (i_eps s !! a) -> (size (tcbs s) < fuel)%nat ->
  EndpointIpc.cancel_all_ipc fuel c s = (s', Done tt) -> exists Q', sys_inv Q' s'.
Proof.
  intros Hc [e Ha] Hf E. pose proof (sy_queues _ _ Hs a e Ha) as Hi. pose proof (queue_length a e Ha) as Hl.
  destruct (cancel_all_run s c a e (Q a) fuel Hc Hi (sy_up _ _ Hs) (sy_sched _ _ Hs)) as (s2 & e2 & E2 & I2 & R2 & F2 & S2); [lia|].
  rewrite E in E2. injection E2 as <-. destruct R2 as [R1 R2 R3 R4 [_ R5] R6 _].
  eexists. eapply (released_sys a e); try done. intros z t t' Hq Ht Ht'.
  destruct (R6 z Hq) as (t0 & Ht0 & Ht0'). rewrite Ht in Ht0. injection Ht0 as <-. rewrite Ht' in Ht0'. injection Ht0' as ->.
  split; [done|]. intros Hw. by apply inactive_free in Hw.
Qed.

Lemma cancel_badged_keeps c a b fuel s' :
  names s c a -> is_Some (i_eps s !! a) -> (size (tcbs s) < fuel)%nat ->
  EndpointIpc.cancel_badged_sends fuel c b s = (s', Done tt) -> exists Q', sys_inv Q' s'.
Proof.
  intros Hc [e Ha] Hf E. pose proof (sy_queues _ _ Hs a e Ha) as Hi. pose proof (queue_length a e Ha) as Hl.
  destruct (decide (ep_state e = Send)) as [Hst|Hst].
  - destruct (cancel_badged_run s c a e (Q a) b fuel Hc Hi Hst (sy_up _ _ Hs) (sy_sched _ _ Hs)) as (s2 & e2 & E2 & I2 & R2 & F2 & S2 & P2); [lia|].
    rewrite E in E2. injection E2 as <-. destruct R2 as [R1 R2 R3 R4 [_ R5] R6 _].
    eexists. eapply (released_sys a e); try done. intros z t t' Hq Ht Ht'.
    destruct (decide (z ∈ matching b (tcbs s) (Q a))) as [Hm|Hm].
    + destruct (R6 z Hm) as (t0 & Ht0 & Ht0'). rewrite Ht in Ht0. injection Ht0 as <-. rewrite Ht' in Ht0'. injection Ht0' as ->.
      split; [done|]. intros Hw. by apply inactive_free in Hw.
    + specialize (P2 z Hm). rewrite Ht, Ht' in P2. apply (inj Some) in P2. apply payload_fields in P2 as (_ & _ & _ & -> & _).
      split; [done|]. intros _. apply list_elem_of_filter. split; [|done]. intros Hb. apply Hm, list_elem_of_filter. done.
  - unfold EndpointIpc.cancel_badged_sends in E.
    rewrite (bind_done _ _ _ _ _ (as_object_run s c a Hc)), (bind_done _ _ _ _ _ (ep_get_some _ _ _ Ha)) in E.
    rewrite bool_decide_eq_false_2 in E by done. injection E as <-. by exists Q.
Qed.

Lemma itcbs_upd_inv s0 s1 z f r :
  itcbs (tcb_upd z f) s0 = (s1, Done r) -> exists t, tcbs s0 !! z = Some t /\ s1 = with_tcbs (<[z := f t]> (tcbs s0)) s0.
Proof.
  destruct (tcbs s0 !! z) as [t|] eqn:Hz.
  - rewrite (itcbs_upd _ _ _ _ Hz). intros [= <- _]. by exists t.
  - unfold itcbs, iexec, ontcbs, zoom, tcb_upd. unfold tcbs in Hz. by rewrite Hz.
Qed.

(** A thread that does not run and waits on no endpoint may become inactive. *)
Lemma inactive_sys x t t' :
  tcbs s !! x = Some t -> state t <> Running -> ~ waiting (state t) -> tame t t' -> state t' = Inactive ->
  sys_inv Q (with_tcbs (<[x := t']> (tcbs s)) s).
Proof.
  intros Ht Hr Hw Htt Hst. apply (sys_calm Q s); [done|apply Hs| | |done|by eapply calm_insert].
  - cbn. apply (inactive_inv _ _ t); try done; [apply Hs|apply Htt].
  - intros i ti Hii. cbn. rewrite lookup_insert. case_decide as E; [intros [= <-]|by apply (sy_idle _ _ Hs i ti)].
    rewrite Hst. apply inactive_free.
Qed.

(** A thread that keeps its state may be replaced. *)
Lemma same_sys x t t' :
  tcbs s !! x = Some t -> tame t t' -> state t' = state t -> sys_inv Q (with_tcbs (<[x := t']> (tcbs s)) s).
Proof.
  intros Ht Htt Hst. apply (sys_calm Q s); [done|apply Hs| | |done|by eapply calm_insert].
  - cbn. apply (sched_inv_same _ _ t); try done; [apply Hs|apply Htt].
  - intros i ti Hii. cbn. rewrite lookup_insert. case_decide as E; [intros [= <-]|by apply (sy_idle _ _ Hs i ti)].
    subst i. rewrite Hst. by apply (sy_idle _ _ Hs x t).
Qed.

(** A thread leaves the queue that it waits in. *)
Lemma cancel_waiting_keeps x t s' :
  tcbs s !! x = Some t -> waiting (state t) -> EndpointIpc.cancel_ipc x s = (s', Done tt) -> exists Q', sys_inv Q' s'.
Proof.
  intros Ht Hw E. destruct (sy_waiting _ _ Hs x t Ht Hw) as (a & Hb & [e Ha] & Hx).
  pose proof (sy_queues _ _ Hs a e Ha) as Hi. destruct (list_elem_of_split _ _ Hx) as (l1 & l2 & HQ).
  pose proof Hi as Hi0. rewrite HQ in Hi.
  destruct (cancel_ipc_run s a e l1 x l2 t Hi Ht) as (s2 & e2 & E2 & I2 & (O1 & O2 & O3 & O4) & X2 & P2 & S2).
  rewrite E in E2. injection E2 as <-. rewrite <- HQ in S2.
  assert (Hpl : forall z tz tz', z <> x -> tcbs s !! z = Some tz -> tcbs s' !! z = Some tz' -> payload tz' = payload tz).
  { intros z tz tz' Hne Hz Hz'. specialize (P2 z Hne). rewrite Hz, Hz' in P2. by apply (inj Some) in P2. }
  eexists. eapply (released_sys a e); try done.
  - rewrite O2. apply Hs.
  - rewrite O3. apply sched_inv_states; [apply Hs| |].
    + intros z Hz. change (state <$> tcbs s' !! z = state <$> tcbs s !! z). rewrite S2; [done|]. by eapply held_not_queued.
    + intros z. change (sched_context <$> tcbs s' !! z = sched_context <$> tcbs s !! z).
      destruct (decide (z = x)) as [-> |Hne]; [by rewrite Ht, X2|]. specialize (P2 z Hne).
      destruct (tcbs s !! z) as [tz|] eqn:Hz, (tcbs s' !! z) as [tz'|] eqn:Hz'; try done. cbn. f_equal.
      apply (inj Some), payload_fields in P2. tauto.
  - by rewrite O3.
  - intros z tz tz' Hq Hz Hz'. destruct (decide (z = x)) as [-> |Hne].
    + rewrite X2 in Hz'. injection Hz' as <-. rewrite Ht in Hz. injection Hz as <-. split; [done|].
      intros Hw'. by apply inactive_free in Hw'.
    + destruct (payload_fields _ _ (Hpl z tz tz' Hne Hz Hz')) as (_ & _ & _ & Hc & _). split; [done|]. rewrite HQ in Hq. set_solver.
Qed.
End cancel_ops.

Section cancel_one.
Context `{BinaryHeapLaws} `{X86AddrLaws}.
Implicit Types (s : Ipc) (Q : Z -> list Z).

Lemma blocked_free st : st = BlockedOnReply \/ st = BlockedOnNotification -> ~ waiting st.
Proof. by intros [-> | ->] [?|?]. Qed.
#[local] Hint Resolve running_free inactive_free blocked_free : calm.

(** The end of the cancellation of a thread that waits for a reply. *)
Lemma reply_cancelled Q s x t s' :
  sys_inv Q s -> tcbs s !! x = Some t -> state t = BlockedOnReply ->
  (do! match reply_to t with
       | Some callee => itcbs (tcb_upd callee (set_caller None))
       | None => ret tt
       end in
   do! itcbs (tcb_upd x (set_reply_to None)) in
   itcbs (tcb_upd x (set_state Inactive))) s = (s', Done tt) -> sys_inv Q s'.
Proof.
  intros Hs Ht Hst (s1 & [] & E1 & E)%bind_inv.
  assert (sys_inv Q s1 /\ exists t1, tcbs s1 !! x = Some t1 /\ state t1 = BlockedOnReply) as (Hs1 & t1 & Ht1 & Hst1).
  { destruct (reply_to t) as [callee|]; [|injection E1 as <-; split; [done|by exists t]].
    apply itcbs_upd_inv in E1 as (tc & Hc & ->). split.
    - apply (same_sys Q s Hs callee tc); [done|by split; auto|done].
    - cbn. rewrite lookup_insert. case_decide as Ed; [|by exists t]. subst callee. rewrite Ht in Hc. injection Hc as <-. by eexists. }
  rewrite (bind_done _ _ _ _ _ (itcbs_upd _ _ _ _ Ht1)) in E. erewrite itcbs_upd in E by (by apply lookup_insert_eq).
  injection E as <-. unfold with_tcbs, tcbs. cbn. rewrite insert_insert_eq.
  apply (inactive_sys Q s1 Hs1 x t1); rewrite ?Hst1; auto with calm.
  split; auto. right. rewrite Hst1. auto with calm.
Qed.

Lemma cancel_ipc_keeps Q s x s' :
  sys_inv Q s -> EndpointIpc.cancel_ipc x s = (s', Done tt) -> exists Q', sys_inv Q' s'.
Proof.
  intros Hs E. pose proof E as E0. unfold EndpointIpc.cancel_ipc in E.
  apply bind_inv in E as (s0 & t & E1 & E).
  destruct (tcbs s !! x) as [t0|] eqn:Ht.
  2: { unfold itcbs, iexec, ontcbs, zoom, tcb_get in E1. unfold tcbs in Ht. by rewrite Ht in E1. }
  rewrite (itcbs_get _ _ _ Ht) in E1. injection E1 as <- <-.
  destruct (state t0) eqn:Hst; try (injection E as <-; by exists Q).
  - by eapply (cancel_waiting_keeps Q s Hs x t0); [done|rewrite Hst; by right|].
  - by eapply (cancel_waiting_keeps Q s Hs x t0); [done|rewrite Hst; by left|].
  - exists Q. by eapply reply_cancelled.
  - exists Q. rewrite (itcbs_upd _ _ _ _ Ht) in E. injection E as <-.
    apply (inactive_sys Q s Hs x t0); rewrite ?Hst; auto with calm.
Qed.
End cancel_one.

(** ** Leaving an operation *)

Section leaving.
Context `{BinaryHeapLaws}.
Implicit Types (s : Ipc) (Q : Z -> list Z).

(** A thread that does not run any more is dropped when the next one is started. *)
Lemma switch_dropped (e : Exec) cur t next :
  current e = Some cur -> e_tcbs e !! e_tcb cur = Some t -> state t <> Running ->
  Executor.context_switch next e = Executor.context_switch next (set_current None e).
Proof.
  intros Hc Ht Hr. unfold Executor.context_switch, gets, modify, ret. cbn [bind]. unfold bind at 1 2. rewrite Hc.
  unfold bind at 1. rewrite (ontcbs_get _ _ t) by done. by rewrite bool_decide_eq_false_2.
Qed.

Lemma schedule_dropped (e e' : Exec) cur t y :
  current e = Some cur -> e_tcbs e !! e_tcb cur = Some t -> state t <> Running ->
  Executor.schedule e = (e', Done (Resume y)) -> Executor.schedule (set_current None e) = (e', Done (Resume y)).
Proof.
  intros Hc Ht Hr. unfold Executor.schedule. cbn [ready idle set_current]. destruct (heap_pop (ready e)) as [[next h]|].
  - intros E. rewrite (switch_dropped (set_ready h e) cur t) in E by done. exact E.
  - destruct (idle e) as [i|]; [|done]. intros E. by rewrite (switch_dropped e cur t) in E.
Qed.

(** What the caller of [send_ipc] or [receive_ipc] does with the current thread [cur]: it goes on when
    it still runs, blocks it in the state that the operation gave it, and starts another thread when
    the operation made it inactive. *)
Inductive leaves (cur : Z) s1 s' : Prop :=
| lv_runs t :
    tcbs s1 !! cur = Some t -> state t = Running -> s' = s1 -> leaves cur s1 s'
| lv_blocks t tr :
    tcbs s1 !! cur = Some t -> Executor.is_blocked (state t) = true ->
    iexec (Executor.block_current (state t)) s1 = (s', Done tr) -> leaves cur s1 s'
| lv_stops t y :
    tcbs s1 !! cur = Some t -> state t = Inactive ->
    iexec Executor.schedule s1 = (s', Done (Resume y)) -> leaves cur s1 s'.

Lemma iexec_inv {A} (m : M Exec A) s s' r :
  iexec m s = (s', Done r) -> exists e', m (i_exec s) = (e', Done r) /\ s' = mkIpc (i_slots s) (i_eps s) e' (sched_up s).
Proof. unfold iexec, zoom. destruct (m (i_exec s)) as [e' o]. intros [= <- ->]. by exists e'. Qed.

(** Starting the next thread, with no current one. *)
Lemma started_sys Q s e' tr :
  sys_inv Q (drop_current s) -> Executor.schedule (set_current None (i_exec s)) = (e', Done tr) ->
  sys_inv Q (mkIpc (i_slots s) (i_eps s) e' (sched_up s)).
Proof.
  intros Hs E. pose proof (schedule_calm _ _ _ (sy_sched _ _ Hs) (sy_idle _ _ Hs) E) as [Hc Hid].
  apply (sys_calm Q (drop_current s)); [done|apply (sy_up _ _ Hs)| | |done|exact Hc].
  - apply (schedule_inv _ _ tr) in E; [done|apply Hs|by apply not_idling_none].
  - apply (calm_idle (i_exec (drop_current s))); [by split|apply Hs].
Qed.

Lemma leaves_keeps Q s1 cur s' :
  sys_inv Q (drop_current s1) -> current (i_exec s1) = Some cur -> leaves (e_tcb cur) s1 s' -> sys_inv Q s'.
Proof.
  intros Hs Hc [t Ht Hr ->|t tr Ht Hb E|t y Ht Hi E].
  - apply (sys_calm Q (drop_current s1)); [done|apply (sy_up _ _ Hs)| |apply (sy_idle _ _ Hs)|done|done].
    destruct (sy_sched _ _ Hs) as [C1 C2 C3 _ C5 C6]. split; try done.
    intros en Hen. rewrite Hc in Hen. injection Hen as <-. by exists t.
  - apply iexec_inv in E as (e' & E & ->). rewrite (block_run _ cur t _ Hc Ht Hb) in E.
    rewrite set_state_id, insert_id in E by done. by eapply started_sys.
  - apply iexec_inv in E as (e' & E & ->). eapply started_sys; [done|].
    eapply schedule_dropped; [done|done|by rewrite Hi|done].
Qed.
End leaving.

(** ** Runs of the system *)

Section steps.
Context `{B : Build} `{BinaryHeapLaws} `{X86AddrLaws}.
Implicit Types (s : Ipc) (Q : Z -> list Z).

(** One step: a call into the executor, a send or receive of the current thread (which is not the idle
    thread), or a cancellation, by anyone. *)
Inductive sys_step s s' : Prop :=
| sys_exec e' :
    exec_step (i_exec s) e' -> s' = mkIpc (i_slots s) (i_eps s) e' (sched_up s) -> sys_step s s'
| sys_send cur c a blocking call b g gr s1 r :
    current (i_exec s) = Some cur -> idle (i_exec s) <> Some (e_tcb cur) -> names s c a -> is_Some (i_eps s !! a) ->
    EndpointIpc.send_ipc blocking call b g gr (e_tcb cur) c s = (s1, Done r) -> leaves (e_tcb cur) s1 s' -> sys_step s s'
| sys_receive cur c a blocking s1 r :
    current (i_exec s) = Some cur -> idle (i_exec s) <> Some (e_tcb cur) -> names s c a -> is_Some (i_eps s !! a) ->
    EndpointIpc.receive_ipc (e_tcb cur) c blocking s = (s1, Done r) -> leaves (e_tcb cur) s1 s' -> sys_step s s'
| sys_cancel x :
    EndpointIpc.cancel_ipc x s = (s', Done tt) -> sys_step s s'
| sys_cancel_all c a fuel :
    names s c a -> is_Some (i_eps s !! a) -> (size (tcbs s) < fuel)%nat ->
    EndpointIpc.cancel_all_ipc fuel c s = (s', Done tt) -> sys_step s s'
| sys_cancel_badged c a b fuel :
    names s c a -> is_Some (i_eps s !! a) -> (size (tcbs s) < fuel)%nat ->
    EndpointIpc.cancel_badged_sends fuel c b s = (s', Done tt) -> sys_step s s'.

Lemma sys_step_inv Q s s' : sys_step s s' -> sys_inv Q s -> exists Q', sys_inv Q' s'.
Proof.
  intros Hst Hs. destruct Hst as [e' He ->|cur c a bl call b g gr s1 r Hc Hid Hn Ha E Hl|cur c a bl s1 r Hc Hid Hn Ha E Hl|
    x E|c a fuel Hn Ha Hf E|c a b fuel Hn Ha Hf E].
  - destruct (exec_step_calm _ _ He (sy_sched _ _ Hs) (sy_idle _ _ Hs)) as [Hcalm Hf]. exists Q.
    apply (sys_calm Q s); try done; [apply Hs|by eapply exec_step_inv, Hs].
  - destruct (send_keeps Q s cur Hs Hc Hid c a bl call b g gr s1 r Hn Ha E) as (Hc1 & Q' & Hs1).
    exists Q'. by eapply leaves_keeps.
  - destruct (receive_keeps Q s cur Hs Hc Hid c a bl s1 r Hn Ha E) as (Hc1 & Q' & Hs1).
    exists Q'. by eapply leaves_keeps.
  - by eapply cancel_ipc_keeps.
  - by eapply cancel_all_keeps.
  - by eapply cancel_badged_keeps.
Qed.

(** The threads of a queue are in no other queue, and the executor does not hold them. *)
Lemma queued_once Q s a e x :
  sys_inv Q s -> i_eps s !! a = Some e -> x ∈ Q a ->
  (x ∉ e_tcb <$> held (i_exec s)) /\ idle (i_exec s) <> Some x /\
  forall b e', i_eps s !! b = Some e' -> x ∈ Q b -> b = a.
Proof.
  intros Hs Ha Hx. split_and!.
  - intros Hh. by apply (held_not_queued Q s Hs a e x Ha Hh).
  - intros Hi. by apply (idle_not_queued Q s Hs a e x Ha Hi).
  - intros b e' Hb Hxb. destruct (queued_waits _ _ _ _ _ (sy_queues _ _ Hs a e Ha) Hx) as (t & Ht & _ & Hbo).
    destruct (queued_waits _ _ _ _ _ (sy_queues _ _ Hs b e' Hb) Hxb) as (t' & Ht' & _ & Hbo'). congruence.
Qed.

(** [wake] takes a thread of a queue all the same. *)
Lemma woken_queued Q s a e x :
  sys_inv Q s -> i_eps s !! a = Some e -> x ∈ Q a -> (length (contents (ready (i_exec s))) < MAX_TCB_PER_CORE)%nat ->
  exists tx e', tcbs s !! x = Some tx /\ Executor.wake x (i_exec s) = (e', Done (Ok tt)) /\
    x ∈ e_tcb <$> contents (ready e') /\ e_tcbs e' !! x = Some (set_state Inactive tx).
Proof.
  intros Hs Ha Hx Hl. destruct (queued_waits _ _ _ _ _ (sy_queues _ _ Hs a e Ha) Hx) as (tx & Ht & Hw & _).
  assert (Hb : Executor.is_blocked (state tx) = true) by (by destruct Hw as [-> | ->]).
  rewrite (wake_run _ x tx (sy_sched _ _ Hs) Ht), Hb. cbv zeta. cbn [ready set_tcbs].
  destruct (heap_push_room (mkEntry (dl_of (i_exec s) tx) x) (ready (i_exec s)) Hl) as (h & Hh & Hp).
  change (dl_of (set_tcbs _ (i_exec s)) (set_state Inactive tx)) with (dl_of (i_exec s) tx). rewrite Hh. eexists tx, _. split; [done|]. split; [reflexivity|].
  cbn [ready e_tcbs set_ready set_tcbs]. rewrite lookup_insert_eq, (Permutation_map e_tcb Hp). split; [set_solver|done].
Qed.

(** The start: no thread waits, and the endpoints are new. *)
Lemma start_sys t c slots eps :
  (forall a x p, t !! a = Some x -> sched_context x = Some p -> is_Some (c !! p)) ->
  (forall x tx, t !! x = Some tx -> has_regs tx /\ ~ waiting (state tx)) ->
  (forall a e, eps !! a = Some e -> e = EndpointObj_new) ->
  sys_inv (fun _ => []) (mkIpc slots eps (Executor.new t c) true).
Proof.
  intros Hc Ht He. split; cbn [sched_up i_exec i_eps].
  - done.
  - by apply new_inv.
  - intros i x [=].
  - intros x tx Hx. by apply (Ht x tx).
  - intros a e Ha. pose proof (He a e Ha) as ->. split; [done| |done|intros x Hx; by apply not_elem_of_nil in Hx].
    split_and!; [|done|done]. split; [apply NoDup_nil_2|done].
  - intros x tx Hx Hw. by destruct (Ht x tx Hx).
Qed.
End steps.

(** ** A concrete run *)

(** Three inactive threads, a new endpoint and a new executor. *)
Definition start_ipc : Ipc (H := ref_heap) :=
  mkIpc (H := ref_heap) {[64 := EndpointCap.mint 0x5000 7 CapRights.SEND]} {[0x5000 := EndpointObj_new]}
    (Executor.new (H := ref_heap) (<[1024 := demo_tcb Inactive 1]> demo_tcbs) demo_ctxs) true.

(** The effect of a call into the executor. *)
Definition after_call {A} (m : M (Exec (H := ref_heap)) A) (s : Ipc (H := ref_heap)) : Ipc (H := ref_heap) :=
  fst (iexec (H := ref_heap) m s).

(** Two threads are made ready and the first one is started. *)
Definition started_ipc : Ipc (H := ref_heap) :=
  after_call (Executor.run (H := ref_heap)) (after_call (Executor.enqueue (H := ref_heap) 2048)
    (after_call (Executor.enqueue (H := ref_heap) 1024) start_ipc)).

(** The thread that runs receives on the endpoint, and the other one is started. *)
Definition received_ipc : Ipc (H := ref_heap) :=
  fst (EndpointIpc.receive_ipc (H := dev) (H0 := ref_heap) (H1 := ref_x86addr) 1024 demo_ep_cap true started_ipc).
Definition switched_ipc : Ipc (H := ref_heap) :=
  after_call (Executor.block_current (H := ref_heap) BlockedOnReceive) received_ipc.

(** ** The properties *)

Module Claims.
Section claims.
Context `{B : Build} `{BinaryHeapLaws} `{X86AddrLaws}.
Implicit Types (s : Ipc).

(** C13: threads, executor and endpoints agree.  Start with a new executor and new endpoints, and threads
    with live scheduling contexts and room for the message registers, of which none waits on an
    endpoint.  Let threads that run (the idle thread excepted) send, call and receive on existing
    endpoints, with and without blocking, in either build profile, and then go on, block, or give way
    to the next thread (one that is ready or the idle thread) as the operation left them; interleave
    these with calls into the executor (timer interrupts and failing calls included) and with
    cancellations of one thread, of a whole endpoint and by badge.  Whenever an operation has
    returned, the executor's invariant holds; the queue of every endpoint is a well-formed list of
    threads that are blocked on it in the state of the endpoint; every thread that is blocked on an
    endpoint is in its queue; and no thread of a queue is in another queue, ready, current or the idle
    thread.  The callers of the executor have to observe what its own invariant asks of them (no
    [enqueue] of a queued thread, no [set_idle] of a running one, no [run] while the idle thread runs
    and nothing is ready), and must not use [wake] or [set_idle] on a thread that waits on an endpoint
    nor [block_current] to enter such a state.  The code does not check this: [wake] of a thread of a
    queue, with room in the ready queue, makes it ready with its links in the endpoint's queue
    as they were. *)
Theorem system_invariant t c slots eps s :
  (forall a x p, t !! a = Some x -> sched_context x = Some p -> is_Some (c !! p)) ->
  (forall x tx, t !! x = Some tx -> has_regs tx /\ ~ waiting (state tx)) ->
  (forall a e, eps !! a = Some e -> e = EndpointObj_new) ->
  rtc sys_step (mkIpc slots eps (Executor.new t c) true) s ->
  sched_inv (i_exec s) /\ exists Q : Z -> list Z,
    (forall a e, i_eps s !! a = Some e -> ep_inv s a e (Q a)) /\
    (forall x tx, tcbs s !! x = Some tx -> waiting (state tx) ->
       exists a, blocking_object tx = Some a /\ is_Some (i_eps s !! a) /\ x ∈ Q a) /\
    (forall a e x, i_eps s !! a = Some e -> x ∈ Q a ->
       (x ∉ e_tcb <$> held (i_exec s)) /\ idle (i_exec s) <> Some x /\
       (forall b e', i_eps s !! b = Some e' -> x ∈ Q b -> b = a) /\
       ((length (contents (ready (i_exec s))) < MAX_TCB_PER_CORE)%nat ->
        exists tx e', tcbs s !! x = Some tx /\ Executor.wake x (i_exec s) = (e', Done (Ok tt)) /\
          x ∈ e_tcb <$> contents (ready e') /\ e_tcbs e' !! x = Some (set_state Inactive tx))).
Proof.
  intros Hc Ht He Hr. assert (exists Q, sys_inv Q s) as [Q Hs].
  { pose proof (start_sys t c slots eps Hc Ht He) as Hs. revert Hs. generalize (fun _ : Z => @nil Z). clear Ht He Hc.
    induction Hr as [s|s s1 s2 Hs _ IH]; intros Q HQ; [by exists Q|].
    destruct (sys_step_inv Q s s1 Hs HQ) as [Q' HQ']. by apply (IH Q'). }
  split; [apply Hs|]. exists Q. split; [apply Hs|]. split; [apply Hs|]. intros a e x Ha Hx.
  destruct (queued_once Q s a e x Hs Ha Hx) as (H3 & H4 & H5). split_and!; [done..|]. by apply (woken_queued Q s a e x).
Qed.
End claims.

(** *** Witness: the run to [switched_ipc] *)

(** A step of the executor in this run. *)
Lemma demo_exec_step {A} (m : M (Exec (H := ref_heap)) A) s :
  exec_step (H0 := ref_heap_laws) (H1 := dev) (i_exec s) (fst (m (i_exec s))) ->
  sys_step (B := dev) (H0 := ref_heap_laws) (H1 := ref_x86addr) s (after_call m s).
Proof.
  intros Hs. eapply sys_exec; [exact Hs|]. unfold after_call, iexec, zoom. by destruct (m (i_exec s)).
Qed.

Lemma demo_run :
  rtc (sys_step (B := dev) (H0 := ref_heap_laws) (H1 := ref_x86addr)) start_ipc switched_ipc.
Proof.
  eapply rtc_l; [apply (demo_exec_step (Executor.enqueue (H := ref_heap) 1024))|].
  { eapply (ex_enqueue _ _ 1024 _ (Ok tt)); [vm_compute; reflexivity|apply not_elem_of_nil|vm_compute; reflexivity]. }
  eapply rtc_l; [apply (demo_exec_step (Executor.enqueue (H := ref_heap) 2048))|].
  { eapply (ex_enqueue _ _ 2048 _ (Ok tt)); [vm_compute; reflexivity|vm_compute; set_solver|vm_compute; reflexivity]. }
  eapply rtc_l; [apply (demo_exec_step (Executor.run (H := ref_heap)))|].
  { eapply (ex_run _ _ (Resume 1024)); [by apply not_idling_none|vm_compute; reflexivity]. }
  apply rtc_once. apply (sys_receive _ _ (mkEntry 20 1024) demo_ep_cap 0x5000 true received_ipc (Ok tt)).
  - vm_compute. reflexivity.
  - vm_compute. discriminate.
  - eexists. split; [vm_compute; reflexivity|]. split; [lia|vm_compute; reflexivity].
  - vm_compute. by eexists.
  - vm_compute. reflexivity.
  - eapply (lv_blocks _ _ _ _ (Resume 2048)); vm_compute; reflexivity.
Qed.

Lemma start_threads x tx :
  (<[1024 := demo_tcb Inactive 1]> demo_tcbs) !! x = Some tx ->
  exists sc, is_Some (demo_ctxs !! sc) /\ tx = demo_tcb Inactive sc.
Proof.
  assert (Hall : map_Forall (fun (_ : Z) tx => exists sc, is_Some (demo_ctxs !! sc) /\ tx = demo_tcb Inactive sc)
    (<[1024 := demo_tcb Inactive 1]> (<[2048 := demo_tcb Inactive 2]> ({[3072 := demo_tcb Inactive 3]} : Tcbs)))).
  { apply map_Forall_insert_2; [by exists 1; split; [eexists|]|]. apply map_Forall_insert_2; [by exists 2; split; [eexists|]|].
    apply map_Forall_singleton. by exists 3; split; [eexists|]. }
  unfold demo_tcbs. rewrite insert_insert_eq. apply Hall.
Qed.

Lemma system_invariant_witness :
  exists Q e, ep_inv (H := ref_heap) switched_ipc 0x5000 e (Q 0x5000) /\ 1024 ∈ Q 0x5000 /\
    current (i_exec switched_ipc) = Some (mkEntry 30 2048).
Proof.
  destruct (system_invariant (B := dev) (H0 := ref_heap_laws) (H2 := ref_x86addr_laws) (<[1024 := demo_tcb Inactive 1]> demo_tcbs)
    demo_ctxs {[64 := EndpointCap.mint 0x5000 7 CapRights.SEND]} {[0x5000 := EndpointObj_new]} switched_ipc) as (_ & Q & Hq & Hw & _).
  - intros a x p Hx. destruct (start_threads a x Hx) as (sc & Hsc & ->). by intros [= <-].
  - intros x tx Hx. destruct (start_threads x tx Hx) as (sc & _ & ->). split; [vm_compute; lia|apply inactive_free].
  - intros a e [_ <-]%lookup_singleton_Some. done.
  - exact demo_run.
  - assert (Ht : exists tx, tcbs (H := ref_heap) switched_ipc !! 1024 = Some tx /\ state tx = BlockedOnReceive /\
      blocking_object tx = Some 0x5000) by (eexists; vm_compute; split_and!; reflexivity).
    destruct Ht as (tx & Htx & Hst & Hbo). destruct (Hw 1024 tx Htx) as (a & Hb & [e Ha] & Hin); [by right|].
    rewrite Hbo in Hb. injection Hb as <-. exists Q, e. split_and!; [by apply Hq|done|vm_compute; reflexivity].
Defined.
End Claims.
