(* ===== verification/Sync.v ===== *)
(** The once-cell and the per-core array: [src/kernel/src/scheduler/sync.rs],
    [src/kernel/src/scheduler/percore.rs], [init_scheduler] of [src/kernel/src/scheduler/mod.rs]
    and the identification of cores in [src/kernel/src/arch/x86_64/mod.rs].

    [OnceLock] is shared by concurrent callers.  Each call is a thread: the operation and a program
    counter that names the next access to the cell; [tstep] performs one access, and an execution
    interleaves the threads in any order ([step]).  The interleaving is sequentially consistent.
    The cell's accesses are release stores and acquire loads of [once] and plain accesses of
    [value]; [race_free] shows that no two threads are ever about to touch [value] with one of
    them writing, which is what makes that view of the plain accesses adequate.

    The initialiser [f] returns a value or panics ([None]); it does not re-enter the cell, which the
    code declares an error.  What a panic does to the [Guard] depends on the panic strategy: with
    unwinding its destructor resets the cell; the repository's target and release profile abort,
    and the panic handler never returns, so the destructor does not run. *)
From S2P Require Import Prelude.

Definition UNINITIALIZED : Z := 0.
Definition INITIALIZING : Z := 1.
Definition INITIALIZED : Z := 2.

(** [panic = "unwind"] or [panic = "abort"]. *)
Class PanicStrategy : Type := unwinding : bool.

Section once.
Context {T : Type}.

(** [struct OnceLock]. *)
Record OnceLock : Type := mkOnce { once : Z; value : option T }.

(** A call: [get_or_init(f)] with the outcome of [f], [set(v)] or [get()]. *)
Inductive op : Type :=
| GetOrInit (f : option T)
| Set_ (v : T)
| Get.

(** The next access of a call, or its result.  The names follow the functions:
    [I*] for [get_or_init], [S*] for [set], [G*] for [get]. *)
Inductive pc : Type :=
| IFast | IFastRead | ICas | ICall | IWrite | IStore | IRead | ISpin | ICheck | ICheckRead
| SCas | SWrite | SStore
| GLoad | GRead
| RetVal (v : T)
| RetSet (ok : bool)
| RetGet (o : option T)
| Panicked.

Definition thread : Type := op * pc.

(** Where a call starts. *)
Definition entry (o : op) : thread :=
  (o, match o with GetOrInit _ => IFast | Set_ _ => SCas | Get => GLoad end).

(** [as_ref().unwrap()] on the contents of [value]. *)
Definition read_unwrap (c : OnceLock) : pc :=
  match value c with Some v => RetVal v | None => Panicked end.

(** [Guard::drop] when [f] panics: the store runs only if the stack is unwound. *)
Definition guard_drop `{PanicStrategy} (active : bool) (c : OnceLock) : OnceLock :=
  if unwinding && active then mkOnce UNINITIALIZED (value c) else c.

(** [compare_exchange(UNINITIALIZED, INITIALIZING)]. *)
Definition cas_begin (c : OnceLock) : option OnceLock :=
  if once c =? UNINITIALIZED then Some (mkOnce INITIALIZING (value c)) else None.

(** [OnceLock::get_or_init], one access. *)
Definition get_or_init_step `{PanicStrategy} (f : option T) (p : pc) (c : OnceLock) : option (OnceLock * pc) :=
  match p with
  | IFast => Some (c, if once c =? INITIALIZED then IFastRead else ICas)
  | IFastRead => Some (c, read_unwrap c)
  | ICas => match cas_begin c with Some c' => Some (c', ICall) | None => Some (c, ISpin) end
  | ICall => match f with Some _ => Some (c, IWrite) | None => Some (guard_drop true c, Panicked) end
  | IWrite => match f with Some v => Some (mkOnce (once c) (Some v), IStore) | None => None end
  | IStore => Some (mkOnce INITIALIZED (value c), IRead)
  | IRead => Some (guard_drop false c, read_unwrap c)
  | ISpin => Some (c, if once c =? INITIALIZING then ISpin else ICheck)
  | ICheck => Some (c, if once c =? INITIALIZED then ICheckRead else IFast)
  | ICheckRead => Some (c, read_unwrap c)
  | _ => None
  end.

(** [OnceLock::set], one access. *)
Definition set_step `{PanicStrategy} (v : T) (p : pc) (c : OnceLock) : option (OnceLock * pc) :=
  match p with
  | SCas => match cas_begin c with Some c' => Some (c', SWrite) | None => Some (c, RetSet false) end
  | SWrite => Some (mkOnce (once c) (Some v), SStore)
  | SStore => Some (guard_drop false (mkOnce INITIALIZED (value c)), RetSet true)
  | _ => None
  end.

(** [OnceLock::get], one access. *)
Definition get_step (p : pc) (c : OnceLock) : option (OnceLock * pc) :=
  match p with
  | GLoad => Some (c, if once c =? INITIALIZED then GRead else RetGet None)
  | GRead => Some (c, RetGet (value c))
  | _ => None
  end.

Definition tstep `{PanicStrategy} (t : thread) (c : OnceLock) : option (OnceLock * thread) :=
  let '(o, p) := t in
  prod_map id (pair o) <$>
    match o with GetOrInit f => get_or_init_step f p c | Set_ v => set_step v p c | Get => get_step p c end.

(** The cell and its callers. *)
Record system : Type := mkSys { cell : OnceLock; threads : list thread }.

(** [OnceLock::new]. *)
Definition once_new : OnceLock := mkOnce UNINITIALIZED None.

Definition start (ops : list op) : system := mkSys once_new (entry <$> ops).

(** Thread [i] performs one access. *)
Inductive step `{PanicStrategy} (s s' : system) : Prop :=
| step_thread i t c' t' :
    threads s !! i = Some t -> tstep t (cell s) = Some (c', t') ->
    s' = mkSys c' (<[i := t']> (threads s)) -> step s s'.

Definition finished (p : pc) : bool :=
  match p with RetVal _ | RetSet _ | RetGet _ | Panicked => true | _ => false end.

(** The value a call handed out. *)
Definition result_of (t : thread) : option T :=
  match t.2 with RetVal v => Some v | RetGet o => o | _ => None end.

(** Accesses of [value] that a thread is about to make. *)
Definition writes (p : pc) : bool := match p with IWrite | SWrite => true | _ => false end.
Definition reads (p : pc) : bool :=
  match p with IFastRead | IRead | ICheckRead | GRead => true | _ => false end.

Definition race_free (s : system) : Prop :=
  forall i j t u, i <> j -> threads s !! i = Some t -> threads s !! j = Some u ->
    writes t.2 = true -> writes u.2 || reads u.2 = false.
End once.
Arguments OnceLock : clear implicits.
Arguments op : clear implicits.
Arguments pc : clear implicits.
Arguments thread : clear implicits.
Arguments system : clear implicits.

(** ** The invariant *)

Ltac once_lia := unfold UNINITIALIZED, INITIALIZING, INITIALIZED in *; lia.

Section invariant.
Context {T : Type} `{PanicStrategy}.
Implicit Types (c : OnceLock T) (s : system T) (t u : thread T) (p : pc T).

(** What a thread at [p] knows of the cell. *)
Definition thread_ok c t : Prop :=
  match t with
  | (GetOrInit _, IFast) | (GetOrInit _, ICas) | (GetOrInit _, ISpin) | (GetOrInit _, ICheck) => True
  | (GetOrInit _, ICall) => once c = INITIALIZING /\ value c = None
  | (GetOrInit (Some _), IWrite) => once c = INITIALIZING /\ value c = None
  | (GetOrInit (Some v), IStore) => once c = INITIALIZING /\ value c = Some v
  | (GetOrInit (Some v), IRead) => once c = INITIALIZED /\ value c = Some v
  | (GetOrInit _, IFastRead) | (GetOrInit _, ICheckRead) => once c = INITIALIZED
  | (GetOrInit _, RetVal v) => once c = INITIALIZED /\ value c = Some v
  | (GetOrInit None, Panicked) => True
  | (Set_ _, SCas) | (Set_ _, RetSet false) => True
  | (Set_ _, SWrite) => once c = INITIALIZING /\ value c = None
  | (Set_ v, SStore) => once c = INITIALIZING /\ value c = Some v
  | (Set_ v, RetSet true) => once c = INITIALIZED /\ value c = Some v
  | (Get, GLoad) | (Get, RetGet None) => True
  | (Get, GRead) => once c = INITIALIZED
  | (Get, RetGet (Some v)) => once c = INITIALIZED /\ value c = Some v
  | _ => False
  end.

(** The cell alone. *)
Definition cell_ok c : Prop :=
  (once c = UNINITIALIZED /\ value c = None) \/ once c = INITIALIZING \/
  (once c = INITIALIZED /\ is_Some (value c)).

(** A thread that is initialising the cell, or has done so. *)
Definition busy p : bool :=
  match p with ICall | IWrite | IStore | SWrite | SStore => true | _ => false end.
Definition winner p : bool := busy p || match p with IRead | RetSet true => true | _ => false end.

Record once_inv s : Prop := {
  oi_cell : cell_ok (cell s);
  oi_thread : forall i t, threads s !! i = Some t -> thread_ok (cell s) t;
  oi_winner : forall i j t u, threads s !! i = Some t -> threads s !! j = Some u ->
    winner t.2 = true -> winner u.2 = true -> i = j
}.

Lemma thread_ok_busy c t : thread_ok c t -> busy t.2 = true -> once c = INITIALIZING.
Proof. destruct t as [[[]| |] []]; simpl; intros; by destruct_and?. Qed.

Lemma thread_ok_winner c t : thread_ok c t -> winner t.2 = true -> once c <> UNINITIALIZED.
Proof. destruct t as [[[]| |] [| | | | | | | | | | | | | | | |[]|[]|]]; simpl; intros; destruct_and?; done || once_lia. Qed.

(** Before the cell is initialised, a thread that is not initialising it knows nothing of it. *)
Lemma thread_ok_frame c c' t :
  once c <> INITIALIZED -> busy t.2 = false -> thread_ok c t -> thread_ok c' t.
Proof. destruct t as [[[]| |] [| | | | | | | | | | | | | | | |[]|[]|]]; simpl; intros; by destruct_and?. Qed.

(** What one access of a thread does: the cell is left alone, or the thread is the one that
    initialises it. *)
Lemma tstep_ok c t c' t' :
  cell_ok c -> thread_ok c t -> tstep t c = Some (c', t') ->
  cell_ok c' /\ thread_ok c' t' /\ t'.1 = t.1 /\
  (c' = c \/ (once c <> INITIALIZED /\ (busy t.2 = true \/ once c = UNINITIALIZED))) /\
  (winner t'.2 = true -> winner t.2 = true \/ once c = UNINITIALIZED).
Proof.
  destruct c as [n x], t as [[[v|]|v|] [| | | | | | | | | | | | | | | |[]|[]|]]; cbn; intros Hc Ht E; try done;
    unfold cas_begin, read_unwrap, guard_drop in E; cbn in E; rewrite ?andb_false_r in E; unfold cell_ok in *; cbn in *;
    simplify_eq/=; repeat (case_match; simplify_eq/=).
  all: destruct_and?; simplify_eq/=; rewrite ?Z.eqb_eq, ?Z.eqb_neq in *; try naive_solver once_lia.
  all: split_and!; [right; right; by split|done|done|done|right; split; [once_lia|by left]|by left].
Qed.

Lemma lookup_step s i t t' j u :
  threads s !! i = Some t -> <[i := t']> (threads s) !! j = Some u ->
  (i = j /\ u = t') \/ (i <> j /\ threads s !! j = Some u).
Proof.
  intros Hi. destruct (decide (i = j)) as [<-|Hne].
  - rewrite list_lookup_insert_eq by (by eapply lookup_lt_Some). intros [= <-]. by left.
  - rewrite list_lookup_insert_ne by done. by right.
Qed.

Lemma step_inv s s' : once_inv s -> step s s' -> once_inv s'.
Proof.
  intros [Hc Ht Hw] [i t c' t' Hi E ->].
  destruct (tstep_ok _ _ _ _ Hc (Ht i t Hi) E) as (Hc' & Ht' & _ & Hch & Hwin).
  pose proof (fun j u => lookup_step s i t t' j u Hi) as Hnew.
  assert (Hother : forall j u, i <> j -> threads s !! j = Some u -> winner t'.2 = true -> winner u.2 = false).
  { intros j u Hne Hj [Hwt|Hun]%Hwin.
    - destruct (winner u.2) eqn:Hu; [|done]. destruct Hne. by eapply Hw.
    - destruct (winner u.2) eqn:Hu; [|done]. by destruct (thread_ok_winner _ _ (Ht j u Hj) Hu). }
  split; cbn [cell threads]; [done| |].
  - intros j u [[-> ->]|[Hne Hj]]%Hnew; [done|]. destruct Hch as [->|[Hn Hb]]; [by apply Ht with j|].
    apply (thread_ok_frame (cell s)); [done| |by apply Ht with j].
    destruct (busy u.2) eqn:Hu; [|done]. destruct Hb as [Hb|Hb].
    + destruct Hne. eapply Hw; [done|done|unfold winner; by rewrite Hb|unfold winner; by rewrite Hu].
    + pose proof (thread_ok_busy _ _ (Ht j u Hj) Hu). once_lia.
  - intros j k u w [[<- ->]|[Hj Hju]]%Hnew [[<- ->]|[Hk Hkw]]%Hnew Wu Ww; [done|..].
    + by rewrite (Hother k w Hk Hkw Wu) in Ww.
    + by rewrite (Hother j u Hj Hju Ww) in Wu.
    + by eapply Hw.
Qed.

Lemma start_ok ops : once_inv (start ops).
Proof.
  assert (He : forall i t, (entry <$> ops) !! i = Some t -> exists o, t = entry o).
  { intros i t (o & -> & _)%list_lookup_fmap_Some. by exists o. }
  split; cbn; [by left| |].
  - intros i t [o ->]%He. by destruct o as [[]| |].
  - intros i j t u [o ->]%He _ Hw. by destruct o.
Qed.

Lemma reachable_inv ops s : rtc step (start ops) s -> once_inv s.
Proof.
  intros Hs. pose proof (start_ok ops) as Hi. induction Hs as [|s s1 s2 Hs _ IH]; [done|].
  by apply IH, (step_inv s).
Qed.
End invariant.

(** ** Progress *)

Section progress.
Context {T : Type} `{PanicStrategy}.
Implicit Types (c : OnceLock T) (s : system T) (t u : thread T) (p : pc T).

(** Accesses left to a call, at most. *)
Definition rank p : nat :=
  match p with
  | IFast => 8 | ICas => 7 | ICall => 6 | IWrite => 5 | IStore => 4 | IRead => 3
  | ISpin => 6 | ICheck => 5 | ICheckRead => 1 | IFastRead => 1
  | SCas => 4 | SWrite => 3 | SStore => 2 | GLoad => 2 | GRead => 1
  | RetVal _ | RetSet _ | RetGet _ | Panicked => 0
  end.

Definition work s : nat := sum_list_with (rank ∘ snd) (threads s).

(** No initialiser panics. *)
Definition no_panics s : Prop := forall i t, threads s !! i = Some t -> t.1 <> GetOrInit None.

(** A thread that waits has seen the cell taken, and one that stops waiting finds a value. *)
Definition waiting c p : Prop :=
  (p = ISpin -> once c <> UNINITIALIZED) /\ (p = ICheck -> once c = INITIALIZED).
Definition waiting_ok s : Prop := forall i t, threads s !! i = Some t -> waiting (cell s) t.2.

(** While the cell is taken, a thread is initialising it. *)
Definition holder_ok s : Prop :=
  once (cell s) = INITIALIZING -> exists i t, threads s !! i = Some t /\ busy t.2 = true.

Lemma tstep_rank c t c' t' :
  thread_ok c t -> t.1 <> GetOrInit None -> waiting c t.2 ->
  cell_ok c -> tstep t c = Some (c', t') ->
  (c' = c /\ t' = t /\ t.2 = ISpin /\ once c = INITIALIZING) \/ (rank t'.2 < rank t.2)%nat.
Proof.
  destruct c as [n x], t as [[[v|]|v|] [| | | | | | | | | | | | | | | |[]|[]|]]; cbn; intros Ht Hf Hs Hc E; try done;
    unfold cas_begin, read_unwrap, guard_drop in E; cbn in E; unfold cell_ok, waiting in *; cbn in *;
    simplify_eq/=; repeat (case_match; simplify_eq/=); try (right; lia);
    rewrite ?Z.eqb_eq, ?Z.eqb_neq in *; naive_solver once_lia.
Qed.

(** The cell moves forward, and so does what a waiting thread has seen. *)
Lemma tstep_waiting c t c' t' :
  thread_ok c t -> t.1 <> GetOrInit None -> waiting c t.2 -> cell_ok c -> tstep t c = Some (c', t') ->
  waiting c' t'.2 /\ (forall p, busy p = false -> waiting c p -> waiting c' p) /\
  (once c' = INITIALIZING -> busy t'.2 = true \/ once c = INITIALIZING /\ busy t.2 = false).
Proof.
  destruct c as [n x], t as [[[v|]|v|] [| | | | | | | | | | | | | | | |[]|[]|]]; cbn; intros Ht Hf Hs Hc E; try done;
    unfold cas_begin, read_unwrap, guard_drop in E; cbn in E; unfold cell_ok, waiting in *; cbn in *;
    rewrite ?andb_false_r in E; simplify_eq/=; repeat (case_match; simplify_eq/=);
    rewrite ?Z.eqb_eq, ?Z.eqb_neq in *; destruct_and?; simplify_eq/=; split_and!; intros; try done; try naive_solver once_lia.
Qed.

Lemma sum_insert {A} (f : A -> nat) l i x y :
  l !! i = Some x -> (sum_list_with f (<[i := y]> l) + f x = sum_list_with f l + f y)%nat.
Proof.
  revert i. induction l as [|z l IH]; intros [|i] Hx; try done; simpl.
  - injection Hx as ->. lia.
  - specialize (IH i Hx). lia.
Qed.

Lemma work_step s c' i t t' :
  threads s !! i = Some t -> (work (mkSys c' (<[i := t']> (threads s))) + rank t.2 = work s + rank t'.2)%nat.
Proof. apply (sum_insert (rank ∘ snd)). Qed.

Record live s : Prop := {
  lv_inv : once_inv s;
  lv_calm : no_panics s;
  lv_wait : waiting_ok s;
  lv_hold : holder_ok s
}.

Lemma live_step s s' : live s -> step s s' -> live s'.
Proof.
  intros [Hi Hn Hw Hh] Hs. pose proof (step_inv s s' Hi Hs) as Hi'. destruct Hi as [Hc Ht Hwin].
  destruct Hs as [i t c' t' Hti E ->].
  destruct (tstep_ok _ _ _ _ Hc (Ht i t Hti) E) as (_ & _ & Ho & Hch & _).
  destruct (tstep_waiting _ _ _ _ (Ht i t Hti) (Hn i t Hti) (Hw i t Hti) Hc E) as (W1 & W2 & W3).
  split; [done|..].
  - intros j u [[_ ->]|[_ Hj]]%(lookup_step s i t); [rewrite Ho; by eapply Hn|by eapply Hn|done].
  - intros j u [[_ ->]|[Hne Hj]]%(lookup_step s i t); cbn [cell]; [done| |done].
    destruct (busy u.2) eqn:Hb; [|by apply W2, (Hw j)]. by destruct (u.2).
  - cbn [holder_ok cell threads]. intros [Hb|[Ho1 Hb]]%W3.
    + exists i, t'. cbn [threads]. by rewrite list_lookup_insert_eq by (by eapply lookup_lt_Some).
    + destruct (Hh Ho1) as (j & u & Hj & Hbu). exists j, u. cbn [threads].
      rewrite list_lookup_insert_ne; [done|]. intros ->. congruence.
Qed.

Lemma live_start ops : (forall f, GetOrInit f ∈ ops -> f <> None) -> live (start ops).
Proof.
  intros Hf. assert (He : forall i t, (entry <$> ops) !! i = Some t -> exists o, t = entry o /\ o ∈ ops).
  { intros i t (o & -> & Ho)%list_lookup_fmap_Some. exists o. split; [done|]. by eapply list_elem_of_lookup_2. }
  split; [apply start_ok|..].
  - intros i t (o & -> & Ho)%He. intros Hg. cbn in Hg. subst o. by apply Hf in Ho.
  - intros i t (o & -> & _)%He. split; by destruct o.
  - done.
Qed.

Lemma live_reachable ops s :
  (forall f, GetOrInit f ∈ ops -> f <> None) -> rtc step (start ops) s -> live s.
Proof.
  intros Hf Hs. pose proof (live_start ops Hf) as Hl. induction Hs as [|s s1 s2 Hs _ IH]; [done|].
  by apply IH, (live_step s).
Qed.

(** A step makes progress, or is an iteration of the spin loop while the cell is taken. *)
Lemma step_work s s' : live s -> step s s' -> s' = s \/ (work s' < work s)%nat.
Proof.
  intros [[Hc Ht _] Hn Hw _] [i t c' t' Hti E ->].
  destruct (tstep_rank _ _ _ _ (Ht i t Hti) (Hn i t Hti) (Hw i t Hti) Hc E) as [(-> & -> & _)|Hr].
  - left. rewrite list_insert_id by done. by destruct s.
  - right. pose proof (work_step s c' i t t' Hti). lia.
Qed.

Lemma unfinished_steps c t : thread_ok c t -> finished t.2 = false -> exists c' t', tstep t c = Some (c', t').
Proof.
  destruct t as [[[v|]|v|] [| | | | | | | | | | | | | | | |[]|[]|]]; cbn; intros Ht Hf; try done;
    destruct (cas_begin c); eauto.
Qed.

(** Some thread can make progress unless all have finished. *)
Lemma live_progress s :
  live s -> (exists i t, threads s !! i = Some t /\ finished t.2 = false) ->
  exists s', step s s' /\ (work s' < work s)%nat.
Proof.
  intros [[Hc Ht _] Hn Hw Hh] (i0 & t0 & Hi0 & Hf0).
  assert (Hpick : exists i t, threads s !! i = Some t /\ finished t.2 = false /\
    ~ (t.2 = ISpin /\ once (cell s) = INITIALIZING)).
  { destruct (decide (once (cell s) = INITIALIZING)) as [Ho|Ho]; [|exists i0, t0; naive_solver].
    destruct (Hh Ho) as (i & t & Hi & Hb). exists i, t. split; [done|]. destruct (t.2); naive_solver. }
  destruct Hpick as (i & t & Hi & Hf & Hs). destruct (unfinished_steps (cell s) t (Ht i t Hi) Hf) as (c' & t' & E).
  exists (mkSys c' (<[i := t']> (threads s))). split; [by eapply step_thread|].
  destruct (tstep_rank _ _ _ _ (Ht i t Hi) (Hn i t Hi) (Hw i t Hi) Hc E) as [(_ & _ & ? & ?)|Hr]; [by destruct Hs|].
  pose proof (work_step s c' i t t' Hi). lia.
Qed.

Lemma live_finishes s : live s -> exists s', rtc step s s' /\ Forall (fun t => finished t.2 = true) (threads s').
Proof.
  remember (work s) as w eqn:Ew. revert s Ew. induction (lt_wf w) as [w _ IH]. intros s -> Hl.
  destruct (decide (Exists (fun t => finished t.2 = false) (threads s))) as [Hu|Hu].
  - apply Exists_exists in Hu as (t & (i & Hi)%list_elem_of_lookup & Hf).
    destruct (live_progress s Hl) as (s1 & Hs1 & Hw); [by exists i, t|].
    destruct (IH (work s1) Hw s1 eq_refl (live_step s s1 Hl Hs1)) as (s' & Hs' & Hfin).
    exists s'. split; [by eapply rtc_l|done].
  - exists s. split; [done|]. apply not_Exists_Forall in Hu; [|intros t; apply _].
    eapply Forall_impl; [exact Hu|]. cbn. intros t. by destruct (finished t.2).
Qed.
End progress.

(** ** Visibility, and what a panic leaves behind *)

Section after.
Context {T : Type} `{PanicStrategy}.
Implicit Types (c : OnceLock T) (s : system T) (t u : thread T).

(** The calls that start once the cell holds [v], and their results. *)
Definition late (v : T) t : Prop :=
  match t with
  | (GetOrInit _, IFast) | (GetOrInit _, IFastRead) | (Set_ _, SCas) | (Set_ _, RetSet false)
  | (Get, GLoad) | (Get, GRead) => True
  | (GetOrInit _, RetVal w) | (Get, RetGet (Some w)) => w = v
  | _ => False
  end.

Lemma late_step v c t c' t' :
  once c = INITIALIZED -> value c = Some v -> late v t -> tstep t c = Some (c', t') -> c' = c /\ late v t'.
Proof.
  destruct c as [n x], t as [[f|w|] [| | | | | | | | | | | | | | | |[]|[]|]]; cbn; intros -> -> Hl E; try done;
    by simplify_eq/=.
Qed.

Lemma visible_steps s s' v :
  once_inv s -> once (cell s) = INITIALIZED -> value (cell s) = Some v -> rtc step s s' ->
  cell s' = cell s /\
  (forall j t, threads s !! j = Some t -> late v t -> exists t', threads s' !! j = Some t' /\ late v t').
Proof.
  intros Hi Ho Hv Hs. induction Hs as [s|s s1 s2 Hs _ IH]; [eauto|].
  pose proof (step_inv _ _ Hi Hs) as Hi1. destruct Hs as [i t c' t' Hti E ->].
  destruct (tstep_ok _ _ _ _ (oi_cell s Hi) (oi_thread s Hi i t Hti) E) as (_ & _ & _ & [->|[? _]] & _); [|done].
  destruct IH as [IHc IHt]; [done..|]. split; [done|]. intros j u Hj Hl. cbn [threads] in IHt.
  destruct (decide (i = j)) as [<-|Hne].
  - rewrite Hti in Hj. injection Hj as <-. destruct (late_step v _ _ _ _ Ho Hv Hl E) as [_ Hl'].
    apply (IHt i t'); [|done]. by rewrite list_lookup_insert_eq by (by eapply lookup_lt_Some).
  - apply (IHt j u); [|done]. by rewrite list_lookup_insert_ne.
Qed.

(** The cell is taken and nobody is initialising it. *)
Definition dead s : Prop :=
  once (cell s) = INITIALIZING /\ forall i t, threads s !! i = Some t -> busy t.2 = false.

(** A call of a dead cell: it has not finished, or without a value. *)
Definition fruitless t : Prop :=
  match t.2 with RetVal _ | RetGet (Some _) | RetSet true | Panicked => False | _ => True end.

Lemma dead_tstep c t c' t' :
  once c = INITIALIZING -> thread_ok c t -> busy t.2 = false -> tstep t c = Some (c', t') ->
  c' = c /\ busy t'.2 = false /\ fruitless t'.
Proof.
  destruct c as [n x], t as [[[v|]|v|] [| | | | | | | | | | | | | | | |[]|[]|]]; cbn; intros -> Ht Hb E; try done;
    destruct_and?; by simplify_eq/=.
Qed.

Lemma dead_step s s' : once_inv s -> dead s -> step s s' -> dead s'.
Proof.
  intros Hi [Ho Hb] [i t c' t' Hti E ->].
  destruct (dead_tstep _ _ _ _ Ho (oi_thread s Hi i t Hti) (Hb i t Hti) E) as (-> & Hb' & _).
  split; [done|]. intros j u [[_ ->]|[_ Hj]]%(lookup_step s i t); [done|by eapply Hb|done].
Qed.

Lemma panics_from c t c' o :
  cell_ok c -> thread_ok c t -> tstep t c = Some (c', (o, Panicked)) ->
  t = (GetOrInit None, ICall) /\ c' = guard_drop true c.
Proof.
  destruct c as [n x], t as [[[v|]|v|] [| | | | | | | | | | | | | | | |[]|[]|]]; cbn; intros Hc Ht E; try done;
    unfold cas_begin, read_unwrap in E; cbn in E; unfold cell_ok in Hc; cbn in Hc;
    repeat (case_match; simplify_eq/=); try done; destruct_and?; simplify_eq/=; naive_solver once_lia.
Qed.

Definition panicked s : Prop := exists i o, threads s !! i = Some (o, Panicked).

Lemma panicked_step s s' :
  unwinding = false -> once_inv s -> (panicked s -> dead s) -> step s s' -> panicked s' -> dead s'.
Proof.
  intros Hu Hi Hd Hst (j & o & Hp). pose proof (dead_step s s' Hi) as Hds. destruct Hst as [k t c' t' Htk E ->].
  destruct (lookup_step s k t t' j _ Htk Hp) as [[-> Et]|[Hne Hj]].
  - rewrite <- Et in E |- *. pose proof (oi_thread s Hi _ _ Htk) as Hok.
    destruct (panics_from _ _ _ _ (oi_cell s Hi) Hok E) as [-> ->]. destruct Hok as [Ho _].
    unfold guard_drop. rewrite Hu. split; [done|].
    intros i u [[_ ->]|[Hne Hu']]%(lookup_step s j (GetOrInit None, ICall)); [done| |done].
    destruct (busy u.2) eqn:Hb; [|done]. destruct Hne.
    eapply (oi_winner s Hi); [exact Htk|exact Hu'|done|unfold winner; by rewrite Hb].
  - apply Hds; [apply Hd; by exists j, o|]. exact (step_thread s _ k t c' t' Htk E eq_refl).
Qed.

Lemma panicked_dead ops s : unwinding = false -> rtc step (start ops) s -> panicked s -> dead s.
Proof.
  intros Hu Hs. assert (H0 : panicked (start ops) -> dead (start ops)).
  { intros (i & o & (o' & E & _)%list_lookup_fmap_Some). by destruct o'. }
  pose proof (start_ok ops) as Hi. induction Hs as [s|s s1 s2 Hs _ IH]; [done|].
  apply IH; [by eapply panicked_step|by eapply step_inv].
Qed.

Lemma dead_steps s s' j t t' :
  once_inv s -> dead s -> rtc step s s' -> threads s !! j = Some t -> fruitless t ->
  threads s' !! j = Some t' -> fruitless t'.
Proof.
  intros Hi Hd Hs. revert t. induction Hs as [s|s s1 s2 Hs _ IH]; intros t Hj Hf Hj'; [congruence|].
  pose proof (step_inv _ _ Hi Hs) as Hi1. pose proof (dead_step _ _ Hi Hd Hs) as Hd1.
  destruct Hs as [k u c' u' Hk E ->]. destruct Hd as [Ho Hb].
  destruct (dead_tstep _ _ _ _ Ho (oi_thread s Hi k u Hk) (Hb k u Hk) E) as (_ & _ & Hf').
  destruct (decide (k = j)) as [<-|Hne].
  - apply (IH Hi1 Hd1 u'); [cbn [threads]; by rewrite list_lookup_insert_eq by (by eapply lookup_lt_Some)|done|done].
  - apply (IH Hi1 Hd1 t); [cbn [threads]; by rewrite list_lookup_insert_ne|done|done].
Qed.
End after.

(** ** Per-core storage *)

Definition MAX_CPUS : Z := 16.

(** [struct PerCore]: [None] is memory that has not been written. *)
Record PerCore (T : Type) : Type := mkPerCore { cores : list (option T); initialized_count : Z }.
Arguments mkPerCore {T} _ _.
Arguments cores {T} _.
Arguments initialized_count {T} _.

Module PerCoreImpl.
Section ops.
Context {T : Type}.

(** [PerCore::init_core], for an [init] that returns [v]; its warning is in [Boot] ([warn_cores]). *)
Definition init_core (p : PerCore T) (cpu_id : Z) (v : T) : PerCore T :=
  if MAX_CPUS <=? cpu_id then p
  else mkPerCore (<[Z.to_nat cpu_id := Some v]> (cores p)) (wrap (initialized_count p + 1)).

(** The [for] loop of [PerCore::new], the [n] cores from [i] on. *)
Fixpoint new_loop (n : nat) (i : Z) (d : T) (p : PerCore T) : PerCore T :=
  match n with O => p | S n => new_loop n (i + 1) d (init_core p i d) end.

(** [PerCore::new], with the value of [T::default()]. *)
Definition new (n : Z) (d : T) : PerCore T :=
  new_loop (Z.to_nat n) 0 d (mkPerCore (replicate (Z.to_nat MAX_CPUS) None) 0).

(** [PerCore::get_unsafe]. *)
Definition get_unsafe (p : PerCore T) (i : Z) : outcome T :=
  match cores p !! Z.to_nat i with
  | None => Panic
  | Some None => Undef
  | Some (Some v) => Done v
  end.
End ops.
End PerCoreImpl.

(** [arch::sysinfo().cores], from [eax] of CPUID leaf 4. *)
Definition sysinfo_cores (eax : Z) : Z := Z.land (Z.shiftr eax 26) 0x3f + 1.

(** [arch::cpuid()], from [ebx] of CPUID leaf 1. *)
Definition cpuid (ebx : Z) : Z := Z.land (Z.shiftr ebx 24) 0xff.

(** [PerCore::get] and [PerCore::get_mut] on the core whose CPUID leaf 1 has [ebx]; a [u32] always
    converts to [usize]. *)
Definition percore_get {T} (p : PerCore T) (ebx : Z) : outcome T := PerCoreImpl.get_unsafe p (cpuid ebx).

(** [init_scheduler]: a call of [SCHEDULER.set]. *)
Definition init_scheduler {T} (eax : Z) (d : T) : op (PerCore T) :=
  Set_ (PerCoreImpl.new (sysinfo_cores eax) d).

Lemma new_loop_run {T} n i (d : T) p :
  0 <= i -> length (cores p) = 16%nat -> initialized_count p = Z.min i 16 ->
  (forall k, cores p !! k = if decide (Z.of_nat k < Z.min i 16) then Some (Some d)
                            else if decide (k < 16)%nat then Some None else None) ->
  let p' := PerCoreImpl.new_loop n i d p in
  initialized_count p' = Z.min (i + Z.of_nat n) 16 /\
  forall k, cores p' !! k = if decide (Z.of_nat k < Z.min (i + Z.of_nat n) 16) then Some (Some d)
                            else if decide (k < 16)%nat then Some None else None.
Proof.
  revert i p. induction n as [|n IH]; intros i p Hi Hl Hc Hk; cbn [PerCoreImpl.new_loop].
  { by rewrite Z.add_0_r. }
  replace (i + Z.of_nat (S n)) with ((i + 1) + Z.of_nat n) by lia.
  apply IH; unfold PerCoreImpl.init_core, MAX_CPUS; destruct (Z.leb_spec 16 i); [lia|lia|done| |lia| | |].
  - cbn. by rewrite length_insert.
  - cbn. rewrite Hc. rewrite wrap_small; [lia|]. unfold u64, W64. lia.
  - intros k. rewrite Hk. repeat case_decide; done || lia.
  - intros k. cbn. destruct (decide (Z.to_nat i = k)) as [<-|Hne].
    + rewrite list_lookup_insert_eq by lia. rewrite decide_True by lia. done.
    + rewrite list_lookup_insert_ne, Hk by done. repeat case_decide; done || lia.
Qed.

(** After [init_scheduler] on a machine that reports [n] cores (1 to 64), [PerCore::get] on a
    core returns its scheduler exactly when its identifier is below [min(n, 16)]; on a core with a
    higher identifier it reads memory that was never initialised, and from 16 on it panics. *)
Lemma percore_get_new {T} (eax ebx : Z) (d : T) :
  0 <= eax < 2 ^ 32 ->
  let p := PerCoreImpl.new (sysinfo_cores eax) d in
  1 <= sysinfo_cores eax <= 64 /\ initialized_count p = Z.min (sysinfo_cores eax) MAX_CPUS /\
  percore_get p ebx =
    if cpuid ebx <? Z.min (sysinfo_cores eax) MAX_CPUS then Done d
    else if cpuid ebx <? MAX_CPUS then Undef else Panic.
Proof.
  intros He p. assert (Hn : 1 <= sysinfo_cores eax <= 64).
  { unfold sysinfo_cores. change 0x3f with (Z.ones 6). rewrite Z.land_ones by lia.
    pose proof (Z.mod_pos_bound (Z.shiftr eax 26) (2 ^ 6)). lia. }
  assert (Hi : 0 <= cpuid ebx).
  { unfold cpuid. change 0xff with (Z.ones 8). rewrite Z.land_ones by lia.
    pose proof (Z.mod_pos_bound (Z.shiftr ebx 24) (2 ^ 8)). lia. }
  destruct (new_loop_run (Z.to_nat (sysinfo_cores eax)) 0 d (mkPerCore (replicate (Z.to_nat MAX_CPUS) None) 0)) as [Hc Hk];
    [done|done|done| |].
  { intros k. rewrite decide_False by lia. case_decide; [by apply lookup_replicate_2|].
    apply lookup_replicate_None. change (Z.to_nat MAX_CPUS) with 16%nat. lia. }
  rewrite Z2Nat.id, Z.add_0_l in Hc, Hk by lia. split; [done|]. split; [exact Hc|].
  unfold percore_get, PerCoreImpl.get_unsafe. unfold p, PerCoreImpl.new. rewrite Hk. unfold MAX_CPUS.
  destruct (Z.ltb_spec (cpuid ebx) (Z.min (sysinfo_cores eax) 16)); repeat case_decide; try lia; try done;
    destruct (Z.ltb_spec (cpuid ebx) 16); done || lia.
Qed.

(** ** Concrete executions *)

(** Run the threads in the order of [l]; a thread that has finished is skipped. *)
Definition exec_one {T} `{PanicStrategy} (s : system T) (i : nat) : system T :=
  match threads s !! i with
  | Some t => match tstep t (cell s) with
              | Some (c', t') => mkSys c' (<[i := t']> (threads s))
              | None => s
              end
  | None => s
  end.
Definition exec {T} `{PanicStrategy} (l : list nat) (s : system T) : system T := fold_left exec_one l s.

Lemma exec_rtc {T} `{PanicStrategy} l (s : system T) : rtc step s (exec l s).
Proof.
  revert s. induction l as [|i l IH]; intros s; [done|]. cbn. etrans; [|apply IH]. unfold exec_one.
  destruct (threads s !! i) as [t|] eqn:Hi; [|done]. destruct (tstep t (cell s)) as [[c' t']|] eqn:E; [|done].
  apply rtc_once. exact (step_thread s _ i t c' t' Hi E eq_refl).
Qed.

(** ** Claims *)

Module Claims.
Section claims.
Context {T : Type} `{PanicStrategy}.
Implicit Types (s : system T) (v w : T).

(** A value that has been handed out, or set, is visible to every later call: a [get] that
    starts after it returns it, a [get_or_init] returns it without running its initialiser, and a
    [set] fails. *)
Lemma once_visible (ops : list (op T)) s s' i t v j o p :
  rtc step (start ops) s -> threads s !! i = Some t ->
  result_of t = Some v \/ t = (Set_ v, RetSet true) ->
  threads s !! j = Some (entry o) -> rtc step s s' -> threads s' !! j = Some (o, p) -> finished p = true ->
  p = match o with GetOrInit _ => RetVal v | Set_ _ => RetSet false | Get => RetGet (Some v) end.
Proof.
  intros Hs Ht Hv Hj Hs' Hj' Hf. pose proof (reachable_inv ops s Hs) as Hi.
  assert (Hc : once (cell s) = INITIALIZED /\ value (cell s) = Some v).
  { pose proof (oi_thread s Hi i t Ht) as Hok. destruct Hv as [Hv| ->]; [|done].
    destruct t as [[[]| |] [| | | | | | | | | | | | | | | | |[]|]]; try done; cbn in Hv; by simplify_eq. }
  destruct Hc as [Ho Hx]. destruct (visible_steps s s' v Hi Ho Hx Hs') as [_ Hl].
  destruct (Hl j (entry o) Hj) as (t' & Ht' & Hl'); [by destruct o|].
  assert (t' = (o, p)) as -> by (apply (inj Some); etrans; [symmetry; exact Ht'|exact Hj']).
  destruct o, p as [| | | | | | | | | | | | | | | |[]|[]|]; try done; cbn in Hl'; by subst.
Qed.

(** C21: whatever calls of [get_or_init], [set] and [get] run concurrently on a new [OnceLock], and
    however their accesses interleave: no [unwrap] fails (only a call whose initialiser panics
    panics), all the values handed out are equal, at most one [set] succeeds and then every value
    handed out is its argument, and no thread is about to write the contents while another is
    about to read or write them.  A value that has been handed out, or set, is visible to every
    later call: a [get] that starts after it returns it, a [get_or_init] returns it without running
    its initialiser, and a [set] fails. *)
Theorem once_safe (ops : list (op T)) s :
  rtc step (start ops) s ->
  (forall i o, threads s !! i = Some (o, Panicked) -> o = GetOrInit None) /\
  (forall i j t u v w, threads s !! i = Some t -> threads s !! j = Some u ->
     result_of t = Some v -> result_of u = Some w -> v = w) /\
  (forall i j v w, threads s !! i = Some (Set_ v, RetSet true) -> threads s !! j = Some (Set_ w, RetSet true) -> i = j) /\
  (forall i j v u w, threads s !! i = Some (Set_ v, RetSet true) -> threads s !! j = Some u ->
     result_of u = Some w -> w = v) /\
  race_free s /\
  (forall s' i t v j o p, threads s !! i = Some t -> result_of t = Some v \/ t = (Set_ v, RetSet true) ->
     threads s !! j = Some (entry o) -> rtc step s s' -> threads s' !! j = Some (o, p) -> finished p = true ->
     p = match o with GetOrInit _ => RetVal v | Set_ _ => RetSet false | Get => RetGet (Some v) end).
Proof.
  intros Hs. pose proof (reachable_inv ops s Hs) as Hi.
  assert (Hr : forall i t v, threads s !! i = Some t -> result_of t = Some v -> value (cell s) = Some v).
  { intros i [o p] v Ht Hv. pose proof (oi_thread s Hi i _ Ht) as Hok.
    destruct o as [[]| |], p as [| | | | | | | | | | | | | | | | |[]|]; try done; cbn in Hv; simplify_eq; apply Hok. }
  split_and!.
  - intros i o Ht. pose proof (oi_thread s Hi i _ Ht) as Hok. by destruct o as [[]| |].
  - intros i j t u v w Ht Hu Hv Hw. apply (Hr i) in Hv; [|done]. apply (Hr j) in Hw; [|done]. congruence.
  - intros i j v w Ht Hu. by eapply (oi_winner s Hi).
  - intros i j v u w Ht Hu Hw. apply (Hr j) in Hw; [|done]. destruct (oi_thread s Hi i _ Ht) as [_ Hv]. congruence.
  - intros i j t u Hne Ht Hu Hw. assert (Hb : busy t.2 = true) by (by destruct (t.2)).
    pose proof (thread_ok_busy _ _ (oi_thread s Hi i t Ht) Hb) as Ho. destruct (writes u.2 || reads u.2) eqn:E; [|done].
    exfalso. apply orb_prop in E as [E|E].
    + apply Hne. eapply (oi_winner s Hi); [done|done|unfold winner; by rewrite Hb|by destruct (u.2)].
    + pose proof (oi_thread s Hi j u Hu) as Hok. destruct u as [[[]| |] []]; try done; cbn in Hok; destruct_and?; once_lia.
  - intros s' i t v j o p Ht Hv Hj Hs' Hj' Hf. exact (once_visible ops s s' i t v j o p Hs Ht Hv Hj Hs' Hj' Hf).
Qed.

(** C22: progress.  When no initialiser panics, every access either is a turn of the spin loop that
    changes nothing or brings the calls closer to their end, and from every reachable state all calls
    can be run to their end: no thread waits for one that will not come.  Without unwinding (the
    repository's panic strategy) an initialiser that panics leaves the cell taken for ever: every call
    that has not returned by then hands out no value, however long it runs; a [get_or_init] never
    returns, although the documentation says that the cell remains uninitialised. *)
Theorem once_progress (ops : list (op T)) s :
  rtc step (start ops) s ->
  ((forall f, GetOrInit f ∈ ops -> f <> None) ->
   (forall s', step s s' -> s' = s \/ (work s' < work s)%nat) /\
   exists s', rtc step s s' /\ Forall (fun t => finished t.2 = true) (threads s')) /\
  (unwinding = false -> forall s' i o j t t', threads s !! i = Some (o, Panicked) ->
   rtc step s s' -> threads s !! j = Some t -> finished t.2 = false ->
   threads s' !! j = Some t' -> finished t'.2 = true ->
   t'.2 = RetGet None \/ t'.2 = RetSet false).
Proof.
  intros Hs. split.
  - intros Hf. pose proof (live_reachable ops s Hf Hs) as Hl. split; [|by apply live_finishes].
    intros s' Hst. by apply step_work.
  - intros Hu s' i o j t t' Hp Hs' Hj Hf Hj' Hf'. pose proof (reachable_inv ops s Hs) as Hi.
    assert (Hd : dead s) by (apply (panicked_dead ops s Hu Hs); by exists i, o).
    assert (Hfr : fruitless t') by (eapply dead_steps; [done..|by destruct t as [? []]|done]).
    destruct t' as [? [| | | | | | | | | | | | | | | |[]|[]|]]; try done; auto.
Qed.


End claims.

(** *** Witnesses *)

(** A [set] and a [get_or_init] race: the second finds the cell taken and waits. *)
Definition demo_ops : list (op Z) := [Set_ 5; GetOrInit (Some 7); Get].
Definition demo_once : system Z := exec (H := false) [0; 1; 1; 1; 0; 0; 1; 1; 1]%nat (start demo_ops).

Lemma once_safe_witness :
  race_free demo_once /\
  exists p, threads (exec (H := false) [2; 2]%nat demo_once) !! 2%nat = Some (Get, p) /\ p = RetGet (Some 5).
Proof.
  destruct (once_safe (H := false) demo_ops demo_once (exec_rtc (H := false) _ _)) as (_ & _ & _ & _ & Hr & Hv).
  split; [exact Hr|]. eexists. split; [vm_compute; reflexivity|].
  refine (Hv (exec (H := false) [2; 2]%nat demo_once) 0%nat (Set_ 5, RetSet true) 5 2%nat Get _ _ (or_intror eq_refl) _
    (exec_rtc (H := false) _ _) _ _); reflexivity.
Defined.

Lemma once_progress_witness :
  (exists s', rtc (step (H := false)) (exec (H := false) [0; 1; 1]%nat (start demo_ops)) s' /\
    Forall (fun t => finished t.2 = true) (threads s')) /\
  exists p, threads (exec (H := false) [1; 1; 1; 2]%nat (exec (H := false) [0; 0; 0]%nat
      (start [GetOrInit None; GetOrInit (Some 7); Get]))) !! 2%nat = Some (Get, p) /\
    (p = RetGet None \/ p = RetSet false).
Proof.
  split.
  - apply (once_progress (H := false) demo_ops _ (exec_rtc _ _)). intros f Hf. unfold demo_ops in Hf. set_solver.
  - eexists. split; [vm_compute; reflexivity|].
    refine (proj2 (once_progress (H := false) [GetOrInit None; GetOrInit (Some 7); Get]
      (exec (H := false) [0; 0; 0]%nat (start [GetOrInit None; GetOrInit (Some 7); Get])) (exec_rtc (H := false) _ _)) eq_refl
      _ 0%nat (GetOrInit None) 2%nat (Get, GLoad) (Get, _) _ (exec_rtc (H := false) [1; 1; 1; 2]%nat _) _ _ _ _);
      reflexivity.
Defined.

End Claims.
