(* ===== verification/Syscall.v ===== *)
(** Entering and leaving the kernel: the system call path ([src/kernel/src/syscall.rs] and
    [src/kernel/src/arch/x86_64/syscall.rs]) and the return to a thread
    ([TrapFrame::restore] of [src/kernel/src/arch/x86_64/trapframe.rs]).

    The two assembly sequences are lists of instructions, run by a small machine with registers and
    64-bit memory words.  [call syscall_entry] reads the [Regs] that its argument points to, runs
    [syscall_entry] on it and panics with it; what the compiled function does to the registers is what
    the C calling convention allows (class [CAbi]).  The decoding of a system call number is derived by
    the [num_enum] crate: a class with its documented behaviour ([NumEnum]). *)
From S2P Require Import Prelude Caps CNode Tcb.

(** ** System calls *)

(** [enum Syscall]. *)
Inductive Syscall : Type :=
| AttachIrq | CreateTask | RemoveTask | TaskSleep | MapMemory | UnmapMemory | GrantMemory
| Send | Receive | IpcCall | Invalid (id : Z).

(** The discriminants; [Invalid] is the [catch_all]. *)
Definition discriminant (s : Syscall) : option Z :=
  match s with
  | AttachIrq => Some 0 | CreateTask => Some 1 | RemoveTask => Some 2 | TaskSleep => Some 3
  | MapMemory => Some 10 | UnmapMemory => Some 11 | GrantMemory => Some 12
  | Send => Some 20 | Receive => Some 21 | IpcCall => Some 22
  | Invalid _ => None
  end.

(** [#[derive(FromPrimitive)]] with a [catch_all] variant. *)
Class NumEnum : Type := { from_primitive : Z -> Syscall }.
(** "Turn a primitive into the variant with that discriminant; the [catch_all] variant captures
    all others". *)
Class NumEnumLaws `{NumEnum} : Prop := {
  from_known : forall s n, discriminant s = Some n -> from_primitive n = s;
  from_other : forall n, (forall s, discriminant s <> Some n) -> from_primitive n = Invalid n
}.

(** [enum SysError] of [syscall.rs]. *)
Inductive SyscallError : Type := SysInvalidValue | UnknownSyscall (id : Z).

(** [From<u64> for Syscall]. *)
Definition syscall_from `{NumEnum} (value : Z) : Syscall :=
  let id_u8 := value mod 256 in from_primitive id_u8.

(** [handler]; the arguments are not used. *)
Definition handler `{NumEnum} (id : Z) (args : list Z) : outcome (result unit SyscallError) :=
  match syscall_from id with
  | AttachIrq => Panic
  | CreateTask => Done (Ok tt)
  | Invalid id => Done (Err (UnknownSyscall id))
  | _ => Panic
  end.

(** [struct Regs]. *)
Record Regs : Type := mkRegs {
  rax : Z; rdi : Z; rsi : Z; rdx : Z; r8 : Z; r9 : Z; r10 : Z; r11 : Z; rcx : Z
}.

(** The array of [syscall_entry]. *)
Definition entry_args (r : Regs) : list Z := [rdi r; rsi r; rdx r; r10 r; r8 r; r9 r].

(** [syscall_entry]: the result of the handler is dropped. *)
Definition syscall_entry `{NumEnum} (r : Regs) : outcome Z :=
  match handler (rax r) (entry_args r) with
  | Done _ => Done 1
  | Panic => Panic
  | Undef => Undef
  | NoFuel => NoFuel
  end.

(** ** The machine *)

Inductive reg : Type :=
| RAX | RBX | RCX | RDX | RSI | RDI | RBP | RSP | R8 | R9 | R10 | R11 | R12 | R13 | R14 | R15.

#[export] Instance reg_eq_dec : EqDecision reg.
Proof. solve_decision. Defined.

(** Registers, memory words by address, which GS base is active, and what an interrupt return
    loads besides [rsp], and the segment selectors of the system call instructions (the STAR
    register). *)
Record Cpu : Type := mkCpu {
  regs : reg -> Z;
  words : gmap Z Z;
  kernel_gs : bool;
  ip : Z; cs_ : Z; flags : Z; ss_ : Z;
  star : Z
}.

(** The selectors that [sysretq] loads from STAR: code and stack segment for 64-bit user mode. *)
Definition sysret_base (star : Z) : Z := Z.land (Z.shiftr star 48) 0xFFFF.
Definition sysret_cs (star : Z) : Z := Z.lor (Z.land (sysret_base star + 16) 0xFFFF) 3.
Definition sysret_ss (star : Z) : Z := Z.lor (Z.land (sysret_base star + 8) 0xFFFF) 3.

Inductive instr : Type :=
| Push (r : reg) | Pop (r : reg) | Mov (dst src : reg) | AddRsp (n : Z)
| Swapgs | CallEntry | Iretq | Sysretq | Zero (r : reg) | Cpuid.

Definition upd_reg (r : reg) (v : Z) (c : Cpu) : Cpu :=
  mkCpu (fun x => if decide (x = r) then v else regs c x) (words c) (kernel_gs c) (ip c) (cs_ c) (flags c) (ss_ c) (star c).

(** The C calling convention: the machine after a call, returning a value, of a compiled function
    that writes no memory but its own stack frame; and the words that the CPUID instruction answers
    for a leaf. *)
Class CAbi : Type := { abi_return : Z -> Cpu -> Cpu; cpuid_leaf : Z -> Z * Z * Z * Z }.

#[export] Instance outcome_bind : MBind outcome := fun A B f m =>
  match m with Done a => f a | Panic => Panic | Undef => Undef | NoFuel => NoFuel end.

(** A word of memory; one that is not mapped is an access that faults. *)
Definition load_word (c : Cpu) (a : Z) : outcome Z :=
  match words c !! a with Some v => Done v | None => Undef end.

(** The [Regs] at an address ([repr(C)]). *)
Definition load_regs (c : Cpu) (a : Z) : outcome Regs :=
  v0 ← load_word c a; v1 ← load_word c (a + 8); v2 ← load_word c (a + 16); v3 ← load_word c (a + 24);
  v4 ← load_word c (a + 32); v5 ← load_word c (a + 40); v6 ← load_word c (a + 48); v7 ← load_word c (a + 56);
  v8 ← load_word c (a + 64); Done (mkRegs v0 v1 v2 v3 v4 v5 v6 v7 v8).

(** One instruction: [Undef] when it reads or writes a word that is not mapped, [Panic] when the
    function that it calls panics. *)
Definition exec_instr `{CAbi} `{NumEnum} (i : instr) (c : Cpu) : outcome Cpu :=
  match i with
  | Push r =>
      let sp := wrap (regs c RSP - 8) in
      _ ← load_word c sp;
      let c' := mkCpu (regs c) (<[sp := regs c r]> (words c)) (kernel_gs c) (ip c) (cs_ c) (flags c) (ss_ c) (star c) in
      Done (upd_reg RSP sp c')
  | Pop r =>
      v ← load_word c (regs c RSP);
      Done (upd_reg r v (upd_reg RSP (wrap (regs c RSP + 8)) c))
  | Mov dst src => Done (upd_reg dst (regs c src) c)
  | AddRsp n => Done (upd_reg RSP (wrap (regs c RSP + n)) c)
  | Swapgs => Done (mkCpu (regs c) (words c) (negb (kernel_gs c)) (ip c) (cs_ c) (flags c) (ss_ c) (star c))
  | CallEntry =>
      r ← load_regs c (regs c RDI);
      v ← syscall_entry r;
      Done (abi_return v c)
  | Iretq =>
      let sp := regs c RSP in
      i ← load_word c sp; k ← load_word c (wrap (sp + 8)); f ← load_word c (wrap (sp + 16));
      p ← load_word c (wrap (sp + 24)); s ← load_word c (wrap (sp + 32));
      Done (upd_reg RSP p (mkCpu (regs c) (words c) (kernel_gs c) i k f s (star c)))
  | Sysretq => Done (mkCpu (regs c) (words c) (kernel_gs c) (regs c RCX)
      (sysret_cs (star c)) (regs c R11) (sysret_ss (star c)) (star c))
  | Zero r => Done (upd_reg r 0 c)
  | Cpuid =>
      let '(a, b, cx, d) := cpuid_leaf (regs c RAX) in
      Done (upd_reg RDX d (upd_reg RCX cx (upd_reg RBX b (upd_reg RAX a c))))
  end.

Fixpoint exec_all `{CAbi} `{NumEnum} (l : list instr) (c : Cpu) : outcome Cpu :=
  match l with [] => Done c | i :: l => c' ← exec_instr i c; exec_all l c' end.



(** [tlb::isb] of [arch/x86_64/vspace/tlb.rs]: a serialising instruction between saves. *)
Definition isb : list instr :=
  [Push RAX; Push RBX; Push RCX; Push RDX; Zero RAX; Cpuid; Pop RDX; Pop RCX; Pop RBX; Pop RAX].

(** ** Lemmas on instruction sequences *)

Section machine.
Context `{A : CAbi} `{N : NumEnum}.
Implicit Types (c : Cpu) (l : list reg).

Lemma exec_app (l1 l2 : list instr) c : exec_all (l1 ++ l2) c = exec_all l1 c ≫= exec_all l2.
Proof.
  revert c. induction l1 as [|i l1 IH]; intros c; [done|]. cbn. destruct (exec_instr i c); [apply IH|done..].
Qed.

Lemma upd_same r v c : regs (upd_reg r v c) r = v.
Proof. cbn. by rewrite decide_True. Qed.

Lemma upd_other r r' v c : r' <> r -> regs (upd_reg r v c) r' = regs c r'.
Proof. intros Hr. cbn. by rewrite decide_False. Qed.



(** The state that only stack instructions leave alone. *)
Definition same_mode c c' : Prop :=
  kernel_gs c' = kernel_gs c /\ ip c' = ip c /\ cs_ c' = cs_ c /\ flags c' = flags c /\ ss_ c' = ss_ c /\ star c' = star c.

(** Popping the registers [l] from words that hold [vs]. *)
Lemma pops_run l vs c :
  length vs = length l -> NoDup l -> RSP ∉ l ->
  0 <= regs c RSP -> regs c RSP + 8 * Z.of_nat (length l) < W64 ->
  (forall k v, vs !! k = Some v -> words c !! (regs c RSP + 8 * Z.of_nat k) = Some v) ->
  exists c', exec_all (Pop <$> l) c = Done c' /\
    (forall k r v, l !! k = Some r -> vs !! k = Some v -> regs c' r = v) /\
    regs c' RSP = regs c RSP + 8 * Z.of_nat (length l) /\
    (forall r, r ∉ l -> r <> RSP -> regs c' r = regs c r) /\ words c' = words c /\ same_mode c c'.
Proof.
  revert vs c. induction l as [|r l IH]; intros vs c Hl Hnd Hs H0 Hb Hw.
  { exists c. cbn. rewrite Z.add_0_r. split_and!; done. }
  destruct vs as [|v vs]; [done|]. apply NoDup_cons in Hnd as [Hr Hnd]. apply not_elem_of_cons in Hs as [Hsr Hs].
  pose proof (Hw 0%nat v eq_refl) as Hv. rewrite Z.add_0_r in Hv. cbn [length] in *.
  set (c1 := upd_reg r v (upd_reg RSP (wrap (regs c RSP + 8)) c)).
  assert (Hsp : regs c1 RSP = regs c RSP + 8).
  { unfold c1. rewrite upd_other, upd_same by done. apply wrap_small. unfold u64. lia. }
  destruct (IH vs c1) as (c' & E & Hg & Hsp' & Ho & Hm & Hk); [lia|done|done|lia|lia| |].
  { intros k w Hk. specialize (Hw (S k) w Hk). rewrite Hsp. rewrite <- Hw. change (words c1) with (words c). f_equal. lia. }
  exists c'. split_and!.
  - rewrite fmap_cons. cbn [exec_all exec_instr]. unfold load_word. rewrite Hv. exact E.
  - intros [|k] r' v' Hr' Hv'; [|by eapply Hg]. injection Hr' as <-. injection Hv' as <-.
    rewrite Ho by (done || congruence). apply upd_same.
  - rewrite Hsp', Hsp. lia.
  - intros r' [Hr1 Hr2]%not_elem_of_cons Hn. rewrite Ho by done. unfold c1. by rewrite !upd_other.
  - done.
  - exact Hk.
Qed.

(** Pushing the registers [l] on mapped words. *)
Lemma pushes_run l c :
  RSP ∉ l -> 8 * Z.of_nat (length l) <= regs c RSP < W64 ->
  (forall k, (k < length l)%nat -> is_Some (words c !! (regs c RSP - 8 * (Z.of_nat k + 1)))) ->
  exists c', exec_all (Push <$> l) c = Done c' /\
    (forall k r, l !! k = Some r -> words c' !! (regs c RSP - 8 * (Z.of_nat k + 1)) = Some (regs c r)) /\
    (forall a, (a < regs c RSP - 8 * Z.of_nat (length l) \/ regs c RSP <= a) -> words c' !! a = words c !! a) /\
    regs c' RSP = regs c RSP - 8 * Z.of_nat (length l) /\
    (forall r, r <> RSP -> regs c' r = regs c r) /\ same_mode c c'.
Proof.
  revert c. induction l as [|r l IH]; intros c Hs Hb Hw.
  { exists c. cbn. rewrite Z.sub_0_r. split_and!; done. }
  apply not_elem_of_cons in Hs as [Hsr Hs]. cbn [length] in *.
  destruct (Hw 0%nat) as [w0 Hw0]; [lia|]. replace (regs c RSP - 8 * (Z.of_nat 0 + 1)) with (regs c RSP - 8) in Hw0 by lia.
  set (sp := regs c RSP - 8) in *.
  assert (Hwr : wrap sp = sp) by (apply wrap_small; unfold u64, sp; lia).
  set (c1 := upd_reg RSP sp (mkCpu (regs c) (<[sp := regs c r]> (words c)) (kernel_gs c) (ip c) (cs_ c) (flags c) (ss_ c) (star c))).
  assert (Hsp : regs c1 RSP = sp) by apply upd_same.
  assert (Hm1 : words c1 = <[sp := regs c r]> (words c)) by done.
  destruct (IH c1) as (c' & E & Hg & Hout & Hsp' & Ho & Hk); [done|rewrite Hsp; unfold sp; lia| |].
  { intros k Hk. rewrite Hsp, Hm1, lookup_insert_ne by (unfold sp; lia).
    replace (sp - 8 * (Z.of_nat k + 1)) with (regs c RSP - 8 * (Z.of_nat (S k) + 1)) by (unfold sp; lia). apply Hw. lia. }
  exists c'. rewrite Hsp in *. split_and!.
  - rewrite fmap_cons. cbn [exec_all exec_instr]. unfold load_word. fold sp. rewrite Hwr, Hw0. exact E.
  - intros [|k] r' Hr'.
    + injection Hr' as <-. rewrite Hout by (unfold sp; lia).
      replace (regs c RSP - 8 * (Z.of_nat 0 + 1)) with sp by (unfold sp; lia). rewrite Hm1. apply lookup_insert_eq.
    + specialize (Hg k r' Hr'). replace (regs c RSP - 8 * (Z.of_nat (S k) + 1)) with (sp - 8 * (Z.of_nat k + 1)) by (unfold sp; lia).
      rewrite Hg. f_equal. etrans; [apply upd_other|done]. intros ->. apply Hs. by eapply list_elem_of_lookup_2.
  - intros a Ha. rewrite Hout, Hm1 by (unfold sp in *; lia). apply lookup_insert_ne. unfold sp. lia.
  - unfold sp in *. lia.
  - intros r' Hr'. rewrite Ho by done. etrans; [by apply upd_other|done].
  - exact Hk.
Qed.
End machine.


(** ** The system call stub *)


Section stub.
Context `{A : CAbi} `{N : NumEnum}.




(** [isb] gives every register back, and changes no memory but the four words below the stack
    pointer. *)
Lemma isb_run c :
  32 <= regs c RSP < W64 -> (forall k, 0 <= k < 4 -> is_Some (words c !! (regs c RSP - 32 + 8 * k))) ->
  exists c', exec_all isb c = Done c' /\ (forall r, regs c' r = regs c r) /\
    (forall a, (a < regs c RSP - 32 \/ regs c RSP <= a) -> words c' !! a = words c !! a).
Proof.
  intros Hsp Hw. destruct (pushes_run [RAX; RBX; RCX; RDX] c) as (c1 & E1 & Hg & Hout & Hs & Ho & _).
  - apply (bool_decide_unpack _). by vm_compute.
  - cbn [length]. lia.
  - intros k Hk. cbn [length] in Hk. destruct (Hw (3 - Z.of_nat k)) as [w E]; [lia|]. exists w. rewrite <- E. f_equal. lia.
  - cbn [length] in Hs, Hout.
    assert (exists c2, exec_all [Zero RAX; Cpuid] c1 = Done c2 /\ words c2 = words c1 /\
      forall r, r ∉ [RAX; RBX; RCX; RDX] -> regs c2 r = regs c1 r) as (c2 & E2 & W2 & R2).
    { cbn [exec_all exec_instr mbind outcome_bind]. destruct (cpuid_leaf _) as [[[a b] cx] d]. eexists. split; [reflexivity|].
      split; [done|]. intros r Hr. rewrite !upd_other by set_solver. done. }
    assert (Hs2 : regs c2 RSP = regs c RSP - 32) by (rewrite R2 by (apply (bool_decide_unpack _); by vm_compute); lia).
    destruct (pops_run [RDX; RCX; RBX; RAX] [regs c RDX; regs c RCX; regs c RBX; regs c RAX] c2) as (c3 & E3 & Hp & Hs3 & Ho3 & W3 & _).
    + done.
    + apply (bool_decide_unpack _). by vm_compute.
    + apply (bool_decide_unpack _). by vm_compute.
    + lia.
    + cbn [length]. lia.
    + intros k v Hk. rewrite W2, Hs2. assert (Hlt := lookup_lt_Some _ _ _ Hk). cbn in Hlt.
      destruct (lookup_lt_is_Some_2 [RAX; RBX; RCX; RDX] (3 - k)) as [r Hr]; [cbn; lia|].
      replace (regs c RSP - 32 + 8 * Z.of_nat k) with (regs c RSP - 8 * (Z.of_nat (3 - k) + 1)) by lia. rewrite (Hg _ _ Hr).
      do 4 (destruct k as [|k]; [injection Hk as <-; by injection Hr as <-|]). done.
    + exists c3. change isb with ((Push <$> [RAX; RBX; RCX; RDX]) ++ [Zero RAX; Cpuid] ++ (Pop <$> [RDX; RCX; RBX; RAX])).
      rewrite exec_app, E1. cbn [mbind outcome_bind]. rewrite exec_app, E2. cbn [mbind outcome_bind]. split_and!; [done| |].
      * intros r. destruct (decide (r = RSP)) as [->|Hne]; [rewrite Hs3, Hs2; cbn [length]; lia|].
        destruct (decide (r ∈ [RDX; RCX; RBX; RAX])) as [(k & Hk)%list_elem_of_lookup|Hr].
        -- do 4 (destruct k as [|k]; [injection Hk as <-; first [by apply (Hp 0%nat)|by apply (Hp 1%nat)|by apply (Hp 2%nat)|by apply (Hp 3%nat)]|]). done.
        -- rewrite Ho3 by done. rewrite R2 by set_solver. by apply Ho.
      * intros a Ha. rewrite W3, W2. by apply Hout; lia.
Qed.

End stub.

(** ** Dispatch *)

(** The numbers of the system calls that are not implemented. *)
Definition unimplemented : list Z := [0; 2; 3; 10; 11; 12; 20; 21; 22].

Section outcome.
Context `{NumEnumLaws}.

Lemma known_number s k n : discriminant s = Some k -> n = k -> from_primitive n = s.
Proof. intros Hs ->. by apply from_known. Qed.

Lemma other_number n : n ∉ [0; 1; 2; 3; 10; 11; 12; 20; 21; 22] -> from_primitive n = Invalid n.
Proof. intros Hn. apply from_other. intros s Hs. destruct s; simplify_eq/=; set_solver. Qed.

Lemma entry_outcome (r : Regs) :
  syscall_entry r = if decide (rax r mod 256 ∈ unimplemented) then Panic else Done 1.
Proof.
  unfold syscall_entry, handler, syscall_from, unimplemented. set (n := rax r mod 256). case_decide as Hn.
  - rewrite !elem_of_cons, elem_of_nil in Hn.
    destruct Hn as [Hn|[Hn|[Hn|[Hn|[Hn|[Hn|[Hn|[Hn|[Hn|[]]]]]]]]]];
      [rewrite (known_number AttachIrq _ _ eq_refl Hn)|rewrite (known_number RemoveTask _ _ eq_refl Hn)|
       rewrite (known_number TaskSleep _ _ eq_refl Hn)|rewrite (known_number MapMemory _ _ eq_refl Hn)|
       rewrite (known_number UnmapMemory _ _ eq_refl Hn)|rewrite (known_number GrantMemory _ _ eq_refl Hn)|
       rewrite (known_number Send _ _ eq_refl Hn)|rewrite (known_number Receive _ _ eq_refl Hn)|
       rewrite (known_number IpcCall _ _ eq_refl Hn)]; done.
  - destruct (decide (n = 1)) as [Hn1|Hn1]; [by rewrite (known_number CreateTask _ _ eq_refl Hn1)|].
    rewrite other_number; [done|set_solver].
Qed.
End outcome.

(** ** Reference instances and a concrete machine *)



Definition ref_num_enum : NumEnum := {| from_primitive n :=
  match n with
  | 0 => AttachIrq | 1 => CreateTask | 2 => RemoveTask | 3 => TaskSleep | 10 => MapMemory | 11 => UnmapMemory
  | 12 => GrantMemory | 20 => Send | 21 => Receive | 22 => IpcCall | _ => Invalid n
  end |}.

Definition ref_num_enum_laws : @NumEnumLaws ref_num_enum.
Proof.
  split.
  - intros [] n Hn; simplify_eq/=; done.
  - intros n Hn. pose proof (Hn AttachIrq). pose proof (Hn CreateTask). pose proof (Hn RemoveTask).
    pose proof (Hn TaskSleep). pose proof (Hn MapMemory). pose proof (Hn UnmapMemory). pose proof (Hn GrantMemory).
    pose proof (Hn Send). pose proof (Hn Receive). pose proof (Hn IpcCall). cbn in *.
    repeat case_match; done || congruence.
Qed.




(** ** Claims *)

Module Claims.
Section claims.
Context `{CAbiLaws} `{NumEnumLaws}.




End claims.

Section dispatch.
Context `{NumEnumLaws}.

(** C36: a system call returns 1 to the stub or panics the kernel, whatever its arguments: the
    numbers (modulo 256) 0, 2, 3, 10 to 12 and 20 to 22, which every program can pass, panic; 1
    does nothing; and for the others the handler's [UnknownSyscall] is dropped. *)
Theorem syscall_dispatch (r : Regs) :
  let n := rax r mod 256 in
  syscall_entry r = (if decide (n ∈ [0; 2; 3; 10; 11; 12; 20; 21; 22]) then Panic else Done 1) /\
  (n = 1 -> handler (rax r) (entry_args r) = Done (Ok tt)) /\
  (n ∉ [0; 1; 2; 3; 10; 11; 12; 20; 21; 22] -> handler (rax r) (entry_args r) = Done (Err (UnknownSyscall n))).
Proof.
  intros n. split_and!; [apply entry_outcome| |]; intros Hn; unfold handler, syscall_from; fold n.
  - by rewrite (known_number CreateTask _ _ eq_refl Hn).
  - by rewrite other_number.
Qed.
End dispatch.

(** *** Witnesses *)




Lemma syscall_dispatch_witness : syscall_entry (H := ref_num_enum) (mkRegs 22 0 0 0 0 0 0 0 0) = Panic.
Proof. apply (syscall_dispatch (H := ref_num_enum) (H0 := ref_num_enum_laws) (mkRegs 22 0 0 0 0 0 0 0 0)). Defined.
End Claims.
