(* ===== verification/Console.v ===== *)
(** The framebuffer console: [src/kernel/src/arch/x86_64/console/framebuffer.rs].

    The framebuffer is a list of bytes; indexing and slicing out of range panic, as do unsupported
    pixel formats; address arithmetic is that of the build profile.  The font comes from the
    [noto_sans_mono_bitmap] crate: a class of operations with its documented behaviour ([Font]). *)
From S2P Require Import Prelude Caps.

Definition LINE_SPACING : Z := 2.
Definition LETTER_SPACING : Z := 0.
Definition BORDER_PADDING : Z := 1.

(** [PixelFormat] of the [bootloader_api] crate, which may have further formats. *)
Inductive PixelFormat : Type := Rgb | Bgr | U8 | OtherFormat.

(** The fields of [FrameBufferInfo] that the code uses. *)
Record FrameBufferInfo : Type := mkInfo {
  width : Z; height : Z; pixel_format : PixelFormat; bytes_per_pixel : Z; stride : Z
}.

(** [RasterizedChar]: the rows of pixel intensities, and the width. *)
Record RasterizedChar : Type := mkRaster { raster : list (list Z); raster_w : Z }.

(** The font: [get_raster] for the weight and size of the console, [CHAR_RASTER_WIDTH] and
    [CHAR_RASTER_HEIGHT.val()]; characters are code points. *)
Class Font : Type := {
  get_raster : Z -> option RasterizedChar;
  CHAR_RASTER_WIDTH : Z;
  CHAR_RASTER_HEIGHT : Z
}.

(** [BACKUP_CHAR], U+FFFD. *)
Definition BACKUP_CHAR : Z := 0xFFFD.

(** "Each char has the same width and height"; the replacement character is in the font. *)
Class FontLaws `{Font} : Prop := {
  font_width : 0 < CHAR_RASTER_WIDTH < 256;
  font_height : 0 < CHAR_RASTER_HEIGHT < 256;
  font_backup : is_Some (get_raster BACKUP_CHAR);
  font_shape : forall c r, get_raster c = Some r ->
    raster_w r = CHAR_RASTER_WIDTH /\ Z.of_nat (length (raster r)) = CHAR_RASTER_HEIGHT /\
    Forall (fun row => Z.of_nat (length row) = CHAR_RASTER_WIDTH) (raster r)
}.

(** [struct FrameBufferWriter]. *)
Record FrameBufferWriter : Type := mkWriter {
  framebuffer : list Z;
  info : FrameBufferInfo;
  x_pos : Z;
  y_pos : Z;
  panic_mode : bool
}.

Definition set_framebuffer (v : list Z) (w : FrameBufferWriter) : FrameBufferWriter :=
  mkWriter v (info w) (x_pos w) (y_pos w) (panic_mode w).
Definition set_info (v : FrameBufferInfo) (w : FrameBufferWriter) : FrameBufferWriter :=
  mkWriter (framebuffer w) v (x_pos w) (y_pos w) (panic_mode w).
Definition set_x (v : Z) (w : FrameBufferWriter) : FrameBufferWriter :=
  mkWriter (framebuffer w) (info w) v (y_pos w) (panic_mode w).
Definition set_y (v : Z) (w : FrameBufferWriter) : FrameBufferWriter :=
  mkWriter (framebuffer w) (info w) (x_pos w) v (panic_mode w).
Definition set_panic (v : bool) (w : FrameBufferWriter) : FrameBufferWriter :=
  mkWriter (framebuffer w) (info w) (x_pos w) (y_pos w) v.

Abbreviation W := (M FrameBufferWriter).

Module Writer.
Section ops.
Context `{Build} `{Font}.

(** [get_char_raster]. *)
Definition get_char_raster (c : Z) : W RasterizedChar :=
  match get_raster c with
  | Some r => ret r
  | None => unwrap_or_panic (get_raster BACKUP_CHAR)
  end.

(** [carriage_return]. *)
Definition carriage_return : W unit := modify (set_x BORDER_PADDING).

(** [newline]. *)
Definition newline : W unit :=
  let! y := gets y_pos in
  let! y' := add64 y (CHAR_RASTER_HEIGHT + LINE_SPACING) in
  do! modify (set_y y') in
  carriage_return.

(** [clear]. *)
Definition clear : W unit :=
  do! modify (set_x BORDER_PADDING) in
  do! modify (set_y BORDER_PADDING) in
  modify (fun w => set_framebuffer (replicate (length (framebuffer w)) 0) w).

(** [new]. *)
Definition new (fb : list Z) (i : FrameBufferInfo) : FrameBufferWriter :=
  fst (clear (mkWriter fb i 0 0 false)).

(** [framebuffer[off..off + n].copy_from_slice(&color[..n])]. *)
Definition copy_pixel (off n : Z) (color : list Z) : W unit := fun w =>
  (let! e := add64 off n in
   if (off <=? e) && (e <=? Z.of_nat (length (framebuffer w))) && (n <=? Z.of_nat (length color)) then
     modify (set_framebuffer (take (Z.to_nat off) (framebuffer w) ++ take (Z.to_nat n) color ++
                              drop (Z.to_nat (off + n)) (framebuffer w)))
   else panic) w.

(** [write_pixel]. *)
Definition write_pixel (x y intensity : Z) : W unit :=
  let! w := get in
  let! r := mul64 y (stride (info w)) in
  let! pixel_offset := add64 r x in
  let red := if panic_mode w then 139 else intensity in
  let! color := match pixel_format (info w) with
                | Rgb => ret [red; intensity; intensity / 2; 0]
                | Bgr => ret [intensity / 2; intensity; red; 0]
                | U8 => ret [if 200 <? intensity then 0xf else 0; 0; 0; 0]
                | OtherFormat =>
                    do! modify (set_info (mkInfo (width (info w)) (height (info w)) Rgb
                                            (bytes_per_pixel (info w)) (stride (info w)))) in
                    panic
                end in
  let bpp := bytes_per_pixel (info w) in
  let! byte_offset := mul64 pixel_offset bpp in
  do! copy_pixel byte_offset bpp color in
  let! fb := gets framebuffer in
  do! unwrap_or_panic (fb !! Z.to_nat byte_offset) in
  ret tt.

(** The inner loop of [write_rendered_char]: row [y], the pixels from column [x] on. *)
Fixpoint write_row (row : list Z) (x y : Z) : W unit :=
  match row with
  | [] => ret tt
  | byte :: row =>
      let! w := get in
      let! px := add64 (x_pos w) x in
      let! py := add64 (y_pos w) y in
      do! write_pixel px py byte in
      write_row row (x + 1) y
  end.

(** The outer loop: the rows from [y] on. *)
Fixpoint write_rows (rows : list (list Z)) (y : Z) : W unit :=
  match rows with
  | [] => ret tt
  | row :: rows => do! write_row row 0 y in write_rows rows (y + 1)
  end.

(** [write_rendered_char]. *)
Definition write_rendered_char (rendered_char : RasterizedChar) : W unit :=
  do! write_rows (raster rendered_char) 0 in
  let! x := gets x_pos in
  let! x' := add64 x (raster_w rendered_char + LETTER_SPACING) in
  modify (set_x x').

(** [write_char]. *)
Definition write_char (c : Z) : W unit :=
  if c =? 10 then newline
  else if c =? 13 then carriage_return
  else
    let! w := get in
    let! new_xpos := add64 (x_pos w) CHAR_RASTER_WIDTH in
    do! (if width (info w) <=? new_xpos then newline else ret tt) in
    let! w := get in
    let! y := add64 (y_pos w) CHAR_RASTER_HEIGHT in
    let! new_ypos := add64 y BORDER_PADDING in
    do! (if height (info w) <=? new_ypos then clear else ret tt) in
    let! r := get_char_raster c in
    write_rendered_char r.

(** [write_str], on the code points of the string. *)
Fixpoint write_str (s : list Z) : W unit :=
  match s with [] => ret tt | c :: s => do! write_char c in write_str s end.

(** The inner loop of [panic_screen]: [n] pixels of row [y] from [x] on. *)
Fixpoint fill_row (n : nat) (color : list Z) (x y : Z) : W unit :=
  match n with
  | O => ret tt
  | S n =>
      let! w := get in
      let! r := mul64 y (stride (info w)) in
      let! pixel_offset := add64 r x in
      let! byte_offset := mul64 pixel_offset (bytes_per_pixel (info w)) in
      do! copy_pixel byte_offset (bytes_per_pixel (info w)) color in
      fill_row n color (x + 1) y
  end.

(** The outer loop: [n] rows from [y] on. *)
Fixpoint fill_rows (n : nat) (color : list Z) (y : Z) : W unit :=
  match n with
  | O => ret tt
  | S n =>
      let! w := get in
      do! fill_row (Z.to_nat (width (info w))) color 0 y in
      fill_rows n color (y + 1)
  end.

(** [panic_screen]. *)
Definition panic_screen : W unit :=
  do! modify (set_x BORDER_PADDING) in
  do! modify (set_y BORDER_PADDING) in
  let! w := get in
  let! dark_red := match pixel_format (info w) with
                   | Rgb => ret [139; 0; 0; 0]
                   | Bgr => ret [0; 0; 139; 0]
                   | U8 => ret [0xf; 0; 0; 0]
                   | OtherFormat => panic
                   end in
  do! fill_rows (Z.to_nat (height (info w))) dark_red 0 in
  modify (set_panic true).
End ops.
End Writer.

(** ** Every access is in range *)

Section range.
Context `{Build} `{FontLaws}.
Implicit Types (w : FrameBufferWriter).

(** What the writer needs of the framebuffer: one of the pixel formats that it supports, with one to
    four bytes per pixel, rows that fit in the buffer and a screen that a character fits in. *)
Record screen_ok w : Prop := {
  sc_format : pixel_format (info w) <> OtherFormat;
  sc_bpp : 1 <= bytes_per_pixel (info w) <= 4;
  sc_width : BORDER_PADDING + CHAR_RASTER_WIDTH <= width (info w) <= stride (info w);
  sc_height : BORDER_PADDING + CHAR_RASTER_HEIGHT <= height (info w);
  sc_fits : height (info w) * stride (info w) * bytes_per_pixel (info w) <= Z.of_nat (length (framebuffer w));
  sc_len : Z.of_nat (length (framebuffer w)) < W64
}.

(** [w'] is [w] with other pixels. *)
Definition repaint w w' : Prop :=
  exists fb, length fb = length (framebuffer w) /\ w' = set_framebuffer fb w.

Lemma repaint_refl w : repaint w w.
Proof. exists (framebuffer w). by destruct w. Qed.

Lemma repaint_trans w1 w2 w3 : repaint w1 w2 -> repaint w2 w3 -> repaint w1 w3.
Proof. intros (fb & Hl & ->) (fb' & Hl' & ->). exists fb'. split; [cbn in Hl'; congruence|done]. Qed.

Lemma repaint_ok w w' : repaint w w' -> screen_ok w -> screen_ok w'.
Proof. intros (fb & Hl & ->) [? ? ? ? ? ?]. split; cbn; rewrite ?Hl; done. Qed.

(** The bytes of a pixel of the screen are in the buffer. *)
Lemma pixel_range w x y :
  screen_ok w -> 0 <= x < width (info w) -> 0 <= y < height (info w) ->
  0 <= y * stride (info w) /\ 0 <= y * stride (info w) + x /\
  0 <= (y * stride (info w) + x) * bytes_per_pixel (info w) /\
  (y * stride (info w) + x) * bytes_per_pixel (info w) + bytes_per_pixel (info w)
    <= Z.of_nat (length (framebuffer w)) < W64.
Proof.
  intros [_ Hb Hw _ Hf Hl] Hx Hy. assert (Hrow : y * stride (info w) + x + 1 <= height (info w) * stride (info w)) by nia.
  assert (Hr0 : 0 <= y * stride (info w)) by nia. split_and!; [done|lia|nia| |done].
  etrans; [|exact Hf]. nia.
Qed.

Lemma copy_pixel_run w off n color :
  0 <= off -> 0 <= n <= Z.of_nat (length color) -> off + n <= Z.of_nat (length (framebuffer w)) < W64 ->
  exists w', Writer.copy_pixel off n color w = (w', Done tt) /\ repaint w w'.
Proof.
  intros Ho Hn Hl. unfold Writer.copy_pixel. rewrite (bind_done _ _ _ w (off + n)) by (apply arith64_ok; unfold u64; lia).
  rewrite !(proj2 (Z.leb_le _ _)) by lia. eexists. split; [reflexivity|]. eexists. split; [|reflexivity].
  rewrite !length_app, !length_take, length_drop. lia.
Qed.

Lemma pixel_offset_run w x y :
  screen_ok w -> 0 <= x < width (info w) -> 0 <= y < height (info w) ->
  forall A (k : Z -> W A),
  (let! r := mul64 y (stride (info w)) in let! o := add64 r x in
   let! b := mul64 o (bytes_per_pixel (info w)) in k b) w =
  k ((y * stride (info w) + x) * bytes_per_pixel (info w)) w.
Proof.
  intros Hs Hx Hy A k. destruct (pixel_range w x y Hs Hx Hy) as (R1 & R2 & R3 & R4). pose proof (sc_bpp w Hs).
  unfold mul64, add64.
  rewrite (bind_done _ _ _ w (y * stride (info w))) by (apply arith64_ok; unfold u64; nia).
  rewrite (bind_done _ _ _ w (y * stride (info w) + x)) by (apply arith64_ok; unfold u64; nia).
  rewrite (bind_done _ _ _ w ((y * stride (info w) + x) * bytes_per_pixel (info w))) by (apply arith64_ok; unfold u64; lia).
  done.
Qed.

Lemma write_pixel_run w x y v :
  screen_ok w -> 0 <= x < width (info w) -> 0 <= y < height (info w) ->
  exists w', Writer.write_pixel x y v w = (w', Done tt) /\ repaint w w'.
Proof.
  intros Hs Hx Hy. destruct (pixel_range w x y Hs Hx Hy) as (R1 & R2 & R3 & R4). pose proof (sc_bpp w Hs) as Hb.
  pose proof (sc_format w Hs) as Hf. unfold Writer.write_pixel. rewrite (bind_done _ _ _ w w) by done.
  unfold mul64, add64.
  rewrite (bind_done _ _ _ w (y * stride (info w))) by (apply arith64_ok; unfold u64; nia).
  rewrite (bind_done _ _ _ w (y * stride (info w) + x)) by (apply arith64_ok; unfold u64; nia).
  set (off := (y * stride (info w) + x) * bytes_per_pixel (info w)) in *.
  assert (Hgo : forall color, length color = 4%nat -> exists w',
    (let! byte_offset := arith64 off in do! Writer.copy_pixel byte_offset (bytes_per_pixel (info w)) color in
     let! fb := gets framebuffer in do! unwrap_or_panic (fb !! Z.to_nat byte_offset) in ret tt) w = (w', Done tt) /\
    repaint w w').
  { intros color Hc. rewrite (bind_done _ _ _ w off) by (apply arith64_ok; unfold u64; lia).
    destruct (copy_pixel_run w off (bytes_per_pixel (info w)) color) as (w' & E & Hr); [lia|lia|lia|].
    rewrite (bind_done _ _ _ _ _ E). exists w'. split; [|done].
    rewrite (bind_done _ _ _ w' (framebuffer w')) by done. destruct Hr as (fb & Hl & ->). cbn [framebuffer set_framebuffer].
    destruct (lookup_lt_is_Some_2 fb (Z.to_nat off)) as [b ->]; [lia|]. done. }
  destruct (pixel_format (info w)); [..|done]; rewrite bind_ret; by apply Hgo.
Qed.

Lemma write_row_run row x y w :
  screen_ok w -> 0 <= x -> 0 <= y -> 0 <= x_pos w -> 0 <= y_pos w ->
  x_pos w + x + Z.of_nat (length row) <= width (info w) -> y_pos w + y < height (info w) ->
  exists w', Writer.write_row row x y w = (w', Done tt) /\ repaint w w'.
Proof.
  revert x w. induction row as [|v row IH]; intros x w Hs Hx Hy Hx0 Hy0 Hw Hh; cbn [Writer.write_row].
  { exists w. split; [done|apply repaint_refl]. }
  cbn [length] in Hw. pose proof (pixel_range w (x_pos w + x) (y_pos w + y) Hs ltac:(lia) ltac:(lia)) as (R1 & R2 & R3 & R4).
  pose proof (sc_bpp w Hs). pose proof (sc_width w Hs). pose proof font_width as Hfw. unfold BORDER_PADDING in *.
  rewrite (bind_done _ _ _ w w) by done. unfold add64.
  rewrite (bind_done _ _ _ w (x_pos w + x)) by (apply arith64_ok; unfold u64; nia).
  rewrite (bind_done _ _ _ w (y_pos w + y)) by (apply arith64_ok; unfold u64; nia).
  destruct (write_pixel_run w (x_pos w + x) (y_pos w + y) v Hs) as (w1 & E & Hr); [lia|lia|].
  rewrite (bind_done _ _ _ _ _ E). pose proof (repaint_ok _ _ Hr Hs) as Hs1.
  destruct (IH (x + 1) w1 Hs1) as (w2 & E2 & Hr2); [lia|lia|by destruct Hr as (? & _ & ->)..| | |].
  - destruct Hr as (? & _ & ->). cbn. lia.
  - by destruct Hr as (? & _ & ->).
  - exists w2. split; [done|by eapply repaint_trans].
Qed.

Lemma write_rows_run rows y w :
  screen_ok w -> 0 <= y -> 0 <= x_pos w -> 0 <= y_pos w ->
  Forall (fun row => Z.of_nat (length row) = CHAR_RASTER_WIDTH) rows ->
  x_pos w + CHAR_RASTER_WIDTH <= width (info w) -> y_pos w + y + Z.of_nat (length rows) <= height (info w) ->
  exists w', Writer.write_rows rows y w = (w', Done tt) /\ repaint w w'.
Proof.
  revert y w. induction rows as [|row rows IH]; intros y w Hs Hy Hx0 Hy0 Hf Hw Hh; cbn [Writer.write_rows].
  { exists w. split; [done|apply repaint_refl]. }
  apply Forall_cons in Hf as [Hl Hf]. cbn [length] in Hh.
  destruct (write_row_run row 0 y w Hs) as (w1 & E & Hr); [lia..|].
  rewrite (bind_done _ _ _ _ _ E). pose proof (repaint_ok _ _ Hr Hs) as Hs1.
  destruct Hr as (fb & Hfb & ->). destruct (IH (y + 1) (set_framebuffer fb w) Hs1) as (w2 & E2 & Hr2); [lia|done|done|done|done|cbn; lia|].
  exists w2. split; [done|]. eapply repaint_trans; [|exact Hr2]. by exists fb.
Qed.

(** A writer between two characters. *)
Record console_ok w : Prop := {
  co_screen : screen_ok w;
  co_x : 0 <= x_pos w <= width (info w);
  co_y : 0 <= y_pos w
}.

(** The highest [y_pos] after one more character: a newline moves it, whatever the height. *)
Definition next_y w : Z := Z.max (y_pos w) (height (info w)) + CHAR_RASTER_HEIGHT + LINE_SPACING.

Definition same_screen w w' : Prop :=
  info w' = info w /\ length (framebuffer w') = length (framebuffer w) /\ panic_mode w' = panic_mode w.

Lemma same_screen_ok w w' : same_screen w w' -> screen_ok w -> screen_ok w'.
Proof. intros (Hi & Hl & _) [? ? ? ? ? ?]. split; rewrite ?Hi, ?Hl; done. Qed.

Lemma newline_run w :
  y_pos w + CHAR_RASTER_HEIGHT + LINE_SPACING < W64 -> 0 <= y_pos w ->
  Writer.newline w = (set_x BORDER_PADDING (set_y (y_pos w + (CHAR_RASTER_HEIGHT + LINE_SPACING)) w), Done tt).
Proof.
  intros Hy H0'. pose proof font_height. unfold LINE_SPACING in *. unfold Writer.newline.
  rewrite (bind_done _ _ _ w (y_pos w)) by done. unfold add64.
  rewrite (bind_done _ _ _ w (y_pos w + (CHAR_RASTER_HEIGHT + 2))) by (apply arith64_ok; unfold u64; lia). done.
Qed.

Lemma clear_run w : exists w', Writer.clear w = (w', Done tt) /\ same_screen w w' /\
  x_pos w' = BORDER_PADDING /\ y_pos w' = BORDER_PADDING.
Proof. eexists. split; [reflexivity|]. split; [|done]. unfold same_screen. cbn. by rewrite length_replicate. Qed.

Lemma screen_lt w : screen_ok w -> 2 * width (info w) < W64 /\ height (info w) < W64.
Proof.
  intros [_ Hb Hw Hh Hf Hl]. pose proof font_width. pose proof font_height. unfold BORDER_PADDING in *.
  assert (H1' : 2 * stride (info w) <= height (info w) * stride (info w)) by nia.
  assert (H2' : height (info w) <= height (info w) * stride (info w)) by nia.
  assert (H3' : height (info w) * stride (info w) <= height (info w) * stride (info w) * bytes_per_pixel (info w)) by nia.
  lia.
Qed.

(** A character at a position where it fits. *)
Lemma glyph_run w c :
  console_ok w -> x_pos w + CHAR_RASTER_WIDTH <= width (info w) -> y_pos w + CHAR_RASTER_HEIGHT <= height (info w) ->
  exists w', (let! r := Writer.get_char_raster c in Writer.write_rendered_char r) w = (w', Done tt) /\
    console_ok w' /\ same_screen w w' /\ y_pos w' = y_pos w.
Proof.
  intros [Hs Hx Hy] Hw Hh.
  assert (Hr : exists c' r, get_raster c' = Some r /\ Writer.get_char_raster c w = (w, Done r)).
  { unfold Writer.get_char_raster. destruct (get_raster c) as [r|] eqn:E; [by exists c, r|].
    destruct font_backup as [r Hb]. exists BACKUP_CHAR, r. by rewrite Hb. }
  destruct Hr as (c' & r & Hr & E). rewrite (bind_done _ _ _ _ _ E). destruct (font_shape c' r Hr) as (Rw & Rh & Rf).
  unfold Writer.write_rendered_char. destruct (write_rows_run (raster r) 0 w Hs) as (w1 & E1 & Hp); [lia|lia|lia|done|lia|lia|].
  rewrite (bind_done _ _ _ _ _ E1). pose proof (repaint_ok _ _ Hp Hs) as Hs1. destruct Hp as (fb & Hl & ->).
  rewrite (bind_done _ _ _ (set_framebuffer fb w) (x_pos w)) by done. rewrite Rw. unfold add64, LETTER_SPACING.
  destruct (screen_lt w Hs) as [Hwl _]. pose proof font_width.
  rewrite (bind_done _ _ _ (set_framebuffer fb w) (x_pos w + (CHAR_RASTER_WIDTH + 0))) by (apply arith64_ok; unfold u64; lia).
  eexists. split; [reflexivity|]. split; [|done]. split; cbn; [|lia|done].
  by apply (same_screen_ok w).
Qed.

(** The two checks of [write_char] before a glyph. *)
Lemma wrap_line_run w :
  console_ok w -> next_y w < W64 ->
  exists w1, (if width (info w) <=? x_pos w + CHAR_RASTER_WIDTH then Writer.newline else ret tt) w = (w1, Done tt) /\
    same_screen w w1 /\ 0 <= x_pos w1 /\ x_pos w1 + CHAR_RASTER_WIDTH <= width (info w) /\
    0 <= y_pos w1 <= y_pos w + CHAR_RASTER_HEIGHT + LINE_SPACING.
Proof.
  intros [Hs Hx Hy] Hb. pose proof (sc_width w Hs) as Sw. pose proof font_width. pose proof font_height.
  unfold next_y, LINE_SPACING, BORDER_PADDING in *.
  destruct (Z.leb_spec (width (info w)) (x_pos w + CHAR_RASTER_WIDTH)).
  - rewrite newline_run by (unfold LINE_SPACING; lia). eexists. split; [reflexivity|]. cbn. unfold BORDER_PADDING, LINE_SPACING.
    split_and!; done || lia.
  - exists w. split_and!; done || lia.
Qed.

Lemma wrap_screen_run w :
  screen_ok w -> 0 <= x_pos w -> x_pos w + CHAR_RASTER_WIDTH <= width (info w) -> 0 <= y_pos w ->
  exists w2, (if height (info w) <=? y_pos w + CHAR_RASTER_HEIGHT + BORDER_PADDING then Writer.clear else ret tt) w = (w2, Done tt) /\
    same_screen w w2 /\ 0 <= x_pos w2 /\ x_pos w2 + CHAR_RASTER_WIDTH <= width (info w) /\
    0 <= y_pos w2 /\ y_pos w2 + CHAR_RASTER_HEIGHT <= height (info w).
Proof.
  intros Hs Hx Hw Hy. pose proof (sc_width w Hs) as Sw. pose proof (sc_height w Hs) as Sh. pose proof font_height.
  unfold BORDER_PADDING in *. destruct (Z.leb_spec (height (info w)) (y_pos w + CHAR_RASTER_HEIGHT + 1)).
  - destruct (clear_run w) as (w2 & E2 & Hsame & Hx2 & Hy2). unfold BORDER_PADDING in *. exists w2. split_and!; done || lia.
  - exists w. split_and!; done || lia.
Qed.

Lemma same_screen_trans w1 w2 w3 : same_screen w1 w2 -> same_screen w2 w3 -> same_screen w1 w3.
Proof. unfold same_screen. intros (-> & -> & ->) (-> & -> & ->). done. Qed.

(** A character with a glyph leaves the writer on the screen, however far newlines had moved it. *)
Lemma write_glyph_run w c :
  console_ok w -> next_y w + CHAR_RASTER_HEIGHT + BORDER_PADDING < W64 -> c <> 10 -> c <> 13 ->
  exists w', Writer.write_char c w = (w', Done tt) /\ console_ok w' /\ same_screen w w' /\ y_pos w' <= height (info w).
Proof.
  intros Hok Hb Hn Hr. pose proof Hok as [Hs Hx Hy]. destruct (screen_lt w Hs) as [Lw Lh]. pose proof (sc_width w Hs) as Sw.
  pose proof font_width. pose proof font_height. unfold Writer.write_char.
  assert (Hny : next_y w = Z.max (y_pos w) (height (info w)) + CHAR_RASTER_HEIGHT + 2) by done. unfold BORDER_PADDING in *.
  rewrite (proj2 (Z.eqb_neq _ _) Hn), (proj2 (Z.eqb_neq _ _) Hr), (bind_done _ _ _ w w) by done. unfold add64.
  rewrite (bind_done _ _ _ w (x_pos w + CHAR_RASTER_WIDTH)) by (apply arith64_ok; unfold u64; lia).
  destruct (wrap_line_run w Hok) as (w1 & E1 & Hsame & X0 & X1 & Y1); [lia|]. unfold LINE_SPACING in Y1.
  rewrite (bind_done _ _ _ _ _ E1), (bind_done _ _ _ w1 w1) by done.
  rewrite (bind_done _ _ _ w1 (y_pos w1 + CHAR_RASTER_HEIGHT)) by (apply arith64_ok; unfold u64; lia).
  rewrite (bind_done _ _ _ w1 (y_pos w1 + CHAR_RASTER_HEIGHT + BORDER_PADDING)) by (apply arith64_ok; unfold u64, BORDER_PADDING; lia).
  pose proof Hsame as (Hi & _). pose proof (same_screen_ok _ _ Hsame Hs) as Hs1.
  destruct (wrap_screen_run w1 Hs1) as (w2 & E2 & Hsame2 & X2 & X3 & Y2 & Y3); [done|by rewrite Hi|lia|].
  rewrite (bind_done _ _ _ _ _ E2). pose proof Hsame2 as (Hi2 & _). rewrite <- Hi2 in X3, Y3.
  destruct (glyph_run w2 c) as (w3 & E3 & Hok3 & Hsame3 & Hy3); [|done|done|].
  - split; [by apply (same_screen_ok w1)|lia|lia].
  - exists w3. split_and!; [exact E3|done|by eapply same_screen_trans, same_screen_trans|].
    rewrite Hy3. rewrite Hi2, Hi in Y3. lia.
Qed.

Lemma write_char_run w c :
  console_ok w -> next_y w + CHAR_RASTER_HEIGHT + BORDER_PADDING < W64 ->
  exists w', Writer.write_char c w = (w', Done tt) /\ console_ok w' /\ same_screen w w' /\ y_pos w' <= next_y w.
Proof.
  intros Hok Hb. pose proof Hok as [Hs Hx Hy]. pose proof (sc_width w Hs) as Sw. pose proof font_width. pose proof font_height.
  assert (Hny : next_y w = Z.max (y_pos w) (height (info w)) + CHAR_RASTER_HEIGHT + 2) by done. unfold BORDER_PADDING in *.
  destruct (Z.eqb_spec c 10) as [->|Hn]; [|destruct (Z.eqb_spec c 13) as [->|Hr]].
  - change (Writer.write_char 10) with Writer.newline. rewrite newline_run by (unfold LINE_SPACING; lia). eexists. split; [reflexivity|].
    split; [split; cbn; [by apply (same_screen_ok w)|unfold BORDER_PADDING; lia|unfold LINE_SPACING; lia]|].
    split; [done|]. cbn. unfold LINE_SPACING. lia.
  - eexists. split; [reflexivity|]. split; [split; cbn; [by apply (same_screen_ok w)|unfold BORDER_PADDING; lia|done]|].
    split; [done|]. cbn. lia.
  - destruct (write_glyph_run w c Hok Hb Hn Hr) as (w' & E & O & S & Y). exists w'. split_and!; done || lia.
Qed.

Lemma write_str_run s w :
  console_ok w ->
  next_y w + (Z.of_nat (length s) + 1) * (CHAR_RASTER_HEIGHT + LINE_SPACING) < W64 ->
  exists w', Writer.write_str s w = (w', Done tt) /\ console_ok w' /\ same_screen w w' /\
    y_pos w' <= Z.max (y_pos w) (height (info w)) + Z.of_nat (length s) * (CHAR_RASTER_HEIGHT + LINE_SPACING).
Proof.
  revert w. induction s as [|c s IH]; intros w Hok Hb; cbn [Writer.write_str].
  { exists w. split_and!; try done. cbn. lia. }
  pose proof font_height. pose proof (co_y w Hok). unfold LINE_SPACING in *. cbn [length] in Hb.
  destruct (write_char_run w c Hok) as (w1 & E & Hok1 & Hsame & Hy1); [unfold BORDER_PADDING; nia|].
  rewrite (bind_done _ _ _ _ _ E). pose proof Hsame as (Hi & _). unfold next_y, LINE_SPACING in *.
  destruct (IH w1 Hok1) as (w2 & E2 & Hok2 & Hsame2 & Hy2); rewrite Hi in *; [nia|].
  exists w2. split_and!; [done|done|by eapply same_screen_trans|]. cbn [length]. nia.
Qed.

(** A line of text that starts with a glyph can be printed from any position that lines of at most [L]
    characters leave, and leaves such a position: the number of lines is not limited. *)
Definition settled (L : Z) w : Prop :=
  y_pos w <= height (info w) + L * (CHAR_RASTER_HEIGHT + LINE_SPACING) /\
  height (info w) + (L + 2) * (CHAR_RASTER_HEIGHT + LINE_SPACING) < W64.

Lemma write_line_run L c s w :
  console_ok w -> settled L w -> c <> 10 -> c <> 13 -> Z.of_nat (length s) <= L ->
  exists w', Writer.write_str (c :: s) w = (w', Done tt) /\ console_ok w' /\ same_screen w w' /\ settled L w'.
Proof.
  intros Hok [Hy Hf] Hn Hr Hl. pose proof font_height. pose proof (co_y w Hok). pose proof (sc_height w (co_screen w Hok)).
  assert (Hny : next_y w = Z.max (y_pos w) (height (info w)) + CHAR_RASTER_HEIGHT + 2) by done.
  unfold settled, LINE_SPACING, BORDER_PADDING in *. cbn [Writer.write_str].
  destruct (write_glyph_run w c Hok) as (w1 & E1 & O1 & S1 & Y1); [unfold BORDER_PADDING; nia|done|done|].
  rewrite (bind_done _ _ _ _ _ E1). pose proof S1 as (Hi & _). unfold next_y, LINE_SPACING in *.
  destruct (write_str_run s w1 O1) as (w2 & E2 & O2 & S2 & Y2); unfold next_y, LINE_SPACING in *; rewrite Hi in *; [nia|].
  pose proof S2 as (Hi2 & _). exists w2. split_and!; [done|done|by eapply same_screen_trans|..]; rewrite Hi2, Hi; nia.
Qed.

(** ** The panic screen *)

(** The bytes of the pixel number [p] of [fb] are [color]'s. *)
Definition byte_of (fb : list Z) (bpp p k : Z) : option Z := fb !! Z.to_nat (p * bpp + k).

Lemma copy_pixel_bytes w p n color w' :
  0 <= p -> 0 < n <= Z.of_nat (length color) -> p * n + n <= Z.of_nat (length (framebuffer w)) < W64 ->
  Writer.copy_pixel (p * n) n color w = (w', Done tt) ->
  forall q k, 0 <= q -> 0 <= k < n ->
  byte_of (framebuffer w') n q k = if q =? p then color !! Z.to_nat k else byte_of (framebuffer w) n q k.
Proof.
  intros Hp Hn Hl. unfold Writer.copy_pixel. rewrite (bind_done _ _ _ w (p * n + n)) by (apply arith64_ok; unfold u64; nia).
  rewrite !(proj2 (Z.leb_le _ _)) by lia. intros [= <-] q k Hq Hk. unfold byte_of. cbn [framebuffer set_framebuffer].
  destruct (Z.eqb_spec q p) as [->|Hne].
  - rewrite lookup_app_r by (rewrite length_take; nia). rewrite length_take, lookup_app_l by (rewrite length_take; nia).
    rewrite lookup_take_lt by nia. f_equal. nia.
  - destruct (Z.lt_ge_cases q p).
    + rewrite lookup_app_l by (rewrite length_take; nia). by rewrite lookup_take_lt by nia.
    + rewrite lookup_app_r by (rewrite length_take; nia). rewrite lookup_app_r by (rewrite !length_take; nia).
      rewrite !length_take, lookup_drop. f_equal. nia.
Qed.

Lemma fill_row_run n color x y w :
  screen_ok w -> length color = 4%nat -> 0 <= x -> x + Z.of_nat n <= width (info w) -> 0 <= y < height (info w) ->
  exists w', Writer.fill_row n color x y w = (w', Done tt) /\ repaint w w' /\
    forall q k, 0 <= q -> 0 <= k < bytes_per_pixel (info w) ->
    byte_of (framebuffer w') (bytes_per_pixel (info w)) q k =
      if (y * stride (info w) + x <=? q) && (q <? y * stride (info w) + x + Z.of_nat n) then color !! Z.to_nat k
      else byte_of (framebuffer w) (bytes_per_pixel (info w)) q k.
Proof.
  revert x w. induction n as [|n IH]; intros x w Hs Hc Hx Hn Hy; cbn [Writer.fill_row].
  { exists w. split_and!; [done|apply repaint_refl|]. intros q k _ _. by destruct (Z.leb_spec (y * stride (info w) + x) q),
      (Z.ltb_spec q (y * stride (info w) + x + Z.of_nat 0)); [lia|..]. }
  rewrite (bind_done _ _ _ w w) by done. rewrite (pixel_offset_run w x y Hs) by lia.
  destruct (pixel_range w x y Hs ltac:(lia) ltac:(lia)) as (_ & R2 & R3 & R4). pose proof (sc_bpp w Hs).
  destruct (copy_pixel_run w ((y * stride (info w) + x) * bytes_per_pixel (info w)) (bytes_per_pixel (info w)) color)
    as (w1 & E & Hr); [lia|lia|lia|].
  pose proof (copy_pixel_bytes w (y * stride (info w) + x) (bytes_per_pixel (info w)) color w1 R2 ltac:(lia) R4 E) as Hb.
  rewrite (bind_done _ _ _ _ _ E). pose proof (repaint_ok _ _ Hr Hs) as Hs1. clear E.
  assert (Hi : info w1 = info w) by (by destruct Hr as (? & _ & ->)).
  destruct (IH (x + 1) w1 Hs1 Hc) as (w2 & E2 & Hr2 & Hb2); [lia|rewrite Hi; lia|by rewrite Hi|].
  exists w2. split_and!; [done|by eapply repaint_trans|]. rewrite Hi in Hb2. intros q k Hq Hk.
  rewrite Hb2, Hb by done. repeat case_Zcmp; cbn; done || lia.
Qed.

Lemma fill_rows_run n color y w :
  screen_ok w -> length color = 4%nat -> 0 <= y -> y + Z.of_nat n <= height (info w) ->
  exists w', Writer.fill_rows n color y w = (w', Done tt) /\ repaint w w' /\
    forall qx qy k, 0 <= qx < width (info w) -> 0 <= qy -> 0 <= k < bytes_per_pixel (info w) ->
    byte_of (framebuffer w') (bytes_per_pixel (info w)) (qy * stride (info w) + qx) k =
      if (y <=? qy) && (qy <? y + Z.of_nat n) then color !! Z.to_nat k
      else byte_of (framebuffer w) (bytes_per_pixel (info w)) (qy * stride (info w) + qx) k.
Proof.
  revert y w. induction n as [|n IH]; intros y w Hs Hc Hy Hn; cbn [Writer.fill_rows].
  { exists w. split_and!; [done|apply repaint_refl|]. intros qx qy k _ _ _.
    by destruct (Z.leb_spec y qy), (Z.ltb_spec qy (y + Z.of_nat 0)); [lia|..]. }
  rewrite (bind_done _ _ _ w w) by done. pose proof (sc_width w Hs). pose proof font_width. unfold BORDER_PADDING in *.
  destruct (fill_row_run (Z.to_nat (width (info w))) color 0 y w Hs Hc) as (w1 & E & Hr & Hb); [lia|lia|lia|].
  rewrite (bind_done _ _ _ _ _ E). pose proof (repaint_ok _ _ Hr Hs) as Hs1.
  assert (Hi : info w1 = info w) by (by destruct Hr as (? & _ & ->)).
  destruct (IH (y + 1) w1 Hs1 Hc) as (w2 & E2 & Hr2 & Hb2); [lia|rewrite Hi; lia|].
  exists w2. split_and!; [done|by eapply repaint_trans|]. rewrite Hi in Hb2. intros qx qy k Hqx Hqy Hk.
  rewrite Hb2, Hb by (done || nia).
  repeat case_Zcmp; cbn; done || nia.
Qed.

(** The colour of the panic screen in a pixel format. *)
Definition dark_red (f : PixelFormat) : list Z :=
  match f with Rgb => [139; 0; 0; 0] | Bgr => [0; 0; 139; 0] | _ => [0xf; 0; 0; 0] end.

Lemma panic_screen_run w :
  screen_ok w -> exists w', Writer.panic_screen w = (w', Done tt) /\ console_ok w' /\ panic_mode w' = true /\
    info w' = info w /\ length (framebuffer w') = length (framebuffer w) /\
    x_pos w' = BORDER_PADDING /\ y_pos w' = BORDER_PADDING /\
    forall x y k, 0 <= x < width (info w) -> 0 <= y < height (info w) -> 0 <= k < bytes_per_pixel (info w) ->
    byte_of (framebuffer w') (bytes_per_pixel (info w)) (y * stride (info w) + x) k =
      dark_red (pixel_format (info w)) !! Z.to_nat k.
Proof.
  intros Hs. unfold Writer.panic_screen. set (w0 := set_y BORDER_PADDING (set_x BORDER_PADDING w)).
  rewrite (bind_done _ _ _ (set_x BORDER_PADDING w) tt), (bind_done _ _ _ w0 tt), (bind_done _ _ _ w0 w0) by done.
  assert (Hs0 : screen_ok w0) by (by apply (same_screen_ok w)). pose proof (sc_format w Hs) as Hf. pose proof (sc_height w Hs).
  pose proof font_height. pose proof (sc_width w Hs). pose proof font_width. unfold BORDER_PADDING in *.
  change (info w0) with (info w). rewrite (bind_done _ _ _ w0 (dark_red (pixel_format (info w)))) by (by destruct (pixel_format (info w))).
  destruct (fill_rows_run (Z.to_nat (height (info w))) (dark_red (pixel_format (info w))) 0 w0 Hs0) as (w1 & E & Hr & Hb);
    [by destruct (pixel_format (info w))|lia|cbn; lia|].
  rewrite (bind_done _ _ _ _ _ E). pose proof (repaint_ok _ _ Hr Hs0) as [? ? ? ? ? ?]. destruct Hr as (fb & Hl & ->).
  eexists. split; [reflexivity|]. split_and!; try done.
  - split; cbn; [by split|unfold BORDER_PADDING; lia|unfold BORDER_PADDING; lia].
  - intros x y k Hx Hy Hk. change (info w0) with (info w) in Hb. cbn [framebuffer set_panic].
    rewrite Hb by (done || lia). by rewrite (proj2 (Z.leb_le _ _)), (proj2 (Z.ltb_lt _ _)) by lia.
Qed.

(** The writer depends on the characters only, not on how they are split into strings. *)
Lemma write_str_app s1 s2 w : Writer.write_str (s1 ++ s2) w = (do! Writer.write_str s1 in Writer.write_str s2) w.
Proof.
  revert w. induction s1 as [|c s1 IH]; intros w; [done|]. cbn [app Writer.write_str]. unfold bind in *.
  destruct (Writer.write_char c w) as [w' [[]| | |]]; [|done..]. apply IH.
Qed.

Lemma new_console_ok fb i : screen_ok (mkWriter fb i 0 0 false) -> console_ok (Writer.new fb i).
Proof.
  intros Hnew. pose proof (sc_width _ Hnew). pose proof font_width. cbn in *.
  split; cbn; [|unfold BORDER_PADDING in *; lia..].
  apply (same_screen_ok (mkWriter fb i 0 0 false)); [|done]. unfold same_screen. cbn. by rewrite length_replicate.
Qed.
End range.

(** ** Formats that are not supported *)

Section odd.
Context `{Build} `{Font}.

Lemma odd_panic_screen w : pixel_format (info w) = OtherFormat -> snd (Writer.panic_screen w) = Panic.
Proof. intros Hf. unfold Writer.panic_screen, modify, get, bind. cbn. by rewrite Hf. Qed.

Lemma odd_pixel w x y v :
  pixel_format (info w) = OtherFormat -> 0 <= x -> 0 <= y -> 0 <= stride (info w) -> y * stride (info w) + x < W64 ->
  snd (Writer.write_pixel x y v w) = Panic.
Proof.
  intros Hf Hx Hy Hs Hb. unfold Writer.write_pixel. rewrite (bind_done _ _ _ w w) by done.
  rewrite (bind_done _ _ _ w (y * stride (info w))) by (apply arith64_ok; unfold u64; nia).
  rewrite (bind_done _ _ _ w (y * stride (info w) + x)) by (apply arith64_ok; unfold u64; nia).
  unfold bind, modify, panic. by rewrite Hf.
Qed.
End odd.

(** A font of one blank glyph of 7 by 16 pixels. *)
Module RefFont.
#[export] Instance font : Font :=
  {| get_raster c := if (c =? 0) then None else Some (mkRaster (replicate 16 (replicate 7 255)) 7);
     CHAR_RASTER_WIDTH := 7; CHAR_RASTER_HEIGHT := 16 |}.

#[export] Instance font_laws : FontLaws.
Proof.
  split; [done|done|by eexists|]. unfold get_raster, font. intros c r Hr. destruct (c =? 0); [done|].
  injection Hr as <-. split_and!; [done|done|]. by repeat constructor.
Qed.

(** A screen of 20 by 40 pixels of two bytes. *)
Definition info0 : FrameBufferInfo := mkInfo 20 40 Rgb 2 24.
Definition writer0 : FrameBufferWriter := Writer.new (replicate 1920 7) info0.
End RefFont.

Module Claims.
Section claims.
Context `{Build} `{FontLaws}.

(** C39: the console stays in its buffer.  On a framebuffer with one of the formats RGB, BGR and U8 and
    one to four bytes per pixel, whose rows fit in the buffer and that has room for one character,
    [write_str] returns without a panic for every string, of any characters and in either build
    profile, as long as the line count cannot overflow a [usize]: every pixel it writes lies in the
    buffer, wrapping at the right border and clearing at the bottom included.  The writer it leaves is
    again one the next call accepts, with the same geometry and mode; [new] makes such a writer.
    [panic_screen] does not panic there either: it paints every visible pixel dark red, sets the panic
    mode and leaves the writer at the top left.  On a framebuffer of another format [panic_screen]
    and the writing of any pixel whose offset does not overflow panic. *)
Theorem console_in_bounds (fb : list Z) (i : FrameBufferInfo) (s : list Z) (w : FrameBufferWriter)
    (Hnew : screen_ok (mkWriter fb i 0 0 false)) (Hok : console_ok w)
    (Hy : next_y w + (Z.of_nat (length s) + 1) * (CHAR_RASTER_HEIGHT + LINE_SPACING) < W64) :
  console_ok (Writer.new fb i) /\
  (exists w', Writer.write_str s w = (w', Done tt) /\ console_ok w' /\ same_screen w w') /\
  (exists w', Writer.panic_screen w = (w', Done tt) /\ console_ok w' /\ panic_mode w' = true /\
    info w' = info w /\ length (framebuffer w') = length (framebuffer w) /\
    x_pos w' = BORDER_PADDING /\ y_pos w' = BORDER_PADDING /\
    forall x y k, 0 <= x < width (info w) -> 0 <= y < height (info w) -> 0 <= k < bytes_per_pixel (info w) ->
    byte_of (framebuffer w') (bytes_per_pixel (info w)) (y * stride (info w) + x) k =
      dark_red (pixel_format (info w)) !! Z.to_nat k) /\
  forall o, pixel_format (info o) = OtherFormat ->
    snd (Writer.panic_screen o) = Panic /\
    forall x y v, 0 <= x -> 0 <= y -> 0 <= stride (info o) -> y * stride (info o) + x < W64 ->
      snd (Writer.write_pixel x y v o) = Panic.
Proof.
  destruct (write_str_run s w Hok Hy) as (w' & E & O & S & _).
  split_and!; [by apply new_console_ok|by exists w'|apply panic_screen_run, Hok|].
  intros o Ho. split; [by apply odd_panic_screen|]. intros x y v. by apply odd_pixel.
Qed.

End claims.

Import RefFont.

Lemma screen0 : @screen_ok RefFont.font (mkWriter (replicate 1920 7) RefFont.info0 0 0 false).
Proof. by split. Qed.

Lemma console0 : @console_ok RefFont.font RefFont.writer0.
Proof. split; [|done..]. apply (same_screen_ok (mkWriter (replicate 1920 7) RefFont.info0 0 0 false)); [done|exact screen0]. Qed.

(** The string has a missing character, a carriage return and a newline, and wraps. *)
Lemma console_in_bounds_witness :
  (exists w', Writer.write_str (H := dev) [65; 0; 13; 66; 67; 68; 10; 69] RefFont.writer0 = (w', Done tt) /\
    @console_ok RefFont.font w' /\ same_screen RefFont.writer0 w') /\
  exists w', Writer.panic_screen (H := dev) RefFont.writer0 = (w', Done tt) /\
    byte_of (framebuffer w') 2 (39 * 24 + 19) 0 = Some 139.
Proof.
  destruct (console_in_bounds (H := dev) (replicate 1920 7) RefFont.info0 [65; 0; 13; 66; 67; 68; 10; 69] RefFont.writer0
    screen0 console0) as (_ & Hw & (w' & E & _ & _ & _ & _ & _ & _ & Hp) & _); [vm_compute; reflexivity|].
  split; [exact Hw|]. exists w'. split; [exact E|]. apply (Hp 19 39 0); cbn; lia.
Defined.
End Claims.
