(* ===== verification/Float.v ===== *)
(** Floating-point arithmetic, as the timer code uses it.

    Rust's [f32] and [f64] are IEEE 754 binary32 and binary64, with rounding to nearest, ties to
    even: the operations are those of the Standard Library's [SpecFloat], at precision 24 and 53.
    [as] from an integer rounds in the same way; [as] to an integer truncates and saturates.

    [rne] is rounding to nearest even on natural numbers, by division.  The lemmas reduce the
    conversion of an integer and the multiplication of floats that hold integers to it. *)
From S2P Require Import Prelude.
From Stdlib Require Import SpecFloat.

(** ** Rust's operations *)

(** [n as f32] and [n as f64], for an integer [n]. *)
Definition f32_of_int (n : Z) : spec_float := binary_normalize 24 128 n 0 false.
Definition f64_of_int (n : Z) : spec_float := binary_normalize 53 1024 n 0 false.

Definition f32_mul : spec_float -> spec_float -> spec_float := SFmul 24 128.
Definition f32_div : spec_float -> spec_float -> spec_float := SFdiv 24 128.
Definition f64_mul : spec_float -> spec_float -> spec_float := SFmul 53 1024.
Definition f64_div : spec_float -> spec_float -> spec_float := SFdiv 53 1024.

(** [x as u32] ([max] is [u32::MAX]) and [x as u64]: truncation, saturation, 0 for NaN. *)
Definition float_to_uint (max : Z) (x : spec_float) : Z :=
  match x with
  | S754_finite false m e => Z.min max (Z.shiftl (Z.pos m) e)
  | S754_infinity false => max
  | _ => 0
  end.

(** ** Rounding to nearest even *)

(** [n] to [prec] significant bits. *)
Definition rne (prec n : Z) : Z :=
  let k := Z.log2 n + 1 - prec in
  if k <=? 0 then n
  else let q := n / 2 ^ k in
       let r := n mod 2 ^ k in
       (if (2 ^ k <? 2 * r) || ((2 ^ k =? 2 * r) && Z.odd q) then q + 1 else q) * 2 ^ k.

(** The float is the integer [v], with an exponent of at least [lo]. *)
Definition holds_int (lo : Z) (x : spec_float) (v : Z) : Prop :=
  exists m e, x = S754_finite false m e /\ lo <= e /\ Z.pos m * 2 ^ Z.max 0 e = v * 2 ^ Z.max 0 (- e).

Lemma holds_int_to_uint lo max x v : holds_int lo x v -> float_to_uint max x = Z.min max v.
Proof.
  intros (m & e & -> & _ & E). unfold float_to_uint. f_equal. destruct (Z.le_ge_cases 0 e).
  - rewrite Z.shiftl_mul_pow2 by done. rewrite Z.max_r, Z.max_l, Z.pow_0_r in E by lia. lia.
  - rewrite Z.shiftl_div_pow2 by done. rewrite Z.max_l, Z.max_r, Z.pow_0_r in E by lia.
    rewrite Z.mul_1_r in E. rewrite E. apply Z.div_mul, Z.pow_nonzero; lia.
Qed.

(** ** The rounding of [SpecFloat] *)

Lemma digits2_log2 p : Z.pos (digits2_pos p) = Z.log2 (Z.pos p) + 1.
Proof.
  induction p as [p IH|p IH|]; cbn [digits2_pos]; rewrite ?Pos2Z.inj_succ, ?IH; [..|done].
  - rewrite Pos2Z.inj_xI, Z.log2_succ_double by done. lia.
  - rewrite Pos2Z.inj_xO, Z.log2_double by done. lia.
Qed.

Lemma iter_pos_iter {A} (f : A -> A) p x : iter_pos f p x = Nat.iter (Pos.to_nat p) f x.
Proof.
  revert x. induction p as [p IH|p IH|]; intros x; cbn [iter_pos]; [..|done].
  - rewrite !IH, Pos2Nat.inj_xI, <- !Nat.iter_add. rewrite <- Nat.iter_succ_r. f_equal. lia.
  - rewrite !IH, Pos2Nat.inj_xO, <- Nat.iter_add. f_equal. lia.
Qed.

Lemma shr_1_eq m r s :
  0 <= m -> shr_1 (Build_shr_record m r s) = Build_shr_record (m / 2) (Z.odd m) (r || s).
Proof. destruct m as [|[p|p|]|p]; intros; cbn; rewrite <- ?Z.div2_div; done || lia. Qed.

Lemma mod_pow2_succ M k : 0 <= k -> M mod 2 ^ (k + 1) = M mod 2 ^ k + 2 ^ k * Z.b2z (Z.testbit M k).
Proof.
  intros Hk. rewrite Z.pow_add_r, Z.rem_mul_r by (try apply Z.pow_nonzero; lia).
  by rewrite Z.testbit_spec', Z.pow_1_r by done.
Qed.

(** [k + 1] shifts keep the quotient, the last bit that was lost and whether one before was set. *)
Lemma shr_iter M k :
  0 <= M -> Nat.iter (S k) shr_1 (Build_shr_record M false false) =
  Build_shr_record (M / 2 ^ Z.of_nat (S k)) (Z.testbit M (Z.of_nat k)) (negb (M mod 2 ^ Z.of_nat k =? 0)).
Proof.
  intros HM. induction k as [|k IH].
  { cbn [Nat.iter nat_rect]. rewrite shr_1_eq by done. change (2 ^ Z.of_nat 1) with 2.
    by rewrite Z.mod_1_r, Z.bit0_odd. }
  rewrite Nat.iter_succ, IH, shr_1_eq by (apply Z.div_pos; [lia|apply Z.pow_pos_nonneg; lia]). f_equal.
  - rewrite Z.div_div by (try apply Z.pow_nonzero; lia). f_equal. rewrite !Nat2Z.inj_succ, !Z.pow_succ_r by lia. lia.
  - by rewrite Z.testbit_odd, Z.shiftr_div_pow2 by lia.
  - rewrite (Nat2Z.inj_succ k), <- Z.add_1_r, mod_pow2_succ by lia.
    pose proof (Z.mod_pos_bound M (2 ^ Z.of_nat k)) as Hb. pose proof (Z.pow_pos_nonneg 2 (Z.of_nat k)) as Hp.
    destruct (Z.testbit M (Z.of_nat k)); cbn [Z.b2z orb].
    + symmetry. apply negb_true_iff, Z.eqb_neq. lia.
    + by rewrite Z.mul_0_r, Z.add_0_r.
Qed.

Lemma round_shr M k :
  0 <= M -> let q := M / 2 ^ Z.of_nat (S k) in let r := M mod 2 ^ Z.of_nat (S k) in
  round_nearest_even q (loc_of_shr_record (Nat.iter (S k) shr_1 (Build_shr_record M false false))) =
  if (2 ^ Z.of_nat (S k) <? 2 * r) || ((2 ^ Z.of_nat (S k) =? 2 * r) && Z.odd q) then q + 1 else q.
Proof.
  intros HM q r. rewrite shr_iter by done. unfold r. rewrite (Nat2Z.inj_succ k), <- Z.add_1_r, mod_pow2_succ by lia.
  pose proof (Z.mod_pos_bound M (2 ^ Z.of_nat k)) as Hb. pose proof (Z.pow_pos_nonneg 2 (Z.of_nat k)) as Hp.
  rewrite Z.pow_add_r by lia. change (2 ^ 1) with 2. rewrite <- Z.negb_even.
  destruct (Z.testbit M (Z.of_nat k)), (Z.eqb_spec (M mod 2 ^ Z.of_nat k) 0); cbn [Z.b2z negb loc_of_shr_record round_nearest_even];
    repeat case_Zcmp; cbn [orb andb negb]; try lia; try done; by destruct (Z.even q).
Qed.

Section round.
Context (prec emax : Z) (Hprec : 0 < prec).

Lemma shr_none m e n : n <= 0 -> shr (Build_shr_record m false false) e n = (Build_shr_record m false false, e).
Proof. by destruct n. Qed.

Lemma shr_some m e n :
  0 < n -> shr (Build_shr_record m false false) e n = (Nat.iter (S (Z.to_nat (n - 1))) shr_1 (Build_shr_record m false false), e + n).
Proof.
  intros Hn. destruct n as [|p|p]; try lia. unfold shr. rewrite iter_pos_iter. do 2 f_equal. lia.
Qed.

(** A rounded mantissa has [prec] bits, or is the next power of two. *)
Lemma renormalize q e :
  2 ^ (prec - 1) <= q <= 2 ^ prec -> emin prec emax <= e -> e + 1 + prec <= emax ->
  exists m e', shr_fexp prec emax q e loc_Exact = (Build_shr_record (Z.pos m) false false, e') /\
    e <= e' <= emax - prec /\ Z.pos m * 2 ^ (e' - e) = q.
Proof.
  intros Hq He Hx. pose proof (Z.pow_pos_nonneg 2 (prec - 1)) as Hp. destruct q as [|q|q]; try lia.
  unfold shr_fexp. cbn [shr_record_of_loc Zdigits2]. rewrite digits2_log2.
  destruct (Z.eq_dec (Z.pos q) (2 ^ prec)) as [E|Hne].
  - rewrite E, Z.log2_pow2 by lia. replace (fexp prec emax (prec + 1 + e) - e) with 1 by (unfold fexp; lia).
    rewrite shr_some by lia. change (Z.to_nat (1 - 1)) with 0%nat. rewrite shr_iter by lia.
    change (2 ^ Z.of_nat 1) with 2. change (Z.of_nat 0) with 0.
    assert (Ed : 2 ^ prec = 2 ^ (prec - 1) * 2) by (rewrite <- (Z.sub_add 1 prec) at 1; rewrite Z.pow_add_r by lia; lia).
    rewrite Z.bit0_odd, Ed, Z.div_mul, Z.odd_mul, andb_false_r by lia.
    rewrite Z.mod_1_r. destruct (2 ^ (prec - 1)) as [|m|m] eqn:Em; try lia. exists m, (e + 1).
    split_and!; [done|lia|lia|]. replace (e + 1 - e) with 1 by lia. lia.
  - assert (El : Z.log2 (Z.pos q) = prec - 1) by (apply Z.log2_unique; rewrite ?Z.sub_1_r, ?Z.succ_pred; rewrite <- ?Z.sub_1_r; lia).
    rewrite shr_none by (unfold fexp; lia). exists q, e. split_and!; [done|lia|lia|].
    rewrite Z.sub_diag. lia.
Qed.

Lemma round_aux_rne M e :
  emin prec emax <= e -> Z.log2 (Z.pos M) + 2 + e <= emax -> e + prec <= emax ->
  exists m e', binary_round_aux prec emax false (Z.pos M) e loc_Exact = S754_finite false m e' /\
    e <= e' /\ Z.pos m * 2 ^ (e' - e) = rne prec (Z.pos M).
Proof.
  intros He Hx Hx'. unfold binary_round_aux, shr_fexp at 1, rne. cbn [shr_record_of_loc Zdigits2]. rewrite digits2_log2.
  set (k := Z.log2 (Z.pos M) + 1 - prec). destruct (Z.leb_spec k 0).
  - rewrite shr_none by (unfold fexp; lia). cbn [shr_m loc_of_shr_record round_nearest_even].
    unfold shr_fexp. cbn [shr_record_of_loc Zdigits2]. rewrite digits2_log2, shr_none by (unfold fexp; lia).
    cbn [shr_m]. rewrite (proj2 (Z.leb_le _ _)) by lia. exists M, e. split_and!; [done|lia|]. rewrite Z.sub_diag. lia.
  - replace (fexp prec emax (Z.log2 (Z.pos M) + 1 + e) - e) with k by (unfold fexp; lia).
    rewrite shr_some by done. pose proof (round_shr (Z.pos M) (Z.to_nat (k - 1)) ltac:(lia)) as R.
    pose proof (shr_iter (Z.pos M) (Z.to_nat (k - 1)) ltac:(lia)) as I.
    replace (Z.of_nat (S (Z.to_nat (k - 1)))) with k in R, I by lia. cbv zeta in R.
    replace (shr_m _) with (Z.pos M / 2 ^ k) by (rewrite I; done). rewrite R. clear R I.
    destruct (Z.log2_spec (Z.pos M)) as [L1 L2]; [lia|].
    assert (Hp : 0 < 2 ^ k) by (apply Z.pow_pos_nonneg; lia).
    assert (Hq : 2 ^ (prec - 1) <= Z.pos M / 2 ^ k < 2 ^ prec).
    { split.
      - apply Z.div_le_lower_bound; [done|]. rewrite <- Z.pow_add_r by lia. replace (k + (prec - 1)) with (Z.log2 (Z.pos M)) by lia. done.
      - apply Z.div_lt_upper_bound; [done|]. rewrite <- Z.pow_add_r by lia. replace (k + prec) with (Z.succ (Z.log2 (Z.pos M))) by lia. done. }
    match goal with |- context [if ?b then Z.pos M / 2 ^ k + 1 else _] => set (up := b) end.
    destruct (renormalize (if up then Z.pos M / 2 ^ k + 1 else Z.pos M / 2 ^ k) (e + k)) as (m & e' & E & Hle & Em);
      [destruct up; lia|lia|lia|].
    rewrite E. cbn [shr_m]. rewrite (proj2 (Z.leb_le _ _)) by lia. exists m, e'. split_and!; [done|lia|].
    rewrite <- Em, <- Z.mul_assoc, <- Z.pow_add_r by lia. do 2 f_equal. lia.
Qed.
End round.

(** Rounding does not depend on the scale. *)
Lemma rne_scale prec n j : 0 < n -> 0 <= j -> rne prec (n * 2 ^ j) = rne prec n * 2 ^ j.
Proof.
  intros Hn Hj. unfold rne. rewrite Z.log2_mul_pow2 by lia. set (k := Z.log2 n + 1 - prec).
  assert (H0 : 0 < 2 ^ j) by (apply Z.pow_pos_nonneg; lia).
  replace (j + Z.log2 n + 1 - prec) with (k + j) by lia. destruct (Z.leb_spec k 0), (Z.leb_spec (k + j) 0); [done| |lia|].
  - assert (E : n * 2 ^ j = n * 2 ^ (- k) * 2 ^ (k + j)) by (rewrite <- Z.mul_assoc, <- Z.pow_add_r by lia; do 2 f_equal; lia).
    assert (H1' : 0 < 2 ^ (k + j)) by (apply Z.pow_pos_nonneg; lia).
    rewrite E, Z.div_mul, Z.mod_mul by lia. rewrite (proj2 (Z.ltb_ge _ _)), (proj2 (Z.eqb_neq _ _)) by lia. done.
  - assert (H1' : 0 < 2 ^ k) by (apply Z.pow_pos_nonneg; lia).
    rewrite Z.pow_add_r by lia. rewrite Z.div_mul_cancel_r, Z.mul_mod_distr_r by lia.
    replace (2 ^ k * 2 ^ j <? 2 * (n mod 2 ^ k * 2 ^ j)) with (2 ^ k <? 2 * (n mod 2 ^ k)) by (repeat case_Zcmp; nia).
    replace (2 ^ k * 2 ^ j =? 2 * (n mod 2 ^ k * 2 ^ j)) with (2 ^ k =? 2 * (n mod 2 ^ k)) by (repeat case_Zcmp; nia).
    apply Z.mul_assoc.
Qed.

Lemma rne_pos prec n : 0 < prec -> 0 < n -> 0 < rne prec n.
Proof.
  intros Hp Hn. unfold rne. set (k := Z.log2 n + 1 - prec). destruct (Z.leb_spec k 0); [done|].
  assert (H1' : 0 < 2 ^ k) by (apply Z.pow_pos_nonneg; lia).
  assert (1 <= n / 2 ^ k).
  { apply Z.div_le_lower_bound; [done|]. rewrite Z.mul_1_r. destruct (Z.log2_spec n) as [L _]; [done|].
    etrans; [|exact L]. apply Z.pow_le_mono_r; lia. }
  case_match; nia.
Qed.

(** The error is at most half a unit in the last place. *)
Lemma rne_error prec n : 0 < n -> 2 ^ prec * Z.abs (rne prec n - n) <= n.
Proof.
  intros Hn. destruct (Z.lt_ge_cases prec 0) as [Hp|Hp]; [rewrite Z.pow_neg_r by done; lia|].
  unfold rne. set (k := Z.log2 n + 1 - prec). destruct (Z.leb_spec k 0); [rewrite Z.sub_diag; lia|].
  assert (H1' : 0 < 2 ^ k) by (apply Z.pow_pos_nonneg; lia).
  pose proof (Z.div_mod n (2 ^ k) ltac:(lia)) as D. pose proof (Z.mod_pos_bound n (2 ^ k) H1') as B.
  assert (2 * Z.abs ((if (2 ^ k <? 2 * (n mod 2 ^ k)) || (2 ^ k =? 2 * (n mod 2 ^ k)) && Z.odd (n / 2 ^ k) then n / 2 ^ k + 1 else n / 2 ^ k) * 2 ^ k - n) <= 2 ^ k).
  { destruct (Z.ltb_spec (2 ^ k) (2 * (n mod 2 ^ k))), (Z.eqb_spec (2 ^ k) (2 * (n mod 2 ^ k))), (Z.odd (n / 2 ^ k)); cbn [orb andb]; nia. }
  destruct (Z.log2_spec n) as [L _]; [done|].
  assert (2 ^ prec * 2 ^ k = 2 * 2 ^ Z.log2 n) by (rewrite <- Z.pow_add_r, <- Z.pow_succ_r by lia; f_equal; lia).
  nia.
Qed.

(** ** Conversion and multiplication *)

Lemma shl_iter m d : Z.pos (Pos.iter xO m d) = Z.pos m * 2 ^ Z.pos d.
Proof.
  induction d as [|d IH] using Pos.peano_ind; [cbn; lia|].
  rewrite Pos.iter_succ, Pos2Z.inj_xO, IH, Pos2Z.inj_succ, Z.pow_succ_r by lia. lia.
Qed.

Lemma holds_scaled m e d v :
  0 <= d -> 0 <= e + d -> Z.pos m * 2 ^ (e + d) = v * 2 ^ d -> holds_int e (S754_finite false m e) v.
Proof.
  intros Hd He E. exists m, e. split_and!; [done|done|]. destruct (Z.le_ge_cases 0 e).
  - rewrite Z.max_r, (Z.max_l 0 (- e)), Z.pow_0_r by lia. rewrite Z.pow_add_r, Z.mul_assoc in E by lia.
    apply Z.mul_cancel_r in E; [lia|apply Z.pow_nonzero; lia].
  - rewrite Z.max_l, (Z.max_r 0 (- e)), Z.pow_0_r by lia. replace d with (- e + (e + d)) in E at 2 by lia.
    rewrite (Z.pow_add_r 2 (- e)), Z.mul_assoc in E by lia. apply Z.mul_cancel_r in E; [lia|apply Z.pow_nonzero; lia].
Qed.

Lemma holds_int_weaken lo lo' x v : lo' <= lo -> holds_int lo x v -> holds_int lo' x v.
Proof. intros Hl (m & e & -> & He & E). exists m, e. split_and!; [done|lia|done]. Qed.

(** An integer below [2 ^ 100] converts to its rounding. *)
Lemma f32_of_int_holds n : 0 < n < 2 ^ 100 -> holds_int (-23) (f32_of_int n) (rne 24 n).
Proof.
  intros Hn. destruct n as [|n|n]; try lia. unfold f32_of_int, binary_normalize, binary_round, shl_align.
  rewrite digits2_log2, Z.add_0_r, Z.sub_0_r. pose proof (Z.log2_nonneg (Z.pos n)).
  assert (HL : Z.log2 (Z.pos n) < 100) by (apply Z.log2_lt_pow2; lia).
  assert (Hgo : forall n' d, 0 <= d <= 23 -> Z.pos n' = Z.pos n * 2 ^ d ->
    holds_int (-23) (binary_round_aux 24 128 false (Z.pos n') (- d) loc_Exact) (rne 24 (Z.pos n))).
  { intros n' d Hd E. destruct (round_aux_rne 24 128 eq_refl n' (- d)) as (m & e & -> & He & Em);
      [unfold emin; lia|rewrite E, Z.log2_mul_pow2 by lia; lia|lia|].
    rewrite E, rne_scale in Em by lia. replace (e - - d) with (e + d) in Em by lia.
    apply (holds_int_weaken e); [lia|]. apply (holds_scaled m e d); done || lia. }
  destruct (fexp 24 128 (Z.log2 (Z.pos n) + 1)) as [|d|d] eqn:E; unfold fexp, emin in E;
    [apply (Hgo n 0)..|apply (Hgo _ (Z.pos d)); [lia|apply shl_iter]]; lia.
Qed.

(** A product of two integers below [2 ^ 100] is their product, rounded. *)
Lemma f32_mul_holds lo x y a b :
  -60 <= lo -> 0 < a -> 0 < b -> a * b < 2 ^ 100 -> holds_int lo x a -> holds_int lo y b ->
  holds_int (2 * lo) (f32_mul x y) (rne 24 (a * b)).
Proof.
  intros Hlo Ha Hb Hab (mx & ex & -> & Hx & Ex) (my & ey & -> & Hy & Ey). unfold f32_mul, SFmul. cbn [xorb].
  set (P := Z.max 0 ex + Z.max 0 ey). set (N := Z.max 0 (- ex) + Z.max 0 (- ey)).
  assert (EM : Z.pos (mx * my) * 2 ^ P = a * b * 2 ^ N).
  { unfold P, N. rewrite !Z.pow_add_r, Pos2Z.inj_mul by lia. transitivity (Z.pos mx * 2 ^ Z.max 0 ex * (Z.pos my * 2 ^ Z.max 0 ey)); [lia|].
    rewrite Ex, Ey. lia. }
  assert (EL : Z.log2 (Z.pos (mx * my)) + P = Z.log2 (a * b) + N).
  { pose proof (f_equal Z.log2 EM) as L. rewrite !Z.log2_mul_pow2 in L by lia. lia. }
  assert (HL : Z.log2 (a * b) < 100) by (apply Z.log2_lt_pow2; lia). pose proof (Z.log2_nonneg (Z.pos (mx * my))).
  destruct (round_aux_rne 24 128 eq_refl (mx * my) (ex + ey)) as (m & e & -> & He & Em); [unfold emin; lia|lia|lia|].
  apply (holds_int_weaken e); [lia|]. apply (holds_scaled m e N); [lia|lia|].
  transitivity (rne 24 (Z.pos (mx * my)) * 2 ^ P).
  - rewrite <- Em, <- Z.mul_assoc, <- Z.pow_add_r by lia. do 2 f_equal. lia.
  - rewrite <- !rne_scale by lia. by rewrite EM.
Qed.

Lemma rne_exact prec n : 0 <= prec -> 0 < n < 2 ^ prec -> rne prec n = n.
Proof.
  intros Hp Hn. unfold rne. assert (Z.log2 n < prec) by (apply Z.log2_lt_pow2; lia). by rewrite (proj2 (Z.leb_le _ _)) by lia.
Qed.
