(* ===== verification/Format.v ===== *)
(** The text of numbers: what [core::fmt] makes of the values that the kernel logs.

    Characters are code points.  [{}] of an unsigned integer is its decimal digits and [{:x}] its
    hexadecimal ones; [{:.3}] of a float is its exact value rounded to three places, ties to even;
    [{}] of a float is the shortest decimal number that rounds to it, here for floats that hold a whole
    number.  The lemmas show that the digits read back as the number. *)
From Stdlib Require Import String Ascii SpecFloat.
From S2P Require Import Prelude Float.

(** The code points of a literal. *)
Definition text (s : string) : list Z := (fun a => Z.of_N (N_of_ascii a)) <$> list_ascii_of_string s.

(** ** Integers *)

(** The character of a digit. *)
Definition digit (d : Z) : Z := if d <? 10 then 48 + d else 87 + d.

(** The digits of a number in a base, before [acc]; at most [fuel] of them. *)
Fixpoint digits_in (base : Z) (fuel : nat) (n : Z) (acc : list Z) : list Z :=
  match fuel with
  | O => acc
  | S fuel => let acc := digit (n mod base) :: acc in if n <? base then acc else digits_in base fuel (n / base) acc
  end.

(** [{}]; a [u128] has at most 39 digits. *)
Definition dec (n : Z) : list Z := digits_in 10 39 n [].

(** [{:x}] of a [u64]. *)
Definition hex (n : Z) : list Z := digits_in 16 16 n [].

(** ** Floats *)

(** The quotient, rounded to nearest with ties to even. *)
Definition div_even (a b : Z) : Z :=
  let q := a / b in
  let r := a mod b in
  if (b <? 2 * r) || ((b =? 2 * r) && Z.odd q) then q + 1 else q.

Definition sign (s : bool) : list Z := if s then text "-" else [].

(** [{:.3}]; a float has at most 309 digits before the point. *)
Definition fixed3 (x : spec_float) : list Z :=
  match x with
  | S754_nan => text "NaN"
  | S754_infinity s => sign s ++ text "inf"
  | S754_zero s => sign s ++ text "0.000"
  | S754_finite s m e =>
      let q := div_even (1000 * Z.pos m * 2 ^ Z.max 0 e) (2 ^ Z.max 0 (- e)) in
      sign s ++ digits_in 10 309 (q / 1000) [] ++ text "." ++
        [digit (q / 100 mod 10); digit (q / 10 mod 10); digit (q mod 10)]
  end.

(** The multiple of the highest power of ten, [10 ^ j] at most, that is nearest to [n] and has the same
    [f64]. *)
Fixpoint shortest (j : nat) (n : Z) : Z :=
  match j with
  | O => n
  | S j' =>
      let c := div_even n (10 ^ Z.of_nat j) * 10 ^ Z.of_nat j in
      if float_to_uint (2 ^ 128) (f64_of_int c) =? float_to_uint (2 ^ 128) (f64_of_int n) then c else shortest j' n
  end.

(** [{}] of an [f64] that holds a whole number below [2 ^ 128], or of an [f32] that holds one below
    [2 ^ 24]. *)
Definition display_whole (x : spec_float) : list Z := dec (shortest 39 (float_to_uint (2 ^ 128) x)).

(** ** Lemmas *)

(** The number that digits denote. *)
Definition undigit (c : Z) : Z := if c <? 58 then c - 48 else c - 87.
Definition number_in (base : Z) (l : list Z) : Z := fold_left (fun v c => base * v + undigit c) l 0.

Lemma undigit_digit d : 0 <= d < 36 -> undigit (digit d) = d.
Proof. intros Hd. unfold undigit, digit. repeat case_Zcmp; lia. Qed.

Lemma number_cons base c l :
  number_in base (c :: l) = undigit c * base ^ Z.of_nat (List.length l) + number_in base l.
Proof.
  unfold number_in. cbn [fold_left].
  assert (H : forall l a b, fold_left (fun v c => base * v + undigit c) l (a + b) =
    a * base ^ Z.of_nat (List.length l) + fold_left (fun v c => base * v + undigit c) l b).
  { clear. induction l as [|d l IH]; intros a b; cbn [fold_left List.length]; [rewrite Z.pow_0_r; lia|].
    replace (base * (a + b) + undigit d) with (base * a + (base * b + undigit d)) by ring.
    rewrite IH, Nat2Z.inj_succ, Z.pow_succ_r by lia. ring. }
  replace (base * 0 + undigit c) with (undigit c + 0) by ring. by rewrite H.
Qed.

(** Digits in a base from 2 to 36 read back as the number. *)
Lemma digits_in_number base fuel : 2 <= base <= 36 -> forall n acc, 0 <= n < base ^ Z.of_nat fuel ->
  number_in base (digits_in base fuel n acc) = n * base ^ Z.of_nat (List.length acc) + number_in base acc.
Proof.
  intros Hb. induction fuel as [|fuel IH]; intros n acc Hn; cbn [digits_in].
  { rewrite Z.pow_0_r in Hn. replace n with 0 by lia. lia. }
  rewrite Nat2Z.inj_succ, Z.pow_succ_r in Hn by lia. pose proof (Z.mod_pos_bound n base ltac:(lia)).
  destruct (Z.ltb_spec n base).
  - rewrite number_cons, undigit_digit by lia. by rewrite Z.mod_small by lia.
  - rewrite IH by (split; [apply Z.div_pos|apply Z.div_lt_upper_bound]; lia).
    rewrite number_cons, undigit_digit by lia. cbn [List.length]. rewrite Nat2Z.inj_succ, Z.pow_succ_r by lia.
    rewrite (Z.div_mod n base) at 3 by lia. ring.
Qed.

Lemma digits_in_length base fuel : forall n acc, (List.length (digits_in base fuel n acc) <= fuel + List.length acc)%nat.
Proof.
  induction fuel as [|fuel IH]; intros n acc; cbn [digits_in]; [lia|]. destruct (n <? base); [cbn; lia|].
  specialize (IH (n / base) (digit (n mod base) :: acc)). cbn in IH. lia.
Qed.

(** [{}] and [{:x}] read back as the number. *)
Lemma dec_number n : 0 <= n < 10 ^ 39 -> number_in 10 (dec n) = n.
Proof. intros Hn. unfold dec. rewrite digits_in_number by (done || lia). cbn. lia. Qed.

Lemma hex_number n : 0 <= n < W64 -> number_in 16 (hex n) = n.
Proof. intros Hn. unfold hex. rewrite digits_in_number by (done || lia). cbn. lia. Qed.

Lemma dec_length n : (List.length (dec n) <= 39)%nat.
Proof. apply (digits_in_length 10 39 n []). Qed.

Lemma hex_length n : (List.length (hex n) <= 16)%nat.
Proof. apply (digits_in_length 16 16 n []). Qed.

(** [div_even] is within half a unit of the quotient. *)
Lemma div_even_near a b : 0 < b -> 2 * Z.abs (b * div_even a b - a) <= b.
Proof.
  intros Hb. unfold div_even. pose proof (Z.div_mod a b ltac:(lia)) as Hd. pose proof (Z.mod_pos_bound a b Hb) as Hr.
  destruct (Z.ltb_spec b (2 * (a mod b))), (Z.eqb_spec b (2 * (a mod b))), (Z.odd (a / b)); cbn [orb andb]; nia.
Qed.

(** The texts of small numbers. *)
Example format_examples :
  dec 59659 = text "59659" /\ hex 0xffff8000fec00000 = text "ffff8000fec00000" /\ dec 0 = text "0" /\
  fixed3 (f64_div (f64_of_int 1000) (f64_of_int 50)) = text "20.000" /\
  fixed3 (f64_div (f64_of_int 1000) (f64_of_int 7)) = text "142.857" /\
  display_whole (f64_of_int 50) = text "50" /\ display_whole (f64_of_int (2 ^ 63)) = text "9223372036854776000" /\
  display_whole (f64_of_int (10 ^ 23)) = text "100000000000000000000000".
Proof. vm_compute. split_and!; reflexivity. Qed.
