(* ===== verification/Logger.v ===== *)
(** The logger and the panic handler: [src/kernel/src/arch/x86_64/console/logger.rs], [console/mod.rs]
    and [panic] of [src/kernel/src/main.rs].

    The framebuffer writer of [Console] sits behind a [spin::Mutex] in a [spin::Once].  Both, and the
    facade of the [log] crate that the macros go through, are classes of operations with their
    documented behaviour.  A lock that is held is never released by the code that waits for it: the
    loops are bounded by fuel, and the claims hold for every amount of it. *)
From Stdlib Require Import String.
From S2P Require Import Prelude Caps Console Format.

(** ** The crates *)

(** [spin::Mutex] and [spin::Once].  [try_lock] gives the value and the mutex with its guard out;
    [guard_set] writes through the guard, [unlock] drops it; [once_set] writes to the value through a
    reference that [get] returned. *)
Class Spin : Type := {
  mutex : Type -> Type;
  mutex_new : forall {T}, T -> mutex T;
  try_lock : forall {T}, mutex T -> option (T * mutex T);
  guard_set : forall {T}, T -> mutex T -> mutex T;
  unlock : forall {T}, mutex T -> mutex T;
  once : Type -> Type;
  once_new : forall {T}, once T;
  call_once : forall {T}, T -> once T -> once T;
  once_get : forall {T}, once T -> option T;
  once_set : forall {T}, T -> once T -> once T
}.

(** The mutex is free and protects [v]; its guard is out. *)
Definition free `{Spin} {T} (m : mutex T) (v : T) : Prop := exists m', try_lock m = Some (v, m').
Definition held `{Spin} {T} (m : mutex T) : Prop := try_lock m = None.

(** "The guard will give access to the protected data, and the lock will be released when it is
    dropped"; "[call_once]: performs an initialization routine once and only once"; "[get]: returns a
    reference to the inner value if the [Once] has been initialized". *)
Class SpinLaws `{Spin} : Prop := {
  new_free : forall T (v : T), free (mutex_new v) v;
  lock_held : forall T (m m' : mutex T) v, try_lock m = Some (v, m') -> held m';
  set_held : forall T (m m' : mutex T) v w, try_lock m = Some (v, m') -> held (guard_set w m');
  unlock_free : forall T (m m' : mutex T) v w, try_lock m = Some (v, m') -> free (unlock (guard_set w m')) w;
  unlock_same : forall T (m m' : mutex T) v, try_lock m = Some (v, m') -> free (unlock m') v;
  once_get_new : forall T, once_get (@once_new _ T) = None;
  call_once_first : forall T (c : once T) v, once_get c = None -> once_get (call_once v c) = Some v;
  call_once_later : forall T (c : once T) v w, once_get c = Some v -> call_once w c = c;
  once_get_set : forall T (c : once T) v w, once_get c = Some v -> once_get (once_set w c) = Some w
}.

(** [log::Level]. *)
Inductive Level : Type := LevelError | LevelWarn | LevelInfo | LevelDebug | LevelTrace.

#[export] Instance Level_eq_dec : EqDecision Level.
Proof. solve_decision. Defined.

Definition level_number (l : Level) : Z :=
  match l with LevelError => 1 | LevelWarn => 2 | LevelInfo => 3 | LevelDebug => 4 | LevelTrace => 5 end.

Definition level_name (l : Level) : list Z :=
  match l with
  | LevelError => text "ERROR" | LevelWarn => text "WARN" | LevelInfo => text "INFO"
  | LevelDebug => text "DEBUG" | LevelTrace => text "TRACE"
  end.

(** The global state of the [log] crate; [log_enabled] says whether a macro of a level calls the
    logger. *)
Class LogFacade : Type := {
  facade : Type;
  facade_new : facade;
  set_logger : facade -> facade;
  set_max_level : Level -> facade -> facade;
  log_enabled : facade -> Level -> bool
}.

(** Without a logger nothing is logged; "[set_max_level]: sets the global maximum log level". *)
Class LogFacadeLaws `{LogFacade} : Prop := {
  facade_new_silent : forall l, log_enabled facade_new l = false;
  facade_levels : forall f m l, log_enabled (set_max_level m (set_logger f)) l = (level_number l <=? level_number m)
}.

(** ** The logger *)

Section lock.
Context `{Spin} {T A : Type}.

(** [Mutex::lock]: [n] further attempts. *)
Fixpoint lock (n : nat) : M (mutex T) T := fun m =>
  match try_lock m with
  | Some (v, m') => (m', Done v)
  | None => match n with O => (m, NoFuel) | S n => lock n m end
  end.

(** Run [body] on the value of a guard and drop the guard; a panic leaves it out. *)
Definition with_guard (v : T) (body : M T A) : M (mutex T) A := fun m =>
  let '(v', o) := body v in
  let m := guard_set v' m in
  (match o with Done _ => unlock m | _ => m end, o).

Definition locked (n : nat) (body : M T A) : M (mutex T) A :=
  let! v := lock n in with_guard v body.
End lock.

(** [LOGGER], which holds [struct Logger]'s only field, and the state of the [log] crate. *)
Record Screen `{Spin} `{LogFacade} : Type := mkScreen {
  LOGGER : once (mutex FrameBufferWriter);
  FACADE : facade
}.

Definition set_LOGGER `{Spin} `{LogFacade} v (s : Screen) : Screen := mkScreen _ _ v (FACADE s).
Definition set_FACADE `{Spin} `{LogFacade} v (s : Screen) : Screen := mkScreen _ _ (LOGGER s) v.

Module LoggerImpl.
Section ops.
Context `{Build} `{Font} `{Spin}.

(** [Logger::new]. *)
Definition new (framebuffer : list Z) (info : FrameBufferInfo) : mutex FrameBufferWriter :=
  mutex_new (Writer.new framebuffer info).

(** [Logger::enabled]. *)
Definition enabled (_metadata : Level) : bool := true.

(** The padding of [{:5}]: strings are aligned to the left. *)
Definition pad5 (s : list Z) : list Z := s ++ replicate (5 - List.length s) 32.

(** [Logger::log]: the pieces of the format string, one after the other. *)
Definition log (n : nat) (level : Level) (args : list Z) : M (mutex FrameBufferWriter) unit :=
  locked n (
    do! Writer.write_str (pad5 (level_name level)) in
    do! Writer.write_str (text ": ") in
    do! Writer.write_str args in
    Writer.write_str [10]).

(** [Logger::flush]. *)
Definition flush : M (mutex FrameBufferWriter) unit := ret tt.
End ops.
End LoggerImpl.

Section console.
Context `{Build} `{Font} `{Spin} `{LogFacade}.

(** Work on the mutex of the logger behind [LOGGER]. *)
Definition on_logger {A} (m : mutex FrameBufferWriter) (body : M (mutex FrameBufferWriter) A) : M Screen A := fun s =>
  let '(m', o) := body m in (set_LOGGER (once_set m' (LOGGER s)) s, o).

(** [log::error!] and its siblings. *)
Definition log_record (n : nat) (level : Level) (args : list Z) : M Screen unit := fun s =>
  if log_enabled (FACADE s) level then
    (let! m := deref (once_get (LOGGER s)) in on_logger m (LoggerImpl.log n level args)) s
  else ret tt s.

(** [console::init], with the [Debug] text of the framebuffer's description. *)
Definition init (n : nat) (buffer : list Z) (info : FrameBufferInfo) (info_text : list Z) : M Screen unit :=
  do! modify (fun s => set_LOGGER (call_once (LoggerImpl.new buffer info) (LOGGER s)) s) in
  let level := if debug_build then LevelDebug else LevelInfo in
  do! modify (fun s => set_FACADE (set_logger (FACADE s)) s) in
  do! modify (fun s => set_FACADE (set_max_level level (FACADE s)) s) in
  log_record n LevelInfo (text "framebuffer : " ++ info_text).

(** The body of the panic handler, up to its [loop]. *)
Definition panic_body (n : nat) (info : list Z) : M Screen unit :=
  do! (fun s =>
    match once_get (LOGGER s) with
    | Some m =>
        match try_lock m with
        | None => panic s
        | Some (w, m') => on_logger m' (with_guard w Writer.panic_screen) s
        end
    | None => ret tt s
    end) in
  log_record n LevelError (text "KERNEL PANIC: " ++ info).

(** The panic handler: a panic in it enters it again, with its own message.  [Done] is the final
    [loop]. *)
Fixpoint panic_handler (depth n : nat) (info nested : list Z) : M Screen unit := fun s =>
  match depth with
  | O => (s, NoFuel)
  | S depth =>
      match panic_body n info s with
      | (s', Panic) => panic_handler depth n nested nested s'
      | r => r
      end
  end.
End console.

(** ** Lemmas *)

Section lemmas.
Context `{Build} `{FontLaws} `{SpinLaws} `{LogFacadeLaws}.

Lemma lock_free {T} n (m m' : mutex T) v : try_lock m = Some (v, m') -> lock n m = (m', Done v).
Proof. intros E. destruct n; cbn; by rewrite E. Qed.

Lemma lock_spins {T} n (m : mutex T) : held m -> lock n m = (m, NoFuel).
Proof. intros E. induction n as [|n IH]; cbn; by rewrite E. Qed.

Lemma locked_run {T A} n (m : mutex T) v (body : M T A) v' a :
  free m v -> body v = (v', Done a) -> exists m', locked n body m = (m', Done a) /\ free m' v'.
Proof.
  intros [m' E] Eb. unfold locked. rewrite (bind_done _ _ _ _ _ (lock_free n _ _ _ E)).
  unfold with_guard. rewrite Eb. eexists. split; [reflexivity|]. by eapply unlock_free.
Qed.

(** A panic in the body leaves the guard out. *)
Lemma locked_panic {T A} n (m : mutex T) v (body : M T A) v' :
  free m v -> body v = (v', Panic) -> exists m', locked n body m = (m', Panic) /\ held m'.
Proof.
  intros [m' E] Eb. unfold locked. rewrite (bind_done _ _ _ _ _ (lock_free n _ _ _ E)).
  unfold with_guard. rewrite Eb. eexists. split; [reflexivity|]. by eapply set_held.
Qed.

(** The line that a record prints. *)
Definition log_line (level : Level) (args : list Z) : list Z :=
  LoggerImpl.pad5 (level_name level) ++ text ": " ++ args ++ [10].

(** Seven characters and the newline around the text. *)
Lemma log_line_length level args : List.length (log_line level args) = (8 + List.length args)%nat.
Proof. unfold log_line. rewrite !length_app. by destruct level; cbn; lia. Qed.

Lemma log_pieces level args w :
  (do! Writer.write_str (LoggerImpl.pad5 (level_name level)) in
   do! Writer.write_str (text ": ") in do! Writer.write_str args in Writer.write_str [10]) w =
  Writer.write_str (log_line level args) w.
Proof.
  unfold log_line. rewrite write_str_app. unfold bind. destruct (Writer.write_str _ w) as [w1 [[]| | |]]; [|done..].
  rewrite write_str_app. unfold bind. destruct (Writer.write_str _ w1) as [w2 [[]| | |]]; [|done..].
  by rewrite write_str_app.
Qed.

(** The logger is set up and free, with the writer [w]. *)
Definition ready (s : Screen) (w : FrameBufferWriter) : Prop := exists m, once_get (LOGGER s) = Some m /\ free m w.

(** The guard of the logger is out. *)
Definition busy (s : Screen) : Prop := exists m, once_get (LOGGER s) = Some m /\ held m.

Lemma on_logger_run {A} s m (body : M _ A) m' a :
  once_get (LOGGER s) = Some m -> body m = (m', Done a) ->
  on_logger m body s = (set_LOGGER (once_set m' (LOGGER s)) s, Done a) /\
  once_get (LOGGER (set_LOGGER (once_set m' (LOGGER s)) s)) = Some m'.
Proof. intros Hm E. unfold on_logger. rewrite E. split; [done|]. cbn. by eapply once_get_set. Qed.

Lemma log_record_run n s level args w w' :
  ready s w -> log_enabled (FACADE s) level = true ->
  Writer.write_str (log_line level args) w = (w', Done tt) ->
  exists s', log_record n level args s = (s', Done tt) /\ ready s' w' /\ FACADE s' = FACADE s.
Proof.
  intros (m & Hm & Hf) He Hw. unfold log_record, LoggerImpl.log. rewrite He, Hm. rewrite <- log_pieces in Hw.
  destruct (locked_run n m w _ w' tt Hf Hw) as (m' & E & Hf').
  destruct (on_logger_run s m _ m' tt Hm E) as [E1 G1]. eexists. split; [exact E1|]. split; [by exists m'|done].
Qed.

Lemma log_record_quiet n s level args :
  log_enabled (FACADE s) level = false -> log_record n level args s = (s, Done tt).
Proof. intros He. unfold log_record. by rewrite He. Qed.

(** A record of a level that is on waits for ever when the guard is out. *)
Lemma log_record_busy n s level args :
  busy s -> log_enabled (FACADE s) level = true -> exists s', log_record n level args s = (s', NoFuel).
Proof.
  intros (m & Hm & Hh) He. unfold log_record, LoggerImpl.log, locked, on_logger, bind. rewrite He, Hm. cbn.
  rewrite (lock_spins n m Hh). by eexists.
Qed.

(** A panic while a record is written leaves the guard out. *)
Lemma log_record_panics n s level args w w' :
  ready s w -> log_enabled (FACADE s) level = true ->
  Writer.write_str (log_line level args) w = (w', Panic) ->
  exists s', log_record n level args s = (s', Panic) /\ busy s'.
Proof.
  intros (m & Hm & Hf) He Hw. unfold log_record, LoggerImpl.log. rewrite He, Hm. rewrite <- log_pieces in Hw.
  destruct (locked_panic n m w _ w' Hf Hw) as (m' & E & Hh). rewrite (bind_done _ _ s s m) by done.
  unfold on_logger. rewrite E. eexists. split; [reflexivity|]. exists m'. split; [|done]. cbn. by eapply once_get_set.
Qed.

(** The screen takes records of at most [L] characters, any number of them. *)
Definition loggable (L : Z) (s : Screen) : Prop := exists w, ready s w /\ console_ok w /\ settled (L + 7) w.

Lemma log_line_run L level args w :
  console_ok w -> settled (L + 7) w -> Z.of_nat (List.length args) <= L ->
  exists w', Writer.write_str (log_line level args) w = (w', Done tt) /\ console_ok w' /\ same_screen w w' /\ settled (L + 7) w'.
Proof.
  intros Ho Hs Hl. pose proof (log_line_length level args) as Hn.
  assert (exists c t, log_line level args = c :: t /\ c <> 10 /\ c <> 13) as (c & t & E & H10 & H13)
    by (destruct level; eexists _, _; done).
  rewrite E in Hn |- *. cbn in Hn. apply write_line_run; done || lia.
Qed.

(** A record of any level returns, printed or not, and the screen takes the next one. *)
Lemma log_record_returns L n level args s :
  loggable L s -> Z.of_nat (List.length args) <= L ->
  exists s', log_record n level args s = (s', Done tt) /\ loggable L s' /\ FACADE s' = FACADE s.
Proof.
  intros (w & Hr & Ho & Hs) Hl. destruct (log_enabled (FACADE s) level) eqn:He.
  - destruct (log_line_run L level args w Ho Hs Hl) as (w' & E & O' & _ & S').
    destruct (log_record_run n s level args w w' Hr He E) as (s' & E' & R' & F'). exists s'. split_and!; [done|by exists w'|done].
  - exists s. split_and!; [by apply log_record_quiet|by exists w|done].
Qed.

Lemma panic_handler_busy depth n info nested s : busy s -> panic_handler depth n info nested s = (s, NoFuel).
Proof.
  intros (m & Hm & Hh). revert info. induction depth as [|depth IH]; intros info; cbn [panic_handler]; [done|].
  unfold panic_body, bind. rewrite Hm, Hh. cbn. apply IH.
Qed.

(** With the logger free, the first entry paints the screen and prints the message. *)
Lemma panic_handler_run depth n info nested s w w1 w2 :
  ready s w -> log_enabled (FACADE s) LevelError = true -> Writer.panic_screen w = (w1, Done tt) ->
  Writer.write_str (log_line LevelError (text "KERNEL PANIC: " ++ info)) w1 = (w2, Done tt) ->
  exists s', panic_handler (S depth) n info nested s = (s', Done tt) /\ ready s' w2.
Proof.
  intros (m & Hm & [m1 Et]) He Ep Ew. cbn [panic_handler]. unfold panic_body.
  set (s1 := set_LOGGER (once_set (unlock (guard_set w1 m1)) (LOGGER s)) s).
  assert (Hr : ready s1 w1).
  { exists (unlock (guard_set w1 m1)). split; [by eapply once_get_set|by eapply unlock_free]. }
  rewrite (bind_done _ _ s s1 tt) by (rewrite Hm, Et; unfold on_logger, with_guard; by rewrite Ep).
  destruct (log_record_run n s1 _ _ _ _ Hr He Ew) as (s2 & E2 & R2 & _). exists s2. by rewrite E2.
Qed.

Lemma init_run n buffer i info_text s w' :
  once_get (LOGGER s) = None ->
  Writer.write_str (log_line LevelInfo (text "framebuffer : " ++ info_text)) (Writer.new buffer i) = (w', Done tt) ->
  exists s', init n buffer i info_text s = (s', Done tt) /\ ready s' w' /\
    forall l, log_enabled (FACADE s') l = (level_number l <=? if debug_build then 4 else 3).
Proof.
  intros Hn Hw. unfold init. set (lv := if debug_build then LevelDebug else LevelInfo).
  set (s1 := mkScreen _ _ (call_once (LoggerImpl.new buffer i) (LOGGER s)) (set_max_level lv (set_logger (FACADE s)))).
  assert (Hr : ready s1 (Writer.new buffer i)) by (eexists; split; [by apply call_once_first|apply new_free]).
  assert (Hl : forall l, log_enabled (FACADE s1) l = (level_number l <=? if debug_build then 4 else 3)).
  { intros l. cbn. rewrite facade_levels. unfold lv. by destruct debug_build. }
  destruct (log_record_run n s1 LevelInfo (text "framebuffer : " ++ info_text) _ w' Hr) as (s2 & E2 & R2 & F2).
  - rewrite Hl. by destruct debug_build.
  - exact Hw.
  - exists s2. split; [exact E2|]. split; [done|]. by rewrite F2.
Qed.

(** [init] leaves a screen that takes records of at most [L] characters, its own being one. *)
Lemma init_returns n L buffer i info_text s :
  once_get (LOGGER s) = None -> screen_ok (mkWriter buffer i 0 0 false) ->
  14 + Z.of_nat (List.length info_text) <= L -> height i + (L + 9) * (CHAR_RASTER_HEIGHT + LINE_SPACING) < W64 ->
  exists s1 w1, init n buffer i info_text s = (s1, Done tt) /\ ready s1 w1 /\ console_ok w1 /\ settled (L + 7) w1 /\
    Writer.write_str (log_line LevelInfo (text "framebuffer : " ++ info_text)) (Writer.new buffer i) = (w1, Done tt) /\
    forall l, log_enabled (FACADE s1) l = (level_number l <=? if debug_build then 4 else 3).
Proof.
  intros Hs Hb Ht Hr. pose proof (sc_height _ Hb) as Hh. cbn in Hh. pose proof font_height. unfold BORDER_PADDING, LINE_SPACING in *.
  destruct (log_line_run L LevelInfo (text "framebuffer : " ++ info_text) (Writer.new buffer i)) as (w1 & E1 & O1 & _ & S1).
  { by apply new_console_ok. }
  { split; cbn; unfold BORDER_PADDING, LINE_SPACING; nia. }
  { rewrite length_app. change (List.length (text "framebuffer : ")) with 14%nat. lia. }
  destruct (init_run n buffer i info_text s w1 Hs E1) as (s1 & Ei & R1 & L1). exists s1, w1. split_and!; done || apply S1.
Qed.
End lemmas.

(** ** Reference crates *)

Definition ref_spin : Spin := {|
  mutex T := (bool * T)%type;
  mutex_new T v := (false, v);
  try_lock T m := if m.1 then None else Some (m.2, (true, m.2));
  guard_set T v m := (m.1, v);
  unlock T m := (false, m.2);
  once := option;
  once_new T := None;
  call_once T v c := match c with Some w => Some w | None => Some v end;
  once_get T c := c;
  once_set T v c := Some v
|}.

Lemma ref_spin_laws : @SpinLaws ref_spin.
Proof.
  split; unfold free, held; cbn; try done.
  - by eexists.
  - intros T [[] u] m' v; cbn; [done|]. by intros [= <- <-].
  - intros T [[] u] m' v w; cbn; [done|]. by intros [= <- <-].
  - intros T [[] u] m' v w; cbn; [done|]. intros [= <- <-]. by eexists.
  - intros T [[] u] m' v; cbn; [done|]. intros [= <- <-]. by eexists.
  - intros T c v H. by rewrite H.
  - intros T c v w H. by rewrite H.
Qed.

Definition ref_facade : LogFacade := {|
  facade := (bool * Z)%type;
  facade_new := (false, 0);
  set_logger f := (true, f.2);
  set_max_level l f := (f.1, level_number l);
  log_enabled f l := f.1 && (level_number l <=? f.2)
|}.

Lemma ref_facade_laws : @LogFacadeLaws ref_facade.
Proof. split; [by intros []|done]. Qed.

(** ** Claims *)

Module Claims.
Section claims.
Context `{Build} `{FontLaws} `{SpinLaws} `{LogFacadeLaws}.

(** C38: logging.  [init] on a framebuffer with a supported pixel format and a valid geometry returns with the logger set up and its
    lock free, after printing the line of its own record.  From then on the screen takes any number
    of records of at most [L] characters (as long as a screen and [L + 9] lines can be counted in a
    [usize]): a macro of a level that the build prints ([Debug] and above in the dev profile, [Info]
    and above in release) returns, and has written the line made of the level padded to five
    characters, a colon, a space, the text and a newline to the screen and nothing else, with the lock
    free again, the geometry unchanged and the screen ready for the next record; a macro of a lower
    level changes nothing. *)
Theorem logger_prints (n : nat) (L : Z) (buffer : list Z) (i : FrameBufferInfo) (info_text : list Z) (s0 : Screen)
    (Hs : once_get (LOGGER s0) = None) (Hb : screen_ok (mkWriter buffer i 0 0 false))
    (Ht : 14 + Z.of_nat (List.length info_text) <= L)
    (Hr : height i + (L + 9) * (CHAR_RASTER_HEIGHT + LINE_SPACING) < W64) :
  exists s1 w1, init n buffer i info_text s0 = (s1, Done tt) /\ ready s1 w1 /\ console_ok w1 /\ settled (L + 7) w1 /\
    Writer.write_str (log_line LevelInfo (text "framebuffer : " ++ info_text)) (Writer.new buffer i) = (w1, Done tt) /\
  forall s w level args, FACADE s = FACADE s1 -> ready s w -> console_ok w -> settled (L + 7) w ->
    Z.of_nat (List.length args) <= L ->
  if level_number level <=? (if debug_build then 4 else 3) then
    exists s' w', log_record n level args s = (s', Done tt) /\ ready s' w' /\ FACADE s' = FACADE s /\
      Writer.write_str (LoggerImpl.pad5 (level_name level) ++ text ": " ++ args ++ [10]) w = (w', Done tt) /\
      console_ok w' /\ same_screen w w' /\ settled (L + 7) w'
  else log_record n level args s = (s, Done tt).
Proof.
  destruct (init_returns n L buffer i info_text s0 Hs Hb Ht Hr) as (s1 & w1 & Ei & R1 & O1 & S1 & E1 & L1).
  exists s1, w1. split_and!; [done..|]. intros s w level args Hf Hrd Ho Hst Hl. rewrite <- L1, <- Hf.
  destruct (log_enabled (FACADE s) level) eqn:He; [|by apply log_record_quiet].
  destruct (log_line_run L level args w Ho Hst Hl) as (w' & Ew & Ow & Sw & Tw).
  destruct (log_record_run n s level args w w' Hrd He Ew) as (s' & E' & R' & F'). exists s', w'. split_and!; done || apply Tw.
Qed.

(** C29: with records of level [Error] enabled and a screen that the console accepts, the panic handler
    reports every panic raised while the logger is free: it fills the screen
    with dark red, prints [KERNEL PANIC:] and the message below it, and reaches its final loop.  A
    panic raised while the logger is locked is never reported: the [unwrap] of [try_lock] panics
    again, and the handler enters itself without end, whatever number of entries is allowed, without
    touching the screen.  A panic of the writer itself, in the middle of a record, is such a panic. *)
Theorem panic_reported (depth n : nat) (info nested : list Z) (s : Screen)
    (He : log_enabled (FACADE s) LevelError = true) :
  (forall w, ready s w -> console_ok w ->
     height (Console.info w) + (24 + Z.of_nat (List.length info)) * (CHAR_RASTER_HEIGHT + LINE_SPACING) < W64 ->
     exists s' w1 w2, panic_handler (S depth) n info nested s = (s', Done tt) /\ ready s' w2 /\
       panic_mode w2 = true /\ console_ok w2 /\
       Writer.panic_screen w = (w1, Done tt) /\
       (forall x y k, 0 <= x < width (Console.info w) -> 0 <= y < height (Console.info w) ->
          0 <= k < bytes_per_pixel (Console.info w) ->
          byte_of (framebuffer w1) (bytes_per_pixel (Console.info w)) (y * stride (Console.info w) + x) k =
            dark_red (pixel_format (Console.info w)) !! Z.to_nat k) /\
       Writer.write_str (text "ERROR: KERNEL PANIC: " ++ info ++ [10]) w1 = (w2, Done tt)) /\
  (busy s -> panic_handler depth n info nested s = (s, NoFuel)) /\
  (forall w w' level args, ready s w -> log_enabled (FACADE s) level = true ->
     Writer.write_str (log_line level args) w = (w', Panic) ->
     exists s', log_record n level args s = (s', Panic) /\ panic_handler depth n info nested s' = (s', NoFuel)).
Proof.
  split_and!.
  - intros w Hr Ho Hroom. destruct (panic_screen_run w) as (w1 & E1 & O1 & P1 & I1 & _ & _ & Y1 & B1); [apply Ho|].
    destruct (write_str_run (log_line LevelError (text "KERNEL PANIC: " ++ info)) w1 O1) as (w2 & E2 & O2 & S2 & _).
    { rewrite log_line_length, length_app. change (List.length (text "KERNEL PANIC: ")) with 14%nat.
      unfold next_y. rewrite Y1, I1. pose proof font_height. pose proof (sc_height _ (co_screen _ Ho)).
      unfold BORDER_PADDING, LINE_SPACING in *. lia. }
    destruct (panic_handler_run depth n info nested s w w1 w2 Hr He E1 E2) as (s' & E' & R').
    exists s', w1, w2. split_and!; [done..| |done|done|done|exact E2]. by rewrite (proj2 (proj2 S2)).
  - apply panic_handler_busy.
  - intros w w' level args Hr Hl Ew. destruct (log_record_panics n s level args w w' Hr Hl Ew) as (s' & E' & B').
    exists s'. split; [done|]. by apply panic_handler_busy.
Qed.
End claims.

Import RefFont.

(** The screen of 20 by 40 pixels, and the same one in a pixel format that the writer refuses. *)
Definition fresh_screen : @Screen ref_spin ref_facade := mkScreen ref_spin ref_facade None (false, 0).
Definition screen_with (w : FrameBufferWriter) : @Screen ref_spin ref_facade :=
  mkScreen ref_spin ref_facade (Some (false, w)) (true, 4).
Definition odd_writer : FrameBufferWriter := Writer.new (replicate 1920 7) (mkInfo 20 40 OtherFormat 2 24).

Lemma logger_prints_witness :
  exists s1 w1, init (H := dev) (H1 := ref_spin) (H2 := ref_facade) 0 (replicate 1920 7) RefFont.info0 (text "Rgb") fresh_screen = (s1, Done tt) /\
    ready s1 w1 /\ exists s2, log_record (H := dev) 0 LevelDebug (text "hello") s1 = (s2, Done tt).
Proof.
  assert (Hb : @screen_ok RefFont.font (mkWriter (replicate 1920 7) RefFont.info0 0 0 false)) by (by split).
  destruct (logger_prints (H := dev) (H3 := ref_spin_laws) (H5 := ref_facade_laws) 0 100 (replicate 1920 7) RefFont.info0 (text "Rgb") fresh_screen)
    as (s1 & w1 & E & R & O & S & _ & Hl); [done|exact Hb|vm_compute; discriminate|vm_compute; reflexivity|].
  exists s1, w1. split; [exact E|]. split; [exact R|].
  destruct (Hl s1 w1 LevelDebug (text "hello")) as (s2 & _ & E2 & _); [done|exact R|exact O|exact S|vm_compute; discriminate|exists s2; exact E2].
Defined.

Lemma panic_reported_witness :
  (exists s', panic_handler (H := dev) (H1 := ref_spin) (H2 := ref_facade) 1 0 (text "oops") [] (screen_with RefFont.writer0) = (s', Done tt)) /\
  exists s', log_record (H := dev) (H1 := ref_spin) (H2 := ref_facade) 0 LevelInfo (text "x") (screen_with odd_writer) = (s', Panic) /\
    panic_handler (H := dev) 100 0 (text "oops") [] s' = (s', NoFuel).
Proof.
  assert (Ho : @console_ok RefFont.font RefFont.writer0) by (apply new_console_ok; by split).
  split.
  - destruct (panic_reported (H := dev) (H3 := ref_spin_laws) (H4 := ref_facade) 0 0 (text "oops") [] (screen_with RefFont.writer0))
      as (Hp & _); [done|].
    destruct (Hp RefFont.writer0) as (s' & w1 & w2 & E & _); [|exact Ho|vm_compute; reflexivity|exists s'; exact E].
    eexists. split; [reflexivity|]. eexists. reflexivity.
  - destruct (panic_reported (H := dev) (H3 := ref_spin_laws) (H4 := ref_facade) 100 0 (text "oops") [] (screen_with odd_writer))
      as (_ & _ & Hp); [done|].
    destruct (Hp odd_writer (fst (Writer.write_str (H := dev) (log_line LevelInfo (text "x")) odd_writer)) LevelInfo (text "x")) as (s' & E & Eh);
      [eexists; split; [reflexivity|eexists; reflexivity]|done|vm_compute; reflexivity|].
    exists s'. split; [exact E|exact Eh].
Defined.
End Claims.
