(* ===== verification/Devices.v ===== *)
(** Device access: [src/kernel/src/arch/x86_64/apic.rs], [pic.rs], [pit.rs], [acpi.rs] and the
    register numbers of [constants/apic.rs].

    The drivers act on the machine by port instructions and by volatile accesses to memory-mapped
    registers.  Their state is the log of these accesses, latest first.  What the hardware answers to
    a read is a parameter, a function of the log ([Hardware]); an access to an address that is no
    device register is undefined.  The records that the drivers print stand in the log among the
    accesses, in their order; the file [Boot] carries them out on the screen.  The claims say what the
    drivers make of the registers. *)
From Stdlib Require Import SpecFloat.
From Stdlib Require String.
From S2P Require Import Prelude Caps Float Format Logger.
Import String.StringSyntax.

(** ** The machine *)

(** An access to a port or to a memory-mapped register, with the value written or read, or a record
    of the [log] crate. *)
Inductive io : Type :=
| PortOut (port v : Z)
| PortIn (port v : Z)
| MmioWrite (a v : Z)
| MmioRead (a v : Z)
| Print (level : Level) (args : list Z).

#[export] Instance io_eq_dec : EqDecision io.
Proof. solve_decision. Defined.

Abbreviation Log := (list io).

(** The addresses of device registers, the answers to reads after a given log, and the words of the
    CPUID instruction that the kernel looks at. *)
Class Hardware : Type := {
  is_register : Z -> bool;
  mmio_answer : Log -> Z -> Z;
  port_answer : Log -> Z -> Z;
  cpuid_1_edx : Z;
  cpuid_1_ebx : Z;
  cpuid_4_eax : Z
}.

(** Registers are 32 bits wide, ports 8. *)
Class HardwareLaws `{Hardware} : Prop := {
  mmio_answer_u32 : forall l a, 0 <= mmio_answer l a < 2 ^ 32;
  port_answer_u8 : forall l p, 0 <= port_answer l p < 2 ^ 8
}.

(** [x86_64::VirtAddr::new] and the addition of an offset; [None] is a panic. *)
Class X86Virt : Type := { virt_addr_new : Z -> option Z; virt_addr_add : Z -> Z -> option Z }.

(** The address is the sign extension of its low 48 bits. *)
Definition canonical (a : Z) : Prop := 0 <= a < 2 ^ 47 \/ 2 ^ 64 - 2 ^ 47 <= a < 2 ^ 64.

(** "Panics if the bits in the range 48 to 64 contain data (i.e. are not null and no sign
    extension)"; additions panic as well when they overflow. *)
Class X86VirtLaws `{X86Virt} : Prop := {
  virt_addr_new_ok : forall a, canonical a -> virt_addr_new a = Some a;
  virt_addr_new_panic : forall a, 0 <= a -> ~ canonical a -> virt_addr_new a = None;
  virt_addr_add_ok : forall a n, 0 <= n -> canonical (a + n) -> virt_addr_add a n = Some (a + n)
}.

Section access.
Context `{Hardware}.

(** [Port::write] and [Port::read] of the [x86_64] crate: the [out] and [in] instructions. *)
Definition port_write (port v : Z) : M Log unit := modify (cons (PortOut port v)).
Definition port_read (port : Z) : M Log Z := fun l =>
  let v := port_answer l port in (PortIn port v :: l, Done v).

(** [write_volatile] and [read_volatile] on a [u32] register. *)
Definition write_volatile (a v : Z) : M Log unit :=
  if is_register a then modify (cons (MmioWrite a v)) else undef.
Definition read_volatile (a : Z) : M Log Z := fun l =>
  if is_register a then let v := mmio_answer l a in (MmioRead a v :: l, Done v) else (l, Undef).

(** [log::info!] and its siblings. *)
Definition print (level : Level) (args : list Z) : M Log unit := modify (cons (Print level args)).
End access.

(** [u32] arithmetic: overflow panics in the dev profile and wraps in the release profile. *)
Definition arith32 `{Build} {S} (x : Z) : M S Z :=
  if (0 <=? x) && (x <? 2 ^ 32) then ret x
  else if debug_build then panic else ret (x mod 2 ^ 32).

Lemma arith32_ok `{Build} {S} x (s : S) : 0 <= x < 2 ^ 32 -> arith32 x s = (s, Done x).
Proof.
  intros [H1 H2]. unfold arith32. by rewrite (proj2 (Z.leb_le _ _) H1), (proj2 (Z.ltb_lt _ _) H2).
Qed.

Lemma write_volatile_run `{Hardware} a v l :
  is_register a = true -> write_volatile a v l = (MmioWrite a v :: l, Done tt).
Proof. intros Ha. unfold write_volatile. by rewrite Ha. Qed.

Lemma read_volatile_run `{Hardware} a l :
  is_register a = true -> read_volatile a l = (MmioRead a (mmio_answer l a) :: l, Done (mmio_answer l a)).
Proof. intros Ha. unfold read_volatile. by rewrite Ha. Qed.

(** ** Registers *)

(** [enum ApicRegister]. *)
Inductive ApicRegister : Type :=
| LapicSivr | LapicEoi | LapicLvtt | LapicTdcr | LapicTicr | LapicTccr
| IoApicId | IoapicVersion | IoapicArbId | IoapicRedirectionTableBase.

(** The discriminants of [ApicRegister]. *)
Definition register_number (r : ApicRegister) : Z :=
  match r with
  | LapicSivr => 0xF0
  | LapicEoi => 0xB0
  | LapicLvtt => 0x320
  | LapicTdcr => 0x3E0
  | LapicTicr => 0x380
  | LapicTccr => 0x390
  | IoApicId => 0x0
  | IoapicVersion => 0x1
  | IoapicArbId => 0x2
  | IoapicRedirectionTableBase => 0x10
  end.

(** [enum ApicValue]. *)
Inductive ApicValue : Type := TdcrDivideBy1 | SvrEnable.

(** The discriminants of [ApicValue]. *)
Definition value_number (v : ApicValue) : Z :=
  match v with TdcrDivideBy1 => 0x1 | SvrEnable => 0x100 end.

(** [base.offset(r as isize / 4)] for a pointer to [u32]. *)
Definition register_at (base : Z) (r : ApicRegister) : Z := base + 4 * (register_number r / 4).

Lemma register_eqb base r r' :
  (register_at base r =? register_at base r') = (register_number r / 4 =? register_number r' / 4).
Proof. unfold register_at. repeat case_Zcmp; done || lia. Qed.

(** ** The legacy interrupt controller *)

Definition PIC_1_PORT : Z := 0x21.
Definition PIC_2_PORT : Z := 0xA1.

(** [struct Pic]: its two ports. *)
Record Pic : Type := mkPic { pic1 : Z; pic2 : Z }.

Module PicImpl.

(** [Pic::new]. *)
Definition new : Pic := mkPic PIC_1_PORT PIC_2_PORT.

(** [Pic::disable]. *)
Definition disable (p : Pic) : M Log unit :=
  do! port_write (pic1 p) 0xff in port_write (pic2 p) 0xff.
End PicImpl.

(** ** The advanced interrupt controller *)

(** [struct Apic]. *)
Record Apic : Type := mkApic { io_apic_addr : Z; lapic_addr : Z }.

Module ApicImpl.
Section ops.
Context `{Build} `{Hardware} `{X86Virt}.

(** [Apic::new]. *)
Definition new : Apic := mkApic 0 0.

(** [Apic::default]. *)
Definition default : Apic := new.

(** [Apic::has_apic]. *)
Definition has_apic : bool := negb (Z.land cpuid_1_edx (Z.shiftl 1 9) =? 0).

(** [Apic::enable_io_apic]. *)
Definition enable_io_apic (addr : Z) : M Log unit := write_volatile addr 0x12.

(** [Apic::enable_lapic]. *)
Definition enable_lapic (addr : Z) : M Log unit :=
  let svr := register_at addr LapicSivr in
  let! v := read_volatile svr in
  write_volatile svr (Z.lor v (value_number SvrEnable)).

(** [Apic::map_apic]. *)
Definition map_apic (paddr vspace_offset : Z) : M Log Z :=
  let! a := add64 paddr vspace_offset in unwrap_or_panic (virt_addr_new a).

(** The text of the record of [init]. *)
Definition init_text (io_apic_addr lapic_addr : Z) : list Z :=
  text "apic, lapic initialized at IOAPIC=" ++ hex io_apic_addr ++ text " LAPIC=" ++ hex lapic_addr.

(** [Apic::init]; the address of the RSDP is not used. *)
Definition init (self : Apic) (_rsdp_addr vspace_offset : Z) : M Log Apic :=
  if negb has_apic then panic else
  do! PicImpl.disable PicImpl.new in
  let io_apic_addr := 0xFEC00000 in
  let lapic_addr := 0xFEE00000 in
  let! io_apic_addr := map_apic io_apic_addr vspace_offset in
  let! lapic_addr := map_apic lapic_addr vspace_offset in
  do! enable_io_apic io_apic_addr in
  do! enable_lapic lapic_addr in
  do! print LevelInfo (init_text io_apic_addr lapic_addr) in
  ret (mkApic io_apic_addr lapic_addr).

(** [Apic::ioapic_read]: select a register, read its window. *)
Definition ioapic_read (self : Apic) (reg : Z) : M Log Z :=
  do! write_volatile (io_apic_addr self) reg in
  read_volatile (io_apic_addr self + 4 * 4).

(** [Apic::ioapic_write]. *)
Definition ioapic_write (self : Apic) (reg value : Z) : M Log unit :=
  do! write_volatile (io_apic_addr self) reg in
  write_volatile (io_apic_addr self + 4 * 4) value.

(** [Apic::init_counter]. *)
Definition init_counter (self : Apic) (periodic : bool) (ticks : Z) : M Log Z :=
  do! write_volatile (register_at (lapic_addr self) LapicLvtt)
        (Z.lor 0x20 (Z.shiftl (bool_as_usize periodic) 17)) in
  do! write_volatile (register_at (lapic_addr self) LapicTdcr) (value_number TdcrDivideBy1) in
  do! write_volatile (register_at (lapic_addr self) LapicTicr) ticks in
  ret ticks.

(** [Apic::read_counter]. *)
Definition read_counter (self : Apic) : M Log Z := read_volatile (register_at (lapic_addr self) LapicTccr).

(** [Apic::end_interrupt]. *)
Definition end_interrupt (self : Apic) : M Log unit :=
  write_volatile (register_at (lapic_addr self) LapicEoi) 0.
End ops.
End ApicImpl.

(** ** The interval timer *)

Definition FREQUENCE_HZ : Z := 1193182.
Definition COMMAND_PORT : Z := 0x43.
Definition DATA_PORT : Z := 0x40.

(** [enum Mode]. *)
Inductive Mode : Type := InterruptOnTerminalCount | RateGenerator.

Definition mode_byte (m : Mode) : Z :=
  match m with InterruptOnTerminalCount => 0x0 | RateGenerator => 0x2 end.

(** [struct Pit]: its two ports. *)
Record Pit : Type := mkPit { command_port : Z; data_port : Z }.

Module PitImpl.
Section ops.
Context `{Hardware}.

(** The frequency for a duration in milliseconds, as [Pit::new] computes it in [f64]. *)
Definition frequence (counter : Z) : spec_float :=
  f64_div (f64_mul (f64_of_int 1000) (f64_of_int 1)) (f64_of_int counter).

(** The count; a frequency below 1 Hz is truncated to 0 and the division panics. *)
Definition reload_value (counter : Z) : option Z :=
  let f := float_to_uint (W64 - 1) (frequence counter) in
  if f =? 0 then None else Some ((FREQUENCE_HZ / f) mod 2 ^ 16).

(** The text of the record of [new]. *)
Definition new_text (counter reload_value : Z) : list Z :=
  text "pit frequency is " ++ fixed3 (frequence counter) ++ text " Hz (= " ++
  display_whole (f64_of_int counter) ++ text "ms) corresponding to " ++ dec reload_value ++ text " ticks".

(** [Pit::new], for a counter in milliseconds. *)
Definition new (counter : Z) : M Log Pit :=
  let! reload_value := unwrap_or_panic (reload_value counter) in
  let reload_value_low := Z.land reload_value 0xFF in
  let reload_value_high := Z.shiftr reload_value 8 in
  do! print LevelDebug (new_text counter reload_value) in
  do! port_write COMMAND_PORT 0x30 in
  do! port_write DATA_PORT reload_value_low in
  do! port_write DATA_PORT reload_value_high in
  ret (mkPit COMMAND_PORT DATA_PORT).

(** [Pit::set_mode]. *)
Definition set_mode (self : Pit) (m : Mode) : M Log unit := port_write (command_port self) (mode_byte m).

(** [Pit::read]. *)
Definition read (self : Pit) : M Log Z :=
  do! port_write (command_port self) 0 in
  let! low_byte := port_read (data_port self) in
  let! high_byte := port_read (data_port self) in
  ret (Z.lor (Z.shiftl high_byte 8) low_byte).
End ops.
End PitImpl.

(** ** ACPI tables *)

(** [struct Acpi]. *)
Record Acpi : Type := mkAcpi { physical_memory_offset : Z }.

(** The fields of the [acpi] crate's [PhysicalMapping] that the handler fills in. *)
Record PhysicalMapping : Type := mkPhysicalMapping {
  physical_start : Z; virtual_start : Z; region_length : Z; mapped_length : Z
}.

Module AcpiImpl.

(** [Acpi::new]. *)
Definition new (physical_memory_offset : Z) : Acpi := mkAcpi physical_memory_offset.

(** [Acpi::map_physical_region]; [NonNull::new] refuses the null pointer. *)
Definition map_physical_region `{X86Addr} `{X86Virt} {S} (self : Acpi) (physical_address size : Z)
  : M S PhysicalMapping :=
  let! phys_addr := unwrap_or_panic (phys_addr_new physical_address) in
  let! virt_addr := unwrap_or_panic (virt_addr_add (physical_memory_offset self) phys_addr) in
  do! assertM (negb (virt_addr =? 0)) in
  ret (mkPhysicalMapping physical_address virt_addr size size).

(** [Acpi::unmap_physical_region]. *)
Definition unmap_physical_region {S} (_region : PhysicalMapping) : M S unit := ret tt.
End AcpiImpl.

(** ** What the registers mean

    The encodings of the architecture: the timer entry of the local vector table, the divide
    configuration, an entry of the I/O APIC's redirection table, and the command byte of the
    interval timer. *)

Definition lvt_vector (w : Z) : Z := Z.land w 0xFF.
Definition lvt_masked (w : Z) : bool := Z.testbit w 16.
Definition lvt_periodic (w : Z) : bool := Z.testbit w 17 && negb (Z.testbit w 18).

(** Bits 0, 1 and 3: 000 divides by 2, each further value by twice as much, and 111 by 1. *)
Definition tdcr_divisor (w : Z) : Z :=
  let c := Z.land w 3 + (if Z.testbit w 3 then 4 else 0) in
  if c =? 7 then 1 else 2 ^ (c + 1).

(** The access field of a command for channel 0: 0 latches the count and leaves the mode alone. *)
Definition pit_command_sets_mode (b : Z) : bool := negb (Z.land (Z.shiftr b 4) 3 =? 0).

(** The last value written to a register. *)
Fixpoint last_written (a : Z) (l : Log) : option Z :=
  match l with
  | [] => None
  | MmioWrite b v :: l => if b =? a then Some v else last_written a l
  | _ :: l => last_written a l
  end.

(** ** Lemmas *)

Section driver.
Context `{Build} `{Hardware} `{X86VirtLaws}.

(** The pages of the two controllers are mapped at [off]. *)
Record apic_mapped (off : Z) : Prop := {
  am_off : 0 <= off < W64;
  am_io : canonical (0xFEC00000 + off);
  am_lapic : canonical (0xFEE00000 + off);
  am_io_regs : forall i, 0 <= i < 1024 -> is_register (0xFEC00000 + off + 4 * i) = true;
  am_lapic_regs : forall i, 0 <= i < 1024 -> is_register (0xFEE00000 + off + 4 * i) = true
}.

(** The APIC [init] makes for an offset. *)
Definition apic_at (off : Z) : Apic := mkApic (0xFEC00000 + off) (0xFEE00000 + off).

Lemma lapic_register off r : apic_mapped off -> is_register (register_at (lapic_addr (apic_at off)) r) = true.
Proof. intros Hm. apply (am_lapic_regs off Hm). by destruct r. Qed.

Lemma io_register off i : apic_mapped off -> 0 <= i < 1024 -> is_register (io_apic_addr (apic_at off) + 4 * i) = true.
Proof. intros Hm Hi. by apply (am_io_regs off Hm). Qed.

Lemma io_select off : apic_mapped off -> is_register (io_apic_addr (apic_at off)) = true.
Proof. intros Hm. rewrite <- (Z.add_0_r (io_apic_addr _)). by apply (io_register off 0). Qed.

Lemma map_apic_run p off l :
  u64 (p + off) -> canonical (p + off) -> ApicImpl.map_apic p off l = (l, Done (p + off)).
Proof.
  intros Hu Hc. unfold ApicImpl.map_apic. rewrite (bind_done _ _ _ l (p + off)) by (by apply arith64_ok).
  by rewrite virt_addr_new_ok.
Qed.

(** The log of an initialisation, latest access first. *)
Definition init_log (off : Z) (l : Log) : Log :=
  let svr := register_at (lapic_addr (apic_at off)) LapicSivr in
  let l1 := MmioWrite (io_apic_addr (apic_at off)) 0x12 :: PortOut PIC_2_PORT 0xff :: PortOut PIC_1_PORT 0xff :: l in
  Print LevelInfo (ApicImpl.init_text (io_apic_addr (apic_at off)) (lapic_addr (apic_at off))) ::
  MmioWrite svr (Z.lor (mmio_answer l1 svr) 0x100) :: MmioRead svr (mmio_answer l1 svr) :: l1.

Lemma canonical_u64 a : canonical a -> u64 a.
Proof. unfold canonical, u64, W64. lia. Qed.

Lemma apic_init_run a rsdp off l :
  apic_mapped off -> ApicImpl.has_apic = true ->
  ApicImpl.init a rsdp off l = (init_log off l, Done (apic_at off)).
Proof.
  intros Hm Ha. unfold ApicImpl.init. rewrite Ha. cbn [negb].
  set (l0 := PortOut PIC_2_PORT 0xff :: PortOut PIC_1_PORT 0xff :: l).
  rewrite (bind_done _ _ _ l0 tt) by done.
  rewrite (bind_done _ _ _ l0 (0xFEC00000 + off)) by (apply map_apic_run; [apply canonical_u64|]; apply Hm).
  rewrite (bind_done _ _ _ l0 (0xFEE00000 + off)) by (apply map_apic_run; [apply canonical_u64|]; apply Hm).
  unfold ApicImpl.enable_io_apic, ApicImpl.enable_lapic.
  rewrite (bind_done _ _ _ _ _ (write_volatile_run _ 0x12 l0 (io_select off Hm))).
  change (0xFEE00000 + off) with (lapic_addr (apic_at off)).
  erewrite bind_done; [done|]. rewrite (bind_done _ _ _ _ _ (read_volatile_run _ _ (lapic_register off LapicSivr Hm))).
  by apply write_volatile_run, lapic_register.
Qed.

(** The log of programming the timer. *)
Definition counter_log (off : Z) (periodic : bool) (ticks : Z) (l : Log) : Log :=
  let reg := register_at (lapic_addr (apic_at off)) in
  MmioWrite (reg LapicTicr) ticks :: MmioWrite (reg LapicTdcr) 1 ::
  MmioWrite (reg LapicLvtt) (Z.lor 0x20 (Z.shiftl (bool_as_usize periodic) 17)) :: l.

Lemma init_counter_run off periodic ticks l :
  apic_mapped off ->
  ApicImpl.init_counter (apic_at off) periodic ticks l = (counter_log off periodic ticks l, Done ticks).
Proof.
  intros Hm. unfold ApicImpl.init_counter.
  rewrite (bind_done _ _ _ _ _ (write_volatile_run _ _ _ (lapic_register off LapicLvtt Hm))).
  rewrite (bind_done _ _ _ _ _ (write_volatile_run _ _ _ (lapic_register off LapicTdcr Hm))).
  by rewrite (bind_done _ _ _ _ _ (write_volatile_run _ _ _ (lapic_register off LapicTicr Hm))).
Qed.

Lemma read_counter_run off l :
  apic_mapped off -> let tccr := register_at (lapic_addr (apic_at off)) LapicTccr in
  ApicImpl.read_counter (apic_at off) l = (MmioRead tccr (mmio_answer l tccr) :: l, Done (mmio_answer l tccr)).
Proof. intros Hm. by apply read_volatile_run, lapic_register. Qed.

Lemma end_interrupt_run off l :
  apic_mapped off ->
  ApicImpl.end_interrupt (apic_at off) l = (MmioWrite (register_at (lapic_addr (apic_at off)) LapicEoi) 0 :: l, Done tt).
Proof. intros Hm. by apply write_volatile_run, lapic_register. Qed.

Lemma ioapic_write_run off reg v l :
  apic_mapped off ->
  ApicImpl.ioapic_write (apic_at off) reg v l =
  (MmioWrite (io_apic_addr (apic_at off) + 16) v :: MmioWrite (io_apic_addr (apic_at off)) reg :: l, Done tt).
Proof.
  intros Hm. unfold ApicImpl.ioapic_write. rewrite (bind_done _ _ _ _ _ (write_volatile_run _ _ _ (io_select off Hm))).
  apply write_volatile_run, (io_register off 4); [done|lia].
Qed.
End driver.

(** *** The log only grows *)

(** A record of at most [L] characters, or no record. *)
Definition short (L : Z) (e : io) : Prop :=
  match e with Print _ args => Z.of_nat (length args) <= L | _ => True end.

(** The driver only adds to the log, and no record longer than [L]. *)
Definition appends {A} (L : Z) (m : M Log A) : Prop := forall l, exists es, (m l).1 = es ++ l /\ Forall (short L) es.

Section appends.
Context `{Build} `{Hardware} `{X86Virt} (L : Z).

Lemma appends_same {A} (m : M Log A) : (forall l, (m l).1 = l) -> appends L m.
Proof. intros Hl l. exists []. by rewrite Hl. Qed.

Lemma appends_one {A} (m : M Log A) : (forall l, (m l).1 = l \/ exists e, (m l).1 = e :: l /\ short L e) -> appends L m.
Proof.
  intros Hm l. destruct (Hm l) as [E|(e & E & He)]; [by exists []|]. exists [e]. rewrite E. split; [done|by apply Forall_singleton].
Qed.

Lemma appends_bind {A B} (m : M Log A) (f : A -> M Log B) :
  appends L m -> (forall a, appends L (f a)) -> appends L (let! a := m in f a).
Proof.
  intros Hm Hf l. unfold bind. destruct (Hm l) as (es & E & He). destruct (m l) as [l' o]. cbn in E. subst l'.
  destruct o as [a| | |]; try (by exists es). destruct (Hf a (es ++ l)) as (es' & -> & He').
  exists (es' ++ es). rewrite app_assoc. split; [done|]. by apply Forall_app.
Qed.

Lemma appends_weaken {A} L' (m : M Log A) : L' <= L -> appends L' m -> appends L m.
Proof.
  intros Hl Hm l. destruct (Hm l) as (es & E & Hf). exists es. split; [done|]. eapply Forall_impl; [exact Hf|].
  intros [| | | |lv args]; cbn; done || lia.
Qed.

Lemma appends_ret {A} (a : A) : appends L (ret a).
Proof. by apply appends_same. Qed.
Lemma appends_panic {A} : appends L (panic (A := A)).
Proof. by apply appends_same. Qed.
Lemma appends_assert b : appends L (assertM b).
Proof. apply appends_same. intros l. unfold assertM. by destruct b. Qed.
Lemma appends_unwrap {A} (o : option A) : appends L (unwrap_or_panic o).
Proof. apply appends_same. by destruct o. Qed.
Lemma appends_arith32 x : appends L (arith32 x).
Proof. apply appends_same. intros l. unfold arith32. by repeat case_match. Qed.
Lemma appends_add64 x y : appends L (add64 x y).
Proof. apply appends_same. intros l. unfold add64, arith64. by repeat case_match. Qed.
Lemma appends_port_write p v : appends L (port_write p v).
Proof. apply appends_one. intros l. right. by eexists. Qed.
Lemma appends_write a v : appends L (write_volatile a v).
Proof. apply appends_one. intros l. unfold write_volatile. destruct (is_register a); [right; by eexists|by left]. Qed.
Lemma appends_read a : appends L (read_volatile a).
Proof. apply appends_one. intros l. unfold read_volatile. destruct (is_register a); [right; by eexists|by left]. Qed.
Lemma appends_print lv args : Z.of_nat (length args) <= L -> appends L (print lv args).
Proof. intros Hl. apply appends_one. intros l. right. by eexists. Qed.
End appends.

Create HintDb appends.
#[export] Hint Resolve appends_ret appends_panic appends_assert appends_unwrap appends_arith32 appends_add64
  appends_port_write appends_write appends_read appends_print : appends.

(** Split a driver into its accesses. *)
Ltac appends_tac :=
  repeat (intros; cbn zeta; match goal with
  | |- appends _ (if ?b then _ else _) => destruct b
  | |- appends _ (let! _ := _ in _) => apply appends_bind
  | |- appends _ (bind _ _) => apply appends_bind
  | _ => solve [eauto with appends]
  end).

Section records.
Context `{Build} `{Hardware} `{X86Virt}.

Lemma appends_init_counter a periodic ticks L : appends L (ApicImpl.init_counter a periodic ticks).
Proof. unfold ApicImpl.init_counter. appends_tac. Qed.

Lemma init_text_length a b : (length (ApicImpl.init_text a b) <= 73)%nat.
Proof.
  unfold ApicImpl.init_text. rewrite !length_app. pose proof (hex_length a). pose proof (hex_length b).
  change (length (text "apic, lapic initialized at IOAPIC=")) with 34%nat. change (length (text " LAPIC=")) with 7%nat. lia.
Qed.

Lemma appends_apic_init a rsdp off : appends 128 (ApicImpl.init a rsdp off).
Proof.
  unfold ApicImpl.init, PicImpl.disable, ApicImpl.map_apic, ApicImpl.enable_io_apic, ApicImpl.enable_lapic.
  appends_tac. apply appends_print. etrans; [apply inj_le, init_text_length|done].
Qed.

(** The interval timer is programmed for 50 ms. *)
Lemma appends_pit_new : appends 128 (PitImpl.new 50).
Proof.
  assert (E : PitImpl.reload_value 50 = Some 59659) by (vm_compute; reflexivity).
  assert (Hl : length (PitImpl.new_text 50 59659) = 64%nat) by (vm_compute; reflexivity).
  unfold PitImpl.new. rewrite E. intros l. eexists [_; _; _; _]. split; [reflexivity|].
  repeat constructor. unfold short. rewrite Hl. lia.
Qed.
End records.

(** *** The interval timer's count *)

(** The count in whole numbers. *)
Definition reload_ref (ms : Z) : option Z :=
  if 1000 / ms =? 0 then None else Some ((FREQUENCE_HZ / (1000 / ms)) mod 2 ^ 16).

Lemma forallb_seqZ (f : Z -> bool) a n : forallb f (seqZ a n) = true -> forall x, a <= x < a + n -> f x = true.
Proof. intros Hf x Hx. rewrite forallb_forall in Hf. apply Hf. apply list_elem_of_In, elem_of_seqZ. lia. Qed.

Lemma reload_check :
  forallb (fun ms => bool_decide (PitImpl.reload_value ms = reload_ref ms)) (seqZ 1 1200) = true.
Proof. vm_compute. reflexivity. Qed.

Lemma reload_value_ref ms : 1 <= ms <= 1200 -> PitImpl.reload_value ms = reload_ref ms.
Proof. intros Hm. pose proof (forallb_seqZ _ _ _ reload_check ms ltac:(lia)) as E. by apply bool_decide_eq_true in E. Qed.

Lemma bytes_join w : 0 <= w < 2 ^ 16 -> Z.land w 0xFF + 256 * Z.shiftr w 8 = w.
Proof.
  intros Hw. change 0xFF with (Z.ones 8). rewrite Z.land_ones, Z.shiftr_div_pow2 by lia.
  change (2 ^ 8) with 256. pose proof (Z.div_mod w 256). lia.
Qed.

(** Up to 52 ms the count fits its 16 bits. *)
Lemma reload_fits ms : 1 <= ms <= 1000 -> (FREQUENCE_HZ / (1000 / ms) < 2 ^ 16 <-> ms <= 52).
Proof.
  intros Hm. split; intros Hx.
  - destruct (Z.le_gt_cases ms 52) as [|Hg]; [done|]. exfalso.
    assert (1000 / ms < 19) by (apply Z.div_lt_upper_bound; lia).
    assert (1 <= 1000 / ms) by (apply Z.div_le_lower_bound; lia).
    assert (2 ^ 16 <= FREQUENCE_HZ / (1000 / ms)); [|lia]. apply Z.div_le_lower_bound; [lia|]. unfold FREQUENCE_HZ. lia.
  - assert (19 <= 1000 / ms) by (apply Z.div_le_lower_bound; lia).
    apply Z.div_lt_upper_bound; [lia|]. unfold FREQUENCE_HZ. lia.
Qed.

(** ** Reference hardware

    Registers from the page of the I/O APIC on, a machine with an APIC, and a timer that counts down from the value last
    written to it or read from it. *)
Definition count_of (tccr ticr : Z) : Log -> Z :=
  fix go l := match l with
  | [] => 0
  | MmioWrite a v :: l => if a =? ticr then v else go l
  | MmioRead a v :: l => if a =? tccr then v else go l
  | _ :: l => go l
  end.

Definition ref_hardware (off : Z) (step : Z) : Hardware := {|
  is_register a := 0xFEC00000 + off <=? a;
  mmio_answer l a :=
    if a =? register_at (0xFEE00000 + off) LapicTccr then
      Z.max 0 (Z.min (2 ^ 32 - 1) (count_of a (register_at (0xFEE00000 + off) LapicTicr) l - step))
    else 0;
  port_answer _ _ := 0;
  cpuid_1_edx := 0x200;
  cpuid_1_ebx := 0;
  cpuid_4_eax := Z.shiftl 3 26
|}.

Definition ref_x86virt : X86Virt := {|
  virt_addr_new a := if (a <? 2 ^ 47) || (2 ^ 64 - 2 ^ 47 <=? a) && (a <? 2 ^ 64) then Some a else None;
  virt_addr_add a n := if a + n <? 2 ^ 64 then Some (a + n) else None
|}.

Lemma ref_hardware_laws off step : @HardwareLaws (ref_hardware off step).
Proof. split; intros; cbn; [case_Zcmp; lia|lia]. Qed.

Lemma ref_x86virt_laws : @X86VirtLaws ref_x86virt.
Proof.
  split; cbn; unfold canonical.
  - intros a Hc. replace (_ || _) with true by (symmetry; repeat case_Zcmp; done || lia). done.
  - intros a Ha Hc. replace (_ || _) with false by (symmetry; repeat case_Zcmp; done || lia). done.
  - intros a n Hn Hc. by rewrite (proj2 (Z.ltb_lt _ _)) by lia.
Qed.

(** The offset the boot loader is asked for. *)
Lemma ref_apic_mapped step : @apic_mapped (ref_hardware 0xffff800000000000 step) 0xffff800000000000.
Proof. split; cbn; unfold canonical, W64; lia || done. Qed.

(** ** Claims *)

Module Claims.
Section claims.
Context `{Build} `{Hardware} `{X86VirtLaws}.

(** Bringing up the interrupt controllers.  Without an APIC, [Apic::init] panics before it
    touches any device.  With one, and the controllers' pages mapped, [init] followed by
    [init_counter] returns the mapped addresses; the legacy controllers are masked first, the local
    APIC is enabled with its other bits as they were, and the timer entry delivers vector 0x20,
    unmasked, periodic exactly as asked, from the given count.  The value the code names
    "divide by 1" makes the timer divide by 4. *)
Lemma apic_run a rsdp off periodic ticks l :
  (ApicImpl.has_apic = false -> ApicImpl.init a rsdp off l = (l, Panic)) /\
  (ApicImpl.has_apic = true -> apic_mapped off ->
   exists l', (let! a := ApicImpl.init a rsdp off in
               do! ApicImpl.init_counter a periodic ticks in ret a) l = (l', Done (apic_at off)) /\
   exists lvt tdcr svr0 rest,
     last_written (register_at (lapic_addr (apic_at off)) LapicLvtt) l' = Some lvt /\
     lvt_vector lvt = 0x20 /\ lvt_masked lvt = false /\ lvt_periodic lvt = periodic /\
     last_written (register_at (lapic_addr (apic_at off)) LapicTdcr) l' = Some tdcr /\ tdcr_divisor tdcr = 4 /\
     last_written (register_at (lapic_addr (apic_at off)) LapicTicr) l' = Some ticks /\
     last_written (register_at (lapic_addr (apic_at off)) LapicSivr) l' = Some (Z.lor svr0 0x100) /\
     l' = rest ++ [MmioRead (register_at (lapic_addr (apic_at off)) LapicSivr) svr0;
                   MmioWrite (io_apic_addr (apic_at off)) 0x12;
                   PortOut PIC_2_PORT 0xff; PortOut PIC_1_PORT 0xff] ++ l).
Proof.
  split; intros Ha; [by unfold ApicImpl.init; rewrite Ha|]. intros Hm.
  exists (counter_log off periodic ticks (init_log off l)). split.
  - rewrite (bind_done _ _ _ _ _ (apic_init_run a rsdp off l Hm Ha)).
    by rewrite (bind_done _ _ _ _ _ (init_counter_run off periodic ticks _ Hm)).
  - set (svr := register_at (lapic_addr (apic_at off)) LapicSivr).
    exists (Z.lor 0x20 (Z.shiftl (bool_as_usize periodic) 17)), 1, (mmio_answer (MmioWrite (io_apic_addr (apic_at off)) 0x12 ::
      PortOut PIC_2_PORT 0xff :: PortOut PIC_1_PORT 0xff :: l) svr), (take 5 (counter_log off periodic ticks (init_log off l))).
    unfold counter_log, init_log, svr. cbn [last_written]. rewrite !register_eqb. by destruct periodic; split_and!.
Qed.

(** Programming the interval timer.  The [f64] computation of the count agrees with whole-number
    arithmetic for every duration from 1 ms to 1 s, and the count sent, low byte first, is the
    frequency divided by the rate, modulo 2^16: it is not truncated exactly up to 52 ms (the kernel
    uses 50 ms); a duration over one second (up to 1.2 s here) panics before any access.  The bytes
    that [set_mode] sends never set a mode: they are commands that latch the count. *)
Lemma pit_run ms l m :
  (1 <= ms <= 1000 ->
   exists low high, PitImpl.new ms l =
       (PortOut DATA_PORT high :: PortOut DATA_PORT low :: PortOut COMMAND_PORT 0x30 ::
        Print LevelDebug (PitImpl.new_text ms (low + 256 * high)) :: l, Done (mkPit COMMAND_PORT DATA_PORT)) /\
     low + 256 * high = (FREQUENCE_HZ / (1000 / ms)) mod 2 ^ 16 /\ 0 <= low < 256 /\ 0 <= high < 256 /\
     (low + 256 * high = FREQUENCE_HZ / (1000 / ms) <-> ms <= 52)) /\
  (1000 < ms <= 1200 -> PitImpl.new ms l = (l, Panic)) /\
  pit_command_sets_mode 0x30 = true /\ pit_command_sets_mode (mode_byte m) = false.
Proof.
  split_and!; [| |done|by destruct m].
  - intros Hm. unfold PitImpl.new. rewrite reload_value_ref by lia. unfold reload_ref.
    assert (1 <= 1000 / ms) by (apply Z.div_le_lower_bound; lia). rewrite (proj2 (Z.eqb_neq _ _)) by lia.
    set (w := FREQUENCE_HZ / (1000 / ms)). pose proof (Z.mod_pos_bound w (2 ^ 16)) as Hw.
    exists (Z.land (w mod 2 ^ 16) 0xFF), (Z.shiftr (w mod 2 ^ 16) 8). rewrite bytes_join by lia. split; [done|].
    split; [done|]. change 0xFF with (Z.ones 8). rewrite Z.land_ones, Z.shiftr_div_pow2 by lia.
    pose proof (Z.mod_pos_bound (w mod 2 ^ 16) (2 ^ 8)). split; [lia|]. split.
    + split; [apply Z.div_pos; lia|apply Z.div_lt_upper_bound; lia].
    + rewrite <- reload_fits by done. fold w. assert (0 <= w) by (apply Z.div_pos; [unfold FREQUENCE_HZ|]; lia). split.
      * intros E. rewrite <- E. lia.
      * intros E. by apply Z.mod_small.
  - intros Hm. unfold PitImpl.new. rewrite reload_value_ref by lia. unfold reload_ref. by rewrite Z.div_small by lia.
Qed.

(** C37: programming the devices.  Without an APIC, [Apic::init] panics before it touches any device.
    With one, and the controllers' pages mapped, [init] followed by [init_counter] returns the mapped
    addresses; the legacy controllers are masked first, the local APIC is enabled with its other bits
    as they were, and the timer entry delivers vector 0x20, unmasked, periodic exactly as asked, from
    the given count.  The value the code names "divide by 1" makes the timer divide by 4.  The [f64]
    computation of the interval timer's count agrees with whole-number arithmetic for every duration
    from 1 ms to 1 s, and the count sent, low byte first, is the frequency divided by the rate, modulo
    2^16: it is not truncated exactly up to 52 ms (the kernel uses 50 ms); a duration over one second
    (up to 1.2 s here) panics before any access.  The bytes that [set_mode] sends never set a mode:
    they are commands that latch the count. *)
Theorem device_programming a rsdp off periodic ticks ms m l :
  (ApicImpl.has_apic = false -> ApicImpl.init a rsdp off l = (l, Panic)) /\
  (ApicImpl.has_apic = true -> apic_mapped off ->
   exists l', (let! a := ApicImpl.init a rsdp off in
               do! ApicImpl.init_counter a periodic ticks in ret a) l = (l', Done (apic_at off)) /\
   exists lvt tdcr svr0 rest,
     last_written (register_at (lapic_addr (apic_at off)) LapicLvtt) l' = Some lvt /\
     lvt_vector lvt = 0x20 /\ lvt_masked lvt = false /\ lvt_periodic lvt = periodic /\
     last_written (register_at (lapic_addr (apic_at off)) LapicTdcr) l' = Some tdcr /\ tdcr_divisor tdcr = 4 /\
     last_written (register_at (lapic_addr (apic_at off)) LapicTicr) l' = Some ticks /\
     last_written (register_at (lapic_addr (apic_at off)) LapicSivr) l' = Some (Z.lor svr0 0x100) /\
     l' = rest ++ [MmioRead (register_at (lapic_addr (apic_at off)) LapicSivr) svr0;
                   MmioWrite (io_apic_addr (apic_at off)) 0x12;
                   PortOut PIC_2_PORT 0xff; PortOut PIC_1_PORT 0xff] ++ l) /\
  (1 <= ms <= 1000 ->
   exists low high, PitImpl.new ms l =
       (PortOut DATA_PORT high :: PortOut DATA_PORT low :: PortOut COMMAND_PORT 0x30 ::
        Print LevelDebug (PitImpl.new_text ms (low + 256 * high)) :: l, Done (mkPit COMMAND_PORT DATA_PORT)) /\
     low + 256 * high = (FREQUENCE_HZ / (1000 / ms)) mod 2 ^ 16 /\ 0 <= low < 256 /\ 0 <= high < 256 /\
     (low + 256 * high = FREQUENCE_HZ / (1000 / ms) <-> ms <= 52)) /\
  (1000 < ms <= 1200 -> PitImpl.new ms l = (l, Panic)) /\
  pit_command_sets_mode 0x30 = true /\ pit_command_sets_mode (mode_byte m) = false.
Proof. pose proof (apic_run a rsdp off periodic ticks l) as [Ha Hb]. pose proof (pit_run ms l m). tauto. Qed.
End claims.

Lemma device_programming_witness :
  (exists l', (let! a := ApicImpl.init (H := dev) (H0 := ref_hardware 0xffff800000000000 7) (H1 := ref_x86virt) ApicImpl.new 0 0xffff800000000000 in
      do! ApicImpl.init_counter (H0 := ref_hardware 0xffff800000000000 7) a true 1000 in ret a) [] = (l', Done (apic_at 0xffff800000000000))) /\
  exists low high, PitImpl.new 50 [] =
      ([PortOut DATA_PORT high; PortOut DATA_PORT low; PortOut COMMAND_PORT 0x30;
        Print LevelDebug (text "pit frequency is 20.000 Hz (= 50ms) corresponding to 59659 ticks")],
       Done (mkPit COMMAND_PORT DATA_PORT)) /\
    low + 256 * high = 59659.
Proof.
  destruct (device_programming (H := dev) (H0 := ref_hardware 0xffff800000000000 7) (H2 := ref_x86virt_laws)
    ApicImpl.new 0 0xffff800000000000 true 1000 50 RateGenerator []) as (_ & Hi & Hp & _). split.
  - destruct Hi as (l' & E & _); [reflexivity|apply ref_apic_mapped|]. by exists l'.
  - destruct Hp as (low & high & E & V & _); [lia|]. exists low, high.
    assert (Hv : low + 256 * high = 59659) by (rewrite V; vm_compute; reflexivity). rewrite Hv in E. split; [|exact Hv].
    assert (Ht : PitImpl.new_text 50 59659 = text "pit frequency is 20.000 Hz (= 50ms) corresponding to 59659 ticks")
      by (vm_compute; reflexivity).
    rewrite Ht in E. exact E.
Defined.

End Claims.
