(* ===== verification/Tick.v ===== *)
(** The timer: [src/kernel/src/arch/x86_64/tick.rs], but for the call of the scheduler in
    [tick_handler] (file [Boot]).

    The local APIC's timer is calibrated against the interval timer: ten times, the interval timer is
    started for 50 ms, the local timer counts down from [u32::MAX], and the interrupt handler reads
    how far it came.  The samples are computed in [f32]; their mean is the count of the periodic
    timer.  A function on [&mut self] takes the [Tick] and returns the new one. *)
From Stdlib Require Import SpecFloat.
From Stdlib Require String.
From S2P Require Import Prelude Caps Float Format Logger Devices.
Import String.StringSyntax.

(** [DEFAULT_TICKS_HZ], in Hz. *)
Definition DEFAULT_TICKS_HZ : spec_float := f32_of_int 100.
Definition CALIBRATION_SAMPLES : Z := 10.

(** [u32::MAX]. *)
Definition U32_MAX : Z := 2 ^ 32 - 1.

(** [struct Tick]; the duration in milliseconds. *)
Record Tick : Type := mkTick {
  apic : Apic;
  is_calibration : bool;
  tick_count : Z;
  duration : Z;
  lapic_counter : Z;
  calibration : list Z;
  calibration_idx : Z
}.

Definition set_apic (v : Apic) (t : Tick) : Tick :=
  mkTick v (is_calibration t) (tick_count t) (duration t) (lapic_counter t) (calibration t) (calibration_idx t).
Definition set_is_calibration (v : bool) (t : Tick) : Tick :=
  mkTick (apic t) v (tick_count t) (duration t) (lapic_counter t) (calibration t) (calibration_idx t).
Definition set_tick_count (v : Z) (t : Tick) : Tick :=
  mkTick (apic t) (is_calibration t) v (duration t) (lapic_counter t) (calibration t) (calibration_idx t).
Definition set_lapic_counter (v : Z) (t : Tick) : Tick :=
  mkTick (apic t) (is_calibration t) (tick_count t) (duration t) v (calibration t) (calibration_idx t).
Definition set_calibration (v : list Z) (i : Z) (t : Tick) : Tick :=
  mkTick (apic t) (is_calibration t) (tick_count t) (duration t) (lapic_counter t) v i.

Section ops.
Context `{Build} `{Hardware}.

(** [set_ioapic_pit_interrupt]. *)
Definition set_ioapic_pit_interrupt (a : Apic) : M Log unit :=
  let gsi := 2 in
  let vector := 0x20 in
  let dest_apic_id := 0 in
  let low_index := 0x10 + gsi * 2 in
  let high_index := low_index + 1 in
  do! ApicImpl.ioapic_write a high_index (Z.shiftl dest_apic_id 24) in
  ApicImpl.ioapic_write a low_index vector.

(** [Tick::new]. *)
Definition tick_new : Tick :=
  mkTick ApicImpl.new true 0 50 0 (replicate (Z.to_nat CALIBRATION_SAMPLES) 0) 0.

(** [Tick::default]. *)
Definition tick_default : Tick := tick_new.

(** [Tick::init_counters]. *)
Definition init_counters (t : Tick) : M Log Tick :=
  let! pit := PitImpl.new (duration t) in
  do! PitImpl.set_mode pit InterruptOnTerminalCount in
  do! ApicImpl.init_counter (apic t) false U32_MAX in
  let! c := ApicImpl.read_counter (apic t) in
  ret (set_lapic_counter c t).

(** [Tick::calibrate]. *)
Definition calibrate (t : Tick) (a : Apic) : M Log Tick :=
  do! print LevelDebug (text "initializing calibration...") in
  let t := set_calibration (calibration t) 0 (set_apic a (set_is_calibration true t)) in
  do! set_ioapic_pit_interrupt (apic t) in
  init_counters t.

(** The sample of an interval, in [end_calibration]: [cycles as u32]. *)
Definition hz_to_millis : spec_float := f32_mul (f32_div (f32_of_int 1) DEFAULT_TICKS_HZ) (f32_of_int 1000).
Definition sample_cycles (cycles_per_ms : Z) : Z :=
  float_to_uint U32_MAX (f32_mul (f32_of_int cycles_per_ms) hz_to_millis).

(** [self.calibration.iter().sum()]. *)
Fixpoint sum32 (acc : Z) (l : list Z) : M Log Z :=
  match l with
  | [] => ret acc
  | x :: l => let! acc := arith32 (acc + x) in sum32 acc l
  end.

(** The text of the record of [end_calibration]. *)
Definition mean_text (cycles_mean : Z) : list Z :=
  text "lapic timer is set to " ++ dec cycles_mean ++ text " cycles for " ++ display_whole DEFAULT_TICKS_HZ ++ text "Hz".

(** [Tick::end_calibration]. *)
Definition end_calibration (t : Tick) : M Log Tick :=
  let! end_ := ApicImpl.read_counter (apic t) in
  let! interval := arith32 (lapic_counter t - end_) in
  let millis := duration t mod 2 ^ 32 in
  do! assertM (negb (millis =? 0)) in
  let cycles_per_ms := interval / millis in
  let cycles := sample_cycles cycles_per_ms in
  let t := if calibration_idx t <? CALIBRATION_SAMPLES
           then set_calibration (<[Z.to_nat (calibration_idx t) := cycles]> (calibration t)) (calibration_idx t + 1) t
           else t in
  if CALIBRATION_SAMPLES <=? calibration_idx t then
    let! sum := sum32 0 (calibration t) in
    let cycles_mean := sum / CALIBRATION_SAMPLES in
    do! print LevelInfo (mean_text cycles_mean) in
    do! ApicImpl.init_counter (apic t) true cycles_mean in
    ret (set_is_calibration false t)
  else init_counters t.
End ops.

(** ** The sample in whole numbers *)

Definition sample_ref (c : Z) : Z := if c =? 0 then 0 else rne 24 (10 * rne 24 c).

Lemma hz_to_millis_10 : hz_to_millis = f32_of_int 10.
Proof. vm_compute. reflexivity. Qed.

Lemma rne_near n : 0 < n < 2 ^ 32 -> Z.abs (rne 24 n - n) <= 256 /\ 2 ^ 24 * Z.abs (rne 24 n - n) <= n.
Proof. intros Hn. pose proof (rne_error 24 n ltac:(lia)). split; [|done]. lia. Qed.

Lemma sample_bounds c :
  0 <= c < 2 ^ 28 -> 2 ^ 23 * Z.abs (sample_ref c - 10 * c) <= 10 * c + 80 /\ 0 <= sample_ref c < U32_MAX.
Proof.
  intros Hc. unfold sample_ref, U32_MAX. destruct (Z.eqb_spec c 0); [lia|].
  destruct (rne_near c) as [N1 E1]; [lia|]. pose proof (rne_pos 24 c ltac:(lia) ltac:(lia)).
  destruct (rne_near (10 * rne 24 c)) as [N2 E2]; [lia|]. lia.
Qed.

Lemma sample_cycles_ref c : 0 <= c < 2 ^ 28 -> sample_cycles c = sample_ref c.
Proof.
  intros Hc. destruct (sample_bounds c Hc) as [_ Hs]. unfold sample_ref in *. destruct (Z.eqb_spec c 0) as [->|Hne].
  { vm_compute. reflexivity. }
  destruct (rne_near c) as [N1 _]; [lia|]. pose proof (rne_pos 24 c ltac:(lia) ltac:(lia)).
  unfold sample_cycles. rewrite hz_to_millis_10. erewrite holds_int_to_uint.
  2: { eapply (f32_mul_holds (-23) _ _ (rne 24 c) 10); [lia|lia|lia|lia|by apply f32_of_int_holds; lia|].
       change 10 with (rne 24 10) at 2. apply f32_of_int_holds. lia. }
  rewrite (Z.mul_comm (rne 24 c)). lia.
Qed.

Lemma sample_exact c : 0 <= 10 * c < 2 ^ 24 -> sample_ref c = 10 * c.
Proof. intros Hc. unfold sample_ref. destruct (Z.eqb_spec c 0) as [->|]; [done|]. by rewrite !rne_exact by (rewrite ?rne_exact by lia; lia). Qed.

(** ** The calibration *)

(** The interrupts of a calibration, each after some other device accesses. *)
Fixpoint fires `{Build} `{Hardware} (qs : list Log) (t : Tick) : M Log Tick :=
  match qs with
  | [] => ret t
  | q :: qs => do! modify (app q) in let! t := end_calibration t in fires qs t
  end.

(** The record of an interval timer of 50 ms. *)
Definition reload_record : io := Print LevelDebug (PitImpl.new_text 50 59659).

Section calibration.
Context `{Build} `{HardwareLaws} (off : Z) (Hm : apic_mapped off).

Abbreviation reg := (register_at (Devices.lapic_addr (apic_at off))).

(** The count the timer had when it was last set or read. *)
Definition count (l : Log) : Z := count_of (reg LapicTccr) (reg LapicTicr) l.

(** The timer was last set to count down once. *)
Definition one_shot (l : Log) : Prop := exists w, last_written (reg LapicLvtt) l = Some w /\ lvt_periodic w = false.

(** "The counter starts counting down from the initial count": a one-shot counter is never above the
    value last set or read.  Between two accesses it falls by less than [2 ^ 30] (a frequency below
    20 GHz over 50 ms). *)
Definition counts_down : Prop :=
  forall l, one_shot l -> 0 <= count l < 2 ^ 32 -> count l - 2 ^ 30 < mmio_answer l (reg LapicTccr) <= count l.

(** An access that leaves the timer alone. *)
Definition quiet (e : io) : Prop :=
  match e with
  | MmioWrite a _ => a <> reg LapicLvtt /\ a <> reg LapicTicr
  | MmioRead a _ => a <> reg LapicTccr
  | _ => True
  end.

Lemma quiet_app q l : Forall quiet q -> count (q ++ l) = count l /\ (one_shot l -> one_shot (q ++ l)).
Proof.
  unfold one_shot, count. induction 1 as [|e q He _ [IH1 IH2]]; [done|]. cbn [app].
  destruct e as [| |a v|a v|]; cbn [count_of last_written]; try done; cbn in He.
  - destruct He as [H1' H2']. by rewrite !(proj2 (Z.eqb_neq _ _)).
  - by rewrite (proj2 (Z.eqb_neq _ _)).
Qed.

(** The sample of an interval of less than [2 ^ 30] ticks. *)
Definition is_sample (x : Z) : Prop := exists i, 0 <= i < 2 ^ 30 /\ x = sample_ref (i / 50).

Lemma is_sample_bound x : is_sample x -> 0 <= x <= 215000000.
Proof.
  intros (i & Hi & ->).
  assert (Hdv : 0 <= i / 50 <= 21474836) by (split; [apply Z.div_pos; lia|apply Z.lt_succ_r, Z.div_lt_upper_bound; lia]).
  destruct (sample_bounds (i / 50)) as [Hb H0']; lia.
Qed.

(** The state between two interrupts: the samples taken, and the counter as last read. *)
Record calibrating (samples : list Z) (t : Tick) (l : Log) : Prop := {
  cal_apic : apic t = apic_at off;
  cal_on : is_calibration t = true;
  cal_duration : duration t = 50;
  cal_idx : calibration_idx t = Z.of_nat (length samples);
  cal_samples : exists rest, calibration t = samples ++ rest /\ length (calibration t) = 10%nat;
  cal_small : Forall is_sample samples;
  cal_counter : count l = lapic_counter t;
  cal_range : 0 <= lapic_counter t < 2 ^ 32;
  cal_mode : one_shot l
}.

(** The log of [init_counters]. *)
Lemma init_counters_run samples t l :
  counts_down -> apic t = apic_at off -> is_calibration t = true -> duration t = 50 ->
  calibration_idx t = Z.of_nat (length samples) ->
  (exists rest, calibration t = samples ++ rest /\ length (calibration t) = 10%nat) ->
  Forall is_sample samples ->
  exists t' l', init_counters t l = (l', Done t') /\ calibrating samples t' l' /\
    exists es, l' = es ++ l /\ reload_record ∈ es.
Proof.
  intros Hc Ha Hon Hd Hi Hs Hsm. unfold init_counters. rewrite Hd, Ha.
  set (l1 := PortOut 0x40 233 :: PortOut 0x40 11 :: PortOut 0x43 0x30 :: reload_record :: l).
  assert (Ep : PitImpl.new 50 l = (l1, Done (mkPit 0x43 0x40))).
  { unfold PitImpl.new. rewrite reload_value_ref by lia. vm_compute. reflexivity. }
  rewrite (bind_done _ _ _ _ _ Ep), (bind_done _ _ _ (PortOut 0x43 0 :: l1) tt) by reflexivity. clear Ep.
  rewrite (bind_done _ _ _ _ _ (init_counter_run off false U32_MAX _ Hm)).
  set (l2 := counter_log off false U32_MAX (PortOut 0x43 0 :: l1)).
  rewrite (bind_done _ _ _ _ _ (read_counter_run off l2 Hm)).
  assert (Ho : one_shot l2).
  { exists 0x20. unfold l2, counter_log. cbn [last_written]. rewrite !register_eqb. done. }
  pose proof (mmio_answer_u32 l2 (reg LapicTccr)) as Hr.
  eexists _, _. split; [reflexivity|]. split.
  - split; cbn; try done. unfold count. cbn [count_of]. by rewrite Z.eqb_refl.
  - unfold l2, counter_log, l1. eexists [_; _; _; _; _; _; _; _; _]. split; [reflexivity|]. rewrite !elem_of_cons. tauto.
Qed.

Lemma calibrate_run l :
  counts_down -> exists t l', calibrate tick_new (apic_at off) l = (l', Done t) /\ calibrating [] t l'.
Proof.
  intros Hc. unfold calibrate, set_ioapic_pit_interrupt. cbn zeta.
  rewrite (bind_done _ _ _ (Print LevelDebug (text "initializing calibration...") :: l) tt) by done.
  erewrite bind_done; [|rewrite (bind_done _ _ _ _ _ (ioapic_write_run off _ _ _ Hm)); apply (ioapic_write_run off _ _ _ Hm)].
  match goal with |- context [init_counters ?t ?l] => destruct (init_counters_run [] t l Hc) as (t' & l' & E & C & _) end;
    try done; [by eexists|]. by exists t', l'.
Qed.

Lemma sum32_run l acc lg :
  0 <= acc -> Forall is_sample l -> acc + 215000000 * Z.of_nat (length l) < 2 ^ 32 ->
  sum32 acc l lg = (lg, Done (acc + foldr Z.add 0 l)).
Proof.
  revert acc. induction l as [|x l IH]; intros acc Ha Hf Hs; cbn [sum32 foldr length] in *; [by rewrite Z.add_0_r|].
  apply Forall_cons in Hf as [Hx%is_sample_bound Hf]. rewrite (bind_done _ _ _ lg (acc + x)) by (apply arith32_ok; lia).
  rewrite IH by (done || lia). do 2 f_equal. lia.
Qed.

(** The value an interrupt reads and the sample it makes of it. *)
Definition interval (t : Tick) (l : Log) : Z := lapic_counter t - mmio_answer l (reg LapicTccr).

Lemma interrupt_run samples t l q :
  counts_down -> calibrating samples t l -> Forall quiet q -> (length samples < 10)%nat ->
  let x := sample_ref (interval t (q ++ l) / 50) in
  exists t' l', end_calibration t (q ++ l) = (l', Done t') /\
    if decide (length samples < 9)%nat then calibrating (samples ++ [x]) t' l' /\
      exists es, l' = es ++ q ++ l /\ reload_record ∈ es
    else is_calibration t' = false /\ apic t' = apic_at off /\ calibration t' = samples ++ [x] /\
      l' = counter_log off true (foldr Z.add 0 (samples ++ [x]) / 10)
             (Print LevelInfo (mean_text (foldr Z.add 0 (samples ++ [x]) / 10)) :: MmioRead (reg LapicTccr) (mmio_answer (q ++ l) (reg LapicTccr)) :: q ++ l).
Proof.
  intros Hc Hcal Hq Hl x. destruct Hcal as [Ha Hon Hd Hi (rest & Hs & Hlen) Hsm Hcnt Hr Ho].
  destruct (quiet_app q l Hq) as [Eq Oq]. pose proof (Hc (q ++ l) (Oq Ho)) as Hb. rewrite Eq, Hcnt in Hb. specialize (Hb Hr).
  pose proof (mmio_answer_u32 (q ++ l) (reg LapicTccr)) as Hu.
  unfold end_calibration. rewrite Ha, (bind_done _ _ _ _ _ (read_counter_run off (q ++ l) Hm)).
  set (l1 := MmioRead _ _ :: q ++ l). rewrite (bind_done _ _ _ l1 (interval t (q ++ l))) by (apply arith32_ok; unfold interval; lia).
  rewrite Hd. change (50 mod 2 ^ 32) with 50. rewrite (bind_done _ _ _ l1 tt) by reflexivity.
  assert (Hiv : 0 <= interval t (q ++ l) < 2 ^ 30) by (unfold interval; lia).
  assert (Hdv : 0 <= interval t (q ++ l) / 50 <= 21474836) by (split; [apply Z.div_pos; lia|apply Z.lt_succ_r, Z.div_lt_upper_bound; lia]).
  rewrite sample_cycles_ref by lia. fold x.
  assert (Hall : Forall is_sample (samples ++ [x])) by (apply Forall_app; split; [done|apply Forall_singleton; by eexists]).
  rewrite Hi. unfold CALIBRATION_SAMPLES. rewrite (proj2 (Z.ltb_lt _ _)) by lia. rewrite Nat2Z.id.
  assert (Hins : <[length samples := x]> (calibration t) = samples ++ x :: tail rest).
  { rewrite Hs in Hlen |- *. rewrite length_app in Hlen. destruct rest as [|y rest]; [cbn in Hlen; lia|].
    rewrite insert_app_r_alt by done. by rewrite Nat.sub_diag. }
  rewrite Hins. cbn [calibration_idx set_calibration calibration apic]. case_decide as Hn.
  - rewrite (proj2 (Z.leb_gt _ _)) by lia.
    match goal with |- context [init_counters ?t ?l] =>
      destruct (init_counters_run (samples ++ [x]) t l Hc) as (t' & l' & E & C & es & -> & He) end; cbn; try done.
    + rewrite length_app. cbn. lia.
    + exists (tail rest). split; [by rewrite <- app_assoc|]. rewrite Hs in Hlen. rewrite length_app in *. destruct rest; cbn in *; lia.
    + eexists _, _. split; [exact E|]. split; [exact C|]. unfold l1. eexists (es ++ [_]). rewrite <- app_assoc. split; [reflexivity|].
      rewrite elem_of_app. by left.
  - rewrite (proj2 (Z.leb_le _ _)) by lia.
    assert (tail rest = []) as ->.
    { rewrite Hs, length_app in Hlen. apply nil_length_inv. destruct rest; cbn in *; lia. }
    rewrite (bind_done _ _ _ _ _ (sum32_run (samples ++ [x]) 0 l1 ltac:(lia) Hall ltac:(rewrite length_app; cbn; lia))).
    rewrite (bind_done _ _ _ (Print LevelInfo (mean_text (foldr Z.add 0 (samples ++ [x]) / 10)) :: l1) tt) by done.
    rewrite Ha, (bind_done _ _ _ _ _ (init_counter_run off true _ _ Hm)). eexists _, _. split; [reflexivity|]. done.
Qed.

(** Calibration does not count ticks. *)
Lemma init_counters_count t l t' l' : init_counters t l = (l', Done t') -> tick_count t' = tick_count t.
Proof.
  intros (? & pit & _ & E)%bind_inv. apply bind_inv in E as (? & [] & _ & E). apply bind_inv in E as (? & c & _ & E).
  apply bind_inv in E as (? & c' & _ & [= _ <-]). done.
Qed.

Lemma end_calibration_count t l t' l' : end_calibration t l = (l', Done t') -> tick_count t' = tick_count t.
Proof.
  unfold end_calibration. intros (? & e & _ & E)%bind_inv. apply bind_inv in E as (? & i & _ & E).
  apply bind_inv in E as (? & [] & _ & E). cbn zeta in E. destruct (calibration_idx t <? CALIBRATION_SAMPLES).
  all: destruct (CALIBRATION_SAMPLES <=? _); [|by apply init_counters_count in E].
  all: apply bind_inv in E as (? & s & _ & E); apply bind_inv in E as (? & [] & _ & E);
    apply bind_inv in E as (? & r & _ & [= _ <-]); done.
Qed.

(** The records of the calibration are short. *)
Lemma appends_init_counters t : duration t = 50 -> appends 128 (init_counters t).
Proof.
  intros Hd. unfold init_counters. rewrite Hd. apply appends_bind; [apply appends_pit_new|]. intros pit.
  unfold PitImpl.set_mode, ApicImpl.read_counter. appends_tac. apply appends_init_counter.
Qed.

Lemma appends_calibrate t a : duration t = 50 -> appends 128 (calibrate t a).
Proof.
  intros Hd. unfold calibrate, set_ioapic_pit_interrupt, ApicImpl.ioapic_write. appends_tac.
  - apply appends_print. vm_compute. discriminate.
  - intros _. by apply appends_init_counters.
Qed.

Lemma appends_sum32 l acc : appends 128 (sum32 acc l).
Proof. revert acc. induction l as [|x l IH]; intros acc; cbn [sum32]; appends_tac. Qed.

Lemma appends_mean c : appends 128 (print LevelInfo (mean_text c)).
Proof.
  apply appends_print. unfold mean_text. rewrite !length_app. pose proof (dec_length c).
  assert (length (display_whole DEFAULT_TICKS_HZ) = 3%nat) as -> by (vm_compute; reflexivity).
  change (length (text "lapic timer is set to ")) with 22%nat. change (length (text " cycles for ")) with 12%nat.
  change (length (text "Hz")) with 2%nat. lia.
Qed.

Lemma appends_end_calibration t : duration t = 50 -> appends 128 (end_calibration t).
Proof.
  intros Hd. unfold end_calibration, ApicImpl.read_counter.
  repeat (apply appends_bind; [eauto with appends|intros ?]). cbn zeta.
  destruct (calibration_idx t <? CALIBRATION_SAMPLES).
  all: destruct (CALIBRATION_SAMPLES <=? _); [|by apply appends_init_counters].
  all: apply appends_bind; [apply appends_sum32|intros ?]; apply appends_bind; [apply appends_mean|intros ?];
    apply appends_bind; [apply appends_init_counter|intros ?]; apply appends_ret.
Qed.

(** The value read by an interrupt makes a sample. *)
Lemma interval_sample samples t l q :
  counts_down -> calibrating samples t l -> Forall quiet q -> is_sample (sample_ref (interval t (q ++ l) / 50)).
Proof.
  intros Hc Hcal Hq. eexists. split; [|done]. destruct (quiet_app q l Hq) as [Eq Oq].
  pose proof (Hc (q ++ l) (Oq (cal_mode _ _ _ Hcal))) as Hb. rewrite Eq, (cal_counter _ _ _ Hcal) in Hb.
  pose proof (cal_range _ _ _ Hcal). unfold interval. lia.
Qed.

Lemma fires_app qs1 qs2 t l t' l' :
  fires qs1 t l = (l', Done t') -> fires (qs1 ++ qs2) t l = fires qs2 t' l'.
Proof.
  revert t l. induction qs1 as [|q qs1 IH]; intros t l; cbn [fires app]; [by intros [= -> ->]|].
  intros (l1 & [] & E1 & E)%bind_inv. apply bind_inv in E as (l2 & t2 & E2 & E).
  rewrite (bind_done _ _ _ _ _ E1), (bind_done _ _ _ _ _ E2). by apply IH.
Qed.

(** Fewer than ten interrupts leave the calibration going, one sample more for each. *)
Lemma fires_partial qs : forall samples t l,
  counts_down -> calibrating samples t l -> Forall (Forall quiet) qs -> (length samples + length qs < 10)%nat ->
  exists t' l' samples', fires qs t l = (l', Done t') /\ length samples' = (length samples + length qs)%nat /\
    calibrating samples' t' l'.
Proof.
  induction qs as [|q qs IH]; intros samples t l Hc Hcal Hq Hl; cbn [fires length] in *.
  { exists t, l, samples. split_and!; [done|lia|done]. }
  apply Forall_cons in Hq as [Hq Hqs]. rewrite (bind_done _ _ _ (q ++ l) tt) by done.
  destruct (interrupt_run samples t l q Hc Hcal Hq) as (t1 & l1 & E & Hn); [lia|]. rewrite decide_True in Hn by lia.
  destruct Hn as [Hn _]. rewrite (bind_done _ _ _ _ _ E). destruct (IH _ t1 l1 Hc Hn Hqs) as (t2 & l2 & s2 & E2 & L2 & C2).
  - rewrite length_app. cbn. lia.
  - exists t2, l2, s2. split_and!; [done|rewrite L2, length_app; cbn; lia|done].
Qed.

Lemma fires_last samples t l q :
  counts_down -> calibrating samples t l -> Forall quiet q -> length samples = 9%nat ->
  exists t' l', fires [q] t l = (l', Done t') /\ is_calibration t' = false /\ apic t' = apic_at off /\
    length (calibration t') = 10%nat /\ Forall is_sample (calibration t') /\
    last_written (reg LapicTicr) l' = Some (foldr Z.add 0 (calibration t') / 10) /\
    exists w, last_written (reg LapicLvtt) l' = Some w /\ lvt_periodic w = true.
Proof.
  intros Hc Hcal Hq Hl. cbn [fires]. rewrite (bind_done _ _ _ (q ++ l) tt) by done.
  destruct (interrupt_run samples t l q Hc Hcal Hq) as (t1 & l1 & E & Hn); [lia|]. rewrite decide_False in Hn by lia.
  destruct Hn as (Hon & Ha & Hs & ->). rewrite (bind_done _ _ _ _ _ E). eexists _, _. split; [reflexivity|].
  rewrite Hs. split_and!; [done|done|rewrite length_app; cbn; lia| | |].
  - apply Forall_app. split; [apply Hcal|]. apply Forall_singleton. by eapply interval_sample.
  - unfold counter_log. cbn [last_written]. by rewrite Z.eqb_refl.
  - exists 0x20020. unfold counter_log. cbn [last_written]. rewrite !register_eqb. done.
Qed.
End calibration.

(** ** Claims *)

Module Claims.

(** C23: the calibration arithmetic.  For every interval the 32-bit counter can measure, the [f32]
    computation of a sample gives the cycles per millisecond times ten, both rounded to 24
    significant bits (ties to even): exactly ten times the cycles per millisecond up to
    1,677,721 cycles, and otherwise off by a relative error of at most 2^-23 (and ten millionths of
    a cycle); the conversion back to [u32] never saturates. *)
Theorem sample_equivalence interval :
  0 <= interval < 2 ^ 32 ->
  let c := interval / 50 in
  sample_cycles c = sample_ref c /\ (c <= 1677721 -> sample_cycles c = 10 * c) /\
  2 ^ 23 * Z.abs (sample_cycles c - 10 * c) <= 10 * c + 80 /\ 0 <= sample_cycles c < U32_MAX.
Proof.
  intros Hi c. assert (Hc : 0 <= c < 2 ^ 28) by (unfold c; split; [apply Z.div_pos|apply Z.div_lt_upper_bound]; lia).
  rewrite sample_cycles_ref by done. destruct (sample_bounds c Hc) as [Hb Hs]. split_and!; try done; try lia.
  intros Hx. apply sample_exact. lia.
Qed.

Section claims.
Context `{Build} `{HardwareLaws}.

(** The calibration ends after ten timer interrupts.  Started on a local timer that counts down,
    it never panics in either build profile (no counter underflow, no overflow of the sum): after
    fewer than ten interrupts it is still on, with one sample per interrupt; the tenth switches it
    off and starts the timer periodically, with the mean of the ten samples as its count.  Other
    device accesses, such as the end of each interrupt, may come in between. *)
Lemma calibration_completes off l qs :
  apic_mapped off -> counts_down off -> Forall (Forall (quiet off)) qs -> (length qs <= 10)%nat ->
  exists t l', (let! t := calibrate tick_new (apic_at off) in fires qs t) l = (l', Done t) /\
    is_calibration t = (length qs <? 10)%nat /\ apic t = apic_at off /\
    Forall is_sample (take (length qs) (calibration t)) /\ length (calibration t) = 10%nat /\
    (length qs = 10%nat ->
     last_written (register_at (Devices.lapic_addr (apic_at off)) LapicTicr) l' = Some (foldr Z.add 0 (calibration t) / 10) /\
     exists w, last_written (register_at (Devices.lapic_addr (apic_at off)) LapicLvtt) l' = Some w /\ lvt_periodic w = true).
Proof.
  intros Hm Hc Hq Hl. destruct (calibrate_run off Hm l Hc) as (t0 & l0 & E0 & C0). rewrite (bind_done _ _ _ _ _ E0).
  destruct (Nat.ltb_spec (length qs) 10) as [Hlt|Hge].
  - destruct (fires_partial off Hm qs [] t0 l0 Hc C0 Hq) as (t & l1 & s & E & L & C); [cbn; lia|]. exists t, l1.
    cbn in L. destruct (cal_samples _ _ _ _ C) as (rest & Hs & Hlen).
    split_and!; [done|apply C|apply C| |done|intros; lia]. rewrite Hs, <- L, take_app_length. apply C.
  - destruct qs as [|q qs _] using rev_ind; [cbn in Hge; lia|]. rewrite length_app in *. cbn [length] in *.
    apply Forall_app in Hq as [Hq [Hlq _]%Forall_cons].
    destruct (fires_partial off Hm qs [] t0 l0 Hc C0 Hq) as (t & l1 & s & E & L & C); [cbn; lia|].
    destruct (fires_last off Hm s t l1 q Hc C Hlq) as (t2 & l2 & E2 & Hon & Ha & Hlen & Hs & Ht & Hw); [cbn in L; lia|].
    exists t2, l2. rewrite (fires_app qs [q] t0 l0 t l1 E). split_and!; try done. by rewrite take_ge by lia.
Qed.
End claims.

Definition demo_off : Z := 0xffff800000000000.

Lemma demo_counts_down : @counts_down (ref_hardware demo_off 1000000) demo_off.
Proof.
  intros l _ Hl. change (register_at (Devices.lapic_addr (apic_at demo_off)) LapicTccr) with (register_at (0xFEE00000 + demo_off) LapicTccr).
  unfold mmio_answer, ref_hardware. rewrite Z.eqb_refl. change (count_of _ _ l) with (count demo_off l). lia.
Qed.

Lemma sample_equivalence_witness : sample_cycles (100000000 / 50) = 20000000.
Proof.
  destruct (sample_equivalence 100000000) as (E & _); [lia|]. rewrite E. vm_compute. reflexivity.
Defined.

End Claims.
