(* ===== verification/Tlb.v ===== *)
(** Translation caching: [src/kernel/src/arch/x86_64/vspace/tlb.rs] and its use by the operations on
    address spaces.

    The memory-management unit caches translations, per process-context identifier (PCID) or, for
    global pages, for all of them.  The functions of [tlb.rs] are sequences of instructions on the
    control registers and the cache; the instructions are those of the architecture.  The cache is
    filled by the processor at any time from the page tables; the claim on coherence is that the
    kernel's operations never leave it with a translation the page tables no longer have. *)
From S2P Require Import Prelude Errors Caps Tcb PageTable Frames VSpace Mapping.

(** ** The unit *)

(** A cached translation of the page number [te_page] (of its size). *)
Record TlbEntry : Type := mkTlbEntry {
  te_pcid : Z; te_page : Z; te_size : FrameSize; te_frame : Z; te_global : bool
}.

(** CR3, CR4, the scratch register of the [asm!] blocks, and the cache. *)
Record Mmu : Type := mkMmu { cr3 : Z; cr4 : Z; tmp : Z; tlb : list TlbEntry }.

Definition PGE_BIT : Z := 7.
Definition PCIDE_BIT : Z := 17.

Definition pcid_enabled (m : Mmu) : bool := Z.testbit (cr4 m) PCIDE_BIT.

(** The current PCID. *)
Definition current_pcid (m : Mmu) : Z := if pcid_enabled m then Z.land (cr3 m) 0xFFF else 0.

Definition covers (e : TlbEntry) (vaddr : Z) : bool := te_page e =? vaddr / 2 ^ FrameSizeImpl.bits (te_size e).

(** The unit may use the entry. *)
Definition usable (m : Mmu) (e : TlbEntry) : bool := te_global e || (te_pcid e =? current_pcid m).

Inductive MmuInstr : Type :=
| MovFromCr3 | MovToCr3 | MovFromCr4 | MovToCr4 | AndTmp (v : Z) | OrTmp (v : Z)
| Invlpg (a : Z) | Invpcid (ty pcid addr : Z) | Mfence.

Definition keep (f : TlbEntry -> bool) (m : Mmu) : Mmu :=
  mkMmu (cr3 m) (cr4 m) (tmp m) (filter (fun e => f e = true) (tlb m)).

(** One instruction; [None] is a general-protection fault.
    - A move to CR3 drops the translations of the PCID it selects but the global ones (bit 63 asks
      to keep them; it reads as 0).
    - A move to CR4 that changes PGE drops all translations.
    - INVLPG drops the usable translations of an address.
    - INVPCID of type 0 drops one address of a PCID, of type 1 a PCID, global ones excepted, of
      type 2 all translations and of type 3 all but the global ones. *)
Definition mmu_instr (i : MmuInstr) (m : Mmu) : option Mmu :=
  match i with
  | MovFromCr3 => Some (mkMmu (cr3 m) (cr4 m) (cr3 m) (tlb m))
  | MovToCr3 =>
      let m' := mkMmu (Z.land (tmp m) (not64 (bit 63))) (cr4 m) (tmp m) (tlb m) in
      if Z.testbit (tmp m) 63 then Some m'
      else Some (keep (fun e => te_global e || negb (te_pcid e =? current_pcid m')) m')
  | MovFromCr4 => Some (mkMmu (cr3 m) (cr4 m) (cr4 m) (tlb m))
  | MovToCr4 =>
      let m' := mkMmu (cr3 m) (tmp m) (tmp m) (tlb m) in
      if bool_decide (Z.testbit (cr4 m) PGE_BIT = Z.testbit (tmp m) PGE_BIT) then Some m'
      else Some (keep (fun _ => false) m')
  | AndTmp v => Some (mkMmu (cr3 m) (cr4 m) (Z.land (tmp m) v) (tlb m))
  | OrTmp v => Some (mkMmu (cr3 m) (cr4 m) (Z.lor (tmp m) v) (tlb m))
  | Invlpg a => Some (keep (fun e => negb (usable m e && covers e a)) m)
  | Invpcid ty pcid addr =>
      if (0xFFF <? pcid) || (negb (pcid_enabled m) && negb (pcid =? 0)) then None
      else match ty with
           | 0 => Some (keep (fun e => te_global e || negb ((te_pcid e =? pcid) && covers e addr)) m)
           | 1 => Some (keep (fun e => te_global e || negb (te_pcid e =? pcid)) m)
           | 2 => Some (keep (fun _ => false) m)
           | 3 => Some (keep te_global m)
           | _ => None
           end
  | Mfence => Some m
  end.

Fixpoint mmu_run (l : list MmuInstr) (m : Mmu) : option Mmu :=
  match l with [] => Some m | i :: l => m' ← mmu_instr i m; mmu_run l m' end.

(** ** The functions *)

Module TlbImpl.

(** [flush_page]. *)
Definition flush_page (vaddr : Z) : list MmuInstr := [Invlpg vaddr].

(** [flush_all]. *)
Definition flush_all : list MmuInstr := [MovFromCr3; MovToCr3].

(** [invalidate_pcid]: the descriptor holds the PCID and address 0. *)
Definition invalidate_pcid (pcid : Z) : list MmuInstr := [Invpcid 0 pcid 0].

(** [flush_all_non_global]. *)
Definition flush_all_non_global : list MmuInstr :=
  [MovFromCr4; AndTmp (not64 (bit 7)); MovToCr4; OrTmp (bit 7); MovToCr4].

(** [dsb]. *)
Definition dsb : list MmuInstr := [Mfence].
End TlbImpl.

(** ** Coherence with the page tables *)

Section coherence.
Context `{Build} `{X86AddrLaws} `{Bitflags} (OFFSET : Z) (c : CapRef VSpaceObj) (root : Z).

(** Every usable translation is what [walk] answers for the addresses it covers. *)
Definition coherent (s : VState) (m : Mmu) : Prop :=
  forall e, e ∈ tlb m -> usable m e = true ->
  forall v, VSpaceCap.is_canonical v = true -> covers e v = true ->
  exists l, snd (VSpaceCap.walk OFFSET c v s) = Done (Ok (MappedPage (te_frame e) (te_size e) l)).

(** The effect of the calls of [flush_page] that an operation logged, oldest first. *)
Definition flushed (fl : list Z) (m : Mmu) : Mmu := foldr (fun v m => default m (mmu_run (TlbImpl.flush_page v) m)) m fl.

(** What happens to the address space [c] while it is the current one: an operation of the kernel
    with the flushes it performs, or the processor caching a translation it finds, or dropping one. *)
Inductive mmu_step : VState * Mmu -> VState * Mmu -> Prop :=
| mmu_op s m s' fl :
    vspace_step OFFSET c root s s' -> v_flushes s' = fl ++ v_flushes s -> mmu_step (s, m) (s', flushed fl m)
| mmu_fill s m v p f l g :
    VSpaceCap.is_canonical v = true -> VSpaceCap.walk OFFSET c v s = (s, Done (Ok (MappedPage p f l))) ->
    mmu_step (s, m) (s, mkMmu (cr3 m) (cr4 m) (tmp m)
                          (mkTlbEntry (current_pcid m) (v / 2 ^ FrameSizeImpl.bits f) f p g :: tlb m))
| mmu_evict s m f : mmu_step (s, m) (s, keep f m).

(** *** Lemmas *)

Lemma flushed_cons v fl m :
  flushed (v :: fl) m = keep (fun e => negb (usable (flushed fl m) e && covers e v)) (flushed fl m).
Proof. done. Qed.

Lemma usable_keep f m e : usable (keep f m) e = usable m e.
Proof. done. Qed.

Lemma flushed_elem fl m e :
  e ∈ tlb (flushed fl m) -> e ∈ tlb m /\ (usable m e = true -> forall v, v ∈ fl -> covers e v = false).
Proof.
  assert (Hu : forall fl, usable (flushed fl m) e = usable m e) by (intros l; induction l; [done|]; by rewrite flushed_cons, usable_keep).
  induction fl as [|v fl IH]; [split; [done|]; intros _ v Hv; by apply not_elem_of_nil in Hv|].
  rewrite flushed_cons. unfold keep at 1. cbn [tlb]. intros [Hk He]%list_elem_of_filter. destruct (IH He) as [Hm Hc].
  split; [done|]. intros Hus v' [->|Hv']%elem_of_cons; [|by apply Hc].
  rewrite Hu, Hus in Hk. by apply negb_true_iff in Hk.
Qed.

(** [walk] answers the same for all addresses of a mapped page. *)
Lemma walk_same_page s v p f l :
  pt_wf OFFSET (v_mem s) root -> rooted OFFSET s c root -> VSpaceCap.is_canonical v = true ->
  VSpaceCap.walk OFFSET c v s = (s, Done (Ok (MappedPage p f l))) ->
  forall v', VSpaceCap.is_canonical v' = true -> v' / 2 ^ FrameSizeImpl.bits f = v / 2 ^ FrameSizeImpl.bits f ->
  VSpaceCap.walk OFFSET c v' s = (s, Done (Ok (MappedPage p f (4 - Z.of_nat (leaf_depth f))))).
Proof.
  intros Hwf Hr Hc Hw v' Hc' E. destruct (unmap_of_walk OFFSET c root s v p f l Hwf Hr Hc Hw) as [s' Hu].
  destruct (unmap_ok OFFSET s c root v p f s') as (_ & _ & Up & _); [done..|]. by apply Up.
Qed.

(** A mapped page stays mapped over an operation, unless the operation flushes it. *)
Lemma mapped_kept s s' fl v p f l :
  vspace_step OFFSET c root s s' -> pt_wf OFFSET (v_mem s) root -> rooted OFFSET s c root ->
  v_flushes s' = fl ++ v_flushes s -> VSpaceCap.is_canonical v = true ->
  snd (VSpaceCap.walk OFFSET c v s) = Done (Ok (MappedPage p f l)) ->
  snd (VSpaceCap.walk OFFSET c v s') = Done (Ok (MappedPage p f l)) \/
  exists v0, v0 ∈ fl /\ v0 / 2 ^ FrameSizeImpl.bits f = v / 2 ^ FrameSizeImpl.bits f.
Proof.
  intros Hs Hwf Hr Hfl Hc Hw.
  destruct Hs as [g v0 q attr s s' [[]|e] Hp Hm|v0 s s' [[q g]|e] Hu|v0 level t s s' [[]|e] Ht Hb Hf Hi].
  - destruct (map_size_guards _ _ _ _ _ _ _ _ Hm) as (? & ? & ?).
    edestruct (map_size_ok OFFSET g) as (_ & _ & Wp & Wo & _); [exact Hwf|exact Hr|done..|]. left.
    destruct (decide (v / 2 ^ FrameSizeImpl.bits g = v0 / 2 ^ FrameSizeImpl.bits g)) as [E|E]; [|by rewrite Wo].
    by rewrite (proj1 (Wp v Hc E)) in Hw.
  - apply map_size_err with (root := root) in Hm as ->; auto.
  - destruct (VSpaceCap.is_canonical v0) eqn:Hc0; [|unfold VSpaceCap.unmap in Hu; by rewrite Hc0 in Hu].
    edestruct unmap_ok as (_ & _ & Up & Uo & Ef); [exact Hwf|exact Hr|done..|].
    destruct (decide (v / 2 ^ FrameSizeImpl.bits g = v0 / 2 ^ FrameSizeImpl.bits g)) as [E|E]; [|left; by rewrite Uo].
    right. exists v0. rewrite Ef in Hfl. change (v0 :: v_flushes s) with ([v0] ++ v_flushes s) in Hfl.
    apply (inj (fun l => l ++ v_flushes s)) in Hfl as <-.
    rewrite (proj1 (Up v Hc E)) in Hw. cbn in Hw. injection Hw as _ <- _. split; [apply elem_of_cons; by left|by symmetry].
  - apply (unmap_err OFFSET c root) in Hu as ->; auto.
  - destruct (install_table_guards _ _ _ _ _ _ _ Hi) as (? & ? & ?).
    edestruct install_table_ok as (_ & _ & Wp & Wo & _); [exact Hwf|exact Hr|done..|]. left.
    destruct (decide (v / 2 ^ level_bits level = v0 / 2 ^ level_bits level)) as [E|E]; [|by rewrite Wo].
    by rewrite (proj1 (Wp v Hc E)) in Hw.
  - apply (install_table_err OFFSET c root) in Hi as ->; auto.
Qed.

Lemma mmu_step_coherent s m s' m' :
  mmu_step (s, m) (s', m') -> pt_wf OFFSET (v_mem s) root -> rooted OFFSET s c root -> coherent s m ->
  pt_wf OFFSET (v_mem s') root /\ rooted OFFSET s' c root /\ coherent s' m'.
Proof.
  intros Hs Hwf Hr Hco. inversion Hs as [s0 m0 s1 fl Hv Hfl|s0 m0 v p f l g Hc Hw|s0 m0 f]; subst.
  - destruct (step_wf _ _ _ _ _ Hv Hwf Hr) as [Hwf' Hr']. split_and!; [done|done|].
    intros e He Hu v Hc Hcov. apply flushed_elem in He as [He Hno].
    assert (Hu' : usable m e = true).
    { clear -Hu. induction fl as [|x fl IH]; [done|]. by apply IH. }
    destruct (Hco e He Hu' v Hc Hcov) as [l Hw]. exists l.
    destruct (mapped_kept s s' fl v _ _ l Hv Hwf Hr Hfl Hc Hw) as [|(v0 & Hv0 & E)]; [done|].
    specialize (Hno Hu' v0 Hv0). unfold covers in *. apply Z.eqb_neq in Hno. apply Z.eqb_eq in Hcov. congruence.
  - split_and!; [done|done|]. intros e He Hu v' Hc' Hcov. apply elem_of_cons in He as [->|He]; [|by eapply Hco].
    cbn [te_frame te_size]. unfold covers in Hcov. apply Z.eqb_eq in Hcov. cbn in Hcov. 
    exists (4 - Z.of_nat (leaf_depth f)). by rewrite (walk_same_page s' v p f l Hwf Hr Hc Hw v' Hc' (eq_sym Hcov)).
  - split_and!; [done|done|]. intros e He Hu. apply list_elem_of_filter in He as [_ He]. by apply Hco.
Qed.
End coherence.

(** ** The flushing functions *)

Lemma keep_none m : keep (fun _ => false) m = mkMmu (cr3 m) (cr4 m) (tmp m) [].
Proof. unfold keep. f_equal. induction (tlb m); [done|]. by rewrite filter_cons_False. Qed.

Lemma mmu_run_app l1 l2 m : mmu_run (l1 ++ l2) m = mmu_run l1 m ≫= mmu_run l2.
Proof. revert m. induction l1 as [|i l1 IH]; intros m; [done|]. cbn. by destruct (mmu_instr i m) as [m'|]; [apply IH|]. Qed.

Lemma toggle_pge m :
  u64 (cr4 m) -> mmu_run TlbImpl.flush_all_non_global m =
  Some (mkMmu (cr3 m) (Z.lor (cr4 m) (bit 7)) (Z.lor (cr4 m) (bit 7)) []).
Proof.
  intros Hu. assert (Hb : bit 7 = 2 ^ 7) by (apply bit_pow; lia).
  assert (E0 : Z.testbit (Z.land (cr4 m) (not64 (bit 7))) 7 = false).
  { rewrite Z.land_spec, testbit_not64, Hb, Z.pow2_bits_true by lia. by rewrite andb_false_r. }
  assert (E1 : Z.testbit (Z.lor (Z.land (cr4 m) (not64 (bit 7))) (bit 7)) 7 = true).
  { rewrite Z.lor_spec, Hb, Z.pow2_bits_true by lia. by rewrite orb_true_r. }
  assert (El : Z.lor (Z.land (cr4 m) (not64 (bit 7))) (bit 7) = Z.lor (cr4 m) (bit 7)).
  { apply Z.bits_inj'; intros i Hi. rewrite !Z.lor_spec, Z.land_spec, testbit_not64, Hb, Z.pow2_bits_eqb by lia.
    destruct (Z.eqb_spec 7 i); [by rewrite !orb_true_r|]. rewrite !orb_false_r, xorb_false_l.
    destruct (Z.ltb_spec i 64); [by rewrite andb_true_r|]. by rewrite (testbit_u64 _ _ Hu) by lia. }
  assert (Hgo : forall m1, cr4 m1 = Z.land (cr4 m) (not64 (bit 7)) -> tmp m1 = cr4 m1 -> cr3 m1 = cr3 m ->
    mmu_run [OrTmp (bit 7); MovToCr4] m1 = Some (mkMmu (cr3 m) (Z.lor (cr4 m) (bit 7)) (Z.lor (cr4 m) (bit 7)) [])).
  { intros m1 H4 Ht H3. cbn [mmu_run mmu_instr mbind option_bind cr4 tmp cr3 tlb]. unfold PGE_BIT. rewrite Ht, H4, E0, E1.
    rewrite bool_decide_eq_false_2 by done. by rewrite keep_none, El, H3. }
  change TlbImpl.flush_all_non_global with ([MovFromCr4; AndTmp (not64 (bit 7)); MovToCr4] ++ [OrTmp (bit 7); MovToCr4]).
  assert (exists m1, mmu_run [MovFromCr4; AndTmp (not64 (bit 7)); MovToCr4] m = Some m1 /\
    cr4 m1 = Z.land (cr4 m) (not64 (bit 7)) /\ tmp m1 = cr4 m1 /\ cr3 m1 = cr3 m) as (m1 & E & ? & ? & ?).
  { cbn [mmu_run mmu_instr mbind option_bind cr4 tmp]. case_bool_decide; eexists; by split_and!. }
  rewrite mmu_run_app, E. by apply Hgo.
Qed.

Module Claims.
Section claims.
Context `{Build} `{X86AddrLaws} `{Bitflags} (OFFSET : Z) (c : CapRef VSpaceObj) (root : Z).

(** C16: no stale translations.  While an address space is current and its tables start out well
    formed, with no cached translation that contradicts them, no sequence of mapping, unmapping and
    table installation (failing ones included), interleaved with the processor caching and dropping
    translations as it likes, leaves a usable cached translation that the page tables do not have:
    each one that covers an address is the frame and page size that [walk] answers for it, and an
    address that is not mapped has none.  The callers keep frames and tables below 2^52 and install
    only tables that are zeroed, reachable at the offset of physical memory and not yet part of the
    address space ([install_table] checks none of this; with a table in two places, [unmap] would
    flush one of the two addresses only). *)
Theorem tlb_coherent s m s' m' :
  pt_wf OFFSET (v_mem s) root -> rooted OFFSET s c root -> coherent OFFSET c s m ->
  rtc (mmu_step OFFSET c root) (s, m) (s', m') ->
  coherent OFFSET c s' m' /\
  forall v l e, VSpaceCap.is_canonical v = true -> VSpaceCap.walk OFFSET c v s' = (s', Done (Ok (WNotMapped l))) ->
    e ∈ tlb m' -> usable m' e = true -> covers e v = false.
Proof.
  intros Hwf Hr Hco Hs.
  assert (Hi : pt_wf OFFSET (v_mem s') root /\ rooted OFFSET s' c root /\ coherent OFFSET c s' m').
  { remember (s, m) as x eqn:Ex. remember (s', m') as y eqn:Ey. revert s m Ex Hwf Hr Hco.
    induction Hs as [|x z y Hx _ IH]; intros s m ->; [by injection Ey as <- <-|].
    destruct z as [s1 m1]. intros Hwf Hr Hco. destruct (mmu_step_coherent OFFSET c root s m s1 m1 Hx Hwf Hr Hco) as (? & ? & ?).
    by eapply IH. }
  destruct Hi as (_ & _ & Hc). split; [done|]. intros v l e Hv Hw He Hu. destruct (covers e v) eqn:E; [|done].
  destruct (Hc e He Hu v Hv E) as [l' Hw']. by rewrite Hw in Hw'.
Qed.
End claims.

(** C40: what the functions of [tlb.rs] drop, with PCIDs enabled and a PCID below 4096.  [flush_page]
    drops the usable translations of its address.  [flush_all] keeps the global ones and those of other PCIDs, although it is documented to
    flush the entire cache; [flush_all_non_global] drops everything, the global ones too, although it
    is documented to spare them, and leaves PGE set; [invalidate_pcid] drops the translations of one
    page, that of address 0, of the PCID, although it is documented to drop all of them. *)
Theorem tlb_functions m e pcid v :
  u64 (cr4 m) -> 0 <= cr3 m < 2 ^ 63 -> e ∈ tlb m -> 0 <= pcid < 4096 -> pcid_enabled m = true ->
  (exists m', mmu_run (TlbImpl.flush_page v) m = Some m' /\
     (e ∈ tlb m' <-> ~ (usable m e = true /\ covers e v = true))) /\
  (exists m', mmu_run TlbImpl.flush_all m = Some m' /\ cr3 m' = cr3 m /\
     (e ∈ tlb m' <-> te_global e = true \/ te_pcid e <> current_pcid m)) /\
  (exists m', mmu_run TlbImpl.flush_all_non_global m = Some m' /\ tlb m' = [] /\ Z.testbit (cr4 m') PGE_BIT = true) /\
  (exists m', mmu_run (TlbImpl.invalidate_pcid pcid) m = Some m' /\
     (e ∈ tlb m' <-> te_global e = true \/ te_pcid e <> pcid \/ covers e 0 = false)).
Proof.
  intros Hu H3 He Hp Hpe. split_and!.
  - eexists. split; [reflexivity|]. unfold keep. cbn [tlb]. rewrite list_elem_of_filter.
    destruct (usable m e), (covers e v); cbn; naive_solver.
  - assert (E3 : Z.land (cr3 m) (not64 (bit 63)) = cr3 m).
    { apply Z.bits_inj'; intros i Hi. rewrite Z.land_spec, testbit_not64, (bit_pow 63), Z.pow2_bits_eqb by lia.
      destruct (Z.ltb_spec i 63); [|by rewrite (testbit_above (cr3 m) 63) by lia].
      rewrite (proj2 (Z.eqb_neq 63 i)), (proj2 (Z.ltb_lt i 64)) by lia. by rewrite andb_true_r. }
    unfold TlbImpl.flush_all. cbn [mmu_run mmu_instr mbind option_bind tmp]. rewrite (testbit_above (cr3 m) 63) by lia.
    cbn [mbind option_bind]. eexists. split; [reflexivity|]. unfold keep. cbn [tlb cr3]. split; [done|].
    rewrite list_elem_of_filter, orb_true_iff, negb_true_iff, Z.eqb_neq. unfold current_pcid, pcid_enabled.
    cbn [cr3 cr4]. rewrite E3. naive_solver.
  - eexists. rewrite toggle_pge by done. split; [reflexivity|]. cbn [cr4 tlb]. split; [done|]. unfold PGE_BIT.
    rewrite Z.lor_spec, (bit_pow 7), Z.pow2_bits_true by lia. apply orb_true_r.
  - unfold TlbImpl.invalidate_pcid. cbn [mmu_run mmu_instr mbind option_bind].
    rewrite (proj2 (Z.ltb_ge 0xFFF pcid)), Hpe by lia. cbn [orb negb andb mbind option_bind]. eexists. split; [reflexivity|].
    unfold keep. cbn [tlb]. rewrite list_elem_of_filter, orb_true_iff, negb_true_iff, andb_false_iff, Z.eqb_neq. naive_solver.
Qed.

(** A page of the address space 5, cached twice, once as a global page. *)
Definition demo_entry : TlbEntry := mkTlbEntry 5 3 Small 0x7000 false.
Definition demo_mmu : Mmu := mkMmu 0x1005 (Z.shiftl 1 17) 0 [demo_entry; mkTlbEntry 5 4 Small 0x8000 true].

(** A 1 GiB page is mapped at 0x40000000, cached, and unmapped. *)
Definition mapped_state : VState :=
  fst (VSpaceCap.map_1g (H := true) (H0 := ref_x86addr) (H1 := ref_bitflags) 0 demo_cap 0x40000000 0x80000000 VMAttributesImpl.default demo2).
Definition unmapped_state : VState :=
  fst (VSpaceCap.unmap (H := true) (H0 := ref_x86addr) 0 demo_cap 0x40001000 mapped_state).
Definition cached_mmu : Mmu := mkMmu 0x1005 (Z.shiftl 1 17) 0 [mkTlbEntry 5 1 Huge 0x80000000 false].

Lemma tlb_coherent_witness :
  coherent (H := true) (H0 := ref_x86addr) 0 demo_cap unmapped_state (flushed [0x40001000] cached_mmu).
Proof.
  apply (tlb_coherent (H := true) (H1 := ref_x86addr_laws) (H2 := ref_bitflags) 0 demo_cap 0x1000 demo2 (mkMmu 0x1005 (Z.shiftl 1 17) 0 []) unmapped_state
    (flushed [0x40001000] cached_mmu) (proj1 demo2_wf) (proj2 demo2_wf)).
  - intros e He. by apply not_elem_of_nil in He.
  - apply (rtc_l _ _ (mapped_state, mkMmu 0x1005 (Z.shiftl 1 17) 0 [])).
    { change (mapped_state, mkMmu 0x1005 (Z.shiftl 1 17) 0 []) with (mapped_state, flushed [0x40000000] (mkMmu 0x1005 (Z.shiftl 1 17) 0 [])).
      apply (mmu_op 0 demo_cap 0x1000 demo2 _ mapped_state [0x40000000]).
      - apply (step_map 0 demo_cap 0x1000 Huge 0x40000000 0x80000000 VMAttributesImpl.default demo2 mapped_state (Ok tt)); [lia|].
        apply injective_projections; [reflexivity|vm_compute; reflexivity].
      - vm_compute. reflexivity. }
    apply (rtc_l _ _ (mapped_state, cached_mmu)).
    { apply (mmu_fill 0 demo_cap 0x1000 mapped_state (mkMmu 0x1005 (Z.shiftl 1 17) 0 []) 0x40000000 0x80000000 Huge 3 false); [reflexivity|].
      apply injective_projections; [reflexivity|vm_compute; reflexivity]. }
    apply rtc_once, (mmu_op 0 demo_cap 0x1000 mapped_state cached_mmu unmapped_state [0x40001000]).
    + apply (step_unmap 0 demo_cap 0x1000 0x40001000 mapped_state unmapped_state (Ok (0x80000000, Huge))).
      apply injective_projections; [reflexivity|vm_compute; reflexivity].
    + vm_compute. reflexivity.
Defined.

Lemma tlb_functions_witness :
  exists m', mmu_run (TlbImpl.invalidate_pcid 5) demo_mmu = Some m' /\ demo_entry ∈ tlb m'.
Proof.
  destruct (tlb_functions demo_mmu demo_entry 5 0) as (_ & _ & _ & m' & E & Hm);
    [by vm_compute|by vm_compute|by left|lia|reflexivity|]. exists m'. split; [exact E|]. apply Hm. right; right. reflexivity.
Defined.
End Claims.
