(* ===== verification/Segments.v ===== *)
(** Descriptor tables and the registers that select them: [src/kernel/src/arch/x86_64/interrupts/gdt.rs],
    [idt.rs], [mod.rs], [constants/interrupts.rs], and [init_syscall] of [arch/x86_64/syscall.rs].

    The tables are built with the [x86_64] crate; its descriptor table is a class of operations with
    their documented behaviour ([GdtOps]).  The addresses of the stacks are those of statics, placed by
    the linker ([Statics]).  Privileged registers are fields of a record.  The exception handlers log to
    the screen of [Logger]; the timer's handler is in [Boot].  The records that [load] and
    [init_syscall] log are left out. *)
From Stdlib Require Import String.
From S2P Require Import Prelude Caps Console Format Logger Devices Syscall.

(** ** The crate's descriptor table *)

Inductive Descriptor : Type := KernelCode | KernelData | UserCode | UserData | TssSegment.

(** [GlobalDescriptorTable]: [new], and [append] ([None] is a panic). *)
Class GdtOps : Type := {
  gdt : Type;
  gdt_new : gdt;
  gdt_append : Descriptor -> gdt -> option (Z * gdt)
}.

(** The requested privilege level of the selector, and the number of entries. *)
Definition dpl (d : Descriptor) : Z := match d with UserCode | UserData => 3 | _ => 0 end.
Definition slots (d : Descriptor) : Z := match d with TssSegment => 2 | _ => 1 end.

(** "[new]: creates an empty GDT with 8 entries, including the null descriptor"; "[append]: adds the
    given segment descriptor to the GDT, returning the segment selector"; it "panics if the GDT
    doesn't have enough free entries".  [gdt_len] is the number of entries in use and [gdt_at] the
    descriptor that an index selects. *)
Class GdtLaws `{GdtOps} : Type := {
  gdt_len : gdt -> Z;
  gdt_at : gdt -> Z -> option Descriptor;
  gdt_new_len : gdt_len gdt_new = 1;
  gdt_append_ok : forall d g, gdt_len g + slots d <= 8 ->
    exists g', gdt_append d g = Some (8 * gdt_len g + dpl d, g') /\ gdt_len g' = gdt_len g + slots d /\
      gdt_at g' (gdt_len g) = Some d /\ (forall i, i < gdt_len g -> gdt_at g' i = gdt_at g i);
  gdt_append_full : forall d g, 8 < gdt_len g + slots d -> gdt_append d g = None
}.

(** ** Interrupt stacks *)

(** [enum IstIndex]. *)
Inductive IstIndex : Type := IstDoubleFault | IstNonMaskableInterrupt | IstMachineCheck.

Definition ist_number (i : IstIndex) : Z :=
  match i with IstDoubleFault => 0 | IstNonMaskableInterrupt => 1 | IstMachineCheck => 2 end.

(** [enum IdtIndex]. *)
Inductive IdtIndex : Type := Timer.
Definition idt_number (i : IdtIndex) : Z := match i with Timer => 0x20 end.

Definition STACK_SIZE : Z := 4096 * 2.

(** The four [static mut STACK]. *)
Inductive StackId : Type := DoubleFaultStack | NmiStack | MachineCheckStack | PrivilegeStack.

#[export] Instance StackId_eq_dec : EqDecision StackId.
Proof. solve_decision. Defined.

Class Statics : Type := { stack_addr : StackId -> Z; stub_addr : Z }.

(** Statics are objects of their own, in canonical memory. *)
Class StaticsLaws `{Statics} : Prop := {
  stacks_apart : forall i j, i <> j -> stack_addr i + STACK_SIZE <= stack_addr j \/ stack_addr j + STACK_SIZE <= stack_addr i;
  stacks_canonical : forall i, canonical (stack_addr i + STACK_SIZE);
  stub_canonical : canonical stub_addr
}.



(** ** Segments *)

(** [struct Selectors]. *)
Record Selectors : Type := mkSelectors {
  code_selector : Z; data_selector : Z; user_code_selector : Z; user_data_selector : Z; tss_selector : Z
}.

(** The [Lazy] initialiser of [GDT]. *)
Definition GDT `{GdtOps} {S} : M S (gdt * Selectors) :=
  let! x := unwrap_or_panic (gdt_append KernelCode gdt_new) in
  let '(code_selector, g) := x in
  let! x := unwrap_or_panic (gdt_append KernelData g) in
  let '(data_selector, g) := x in
  let! x := unwrap_or_panic (gdt_append UserCode g) in
  let '(user_code, g) := x in
  let! x := unwrap_or_panic (gdt_append UserData g) in
  let '(user_data, g) := x in
  let! x := unwrap_or_panic (gdt_append TssSegment g) in
  let '(tss_selector, g) := x in
  ret (g, mkSelectors code_selector data_selector user_code user_data tss_selector).

(** ** Interrupt vectors *)

(** The handlers of [idt.rs]. *)
Inductive Handler : Type :=
| BreakpointHandler | NmiHandler | DoubleFaultHandler | PageFaultHandler | MachineCheckHandler | TimerHandler.

(** A gate: its handler and, if set, the interrupt stack. *)
Record Gate : Type := mkGate { gate_handler : Handler; gate_stack : option Z }.

(** The [lazy_static] initialiser of [IDT]: vectors 3, 2, 8, 14 and 18 are the exceptions that the
    crate's fields name. *)
Definition IDT : gmap Z Gate :=
  let idt := <[3 := mkGate BreakpointHandler None]> ∅ in
  let idt := <[2 := mkGate NmiHandler (Some (ist_number IstNonMaskableInterrupt))]> idt in
  let idt := <[8 := mkGate DoubleFaultHandler (Some (ist_number IstDoubleFault))]> idt in
  let idt := <[14 := mkGate PageFaultHandler None]> idt in
  let idt := <[18 := mkGate MachineCheckHandler (Some (ist_number IstMachineCheck))]> idt in
  <[idt_number Timer := mkGate TimerHandler None]> idt.


(** ** Loading *)

(** The registers that [load] and [init_syscall] write. *)
Record SysRegs `{GdtOps} : Type := mkSysRegs {
  gdtr : option gdt;
  idtr : option (gmap Z Gate);
  CS : Z; SS : Z; DS : Z; ES : Z; FS : Z; GS : Z; TR : Z;
  interrupts_on : bool;
  STAR : Z; LSTAR : Z; SFMASK : Z; EFER : Z
}.

(** After a reset: no table loaded, interrupts off. *)
Definition reset_regs `{GdtOps} : SysRegs := mkSysRegs _ None None 0 0 0 0 0 0 0 false 0 0 0 0.

Section load.
Context `{GdtOps} `{X86Virt} `{Statics}.

(** [gdt::load]. *)
Definition gdt_load : M SysRegs unit :=
  let! x := GDT in
  let '(g, s) := x in
  modify (fun r => mkSysRegs _ (Some g) (idtr r) (code_selector s) (data_selector s) (data_selector s)
    (data_selector s) (data_selector s) (data_selector s) (tss_selector s) (interrupts_on r)
    (STAR r) (LSTAR r) (SFMASK r) (EFER r)).

(** [interrupts::load], up to its record ([interrupts_load_here] of [Boot]). *)
Definition interrupts_load : M SysRegs unit :=
  do! gdt_load in
  modify (fun r => mkSysRegs _ (gdtr r) (Some IDT) (CS r) (SS r) (DS r) (ES r) (FS r) (GS r) (TR r) true
    (STAR r) (LSTAR r) (SFMASK r) (EFER r)).

(** [Star::write_raw]: the selector bases of [sysret] and [syscall]. *)
Definition star_word (sysret syscall : Z) : Z := Z.lor (Z.shiftl sysret 48) (Z.shiftl syscall 32).

Definition set_star (v : Z) (r : SysRegs) : SysRegs :=
  mkSysRegs _ (gdtr r) (idtr r) (CS r) (SS r) (DS r) (ES r) (FS r) (GS r) (TR r) (interrupts_on r) v (LSTAR r) (SFMASK r) (EFER r).
Definition set_lstar (v : Z) (r : SysRegs) : SysRegs :=
  mkSysRegs _ (gdtr r) (idtr r) (CS r) (SS r) (DS r) (ES r) (FS r) (GS r) (TR r) (interrupts_on r) (STAR r) v (SFMASK r) (EFER r).
Definition set_sfmask (v : Z) (r : SysRegs) : SysRegs :=
  mkSysRegs _ (gdtr r) (idtr r) (CS r) (SS r) (DS r) (ES r) (FS r) (GS r) (TR r) (interrupts_on r) (STAR r) (LSTAR r) v (EFER r).
Definition set_efer (v : Z) (r : SysRegs) : SysRegs :=
  mkSysRegs _ (gdtr r) (idtr r) (CS r) (SS r) (DS r) (ES r) (FS r) (GS r) (TR r) (interrupts_on r) (STAR r) (LSTAR r) (SFMASK r) v.

(** [init_syscall], but for its record ([init_syscall_here] of [Boot]). *)
Definition init_syscall : M SysRegs unit :=
  let! x := GDT in
  let '(_, s) := x in
  let user_cs := user_code_selector s in
  let kernel_cs := code_selector s in
  do! modify (set_star (star_word user_cs kernel_cs)) in
  let! handler := unwrap_or_panic (virt_addr_new stub_addr) in
  do! modify (set_lstar handler) in
  do! modify (set_sfmask (Z.lor (Z.shiftl 1 9) (Z.shiftl 1 10))) in
  let! efer := gets EFER in
  modify (set_efer (Z.lor (Z.lor (Z.lor efer (Z.shiftl 1 0)) (Z.shiftl 1 8)) (Z.shiftl 1 10))).
End load.

(** The selectors that the [syscall] instruction loads from STAR. *)
Definition syscall_cs (star : Z) : Z := Z.land (Z.shiftr star 32) 0xFFFC.
Definition syscall_ss (star : Z) : Z := Z.land (Z.shiftr star 32) 0xFFFF + 8.

(** ** Lemmas *)

Section lemmas.
Context `{GdtLaws}.

(** The table as built: kernel code and data, user code and data, task state, from index 1 on. *)
Definition standard_gdt (g : gdt) : Prop :=
  gdt_at g 1 = Some KernelCode /\ gdt_at g 2 = Some KernelData /\ gdt_at g 3 = Some UserCode /\
  gdt_at g 4 = Some UserData /\ gdt_at g 5 = Some TssSegment.

Definition standard_selectors : Selectors := mkSelectors 0x08 0x10 0x1b 0x23 0x28.

Lemma append_at d g n :
  gdt_len g = n -> n + slots d <= 8 ->
  exists g', gdt_append d g = Some (8 * n + dpl d, g') /\ gdt_len g' = n + slots d /\ gdt_at g' n = Some d /\
    (forall i, i < n -> gdt_at g' i = gdt_at g i).
Proof. intros <-. apply gdt_append_ok. Qed.

Lemma GDT_run : exists g, standard_gdt g /\ forall S (s : S), GDT s = (s, Done (g, standard_selectors)).
Proof.
  destruct (append_at KernelCode gdt_new 1 gdt_new_len) as (g1 & E1 & L1 & A1 & _); [done|].
  destruct (append_at KernelData g1 2 L1) as (g2 & E2 & L2 & A2 & K2); [done|].
  destruct (append_at UserCode g2 3 L2) as (g3 & E3 & L3 & A3 & K3); [done|].
  destruct (append_at UserData g3 4 L3) as (g4 & E4 & L4 & A4 & K4); [done|].
  destruct (append_at TssSegment g4 5 L4) as (g5 & E5 & L5 & A5 & K5); [done|].
  exists g5. split.
  - unfold standard_gdt. rewrite K5, K4, K3, K2, A1 by lia. rewrite K5, K4, K3, A2 by lia. rewrite K5, K4, A3 by lia.
    rewrite K5, A4 by lia. by rewrite A5.
  - intros S s. unfold GDT, bind. rewrite E1. cbn. rewrite E2. cbn. rewrite E3. cbn. rewrite E4. cbn. by rewrite E5.
Qed.

Context `{X86VirtLaws} `{StaticsLaws}.



Lemma gdt_load_run r :
  exists g, standard_gdt g /\ gdt_load r =
    (mkSysRegs _ (Some g) (idtr r) 0x08 0x10 0x10 0x10 0x10 0x10 0x28 (interrupts_on r) (STAR r) (LSTAR r) (SFMASK r) (EFER r), Done tt).
Proof.
  destruct GDT_run as (g & Hg & E). exists g. split; [done|]. unfold gdt_load. by rewrite (bind_done _ _ _ _ _ (E _ r)).
Qed.

Lemma interrupts_load_run r :
  exists g, standard_gdt g /\ interrupts_load r =
    (mkSysRegs _ (Some g) (Some IDT) 0x08 0x10 0x10 0x10 0x10 0x10 0x28 true (STAR r) (LSTAR r) (SFMASK r) (EFER r), Done tt).
Proof.
  destruct (gdt_load_run r) as (g & Hg & E). exists g. split; [done|]. unfold interrupts_load.
  by rewrite (bind_done _ _ _ _ _ E).
Qed.

Lemma init_syscall_run r :
  init_syscall r = (set_efer (Z.lor (Z.lor (Z.lor (EFER r) (Z.shiftl 1 0)) (Z.shiftl 1 8)) (Z.shiftl 1 10))
    (set_sfmask 0x600 (set_lstar stub_addr (set_star 0x001b000800000000 r))), Done tt).
Proof.
  destruct GDT_run as (g & _ & E). unfold init_syscall. rewrite (bind_done _ _ _ _ _ (E _ r)).
  rewrite (bind_done _ _ _ (set_star 0x001b000800000000 r) tt) by done.
  by rewrite virt_addr_new_ok by apply stub_canonical.
Qed.
End lemmas.

(** ** A reference table and placement *)

Definition ref_gdt : GdtOps := {|
  gdt := list (option Descriptor);
  gdt_new := [None];
  gdt_append d g :=
    if Z.of_nat (length g) + slots d <=? 8
    then Some (8 * Z.of_nat (length g) + dpl d, g ++ Some d :: replicate (Z.to_nat (slots d - 1)) None) else None
|}.

Definition ref_gdt_laws : @GdtLaws ref_gdt.
Proof.
  refine (@Build_GdtLaws ref_gdt (fun g => Z.of_nat (length g)) (fun g i => if 0 <=? i then g !! Z.to_nat i ≫= id else None) _ _ _); cbn.
  - done.
  - intros d g Hl. rewrite (proj2 (Z.leb_le _ _)) by done. eexists. split; [reflexivity|]. split_and!.
    + rewrite length_app. cbn [length]. rewrite length_replicate. destruct d; cbn; lia.
    + rewrite (proj2 (Z.leb_le _ _)) by lia. rewrite Nat2Z.id. by rewrite list_lookup_middle.
    + intros i Hi. destruct (Z.leb_spec 0 i); [|done]. by rewrite lookup_app_l by lia.
  - intros d g Hl. by rewrite (proj2 (Z.leb_gt _ _)).
Defined.

Definition ref_statics : Statics := {|
  stack_addr i := match i with DoubleFaultStack => 0x10000 | NmiStack => 0x20000 | MachineCheckStack => 0x30000 | PrivilegeStack => 0x40000 end;
  stub_addr := 0x50000
|}.

Lemma ref_statics_laws : @StaticsLaws ref_statics.
Proof.
  split; unfold canonical, STACK_SIZE.
  - intros [] []; cbn; try lia; done.
  - intros []; cbn; lia.
  - cbn. lia.
Qed.

(** ** Claims *)

(** The descriptor that a selector selects, at its privilege level. *)
Definition selects `{GdtLaws} (g : gdt) (sel : Z) (d : Descriptor) : Prop :=
  gdt_at g (sel / 8) = Some d /\ sel mod 8 = dpl d.





Module Claims.
Section claims.
Context `{Build} `{FontLaws} `{SpinLaws} `{LogFacadeLaws} `{GdtLaws} `{X86VirtLaws} `{StaticsLaws}.



(** C31: segments.  [interrupts::load] and then [init_syscall] return without a panic.  Every segment
    register and the task register select the descriptor they are meant to, the gates are loaded and
    interrupts are on.  A [syscall] instruction enters the stub with the kernel's segments and with
    interrupts and the direction flag masked, and [sysretq] loads the user's data segment; the code
    segment that it loads is not the user's: 16 above the base in STAR lies the task state segment. *)
Theorem segments_selected (r : SysRegs) :
  exists g r', (do! interrupts_load in init_syscall) r = (r', Done tt) /\
    gdtr r' = Some g /\ idtr r' = Some IDT /\ interrupts_on r' = true /\
    selects g (CS r') KernelCode /\ selects g (TR r') TssSegment /\
    (forall s, s ∈ [SS r'; DS r'; ES r'; FS r'; GS r'] -> selects g s KernelData) /\
    LSTAR r' = stub_addr /\ SFMASK r' = 2 ^ 9 + 2 ^ 10 /\ (forall b, b ∈ [0; 8; 10] -> Z.testbit (EFER r') b = true) /\
    selects g (syscall_cs (STAR r')) KernelCode /\ selects g (syscall_ss (STAR r')) KernelData /\
    selects g (sysret_ss (STAR r')) UserData /\
    gdt_at g (sysret_cs (STAR r') / 8) = Some TssSegment.
Proof.
  destruct (interrupts_load_run r) as (g & (A1 & A2 & A3 & A4 & A5) & E). exists g. eexists.
  split; [rewrite (bind_done _ _ _ _ _ E); apply init_syscall_run|]. cbn [gdtr idtr interrupts_on CS SS DS ES FS GS TR STAR LSTAR SFMASK EFER
    set_efer set_sfmask set_lstar set_star].
  split_and!; try done.
  - intros s Hs. rewrite !elem_of_cons, elem_of_nil in Hs. by destruct Hs as [->|[->|[->|[->|[->|[]]]]]].
  - intros b Hb. rewrite !elem_of_cons, elem_of_nil in Hb. rewrite !Z.lor_spec.
    by destruct Hb as [->|[->|[->|[]]]]; rewrite ?orb_true_r.
Qed.

End claims.

Lemma segments_selected_witness :
  exists g r', (do! interrupts_load (H := ref_gdt) in init_syscall (H := ref_gdt) (H0 := ref_x86virt) (H1 := ref_statics)) reset_regs = (r', Done tt) /\
    gdtr r' = Some g /\ STAR r' = 0x001b000800000000.
Proof.
  destruct (segments_selected (H7 := ref_gdt_laws) (H9 := ref_x86virt_laws) (H11 := ref_statics_laws) reset_regs) as (g & r' & E & Hg & _).
  exists g, r'. split; [exact E|]. split; [exact Hg|]. assert (E' := E). vm_compute in E'. by injection E' as <-.
Defined.

Import RefFont.

End Claims.
