(* ===== verification/Records.v ===== *)
(** The log records of the drivers, on the screen.

    A driver of [Devices] or [Tick] leaves the records it prints in its log of accesses.  [drive] runs a
    driver on the devices and the screen together: the accesses and the records happen in the order of
    the log, and what follows a record happens only if the record returns. *)
From S2P Require Import Prelude Caps Console Format Logger Devices.

Section records.
Context `{Build} `{Font} `{Spin} `{LogFacade}.

(** One access of a driver, or one record of the [log] crate. *)
Definition play_one (n : nat) (e : io) : M (Log * Screen) unit :=
  do! modify (fun s => (e :: s.1, s.2)) in
  match e with
  | Print level args => zoom snd (fun v s => (s.1, v)) (log_record n level args)
  | _ => ret tt
  end.

Fixpoint play (n : nat) (es : list io) : M (Log * Screen) unit :=
  match es with
  | [] => ret tt
  | e :: es => do! play_one n e in play n es
  end.

(** A driver with its records carried out; the log has the latest access first. *)
Definition drive {A} (n : nat) (m : M Log A) : M (Log * Screen) A := fun s =>
  let '(l', o) := m s.1 in
  (do! play n (rev (take (length l' - length s.1) l')) in lift o) s.
End records.

(** ** Lemmas *)

Section lemmas.
Context `{Build} `{FontLaws} `{SpinLaws} `{LogFacadeLaws}.

Lemma play_app n es1 es2 s : play n (es1 ++ es2) s = (do! play n es1 in play n es2) s.
Proof.
  revert s. induction es1 as [|e es1 IH]; intros s; [done|]. cbn [app play]. unfold bind in *.
  destruct (play_one n e s) as [s' [[]| | |]]; [|done..]. apply IH.
Qed.

(** The screen takes the records of a log of short ones. *)
Lemma play_run L n es l s :
  loggable L s -> Forall (short L) es ->
  exists s', play n es (l, s) = ((rev es ++ l, s'), Done tt) /\ loggable L s' /\ FACADE s' = FACADE s.
Proof.
  intros Hs Hf. revert l s Hs. induction Hf as [|e es He _ IH]; intros l s Hs; cbn [play]; [by exists s|].
  assert (exists s1, play_one n e (l, s) = ((e :: l, s1), Done tt) /\ loggable L s1 /\ FACADE s1 = FACADE s) as (s1 & E1 & L1 & F1).
  { destruct e as [| | | |level args]; try (by exists s). destruct (log_record_returns L n level args s Hs He) as (s1 & E1 & L1 & F1).
    exists s1. split; [|done]. unfold play_one. rewrite (bind_done _ _ _ (Print level args :: l, s) tt) by done.
    unfold zoom. cbn. by rewrite E1. }
  rewrite (bind_done _ _ _ _ _ E1). destruct (IH (e :: l) s1 L1) as (s2 & E2 & L2 & F2). exists s2. rewrite E2. cbn [rev].
  rewrite <- app_assoc. split_and!; [done|done|congruence].
Qed.

(** Nothing but accesses. *)
Lemma play_silent n es l s : Forall (fun e => forall lv args, e <> Print lv args) es -> play n es (l, s) = ((rev es ++ l, s), Done tt).
Proof.
  intros Hf. revert l. induction Hf as [|e es He _ IH]; intros l; cbn [play]; [done|].
  rewrite (bind_done _ _ _ (e :: l, s) tt) by (destruct e; try done; by destruct (He level args)).
  rewrite IH. cbn [rev]. by rewrite <- app_assoc.
Qed.

(** With the guard of the logger out, the first record of a level that is on waits for ever. *)
Lemma play_busy n es l s lv args :
  busy s -> Print lv args ∈ es -> log_enabled (FACADE s) lv = true -> exists l' s', play n es (l, s) = ((l', s'), NoFuel).
Proof.
  intros Hb Hin He. revert l. induction es as [|e es IH]; intros l; [by apply not_elem_of_nil in Hin|]. cbn [play].
  assert (Hq : play_one n e (l, s) = ((e :: l, s), Done tt) \/ exists s', play_one n e (l, s) = ((e :: l, s'), NoFuel)).
  { destruct e as [| | | |lv' args']; try (by left). unfold play_one, bind, zoom. cbn.
    destruct (log_enabled (FACADE s) lv') eqn:E; [|left; by rewrite log_record_quiet].
    destruct (log_record_busy n s lv' args' Hb E) as [s' ->]. right. by eexists. }
  destruct Hq as [Eq|[s' Eq]]; [|exists (e :: l), s'; unfold bind; by rewrite Eq].
  rewrite (bind_done _ _ _ _ _ Eq). apply elem_of_cons in Hin as [<-|Hin]; [|by apply IH].
  destruct (log_record_busy n s lv args Hb He) as [s' E]. unfold play_one, bind, zoom in Eq. cbn in Eq. by rewrite E in Eq.
Qed.

Lemma drive_play {A} n (m : M Log A) l s es o :
  m l = (es ++ l, o) -> drive n m (l, s) = (do! play n (rev es) in lift o) (l, s).
Proof.
  intros E. unfold drive. cbn [fst]. rewrite E. rewrite length_app, Nat.add_sub, take_app_length. done.
Qed.

(** A driver runs as it does without its records. *)
Lemma drive_run {A} L n (m : M Log A) l s l' o :
  appends L m -> loggable L s -> m l = (l', o) ->
  exists s', drive n m (l, s) = ((l', s'), o) /\ loggable L s' /\ FACADE s' = FACADE s.
Proof.
  intros Ha Hs E. destruct (Ha l) as (es & El & Hf). rewrite E in El. cbn in El. subst l'.
  destruct (play_run L n (rev es) l s Hs) as (s' & Ep & Ls & F); [by apply Forall_rev|]. rewrite rev_involutive in Ep.
  exists s'. rewrite (drive_play n m l s es o E), (bind_done _ _ _ _ _ Ep). done.
Qed.

Lemma drive_silent {A} n (m : M Log A) l s es o :
  m l = (es ++ l, o) -> Forall (fun e => forall lv args, e <> Print lv args) es -> drive n m (l, s) = ((es ++ l, s), o).
Proof.
  intros E Hf. rewrite (drive_play n m l s es o E). erewrite bind_done by (by apply play_silent, Forall_rev).
  by rewrite rev_involutive.
Qed.

Lemma drive_busy {A} n (m : M Log A) l s es o lv args :
  m l = (es ++ l, o) -> busy s -> Print lv args ∈ es -> log_enabled (FACADE s) lv = true ->
  exists p, drive n m (l, s) = (p, NoFuel).
Proof.
  intros E Hb Hin He. rewrite (drive_play n m l s es o E).
  destruct (play_busy n (rev es) l s lv args Hb) as (l' & s' & Ep); [by apply list_elem_of_In, in_rev; rewrite rev_involutive; apply list_elem_of_In|done|].
  unfold bind. rewrite Ep. by eexists.
Qed.
End lemmas.
