(* ===== verification/Boot.v ===== *)
(** The boot sequence and the timer interrupt: [main] and its configuration of [src/kernel/src/main.rs],
    [tick_handler] of [arch/x86_64/tick.rs], [timer_handler] of [arch/x86_64/interrupts/idt.rs], and
    [init_scheduler] of [scheduler/mod.rs] in place.

    The state is the whole kernel: the screen, the devices, the privileged registers, the two static
    locks, the scheduler's cell and the memory of threads.  The functions print their records on the
    screen, those of the drivers included ([Records]).  [main] runs here without interruption up to the
    scheduler's loop, and interrupts are handled one after the other; the file [Races] lets them arrive
    between the statements of [main]. *)
From Stdlib Require String.
From S2P Require Import Prelude Caps Tcb Scheduler Sync Console Format Logger Devices Tick Segments Records.
Import String.StringSyntax.

(** ** Configuration *)

Definition KERNEL_STACK_GUARD : Z := 0xffffffff70000000.
Definition BOOT_INFO_ADDR : Z := 0xffffffff40000000.
Definition PHYS_MEM_OFFSET : Z := 0xffff800000000000.
Definition RECURSIVE_P4_ADDR : Z := 0xffffff0000000000.
Definition KERNEL_STACK_SIZE : Z := 128 * 1024.

(** [Mapping] of the [bootloader_api] crate, and the settings that the kernel makes. *)
Inductive Mapping : Type := Dynamic | FixedAddress (a : Z).

Record BootloaderConfig : Type := mkConfig {
  aslr : bool;
  kernel_stack : Mapping;
  kernel_stack_size : Z;
  boot_info : Mapping;
  physical_memory : option Mapping;
  page_table_recursive : option Mapping
}.

(** [BOOTLOADER_CONFIG], whatever the defaults [d]: every setting is overridden. *)
Definition BOOTLOADER_CONFIG (d : BootloaderConfig) : BootloaderConfig :=
  let config := mkConfig false (kernel_stack d) (kernel_stack_size d) (boot_info d) (physical_memory d) (page_table_recursive d) in
  let config := mkConfig (aslr config) (FixedAddress KERNEL_STACK_GUARD) (kernel_stack_size config) (boot_info config)
    (physical_memory config) (page_table_recursive config) in
  let config := mkConfig (aslr config) (kernel_stack config) KERNEL_STACK_SIZE (boot_info config)
    (physical_memory config) (page_table_recursive config) in
  let config := mkConfig (aslr config) (kernel_stack config) (kernel_stack_size config) (FixedAddress BOOT_INFO_ADDR)
    (physical_memory config) (page_table_recursive config) in
  let config := mkConfig (aslr config) (kernel_stack config) (kernel_stack_size config) (boot_info config)
    (Some (FixedAddress PHYS_MEM_OFFSET)) (page_table_recursive config) in
  mkConfig (aslr config) (kernel_stack config) (kernel_stack_size config) (boot_info config)
    (physical_memory config) (Some (FixedAddress RECURSIVE_P4_ADDR)).

(** The fields of the crate's [BootInfo] that [main] reads. *)
Record BootInfo : Type := mkBootInfo {
  bi_framebuffer : option (list Z * FrameBufferInfo);
  bi_physical_memory_offset : option Z;
  bi_rsdp_addr : option Z
}.

(** ** The kernel *)

Section kernel.
Context `{Build} `{Font} `{Spin} `{LogFacade} `{Hardware} `{X86Virt} `{GdtOps} `{Statics} `{BinaryHeap} `{PanicStrategy}.

(** [struct Executor] of one core, apart from the memory of threads. *)
Record Core : Type := mkCore { c_ready : heap; c_current : option Entry; c_idle : option Z }.

(** [Executor::default]. *)
Definition core_default : Core := mkCore heap_new None None.

(** The statics [APIC], [TICKS], [SCHEDULER] and [LOGGER], and the machine. *)
Record Kernel : Type := mkKernel {
  screen : Screen;
  devices : Log;
  sysregs : SysRegs;
  APIC : mutex Apic;
  TICKS : mutex Tick;
  SCHEDULER : OnceLock (PerCore Core);
  tcbs : Tcbs;
  ctxs : gmap Z SchedContext
}.

Definition set_screen v k := mkKernel v (devices k) (sysregs k) (APIC k) (TICKS k) (SCHEDULER k) (tcbs k) (ctxs k).
Definition set_devices v k := mkKernel (screen k) v (sysregs k) (APIC k) (TICKS k) (SCHEDULER k) (tcbs k) (ctxs k).
Definition set_sysregs v k := mkKernel (screen k) (devices k) v (APIC k) (TICKS k) (SCHEDULER k) (tcbs k) (ctxs k).
Definition set_APIC v k := mkKernel (screen k) (devices k) (sysregs k) v (TICKS k) (SCHEDULER k) (tcbs k) (ctxs k).
Definition set_TICKS v k := mkKernel (screen k) (devices k) (sysregs k) (APIC k) v (SCHEDULER k) (tcbs k) (ctxs k).
Definition set_SCHEDULER v k := mkKernel (screen k) (devices k) (sysregs k) (APIC k) (TICKS k) v (tcbs k) (ctxs k).
Definition set_memory t c k := mkKernel (screen k) (devices k) (sysregs k) (APIC k) (TICKS k) (SCHEDULER k) t c.

(** The statics before [main]. *)
Definition kernel_static (s : Screen) (l : Log) (r : SysRegs) (t : Tcbs) (c : gmap Z SchedContext) : Kernel :=
  mkKernel s l r (mutex_new ApicImpl.new) (mutex_new tick_new) Sync.once_new t c.

Definition on_screen {A} : M Screen A -> M Kernel A := zoom screen set_screen.
Definition on_devices {A} (n : nat) (m : M Log A) : M Kernel A :=
  zoom (fun k => (devices k, screen k)) (fun p k => set_screen p.2 (set_devices p.1 k)) (drive n m).
Definition on_regs {A} : M SysRegs A -> M Kernel A := zoom sysregs set_sysregs.
Definition on_APIC {A} : M (mutex Apic) A -> M Kernel A := zoom APIC set_APIC.
Definition on_TICKS {A} : M (mutex Tick) A -> M Kernel A := zoom TICKS set_TICKS.

(** ** The scheduler's cell *)

(** Run a call on the cell to its end, at most [n] accesses; no other core has access yet. *)
Fixpoint complete {T} (n : nat) (t : thread T) (c : OnceLock T) : OnceLock T * pc T :=
  match n with
  | O => (c, t.2)
  | S n => match tstep t c with Some (c', t') => complete n t' c' | None => (c, t.2) end
  end.

(** [SCHEDULER.get()]. *)
Definition scheduler_get : M Kernel (option (PerCore Core)) := fun k =>
  let '(c, p) := complete 3 (Sync.entry Get) (SCHEDULER k) in
  (set_SCHEDULER c k, match p with RetGet o => Done o | _ => NoFuel end).

(** The records of [PerCore::new] for the [m] cores from [cpu_id] on: [init_core] warns of each core
    that has no slot. *)
Fixpoint warn_cores (n m : nat) (cpu_id : Z) : M Screen unit :=
  match m with
  | O => ret tt
  | S m =>
      do! (if MAX_CPUS <=? cpu_id
           then log_record n LevelWarn (text "core " ++ dec cpu_id ++ text " is out of bounds (max is " ++ dec MAX_CPUS ++ text ")")
           else ret tt) in
      warn_cores n m (cpu_id + 1)
  end.

(** [SCHEDULER.set] of [init_scheduler]; its result is dropped. *)
Definition scheduler_set : M Kernel unit := fun k =>
  let '(c, p) := complete 4 (Sync.entry (init_scheduler cpuid_4_eax core_default)) (SCHEDULER k) in
  (set_SCHEDULER c k, match p with RetSet _ => Done tt | _ => NoFuel end).

(** [init_scheduler]. *)
Definition init_scheduler_here (n : nat) : M Kernel unit :=
  let cores := sysinfo_cores cpuid_4_eax in
  do! on_screen (warn_cores n (Z.to_nat cores) 0) in
  do! scheduler_set in
  on_screen (log_record n LevelInfo (dec cores ++ text " schedulers initialized")).

(** [SCHEDULER.get().unwrap().get_mut()] and a call of a method of this core's executor. *)
Definition on_executor {A} (m : M Exec A) : M Kernel A :=
  let! o := scheduler_get in
  let! p := unwrap_or_panic o in
  let! c := lift (percore_get p cpuid_1_ebx) in
  fun k =>
    let '(e, r) := m (mkExec (tcbs k) (ctxs k) (c_ready c) (c_current c) (c_idle c)) in
    let core := mkCore (Scheduler.ready e) (current e) (idle e) in
    let p' := mkPerCore (<[Z.to_nat (cpuid cpuid_1_ebx) := Some core]> (cores p)) (initialized_count p) in
    (set_SCHEDULER (mkOnce (Sync.once (SCHEDULER k)) (Some p')) (set_memory (e_tcbs e) (e_ctxs e) k), r).

(** ** The timer interrupt *)

(** A computation on the kernel beside a [Tick]. *)
Definition beside {A} (m : M Kernel A) : M (Tick * Kernel) A := zoom snd (fun k s => (s.1, k)) m.

(** [Tick::tick_handler], on a [Tick] beside the kernel: [Some] when the scheduler went on with a
    thread and the call does not return. *)
Definition tick_handler (n : nat) : M (Tick * Kernel) (option Transfer) :=
  let! st := get in
  let '(t, _) := st in
  if is_calibration t then
    let! t' := beside (on_devices n (end_calibration t)) in
    do! modify (fun s => (t', s.2)) in
    ret None
  else
    let! count := add64 (tick_count t) 1 in
    do! modify (fun s => (set_tick_count count t, s.2)) in
    beside (on_executor Executor.preempt).

(** Run [body] with the guard of [TICKS] out: what it writes to the [Tick] is in the mutex. *)
Definition with_TICKS {A} (t : Tick) (body : M (Tick * Kernel) A) : M Kernel A := fun k =>
  let '((t', k'), o) := body (t, k) in (set_TICKS (guard_set t' (TICKS k')) k', o).

(** [timer_handler]. *)
Definition timer_handler (n : nat) : M Kernel (option Transfer) :=
  let! t := on_TICKS (lock n) in
  let! next := with_TICKS t (tick_handler n) in
  match next with
  | Some thread => ret (Some thread)
  | None =>
      do! on_TICKS (modify unlock) in
      let! a := on_APIC (lock n) in
      do! on_devices n (ApicImpl.end_interrupt a) in
      do! on_APIC (modify unlock) in
      ret None
  end.

(** [j] timer interrupts, one after the other, until one does not return. *)
Fixpoint interrupts (n j : nat) : M Kernel (option Transfer) :=
  match j with
  | O => ret None
  | S j => let! o := timer_handler n in match o with None => interrupts n j | Some x => ret (Some x) end
  end.

(** ** The boot sequence *)

(** [interrupts::load], with its record. *)
Definition interrupts_load_here (n : nat) : M Kernel unit :=
  do! on_regs interrupts_load in
  on_screen (log_record n LevelInfo (text "interrupts initialized")).

(** [init_syscall], with its record before the first register is written. *)
Definition init_syscall_here (n : nat) : M Kernel unit :=
  let! x := GDT in
  let user_cs := user_code_selector x.2 in
  let kernel_cs := code_selector x.2 in
  do! on_screen (log_record n LevelDebug
        (text "selectors are " ++ dec user_cs ++ text " (user) and " ++ dec kernel_cs ++ text " (kernel)")) in
  on_regs init_syscall.

(** The two statements of [main] on [APIC]: the guard of the first is dropped at its end. *)
Definition init_apic (n : nat) (rsdp_addr offset : Z) : M Kernel Apic :=
  let! a := on_APIC (lock n) in
  let! apic := on_devices n (ApicImpl.init a rsdp_addr offset) in
  do! on_APIC (modify unlock) in
  do! on_APIC (locked n (put apic)) in
  ret apic.

(** The two statements of [main] on [TICKS]. *)
Definition init_ticks (n : nat) (apic : Apic) : M Kernel unit :=
  let! t := on_TICKS (lock n) in
  let! ticks := on_devices n (calibrate t apic) in
  do! on_TICKS (modify unlock) in
  on_TICKS (locked n (put ticks)).

(** [main], with the [Debug] text of the framebuffer's description. *)
Definition main (n : nat) (info_text : list Z) (boot_info : BootInfo) : M Kernel Transfer :=
  let! fb := unwrap_or_panic (bi_framebuffer boot_info) in
  do! on_screen (Logger.init n fb.1 fb.2 info_text) in
  let! offset := unwrap_or_panic (bi_physical_memory_offset boot_info) in
  let! physical_memory_offset := unwrap_or_panic (virt_addr_new offset) in
  let! rsdp_addr := unwrap_or_panic (bi_rsdp_addr boot_info) in
  let! apic := init_apic n rsdp_addr physical_memory_offset in
  do! interrupts_load_here n in
  do! init_ticks n apic in
  do! init_scheduler_here n in
  do! init_syscall_here n in
  on_executor Executor.run.
End kernel.

(** ** Lemmas *)

Section lemmas.
Context `{Build} `{FontLaws} `{SpinLaws} `{LogFacadeLaws} `{HardwareLaws} `{X86VirtLaws} `{GdtLaws} `{StaticsLaws}
  `{BinaryHeapLaws} `{PanicStrategy}.
Context (off L : Z) (Hm : apic_mapped off) (HL : 128 <= L).

Lemma complete_get {T} (v : T) : complete 3 (Sync.entry Get) (mkOnce INITIALIZED (Some v)) = (mkOnce INITIALIZED (Some v), RetGet (Some v)).
Proof. done. Qed.

Lemma complete_set {T} (v : T) : complete 4 (Sync.entry (Set_ v)) Sync.once_new = (mkOnce INITIALIZED (Some v), RetSet true).
Proof. cbn. unfold guard_drop. by rewrite andb_false_r. Qed.

(** A driver with its records on the kernel's screen. *)
Lemma on_devices_drive {A} n (m : M Log A) k l s o :
  drive n m (devices k, screen k) = ((l, s), o) -> on_devices n m k = (set_screen s (set_devices l k), o).
Proof. intros E. unfold on_devices, zoom. by rewrite E. Qed.

Lemma on_devices_silent {A} n (m : M Log A) k es o :
  m (devices k) = (es ++ devices k, o) -> Forall (fun e => forall lv args, e <> Print lv args) es ->
  on_devices n m k = (set_devices (es ++ devices k) k, o).
Proof. intros E Hf. erewrite on_devices_drive by (by apply drive_silent). by destruct k. Qed.

Lemma on_screen_record n lv args k :
  loggable L (screen k) -> Z.of_nat (length args) <= 128 ->
  exists s, on_screen (log_record n lv args) k = (set_screen s k, Done tt) /\ loggable L s /\ FACADE s = FACADE (screen k).
Proof.
  intros Hs Hl. destruct (log_record_returns L n lv args (screen k) Hs) as (s & E & Ls & F); [lia|].
  exists s. split; [by apply zoom_done|done].
Qed.

(** The scheduler is initialised and [c] is this core's. *)
Definition scheduled (k : Kernel) (p : PerCore Core) (c : Core) : Prop :=
  SCHEDULER k = mkOnce INITIALIZED (Some p) /\ percore_get p cpuid_1_ebx = Done c.

(** This core's executor with the memory of threads. *)
Definition exec_of (k : Kernel) (c : Core) : Exec := mkExec (tcbs k) (ctxs k) (c_ready c) (c_current c) (c_idle c).
Definition core_of (e : Exec) : Core := mkCore (Scheduler.ready e) (current e) (idle e).

(** The kernel after a call of this core's executor. *)
Definition after_exec (p : PerCore Core) (e : Exec) (k : Kernel) : Kernel :=
  set_SCHEDULER (mkOnce INITIALIZED (Some (mkPerCore (<[Z.to_nat (cpuid cpuid_1_ebx) := Some (core_of e)]> (cores p)) (initialized_count p))))
    (set_memory (e_tcbs e) (e_ctxs e) k).

Lemma on_executor_at {A} (m : M Exec A) k p :
  SCHEDULER k = mkOnce INITIALIZED (Some p) ->
  on_executor m k =
    match percore_get p cpuid_1_ebx with
    | Done c => let '(e, r) := m (exec_of k c) in (after_exec p e k, r)
    | Panic => (k, Panic) | Undef => (k, Undef) | NoFuel => (k, NoFuel)
    end.
Proof.
  intros Hs. assert (E : scheduler_get k = (k, Done (Some p))).
  { unfold scheduler_get. rewrite Hs, complete_get. cbn. do 2 f_equal. destruct k; cbn in *; by subst. }
  unfold on_executor. rewrite (bind_done _ _ _ _ _ E), (bind_done _ _ _ k p) by done.
  unfold bind, lift. destruct (percore_get p cpuid_1_ebx) as [c| | |]; [|done..].
  unfold exec_of, after_exec. destruct (m _) as [e r]. by rewrite Hs.
Qed.

Lemma after_exec_scheduled p e k c :
  scheduled k p c -> exists p', scheduled (after_exec p e k) p' (core_of e) /\ exec_of (after_exec p e k) (core_of e) = e.
Proof.
  intros [Hs Hc]. eexists. split; [split; [reflexivity|]|by destruct e].
  unfold percore_get, PerCoreImpl.get_unsafe in *. cbn. destruct (cores p !! _) eqn:E; [|done].
  by rewrite list_lookup_insert_eq by (by eapply lookup_lt_Some).
Qed.

Lemma after_exec_id p k c : scheduled k p c -> after_exec p (exec_of k c) k = k.
Proof.
  intros [Hs Hc]. unfold after_exec, exec_of, core_of. cbn. rewrite list_insert_id.
  - destruct k, p; cbn in *. by rewrite Hs.
  - unfold percore_get, PerCoreImpl.get_unsafe in Hc. destruct (cores p !! _) as [[v|]|] eqn:E; [|done..].
    injection Hc as ->. by destruct c.
Qed.

(** ** The timer interrupt *)

Lemma beside_done {A} (m : M Kernel A) t k k' a : m k = (k', Done a) -> beside m (t, k) = ((t, k'), Done a).
Proof. intros E. unfold beside, zoom. cbn. by rewrite E. Qed.

(** Both locks are free: [TICKS] holds [t] and [APIC] what [init] made. *)
Record unlocked (k : Kernel) (t : Tick) : Prop := {
  ul_ticks : free (TICKS k) t;
  ul_apic : free (APIC k) (apic_at off)
}.

Abbreviation eoi := (MmioWrite (register_at (lapic_addr (apic_at off)) LapicEoi) 0).

(** The handler when the tick handler returns: it sends the end of interrupt and frees both locks. *)
Lemma timer_returns n k t t' k' :
  unlocked k t -> TICKS k' = TICKS k -> APIC k' = APIC k ->
  (forall m, tick_handler n (t, set_TICKS m k) = ((t', set_TICKS m k'), Done None)) ->
  exists k2, timer_handler n k = (k2, Done None) /\ unlocked k2 t' /\ devices k2 = eoi :: devices k' /\
    k2 = set_APIC (APIC k2) (set_TICKS (TICKS k2) (set_devices (devices k2) k')).
Proof.
  intros [[m Et] [ma Ea]] HT HA Htick. unfold timer_handler.
  rewrite (bind_done _ _ k (set_TICKS m k) t) by (apply zoom_done; by apply lock_free).
  rewrite (bind_done _ _ _ (set_TICKS (guard_set t' m) k') None) by (unfold with_TICKS; by rewrite Htick).
  rewrite (bind_done _ _ _ (set_TICKS (unlock (guard_set t' m)) k') tt) by done.
  rewrite (bind_done _ _ _ (set_APIC ma (set_TICKS (unlock (guard_set t' m)) k')) (apic_at off)).
  2: { apply zoom_done. cbn. rewrite HA. by apply lock_free. }
  rewrite (bind_done _ _ _ (set_devices (eoi :: devices k') (set_APIC ma (set_TICKS (unlock (guard_set t' m)) k'))) tt).
  2: { exact (on_devices_silent n _ (set_APIC ma (set_TICKS (unlock (guard_set t' m)) k')) [eoi] (Done tt)
         (end_interrupt_run off (devices k') Hm) ltac:(by apply Forall_singleton)). }
  eexists. split; [reflexivity|]. split; [split; cbn|split; done].
  - by eapply unlock_free.
  - by eapply unlock_same.
Qed.

(** The end of interrupt leaves the timer alone. *)
Lemma calibrating_eoi samples t l : calibrating off samples t l -> calibrating off samples t (eoi :: l).
Proof.
  intros [? ? ? ? ? ? Hc ? Ho]. destruct (quiet_app off [eoi] l) as [E Hq].
  { apply Forall_singleton. unfold quiet. rewrite <- !Z.eqb_neq, !register_eqb. done. }
  split; try done; [by rewrite <- Hc|by apply Hq].
Qed.

(** An interrupt during calibration, when the screen takes its record. *)
Lemma timer_calibrates n k t samples :
  counts_down off -> unlocked k t -> loggable L (screen k) -> calibrating off samples t (devices k) -> (length samples < 10)%nat ->
  exists k' t' samples', timer_handler n k = (k', Done None) /\ unlocked k' t' /\ loggable L (screen k') /\
    length samples' = S (length samples) /\ Forall is_sample samples' /\
    k' = set_screen (screen k') (set_APIC (APIC k') (set_TICKS (TICKS k') (set_devices (devices k') k))) /\ tick_count t' = tick_count t /\
    if decide (length samples < 9)%nat then calibrating off samples' t' (devices k')
    else let mean := foldr Z.add 0 samples' / 10 in is_calibration t' = false /\ exists l,
      devices k' = eoi :: counter_log off true mean (Print LevelInfo (mean_text mean) :: l).
Proof.
  intros Hc Hu Hs Hcal Hl. destruct (interrupt_run off Hm samples t (devices k) [] Hc Hcal) as (t' & l' & E & Hn); [done|done|].
  destruct (drive_run L n (end_calibration t) (devices k) (screen k) l' (Done t')) as (s' & Ed & Ls & _); [|done|exact E|].
  { apply (appends_weaken L 128); [done|]. apply appends_end_calibration, Hcal. }
  destruct (timer_returns n k t t' (set_screen s' (set_devices l' k)) Hu) as (k2 & Eh & U2 & D2 & K2); [done|done| |].
  { intros m. unfold tick_handler. rewrite (bind_done _ _ _ (t, set_TICKS m k) (t, set_TICKS m k)) by done.
    rewrite (cal_on _ _ _ _ Hcal). by rewrite (bind_done _ _ _ (t, set_TICKS m (set_screen s' (set_devices l' k))) t')
      by (apply beside_done; exact (on_devices_drive n (end_calibration t) (set_TICKS m k) l' s' (Done t') Ed)). }
  assert (Ht : tick_count t' = tick_count t) by (eapply end_calibration_count; exact E).
  exists k2, t', (samples ++ [sample_ref (interval off t (devices k) / 50)]). split_and!; try done.
  - by rewrite K2.
  - rewrite length_app. cbn. lia.
  - apply Forall_app. split; [apply Hcal|]. apply Forall_singleton. exact (interval_sample off samples t (devices k) [] Hc Hcal (Forall_nil_2 _)).
  - rewrite K2 at 1. by rewrite K2.
  - case_decide.
    + rewrite D2. apply calibrating_eoi, Hn.
    + destruct Hn as (Hon & _ & _ & ->). split; [done|]. eexists. rewrite D2. reflexivity.
Qed.

(** With the guard of the logger out, an interrupt that prints a record never returns. *)
Lemma timer_waits_for_logger n k t samples :
  counts_down off -> unlocked k t -> calibrating off samples t (devices k) -> (length samples < 10)%nat -> busy (screen k) ->
  log_enabled (FACADE (screen k)) (if decide (length samples < 9)%nat then LevelDebug else LevelInfo) = true ->
  exists k', timer_handler n k = (k', NoFuel).
Proof.
  intros Hc [[m Et] _] Hcal Hl Hb He. destruct (interrupt_run off Hm samples t (devices k) [] Hc Hcal) as (t' & l' & E & Hn); [done|done|].
  assert (exists p, drive n (end_calibration t) (devices k, screen k) = (p, NoFuel)) as [[l2 s2] Ed].
  { case_decide.
    - destruct Hn as (_ & es & -> & Hin). by eapply drive_busy.
    - destruct Hn as (_ & _ & _ & ->). unfold counter_log in E. cbn [app] in E.
      eapply (drive_busy _ _ _ _ [_; _; _; _; _]); [exact E|done| |done]. rewrite !elem_of_cons. tauto. }
  unfold timer_handler. rewrite (bind_done _ _ k (set_TICKS m k) t) by (apply zoom_done; by apply lock_free).
  unfold bind at 1. unfold with_TICKS, tick_handler, beside, on_devices, zoom, bind. cbn. rewrite (cal_on _ _ _ _ Hcal). cbn.
  rewrite Ed. by eexists.
Qed.

(** An interrupt after calibration: it counts the tick and calls the scheduler. *)
Lemma tick_preempts n k p c t e o m :
  is_calibration t = false -> 0 <= tick_count t -> tick_count t + 1 < W64 -> scheduled k p c ->
  Executor.preempt (exec_of k c) = (e, Done o) ->
  tick_handler n (t, set_TICKS m k) = ((set_tick_count (tick_count t + 1) t, set_TICKS m (after_exec p e k)), Done o).
Proof.
  intros Hc H0' Hn [Hs Hp] E. unfold tick_handler. rewrite (bind_done _ _ _ (t, set_TICKS m k) (t, set_TICKS m k)) by done.
  rewrite Hc. unfold add64. rewrite (bind_done _ _ _ (t, set_TICKS m k) (tick_count t + 1)) by (apply arith64_ok; unfold u64; lia).
  rewrite (bind_done _ _ _ (set_tick_count (tick_count t + 1) t, set_TICKS m k) tt) by done.
  apply beside_done. rewrite (on_executor_at _ _ p) by done. rewrite Hp.
  change (exec_of (set_TICKS m k) c) with (exec_of k c). by rewrite E.
Qed.

Lemma timer_returns_tick n k p c t e :
  is_calibration t = false -> 0 <= tick_count t -> tick_count t + 1 < W64 -> scheduled k p c -> unlocked k t ->
  Executor.preempt (exec_of k c) = (e, Done None) ->
  exists k', timer_handler n k = (k', Done None) /\ unlocked k' (set_tick_count (tick_count t + 1) t) /\
    devices k' = eoi :: devices k /\ exists p', scheduled k' p' (core_of e) /\ exec_of k' (core_of e) = e.
Proof.
  intros Hc H0' Hn Hs Hu E.
  destruct (timer_returns n k t (set_tick_count (tick_count t + 1) t) (after_exec p e k) Hu) as (k' & Eh & U & D & K); [done|done| |].
  { intros m. by eapply tick_preempts. }
  exists k'. split_and!; [done..|]. destruct (after_exec_scheduled p e k c Hs) as (p' & Hs' & Ee). exists p'.
  rewrite K. split; [exact Hs'|exact Ee].
Qed.

(** The handler when the scheduler goes on with another thread: the guard of [TICKS] stays out and the
    end of interrupt is not sent. *)
Lemma timer_switches n k p c t e tr :
  is_calibration t = false -> 0 <= tick_count t -> tick_count t + 1 < W64 -> scheduled k p c -> unlocked k t ->
  Executor.preempt (exec_of k c) = (e, Done (Some tr)) ->
  exists k', timer_handler n k = (k', Done (Some tr)) /\ held (TICKS k') /\ devices k' = devices k /\
    exists p', scheduled k' p' (core_of e) /\ exec_of k' (core_of e) = e.
Proof.
  intros Hc H0' Hn Hs [[m Et] _] E. unfold timer_handler.
  rewrite (bind_done _ _ k (set_TICKS m k) t) by (apply zoom_done; by apply lock_free).
  rewrite (bind_done _ _ _ (set_TICKS (guard_set (set_tick_count (tick_count t + 1) t) m) (after_exec p e k)) (Some tr))
    by (unfold with_TICKS; by rewrite (tick_preempts n k p c t e (Some tr) m)).
  eexists. split; [reflexivity|]. split_and!; [by eapply set_held|done|].
  destruct (after_exec_scheduled p e k c Hs) as (p' & Hs' & Ee). exists p'. split; [exact Hs'|exact Ee].
Qed.

Lemma timer_spins n k : held (TICKS k) -> timer_handler n k = (k, NoFuel).
Proof.
  intros Hh. unfold timer_handler, bind, on_TICKS, zoom. rewrite (lock_spins n _ Hh). by destruct k.
Qed.

(** ** The boot sequence *)

Lemma warn_cores_run n m : forall i s,
  loggable L s -> exists s', warn_cores n m i s = (s', Done tt) /\ loggable L s' /\ FACADE s' = FACADE s.
Proof.
  induction m as [|m IH]; intros i s Hs; cbn [warn_cores]; [by exists s|].
  assert (exists s1, (if MAX_CPUS <=? i then log_record n LevelWarn (text "core " ++ dec i ++ text " is out of bounds (max is " ++
    dec MAX_CPUS ++ text ")") else ret tt) s = (s1, Done tt) /\ loggable L s1 /\ FACADE s1 = FACADE s) as (s1 & E1 & L1 & F1).
  { destruct (MAX_CPUS <=? i); [|by exists s]. apply log_record_returns; [done|]. rewrite !length_app. pose proof (dec_length i).
    change (length (text "core ")) with 5%nat. change (length (text " is out of bounds (max is ")) with 26%nat.
    change (length (dec MAX_CPUS)) with 2%nat. change (length (text ")")) with 1%nat. lia. }
  rewrite (bind_done _ _ _ _ _ E1). destruct (IH (i + 1) s1 L1) as (s2 & E2 & L2 & F2). exists s2. split_and!; [done|done|congruence].
Qed.

(** The executors that [init_scheduler] makes. *)
Definition fresh_cores : PerCore Core := PerCoreImpl.new (sysinfo_cores cpuid_4_eax) core_default.

Lemma init_scheduler_run n k :
  SCHEDULER k = Sync.once_new -> loggable L (screen k) ->
  exists s, init_scheduler_here n k = (set_screen s (set_SCHEDULER (mkOnce INITIALIZED (Some fresh_cores)) k), Done tt) /\
    loggable L s /\ FACADE s = FACADE (screen k).
Proof.
  intros Hk Hs. unfold init_scheduler_here. destruct (warn_cores_run n (Z.to_nat (sysinfo_cores cpuid_4_eax)) 0 _ Hs) as (s1 & E1 & L1 & F1).
  cbn zeta. rewrite (bind_done _ _ k (set_screen s1 k) tt) by (by apply zoom_done).
  rewrite (bind_done _ _ _ (set_SCHEDULER (mkOnce INITIALIZED (Some fresh_cores)) (set_screen s1 k)) tt).
  2: { unfold scheduler_set, init_scheduler. cbn [SCHEDULER set_screen]. rewrite Hk, complete_set. done. }
  set (k1 := set_SCHEDULER _ _).
  destruct (on_screen_record n LevelInfo (dec (sysinfo_cores cpuid_4_eax) ++ text " schedulers initialized") k1) as (s2 & E2 & L2 & F2); [done| |].
  { rewrite length_app. pose proof (dec_length (sysinfo_cores cpuid_4_eax)). change (length (text " schedulers initialized")) with 23%nat. lia. }
  exists s2. rewrite E2. split_and!; [done|done|by rewrite F2].
Qed.

Lemma interrupts_load_here_run n k :
  loggable L (screen k) -> exists r s, interrupts_load_here n k = (set_screen s (set_sysregs r k), Done tt) /\
    loggable L s /\ FACADE s = FACADE (screen k) /\ idtr r = Some IDT /\ interrupts_on r = true.
Proof.
  intros Hs. destruct (interrupts_load_run (sysregs k)) as (g & _ & Eg). unfold interrupts_load_here.
  rewrite (bind_done _ _ k _ tt (zoom_done sysregs set_sysregs _ _ _ _ Eg)). set (k1 := set_sysregs _ k).
  destruct (on_screen_record n LevelInfo (text "interrupts initialized") k1) as (s & E & Ls & F); [done|vm_compute; discriminate|].
  eexists _, s. split; [exact E|]. done.
Qed.

Lemma init_syscall_here_run n k :
  loggable L (screen k) -> exists r s, init_syscall_here n k = (set_screen s (set_sysregs r k), Done tt) /\
    loggable L s /\ FACADE s = FACADE (screen k) /\ idtr r = idtr (sysregs k) /\
    interrupts_on r = interrupts_on (sysregs k) /\ LSTAR r = stub_addr.
Proof.
  intros Hs. destruct GDT_run as (g & _ & Eg). unfold init_syscall_here. rewrite (bind_done _ _ _ _ _ (Eg _ k)). cbn zeta.
  match goal with |- context [on_screen (log_record n LevelDebug ?args)] =>
    destruct (on_screen_record n LevelDebug args k) as (s & E & Ls & F); [done|vm_compute; discriminate|] end.
  rewrite (bind_done _ _ _ _ _ E).
  eexists _, s. split; [exact (zoom_done sysregs set_sysregs _ (set_screen s k) _ _ (init_syscall_run (sysregs k)))|]. done.
Qed.

Lemma init_apic_run k n rsdp :
  free (APIC k) ApicImpl.new -> ApicImpl.has_apic = true -> loggable L (screen k) ->
  exists m s, init_apic n rsdp off k =
    (set_APIC m (set_screen s (set_devices (init_log off (devices k)) k)), Done (apic_at off)) /\ free m (apic_at off) /\
    loggable L s /\ FACADE s = FACADE (screen k).
Proof.
  intros [ma Ea] Ha Hs. unfold init_apic. rewrite (bind_done _ _ k (set_APIC ma k) ApicImpl.new) by (apply zoom_done; by apply lock_free).
  destruct (drive_run L n (ApicImpl.init ApicImpl.new rsdp off) (devices k) (screen k) _ _
    (appends_weaken L 128 _ HL (appends_apic_init ApicImpl.new rsdp off)) Hs (apic_init_run ApicImpl.new rsdp off (devices k) Hm Ha)) as (s & Ed & Ls & F).
  set (k1 := set_screen s (set_devices (init_log off (devices k)) k)).
  rewrite (bind_done _ _ _ (set_APIC ma k1) (apic_at off)) by exact (on_devices_drive n _ (set_APIC ma k) _ _ _ Ed).
  rewrite (bind_done _ _ _ (set_APIC (unlock ma) k1) tt) by done.
  destruct (locked_run n (unlock ma) ApicImpl.new (put (apic_at off)) (apic_at off) tt) as (m & E & Hf); [by eapply unlock_same|done|].
  exists m, s. split; [|done]. rewrite (bind_done _ _ _ (set_APIC m k1) tt); [done|].
  exact (zoom_done APIC set_APIC (locked n (put (apic_at off))) (set_APIC (unlock ma) k1) m tt E).
Qed.

Lemma calibrate_count t a l t' l' : calibrate t a l = (l', Done t') -> tick_count t' = tick_count t.
Proof.
  unfold calibrate. intros (? & [] & _ & E)%bind_inv. cbn zeta in E. apply bind_inv in E as (? & [] & _ & E).
  by apply init_counters_count in E.
Qed.

(** The calibration starts, with its records. *)
Lemma calibrate_drive k n :
  counts_down off -> loggable L (screen k) ->
  exists t l s, drive n (calibrate tick_new (apic_at off)) (devices k, screen k) = ((l, s), Done t) /\
    calibrating off [] t l /\ tick_count t = 0 /\ loggable L s /\ FACADE s = FACADE (screen k).
Proof.
  intros Hc Hs. destruct (calibrate_run off Hm (devices k) Hc) as (t & l & E & Hcal).
  destruct (drive_run L n (calibrate tick_new (apic_at off)) (devices k) (screen k) l (Done t)
    (appends_weaken L 128 _ HL (appends_calibrate tick_new (apic_at off) eq_refl)) Hs E) as (s & Ed & Ls & F).
  exists t, l, s. split_and!; try done. by apply calibrate_count in E.
Qed.

Lemma init_ticks_run k n :
  counts_down off -> free (TICKS k) tick_new -> loggable L (screen k) ->
  exists m t l s, init_ticks n (apic_at off) k = (set_TICKS m (set_screen s (set_devices l k)), Done tt) /\
    free m t /\ calibrating off [] t l /\ tick_count t = 0 /\ loggable L s /\ FACADE s = FACADE (screen k).
Proof.
  intros Hc [mt Et] Hs. destruct (calibrate_drive k n Hc Hs) as (t & l & s & Ed & Hcal & Ht & Ls & F). unfold init_ticks.
  rewrite (bind_done _ _ k (set_TICKS mt k) tick_new) by (apply zoom_done; by apply lock_free).
  set (k1 := set_screen s (set_devices l k)).
  rewrite (bind_done _ _ _ (set_TICKS mt k1) t) by exact (on_devices_drive n _ (set_TICKS mt k) _ _ _ Ed).
  rewrite (bind_done _ _ _ (set_TICKS (unlock mt) k1) tt) by done.
  destruct (locked_run n (unlock mt) tick_new (put t) t tt) as (m & El & Hf); [by eapply unlock_same|done|].
  exists m, t, l, s. split; [|done].
  exact (zoom_done TICKS set_TICKS (locked n (put t)) (set_TICKS (unlock mt) k1) m tt El).
Qed.

(** What [main] leaves for the scheduler, when it gets there. *)
Record booted (k : Kernel) : Prop := {
  bt_ticks : exists t, unlocked k t /\ calibrating off [] t (devices k) /\ tick_count t = 0;
  bt_sched : SCHEDULER k = mkOnce INITIALIZED (Some fresh_cores);
  bt_gates : idtr (sysregs k) = Some IDT;
  bt_on : interrupts_on (sysregs k) = true;
  bt_stub : LSTAR (sysregs k) = stub_addr;
  bt_log : loggable L (screen k)
}.

(** The first half of [main], up to the loading of the interrupt tables. *)
Lemma load_run k n rsdp :
  free (APIC k) ApicImpl.new -> ApicImpl.has_apic = true -> loggable L (screen k) ->
  exists k1, (let! apic := init_apic n rsdp off in do! interrupts_load_here n in ret apic) k = (k1, Done (apic_at off)) /\
    free (APIC k1) (apic_at off) /\ loggable L (screen k1) /\ FACADE (screen k1) = FACADE (screen k) /\
    idtr (sysregs k1) = Some IDT /\ interrupts_on (sysregs k1) = true /\
    TICKS k1 = TICKS k /\ SCHEDULER k1 = SCHEDULER k /\ tcbs k1 = tcbs k /\ ctxs k1 = ctxs k.
Proof.
  intros Hf Ha Hs. destruct (init_apic_run k n rsdp Hf Ha Hs) as (ma & s1 & Ea & Fa & L1 & F1).
  rewrite (bind_done _ _ _ _ _ Ea). clear Ea. set (k1 := set_APIC _ _).
  destruct (interrupts_load_here_run n k1 L1) as (r & s2 & E2 & L2 & F2 & G2 & I2). rewrite (bind_done _ _ _ _ _ E2).
  eexists. split; [reflexivity|]. split_and!; try done. cbn. by rewrite F2.
Qed.

Lemma main_run n info_text bi fb s l r tc c rsdp s1 :
  counts_down off -> ApicImpl.has_apic = true -> canonical off ->
  bi_framebuffer bi = Some fb -> bi_physical_memory_offset bi = Some off -> bi_rsdp_addr bi = Some rsdp ->
  Logger.init n fb.1 fb.2 info_text s = (s1, Done tt) -> loggable L s1 ->
  exists k, main n info_text bi (kernel_static s l r tc c) = on_executor Executor.run k /\ booted k /\
    FACADE (screen k) = FACADE s1 /\ tcbs k = tc /\ ctxs k = c.
Proof.
  intros Hc Ha Hoff Hfb Hpm Hrs Hl Hr. unfold main, kernel_static. set (k0 := mkKernel _ _ _ _ _ _ _ _).
  rewrite Hfb, Hpm, Hrs. rewrite (bind_done _ _ _ k0 fb), (bind_done _ _ _ (set_screen s1 k0) tt) by (done || by apply zoom_done).
  rewrite (bind_done _ _ _ (set_screen s1 k0) off) by done.
  rewrite (bind_done _ _ _ (set_screen s1 k0) off) by (by rewrite virt_addr_new_ok).
  rewrite (bind_done _ _ _ (set_screen s1 k0) rsdp) by done.
  destruct (load_run (set_screen s1 k0) n rsdp) as (k1 & E1 & A1 & L1 & F1 & G1 & I1 & T1 & S1 & M1 & X1); [apply new_free|done|done|].
  apply bind_inv in E1 as (k1' & a & Ea & E1). apply bind_inv in E1 as (k1'' & [] & Eg & [= -> ->]).
  rewrite (bind_done _ _ _ _ _ Ea), (bind_done _ _ _ _ _ Eg).
  destruct (init_ticks_run k1 n Hc) as (mt & t & l' & s2 & Et & Ft & Hcal & Hcount & L2 & F2); [rewrite T1; apply new_free|done|].
  rewrite (bind_done _ _ _ _ _ Et). set (k3 := set_TICKS _ _).
  destruct (init_scheduler_run n k3) as (s3 & E3 & L3 & F3); [done|done|].
  rewrite (bind_done _ _ _ _ _ E3). set (k4 := set_screen s3 _).
  destruct (init_syscall_here_run n k4 L3) as (r' & s4 & E4 & L4 & F4 & G4 & I4 & Y4). rewrite (bind_done _ _ _ _ _ E4).
  eexists. split; [reflexivity|]. split_and!; [|cbn; rewrite F4; cbn; rewrite F3; cbn; by rewrite F2, F1|done|done].
  split; [exists t; by split_and!|done|cbn; by rewrite G4|cbn; by rewrite I4|done|done].
Qed.

(** The scheduler's loop on the cores of the machine. *)
Lemma run_booted k :
  0 <= cpuid_4_eax < 2 ^ 32 -> booted k ->
  on_executor Executor.run k =
    (k, if cpuid cpuid_1_ebx <? Z.min (sysinfo_cores cpuid_4_eax) MAX_CPUS then Done Halted
        else if cpuid cpuid_1_ebx <? MAX_CPUS then Undef else Panic).
Proof.
  intros Heax Bk. rewrite (on_executor_at _ _ _ (bt_sched _ Bk)). unfold fresh_cores.
  destruct (percore_get_new cpuid_4_eax cpuid_1_ebx core_default Heax) as (_ & _ & Hp). rewrite Hp.
  destruct (cpuid cpuid_1_ebx <? Z.min (sysinfo_cores cpuid_4_eax) MAX_CPUS);
    [|by destruct (cpuid cpuid_1_ebx <? MAX_CPUS)].
  unfold Executor.run. rewrite schedule_halt by (done || apply heap_new_empty).
  rewrite after_exec_id; [done|]. split; [apply (bt_sched _ Bk)|exact Hp].
Qed.

(** ** Sequences of interrupts *)

Lemma interrupts_app n j1 j2 k k' :
  interrupts n j1 k = (k', Done None) -> interrupts n (j1 + j2) k = interrupts n j2 k'.
Proof.
  revert k. induction j1 as [|j1 IH]; intros k; cbn [interrupts Nat.add]; [by intros [= ->]|].
  intros (k1 & [x|] & E1 & E)%bind_inv; [done|]. rewrite (bind_done _ _ _ _ _ E1). by apply IH.
Qed.

(** The rest of the kernel: what interrupts do not touch until the calibration is over. *)
Definition rest_same (k k' : Kernel) : Prop :=
  sysregs k' = sysregs k /\ SCHEDULER k' = SCHEDULER k /\ tcbs k' = tcbs k /\ ctxs k' = ctxs k.

(** The kernel [c] timer interrupts after the start of the calibration. *)
Definition ticking (c : nat) (k : Kernel) (t : Tick) : Prop :=
  unlocked k t /\ loggable L (screen k) /\
  if decide (c < 10)%nat then tick_count t = 0 /\ exists samples, length samples = c /\ calibrating off samples t (devices k)
  else is_calibration t = false /\ tick_count t = Z.of_nat c - 10.

(** An executor without threads. *)
Definition no_threads (e : Exec) : Prop := contents (Scheduler.ready e) = [] /\ current e = None /\ idle e = None.

Lemma preempt_no_threads e : no_threads e -> Executor.preempt e = (e, Done None).
Proof.
  intros (Hr & Hc & _). unfold Executor.preempt, Executor.inc_tick.
  rewrite (bind_done _ _ e e tt) by (rewrite (bind_done _ _ e e None) by (unfold gets; by rewrite Hc); done).
  rewrite (bind_done _ _ e e false); [done|]. unfold gets, Executor.should_preempt. by rewrite Hc, heap_peek_empty.
Qed.

(** This core's executor is set up and has no thread. *)
Definition idle_core (k : Kernel) : Prop := exists p c, scheduled k p c /\ no_threads (exec_of k c).

Lemma idle_core_same k k' : rest_same k k' -> idle_core k -> idle_core k'.
Proof. intros (_ & Hs & Ht & Hx) (p & c & [S P] & N). exists p, c. split; [split; [congruence|done]|]. done. Qed.

Lemma rest_same_trans k1 k2 k3 : rest_same k1 k2 -> rest_same k2 k3 -> rest_same k1 k3.
Proof. unfold rest_same. intuition congruence. Qed.

(** The interrupt after [c] others, with no thread to run: it takes a sample or counts a tick. *)
Lemma interrupt_ticks n c k t :
  counts_down off -> ticking c k t -> (c < 10)%nat \/ idle_core k -> Z.of_nat c < W64 ->
  exists k' t', timer_handler n k = (k', Done None) /\ ticking (S c) k' t' /\ rest_same k k' /\
    if decide (c < 9)%nat then True
    else if decide (c = 9)%nat then exists samples l, length samples = 10%nat /\ Forall is_sample samples /\
      let mean := foldr Z.add 0 samples / 10 in devices k' = eoi :: counter_log off true mean (Print LevelInfo (mean_text mean) :: l)
    else devices k' = eoi :: devices k.
Proof.
  intros Hc (Hu & Hs & Ht) Hd Hw. unfold ticking. destruct (decide (c < 10)%nat) as [Hlt|Hge].
  - destruct Ht as (H0' & samples & Hlen & Hcal).
    destruct (timer_calibrates n k t samples Hc Hu Hs Hcal) as (k' & t' & s' & E & U & Ls & L' & F & K & T & Hn); [lia|].
    exists k', t'. rewrite Hlen in L', Hn. split; [done|]. assert (R : rest_same k k') by (by rewrite K).
    destruct (decide (c < 9)%nat) as [Hn9|Hn9].
    + rewrite (decide_True (P := (S c < 10)%nat)) by lia. split; [|done]. split_and!; [done|done|congruence|by exists s'].
    + rewrite (decide_False (P := (S c < 10)%nat)) by lia. rewrite decide_True by lia. destruct Hn as (Hon & l & D).
      split; [|split; [done|]]; [split_and!; [done|done|done|lia]|]. exists s', l. split_and!; [lia|done|done].
  - destruct Ht as (Hon & Htc). destruct Hd as [?|(p & c0 & Hsch & Hno)]; [lia|].
    destruct (timer_returns n k t (set_tick_count (tick_count t + 1) t) k Hu) as (k' & E & U & D & K); [done|done| |].
    { intros m. rewrite (tick_preempts n k p c0 t (exec_of k c0) None m); [|done|lia|lia|done|by apply preempt_no_threads].
      by rewrite (after_exec_id p k c0 Hsch). }
    exists k', (set_tick_count (tick_count t + 1) t). rewrite !decide_False by lia.
    assert (R : rest_same k k') by (by rewrite K). split; [done|]. split_and!; try done; [by rewrite K|cbn; lia].
Qed.

(** Any number of interrupts, with no thread to run; only the first ten need no scheduler. *)
Lemma interrupts_tick n j : forall c k t,
  counts_down off -> ticking c k t -> (c + j <= 10)%nat \/ idle_core k -> Z.of_nat (c + j) < W64 ->
  exists k' t', interrupts n j k = (k', Done None) /\ ticking (c + j) k' t' /\ rest_same k k'.
Proof.
  induction j as [|j IH]; intros c k t Hc Ht Hd Hw; cbn [interrupts].
  { exists k, t. by rewrite Nat.add_0_r. }
  destruct (interrupt_ticks n c k t Hc Ht) as (k1 & t1 & E1 & T1 & R1 & _); [destruct Hd; [left; lia|by right]|lia|].
  rewrite (bind_done _ _ _ _ _ E1). destruct (IH (S c) k1 t1 Hc T1) as (k' & t' & E & T & R).
  - destruct Hd; [left; lia|right; by eapply idle_core_same].
  - lia.
  - exists k', t'. replace (c + S j)%nat with (S c + j)%nat by lia. split_and!; [done|done|by eapply rest_same_trans].
Qed.

(** After the calibration the interrupts leave nothing but their ends in the log. *)
Lemma interrupts_idle n j : forall c k t,
  counts_down off -> ticking c k t -> (10 <= c)%nat -> idle_core k -> Z.of_nat (c + j) < W64 ->
  exists k' t', interrupts n j k = (k', Done None) /\ ticking (c + j) k' t' /\ devices k' = replicate j eoi ++ devices k.
Proof.
  induction j as [|j IH]; intros c k t Hc Ht Hge Hd Hw; cbn [interrupts].
  { exists k, t. by rewrite Nat.add_0_r. }
  destruct (interrupt_ticks n c k t Hc Ht) as (k1 & t1 & E1 & T1 & R1 & D1); [by right|lia|]. rewrite !decide_False in D1 by lia.
  rewrite (bind_done _ _ _ _ _ E1). destruct (IH (S c) k1 t1 Hc T1) as (k' & t' & E & T & D); [lia|by eapply idle_core_same|lia|].
  exists k', t'. replace (c + S j)%nat with (S c + j)%nat by lia. split_and!; [done|done|].
  rewrite D, D1. by rewrite replicate_S_end, <- app_assoc.
Qed.

Lemma booted_idle k :
  0 <= cpuid_4_eax < 2 ^ 32 -> cpuid cpuid_1_ebx < Z.min (sysinfo_cores cpuid_4_eax) MAX_CPUS ->
  SCHEDULER k = mkOnce INITIALIZED (Some fresh_cores) -> idle_core k.
Proof.
  intros Heax Hp Hb. destruct (percore_get_new cpuid_4_eax cpuid_1_ebx core_default Heax) as (_ & _ & Hget).
  rewrite (proj2 (Z.ltb_lt _ _)) in Hget by done. exists fresh_cores, core_default. split; [by split|].
  split; [apply heap_new_empty|done].
Qed.

Lemma booted_ticking k : booted k -> exists t, ticking 0 k t.
Proof. intros Hb. destruct (bt_ticks _ Hb) as (t & U & C & T). exists t. split; [done|]. split; [apply Hb|]. split; [done|]. by exists []. Qed.
End lemmas.

(** ** A machine that boots *)

Section machine.
Context `{Build} `{FontLaws} `{SpinLaws} `{LogFacadeLaws} `{Hardware}.

(** The machine and the boot information that [main] needs, with records of at most [L] characters. *)
Record bootable (off L : Z) (bi : BootInfo) (fb : list Z) (i : FrameBufferInfo) (text_len : Z) : Prop := {
  bb_mapped : apic_mapped off;
  bb_offset : canonical off;
  bb_counter : counts_down off;
  bb_apic : ApicImpl.has_apic = true;
  bb_eax : 0 <= cpuid_4_eax < 2 ^ 32;
  bb_framebuffer : bi_framebuffer bi = Some (fb, i);
  bb_physical : bi_physical_memory_offset bi = Some off;
  bb_rsdp : is_Some (bi_rsdp_addr bi);
  bb_screen : screen_ok (mkWriter fb i 0 0 false);
  bb_records : 128 <= L;
  bb_text : 14 + text_len <= L;
  bb_room : height i + (L + 9) * (CHAR_RASTER_HEIGHT + LINE_SPACING) < W64
}.

Lemma console_starts n off L bi fb i info_text s :
  bootable off L bi fb i (Z.of_nat (length info_text)) -> once_get (LOGGER s) = None ->
  exists s1, Logger.init n fb i info_text s = (s1, Done tt) /\ loggable L s1 /\
    forall l, log_enabled (FACADE s1) l = (level_number l <=? if debug_build then 4 else 3).
Proof.
  intros Hb Hs. destruct (init_returns n L fb i info_text s Hs) as (s1 & w & E & R & O & S & _ & Hl); [apply Hb..|].
  exists s1. split_and!; [done|by exists w|done].
Qed.

End machine.

(** ** Claims *)

Module Claims.
Section claims.
Context `{Build} `{FontLaws} `{SpinLaws} `{LogFacadeLaws} `{HardwareLaws} `{X86VirtLaws} `{GdtLaws} `{StaticsLaws}
  `{BinaryHeapLaws} `{PanicStrategy}.

(** C17: the boot sequence.  On a machine with an APIC, a framebuffer with a supported pixel format and
    room for a character, a local timer that counts down and a canonical offset under which the
    controllers are mapped, [main] runs to the scheduler's loop: all its records are printed and the
    screen takes any number of further ones, both static locks are free again, [APIC] holds the mapped
    controllers and [TICKS] a calibration in progress, the gates are loaded with interrupts on, the
    system-call entry is set, and every core that CPUID reports (16 at most) has an empty executor.
    The loop then halts on a core whose identifier is below the number of executors; on a core with a
    higher one it reads memory that was never initialised, and from 16 on it panics.  Without a
    framebuffer, an offset or an RSDP address [main] panics. *)
Theorem boot_sequence (n : nat) (off L : Z) (bi : BootInfo) (fb : list Z) (i : FrameBufferInfo) (info_text : list Z)
    (s : Screen) (l : Log) (r : SysRegs) (t : Tcbs) (c : gmap Z SchedContext)
    (Hb : bootable off L bi fb i (Z.of_nat (length info_text))) (Hs : once_get (LOGGER s) = None) :
  let k0 := kernel_static s l r t c in
  (exists k, booted off L k /\
     main n info_text bi k0 =
       (k, if cpuid cpuid_1_ebx <? Z.min (sysinfo_cores cpuid_4_eax) MAX_CPUS then Done Halted
           else if cpuid cpuid_1_ebx <? MAX_CPUS then Undef else Panic)) /\
  main n info_text (mkBootInfo None (bi_physical_memory_offset bi) (bi_rsdp_addr bi)) k0 = (k0, Panic) /\
  (exists k', main n info_text (mkBootInfo (Some (fb, i)) None (bi_rsdp_addr bi)) k0 = (k', Panic)) /\
  (exists k', main n info_text (mkBootInfo (Some (fb, i)) (Some off) None) k0 = (k', Panic)).
Proof.
  destruct (console_starts n off L bi fb i info_text s Hb Hs) as (s1 & Ei & Ls & _).
  destruct Hb as [Hm Hoff Hc Ha Heax Hfb Hpm [rsdp Hrs] Hscr HL _ _]. intros k0. split_and!.
  - destruct (main_run off L Hm HL n info_text bi (fb, i) s l r t c rsdp s1) as (k & E & Bk & _); try done.
    exists k. split; [done|]. fold k0 in E. rewrite E. by apply (run_booted off L).
  - done.
  - exists (set_screen s1 k0). unfold main. cbn [bi_framebuffer bi_physical_memory_offset].
    rewrite (bind_done _ _ _ k0 (fb, i)), (bind_done _ _ _ (set_screen s1 k0) tt) by (done || by apply zoom_done). done.
  - exists (set_screen s1 k0). unfold main. cbn [bi_framebuffer bi_physical_memory_offset bi_rsdp_addr].
    rewrite (bind_done _ _ _ k0 (fb, i)), (bind_done _ _ _ (set_screen s1 k0) tt) by (done || by apply zoom_done).
    rewrite (bind_done _ _ _ (set_screen s1 k0) off) by done.
    by rewrite (bind_done _ _ _ (set_screen s1 k0) off) by (by rewrite virt_addr_new_ok).
Qed.

(** C7: the timer after boot, on a core whose identifier is below the number of executors, with a
    local timer that counts down at a rate the interval can measure.  With no thread to run, any number of timer interrupts after [main]
    return to the interrupted code with both locks free.  The first ten take one sample each (the
    rounded cycles of 10 ms, for an interval that the counter can measure); the tenth ends the
    calibration and starts the local timer periodically with the mean of the ten samples as its
    count.  From then on every interrupt counts one tick and calls the scheduler.  Each interrupt
    ends with the end-of-interrupt write, and nothing follows the tenth but these. *)
Theorem boot_ticks (n m : nat) (off L : Z) (k : Kernel)
    (Hm : apic_mapped off) (HL : 128 <= L) (Hc : counts_down off) (Hb : booted off L k) (Hn : Z.of_nat m + 10 < W64)
    (Hp : cpuid cpuid_1_ebx < Z.min (sysinfo_cores cpuid_4_eax) MAX_CPUS) (Heax : 0 <= cpuid_4_eax < 2 ^ 32) :
  let eoi := MmioWrite (register_at (lapic_addr (apic_at off)) LapicEoi) 0 in
  (forall j, (j < 10)%nat -> exists k' t samples, interrupts n j k = (k', Done None) /\ unlocked off k' t /\
     length samples = j /\ calibrating off samples t (devices k')) /\
  exists k' t samples l, interrupts n (10 + m) k = (k', Done None) /\ unlocked off k' t /\
    is_calibration t = false /\ tick_count t = Z.of_nat m /\ length samples = 10%nat /\ Forall is_sample samples /\
    let mean := foldr Z.add 0 samples / 10 in
    devices k' = replicate (S m) eoi ++ counter_log off true mean (Print LevelInfo (mean_text mean) :: l).
Proof.
  intros eoi. destruct (booted_ticking off L k Hb) as (t0 & T0). split.
  - intros j Hj. destruct (interrupts_tick off L Hm HL n j 0 k t0 Hc T0) as (k' & t & E & (U & _ & T) & _); [left; lia|cbn; lia|].
    rewrite decide_True in T by (cbn; lia). destruct T as (_ & samples & Hlen & C). by exists k', t, samples.
  - destruct (interrupts_tick off L Hm HL n 9 0 k t0 Hc T0) as (k1 & t1 & E1 & T1 & R1); [left; lia|done|].
    assert (Hi : idle_core k) by (by apply booted_idle, Hb).
    destruct (interrupt_ticks off L Hm HL n 9 k1 t1 Hc T1) as (k2 & t2 & E2 & T2 & R2 & D2); [left; lia|done|].
    rewrite decide_False, decide_True in D2 by lia. destruct D2 as (samples & l & Hlen & Hf & D2).
    destruct (interrupts_idle off L Hm HL n m 10 k2 t2 Hc T2) as (k3 & t3 & E3 & (U3 & _ & T3) & D3);
      [lia|by eapply idle_core_same, idle_core_same|lia|].
    rewrite decide_False in T3 by lia. exists k3, t3, samples, l. split_and!; [|done|apply T3|destruct T3; lia|done|done|].
    + change (10 + m)%nat with (9 + (1 + m))%nat. rewrite (interrupts_app n 9 (1 + m) k k1 E1).
      rewrite (interrupts_app n 1 m k1 k2); [done|]. cbn [interrupts]. by rewrite (bind_done _ _ _ _ _ E2).
    + cbn zeta. rewrite D3, D2. by rewrite replicate_S_end, <- app_assoc.
Qed.

(** C6: the timer and the scheduler.  After calibration, with the controllers mapped and the locks free,
    a timer interrupt on a core whose executor meets the scheduler's invariant, and whose tick counts
    do not overflow, ends in one of two ways.  If the current thread still has an
    earliest deadline, the interrupt counts the tick, leaves the queue as it was, sends the end of
    interrupt and returns with both locks free.  If a thread with an earlier deadline is ready, that
    thread runs; but the handler does not come back: the end of interrupt is not sent, [TICKS] stays
    locked, and every later timer interrupt on the core waits for it for ever.  The registers of the
    interrupted thread are saved nowhere: the trap frame of every TCB is as it was before the
    interrupt, the one it will be resumed from included. *)
Theorem timer_preempts (n : nat) (off : Z) (k : Kernel) (p : PerCore Core) (c : Core) (t : Tick)
    (Hm : apic_mapped off) (Hu : unlocked off k t) (Hcal : is_calibration t = false) (Ht : 0 <= tick_count t)
    (Hn : tick_count t + 1 < W64) (Hs : scheduled k p c)
    (Hi : sched_inv (exec_of k c)) (Htk : ticks_ok (exec_of k c)) :
  exists k' o c' p', timer_handler n k = (k', Done o) /\ scheduled k' p' c' /\ sched_inv (exec_of k' c') /\ edf (exec_of k' c') /\
    context <$> tcbs k' = context <$> tcbs k /\
    match o with
    | None => unlocked off k' (set_tick_count (tick_count t + 1) t) /\ c_current c' = c_current c /\ c_ready c' = c_ready c /\ tcbs k' = tcbs k /\
        devices k' = MmioWrite (register_at (lapic_addr (apic_at off)) LapicEoi) 0 :: devices k
    | Some tr =>
        (exists e, tr = Resume (e_tcb e) /\ c_current c' = Some e /\ e ∈ contents (c_ready c) /\
           forall cur, c_current c = Some cur -> e_deadline e < e_deadline cur) /\
        devices k' = devices k /\ held (TICKS k') /\ forall n', timer_handler n' k' = (k', NoFuel)
    end.
Proof.
  destruct (preempt_run (exec_of k c) Hi Htk) as (e & o & E & Hi' & Hedf & _ & _ & Ho).
  pose proof (keeps_preempt (exec_of k c)) as Hf. rewrite E in Hf. cbn [fst] in Hf. change (e_tcbs (exec_of k c)) with (tcbs k) in Hf.
  destruct o as [tr|].
  - destruct (timer_switches off n k p c t e tr) as (k' & Eh & Hh & D & p' & S' & X'); [done..|].
    exists k', (Some tr), (core_of e), p'. rewrite X'. split_and!; try done; [by rewrite <- X' in Hf|].
    intros n'. by apply timer_spins.
  - destruct (timer_returns_tick off Hm n k p c t e) as (k' & Eh & U & D & p' & S' & X'); [done..|].
    exists k', None, (core_of e), p'. rewrite X'. split_and!; try done.
    + by rewrite <- X' in Hf.
    + apply Ho.
    + apply Ho.
    + change (tcbs k') with (e_tcbs (exec_of k' (core_of e))). rewrite X'. apply Ho.
Qed.
End claims.

(** *** A demonstration machine: the reference crates, four cores, a counter that falls by a million *)

Section demo.
#[local] Existing Instance dev.
#[local] Existing Instances ref_spin ref_spin_laws ref_facade ref_facade_laws ref_x86virt ref_x86virt_laws.
#[local] Existing Instances ref_gdt ref_gdt_laws ref_statics ref_statics_laws ref_heap ref_heap_laws.
#[local] Existing Instances RefFont.font RefFont.font_laws.
#[local] Instance demo_hw : Hardware := ref_hardware Tick.Claims.demo_off 1000000.
#[local] Instance demo_hw_laws : HardwareLaws := ref_hardware_laws Tick.Claims.demo_off 1000000.
#[local] Instance demo_panics : PanicStrategy := false.

Definition demo_info : BootInfo :=
  mkBootInfo (Some (replicate 1920 7, RefFont.info0)) (Some Tick.Claims.demo_off) (Some 0xe0000).
Definition demo_kernel : Kernel :=
  kernel_static (mkScreen ref_spin ref_facade None (false, 0)) [] reset_regs ∅ ∅.

Lemma demo_bootable : bootable Tick.Claims.demo_off 128 demo_info (replicate 1920 7) RefFont.info0 3.
Proof.
  split; try done.
  - apply ref_apic_mapped.
  - right. by vm_compute.
  - apply Tick.Claims.demo_counts_down.
Qed.

Lemma boot_sequence_witness :
  exists k, booted Tick.Claims.demo_off 128 k /\ main 0 (text "Rgb") demo_info demo_kernel = (k, Done Halted).
Proof.
  destruct (boot_sequence 0 Tick.Claims.demo_off 128 demo_info (replicate 1920 7) RefFont.info0 (text "Rgb")
    (mkScreen ref_spin ref_facade None (false, 0)) [] reset_regs ∅ ∅ demo_bootable eq_refl) as ((k & Bk & E) & _).
  exists k. split; [exact Bk|exact E].
Defined.

Lemma demo_booted :
  exists k, main 0 (text "Rgb") demo_info demo_kernel = on_executor Executor.run k /\ booted Tick.Claims.demo_off 128 k.
Proof.
  destruct (console_starts 0 Tick.Claims.demo_off 128 demo_info (replicate 1920 7) RefFont.info0 (text "Rgb")
    (mkScreen ref_spin ref_facade None (false, 0)) demo_bootable eq_refl) as (s1 & Ei & Ls & _).
  destruct (main_run Tick.Claims.demo_off 128 (ref_apic_mapped _) (Z.le_refl _) 0 (text "Rgb") demo_info (replicate 1920 7, RefFont.info0)
    (mkScreen ref_spin ref_facade None (false, 0)) [] reset_regs ∅ ∅ 0xe0000 s1) as (k & E & Bk & _);
    [apply demo_bootable|reflexivity|apply demo_bootable|reflexivity|reflexivity|reflexivity|exact Ei|exact Ls|].
  exists k. split; [exact E|exact Bk].
Qed.

Lemma boot_ticks_witness :
  exists k k' t, main 0 (text "Rgb") demo_info demo_kernel = on_executor Executor.run k /\
    interrupts 0 25 k = (k', Done None) /\ unlocked Tick.Claims.demo_off k' t /\
    is_calibration t = false /\ tick_count t = 15.
Proof.
  destruct demo_booted as (k & Ek & Bk).
  destruct (boot_ticks 0 15 Tick.Claims.demo_off 128 k) as (_ & k' & t & s & l & E & U & Hc & Ht & _);
    [apply ref_apic_mapped|reflexivity|apply Tick.Claims.demo_counts_down|exact Bk|reflexivity|reflexivity|split; [discriminate|reflexivity]|].
  exists k, k', t. split; [exact Ek|]. split; [exact E|]. split; [exact U|]. split; [exact Hc|exact Ht].
Defined.

(** Thread 1024 runs with deadline 20 and thread 3072 is ready with deadline 10. *)
Definition demo_core : Core := mkCore [mkEntry 30 2048; mkEntry 10 3072] (Some (mkEntry 20 1024)) None.
Definition demo_tick : Tick := set_is_calibration false (set_apic (apic_at Tick.Claims.demo_off) tick_new).
Definition demo_running : Kernel :=
  mkKernel (mkScreen ref_spin ref_facade None (false, 0)) [] reset_regs (false, apic_at Tick.Claims.demo_off) (false, demo_tick)
    (mkOnce INITIALIZED (Some (PerCoreImpl.new 4 demo_core))) demo_tcbs demo_ctxs.

Lemma timer_preempts_witness :
  exists k' c' p', timer_handler 0 demo_running = (k', Done (Some (Resume 3072))) /\ scheduled k' p' c' /\
    timer_handler 1000 k' = (k', NoFuel).
Proof.
  destruct (timer_preempts 0 Tick.Claims.demo_off demo_running (PerCoreImpl.new 4 demo_core) demo_core demo_tick)
    as (k' & o & c' & p' & E & Hs & _ & _ & _ & Ho);
    [apply ref_apic_mapped|split; eexists; reflexivity|done|done|done|by split|exact demo_exec_inv|exact Scheduler.Claims.demo_ticks|].
  assert (Ho' : o = Some (Resume 3072)) by (apply (f_equal snd) in E; vm_compute in E; by injection E as <-).
  subst o. exists k', c', p'. split; [exact E|]. split; [exact Hs|]. apply Ho.
Defined.
End demo.
End Claims.
