(* ===== verification/Races.v ===== *)
(** Timer interrupts between the statements of [main]: [src/kernel/src/main.rs] and
    [arch/x86_64/interrupts/idt.rs].

    [interrupts::load] switches interrupts on in the middle of [main].  [main_interrupted] is [main]
    with any number of timer interrupts after each later statement, and inside the statement that
    calibrates the timer, whose lock guard lives to its end.  The claim says what becomes of the boot
    for every choice of these numbers, and what becomes of an interrupt that arrives while a record is
    printed. *)
From Stdlib Require String.
From S2P Require Import Prelude Caps Tcb Scheduler Sync Console Format Logger Devices Tick Segments Records Boot.
Import String.StringSyntax.

(** The places of [main] at which interrupts arrive, in its order. *)
Inductive point : Type :=
| AfterLoad | BeforeCalibrate | AfterCalibrate | BeforeStore | AfterStore | AfterScheduler | AfterSyscall.

Section races.
Context `{Build} `{Font} `{Spin} `{LogFacade} `{Hardware} `{X86Virt} `{GdtOps} `{Statics} `{BinaryHeap} `{PanicStrategy}.

(** [j] interrupts before [rest]; one that goes on with a thread does not come back. *)
Definition arrive (n j : nat) (rest : M Kernel Transfer) : M Kernel Transfer :=
  let! o := interrupts n j in match o with Some x => ret x | None => rest end.

(** [main] from the loading of the interrupt tables on. *)
Definition after_load (n : nat) (irq : point -> nat) (apic : Apic) : M Kernel Transfer :=
  arrive n (irq AfterLoad) (
  let! t := on_TICKS (lock n) in
  arrive n (irq BeforeCalibrate) (
  let! ticks := on_devices n (calibrate t apic) in
  arrive n (irq AfterCalibrate) (
  do! on_TICKS (modify unlock) in
  arrive n (irq BeforeStore) (
  do! on_TICKS (locked n (put ticks)) in
  arrive n (irq AfterStore) (
  do! init_scheduler_here n in
  arrive n (irq AfterScheduler) (
  do! init_syscall_here n in
  arrive n (irq AfterSyscall) (
  on_executor Executor.run))))))).

Definition main_interrupted (n : nat) (irq : point -> nat) (info_text : list Z) (boot_info : BootInfo) : M Kernel Transfer :=
  let! fb := unwrap_or_panic (bi_framebuffer boot_info) in
  do! on_screen (Logger.init n fb.1 fb.2 info_text) in
  let! offset := unwrap_or_panic (bi_physical_memory_offset boot_info) in
  let! physical_memory_offset := unwrap_or_panic (virt_addr_new offset) in
  let! rsdp_addr := unwrap_or_panic (bi_rsdp_addr boot_info) in
  let! apic := init_apic n rsdp_addr physical_memory_offset in
  do! interrupts_load_here n in
  after_load n irq apic.
End races.

(** ** Lemmas *)

Section lemmas.
Context `{Build} `{FontLaws} `{SpinLaws} `{LogFacadeLaws} `{HardwareLaws} `{X86VirtLaws} `{GdtLaws} `{StaticsLaws}
  `{BinaryHeapLaws} `{PanicStrategy}.
Context (off L : Z) (Hm : apic_mapped off) (HL : 128 <= L).

Lemma bind_ext {S A B} (m : M S A) (f g : A -> M S B) s :
  (forall a s', m s = (s', Done a) -> f a s' = g a s') -> bind m f s = bind m g s.
Proof. intros Hf. unfold bind. destruct (m s) as [s' [a| | |]]; try done. by apply Hf. Qed.

(** Without interrupts it is [main]. *)
Lemma main_uninterrupted n info_text bi k : main_interrupted n (fun _ => O) info_text bi k = main n info_text bi k.
Proof.
  unfold main_interrupted, main. do 7 (apply bind_ext; intros ? ? _).
  cbv beta iota delta [after_load arrive init_ticks interrupts bind ret].
  destruct (on_TICKS (lock n) _) as [k1 [t| | |]]; [|done..]. destruct (on_devices n _ k1) as [k2 [ticks| | |]]; [|done..].
  destruct (on_TICKS (modify unlock) k2) as [k3 [[]| | |]]; [|done..].
  by destruct (on_TICKS (locked n (put ticks)) k3) as [k4 [[]| | |]].
Qed.

Lemma interrupts_stop n j k k' (o : outcome (option Transfer)) :
  timer_handler n k = (k', o) -> (forall x, o <> Done x) -> interrupts n (S j) k = (k', o).
Proof. intros E Ho. cbn [interrupts]. unfold bind. rewrite E. destruct o; try done. by destruct (Ho a). Qed.

Lemma arrive_panic n j rest k k' : interrupts n j k = (k', Panic) -> arrive n j rest k = (k', Panic).
Proof. intros E. unfold arrive, bind. by rewrite E. Qed.
Lemma arrive_undef n j rest k k' : interrupts n j k = (k', Undef) -> arrive n j rest k = (k', Undef).
Proof. intros E. unfold arrive, bind. by rewrite E. Qed.
Lemma arrive_spins n j rest k k' : interrupts n j k = (k', NoFuel) -> arrive n j rest k = (k', NoFuel).
Proof. intros E. unfold arrive, bind. by rewrite E. Qed.
Lemma arrive_goes n j rest k k' : interrupts n j k = (k', Done None) -> arrive n j rest k = rest k'.
Proof. intros E. unfold arrive. by rewrite (bind_done _ _ _ _ _ E). Qed.

(** Before [TICKS] has the addresses of the controllers, the handler reads a counter at an address
    near 0. *)
Lemma timer_unready n k :
  free (TICKS k) tick_new -> is_register 0x390 = false -> exists k', timer_handler n k = (k', Undef).
Proof.
  intros [m Et] Hr. unfold timer_handler. rewrite (bind_done _ _ k (set_TICKS m k) tick_new) by (apply zoom_done; by apply lock_free).
  assert (E : on_devices n (end_calibration tick_new) (set_TICKS m k) = (set_devices ([] ++ devices k) (set_TICKS m k), Undef)).
  { apply (on_devices_silent n (end_calibration tick_new) (set_TICKS m k) [] Undef); [|done]. unfold end_calibration, ApicImpl.read_counter, read_volatile, bind.
    change (register_at (lapic_addr (apic tick_new)) LapicTccr) with 0x390. by rewrite Hr. }
  unfold bind at 1. unfold with_TICKS, tick_handler, beside, zoom, bind. cbn [get gets fst snd is_calibration tick_new].
  cbn. rewrite E. by eexists.
Qed.

(** After the calibration, the handler needs the scheduler: without it the [expect] of the tick
    handler panics, with the guard of [TICKS] out. *)
Lemma timer_no_scheduler n c k t :
  ticking off L c k t -> (10 <= c)%nat -> Z.of_nat c < W64 -> SCHEDULER k = Sync.once_new ->
  exists k', timer_handler n k = (k', Panic) /\ held (TICKS k').
Proof.
  intros ([[m Et] _] & _ & Ht) Hge Hw Hs. rewrite decide_False in Ht by lia. destruct Ht as [Hc Hn]. unfold timer_handler.
  rewrite (bind_done _ _ k (set_TICKS m k) t) by (apply zoom_done; by apply lock_free).
  assert (Ex : on_executor Executor.preempt (set_TICKS m k) = (set_TICKS m k, Panic)).
  { unfold on_executor. rewrite (bind_done _ _ _ (set_TICKS m k) None); [done|]. unfold scheduler_get. cbn [SCHEDULER set_TICKS].
    rewrite Hs. cbn. by rewrite <- Hs. }
  assert (Eh : tick_handler n (t, set_TICKS m k) = ((set_tick_count (tick_count t + 1) t, set_TICKS m k), Panic)).
  { unfold tick_handler. rewrite (bind_done _ _ _ (t, set_TICKS m k) (t, set_TICKS m k)) by done. rewrite Hc. unfold add64.
    rewrite (bind_done _ _ _ (t, set_TICKS m k) (tick_count t + 1)) by (apply arith64_ok; unfold u64; lia).
    rewrite (bind_done _ _ _ (set_tick_count (tick_count t + 1) t, set_TICKS m k) tt) by done.
    unfold beside, zoom. cbn. by rewrite Ex. }
  unfold bind at 1, with_TICKS. rewrite Eh. eexists. split; [reflexivity|]. by eapply set_held.
Qed.

(** The scheduler's loop on a core without threads. *)
Lemma run_idle k : idle_core k -> on_executor Executor.run k = (k, Done Halted).
Proof.
  intros (p & c & [Hs Hp] & Hn). rewrite (on_executor_at _ _ _ Hs), Hp. unfold Executor.run.
  rewrite schedule_halt by apply Hn. by rewrite after_exec_id.
Qed.

(** The state in which [main] reaches [after_load]. *)
Record loaded (k : Kernel) : Prop := {
  ld_apic : free (APIC k) (apic_at off);
  ld_ticks : free (TICKS k) tick_new;
  ld_sched : SCHEDULER k = Sync.once_new;
  ld_log : loggable L (screen k)
}.

Lemma main_loads n irq info_text bi fb s l r tc c rsdp s1 :
  ApicImpl.has_apic = true -> canonical off ->
  bi_framebuffer bi = Some fb -> bi_physical_memory_offset bi = Some off -> bi_rsdp_addr bi = Some rsdp ->
  Logger.init n fb.1 fb.2 info_text s = (s1, Done tt) -> loggable L s1 ->
  exists k, main_interrupted n irq info_text bi (kernel_static s l r tc c) = after_load n irq (apic_at off) k /\ loaded k.
Proof.
  intros Ha Hoff Hfb Hpm Hrs Hl Hr. unfold main_interrupted, kernel_static. set (k0 := mkKernel _ _ _ _ _ _ _ _).
  rewrite Hfb, Hpm, Hrs. rewrite (bind_done _ _ _ k0 fb), (bind_done _ _ _ (set_screen s1 k0) tt) by (done || by apply zoom_done).
  rewrite (bind_done _ _ _ (set_screen s1 k0) off) by done.
  rewrite (bind_done _ _ _ (set_screen s1 k0) off) by (by rewrite virt_addr_new_ok).
  rewrite (bind_done _ _ _ (set_screen s1 k0) rsdp) by done.
  destruct (load_run off L Hm HL (set_screen s1 k0) n rsdp) as (k1 & E1 & A1 & L1 & F1 & G1 & I1 & T1 & S1 & M1 & X1); [apply new_free|done|done|].
  apply bind_inv in E1 as (k1' & a & Ea & E1). apply bind_inv in E1 as (k1'' & [] & Eg & [= -> ->]).
  rewrite (bind_done _ _ _ _ _ Ea), (bind_done _ _ _ _ _ Eg). exists k1. split; [done|].
  split; [done|rewrite T1; apply new_free|done|done].
Qed.

(** From [AfterStore] on: ten interrupts may come before the scheduler is there. *)
Lemma after_store n irq k t :
  counts_down off -> ticking off L 0 k t -> SCHEDULER k = Sync.once_new ->
  0 <= cpuid_4_eax < 2 ^ 32 -> cpuid cpuid_1_ebx < Z.min (sysinfo_cores cpuid_4_eax) MAX_CPUS ->
  let total := (irq AfterStore + irq AfterScheduler + irq AfterSyscall)%nat in Z.of_nat total < W64 ->
  let rest := arrive n (irq AfterStore) (do! init_scheduler_here n in arrive n (irq AfterScheduler) (
    do! init_syscall_here n in arrive n (irq AfterSyscall) (on_executor Executor.run))) in
  if decide (10 < irq AfterStore)%nat then exists k', rest k = (k', Panic) /\ held (TICKS k')
  else exists k' t', rest k = (k', Done Halted) /\ ticking off L total k' t' /\ idle_core k'.
Proof.
  intros Hc Ht Hs Heax Hp total Hw rest. unfold rest. case_decide as Hd.
  - destruct (interrupts_tick off L Hm HL n 10 0 k t Hc Ht) as (k1 & t1 & E1 & T1 & R1); [left; lia|done|].
    destruct (timer_no_scheduler n 10 k1 t1 T1) as (k2 & E2 & Hh); [lia|done|by rewrite (proj1 (proj2 R1))|].
    exists k2. split; [|done]. apply arrive_panic. replace (irq AfterStore) with (10 + S (irq AfterStore - 11))%nat by lia.
    rewrite (interrupts_app n 10 _ k k1 E1). by apply interrupts_stop.
  - destruct (interrupts_tick off L Hm HL n (irq AfterStore) 0 k t Hc Ht) as (k1 & t1 & E1 & T1 & R1); [left; lia|lia|].
    rewrite (arrive_goes _ _ _ _ _ E1).
    destruct (init_scheduler_run L HL n k1) as (s2 & E2 & L2 & _); [by rewrite (proj1 (proj2 R1))|apply T1|].
    rewrite (bind_done _ _ _ _ _ E2). set (k2 := set_screen s2 _).
    assert (T2 : ticking off L (irq AfterStore) k2 t1) by (destruct T1 as ([] & _ & T1); split_and!; done).
    assert (I2 : idle_core k2) by (by apply booted_idle).
    destruct (interrupts_tick off L Hm HL n (irq AfterScheduler) (irq AfterStore) k2 t1 Hc T2) as (k3 & t3 & E3 & T3 & R3); [by right|lia|].
    rewrite (arrive_goes _ _ _ _ _ E3).
    destruct (init_syscall_here_run L HL n k3) as (r4 & s4 & E4 & L4 & _); [apply T3|]. rewrite (bind_done _ _ _ _ _ E4). set (k4 := set_screen s4 _).
    assert (T4 : ticking off L (irq AfterStore + irq AfterScheduler) k4 t3) by (destruct T3 as ([] & _ & T3); split_and!; done).
    assert (I4 : idle_core k4) by (destruct (idle_core_same _ _ R3 I2) as (p & c & [] & ?); by exists p, c).
    destruct (interrupts_tick off L Hm HL n (irq AfterSyscall) _ k4 t3 Hc T4) as (k5 & t5 & E5 & T5 & R5); [by right|lia|].
    rewrite (arrive_goes _ _ _ _ _ E5). assert (I5 : idle_core k5) by (by eapply idle_core_same). exists k5, t5.
    split_and!; [by apply run_idle|done|done].
Qed.

(** Every choice of interrupts from [AfterLoad] on. *)
Lemma after_load_run n irq k :
  counts_down off -> loaded k -> 0 <= cpuid_4_eax < 2 ^ 32 -> cpuid cpuid_1_ebx < Z.min (sysinfo_cores cpuid_4_eax) MAX_CPUS ->
  let total := (irq AfterStore + irq AfterScheduler + irq AfterSyscall)%nat in Z.of_nat total < W64 ->
  let boot := after_load n irq (apic_at off) k in
  if decide (0 < irq AfterLoad)%nat then is_register 0x390 = false -> exists k', boot = (k', Undef)
  else if decide (0 < irq BeforeCalibrate + irq AfterCalibrate)%nat then exists k', boot = (k', NoFuel)
  else if decide (0 < irq BeforeStore)%nat then is_register 0x390 = false -> exists k', boot = (k', Undef)
  else if decide (10 < irq AfterStore)%nat then exists k', boot = (k', Panic) /\ held (TICKS k')
  else exists k' t', boot = (k', Done Halted) /\ ticking off L total k' t' /\ idle_core k'.
Proof.
  intros Hc [Fa [mt Et] Hs Hl] Heax Hp total Hw boot. unfold boot, after_load.
  destruct (irq AfterLoad) as [|j] eqn:Ej; [rewrite decide_False by lia|rewrite decide_True by lia].
  2: { intros Hr. destruct (timer_unready n k ltac:(by eexists) Hr) as (k' & E). exists k'. by apply arrive_undef, interrupts_stop. }
  rewrite (arrive_goes _ 0 _ k k) by done. rewrite (bind_done _ _ k (set_TICKS mt k) tick_new) by (apply zoom_done; by apply lock_free).
  assert (Hh : forall n k', TICKS k' = mt -> timer_handler n k' = (k', NoFuel)).
  { intros n' k' E. apply timer_spins. rewrite E. by eapply lock_held. }
  destruct (irq BeforeCalibrate) as [|j] eqn:Ej1.
  2: { rewrite decide_True by lia. eexists. apply arrive_spins, interrupts_stop; [by apply Hh|done]. }
  rewrite (arrive_goes _ 0 _ (set_TICKS mt k) (set_TICKS mt k)) by done.
  destruct (calibrate_drive off L Hm HL k n Hc Hl) as (t & l & s & Ed & Hcal & Ht & Ls & _).
  set (k1 := set_screen s (set_devices l k)).
  rewrite (bind_done _ _ _ (set_TICKS mt k1) t) by exact (on_devices_drive n _ (set_TICKS mt k) _ _ _ Ed).
  destruct (irq AfterCalibrate) as [|j] eqn:Ej2; [rewrite decide_False by lia|rewrite decide_True by lia].
  2: { eexists. apply arrive_spins, interrupts_stop; [by apply Hh|done]. }
  rewrite (arrive_goes _ 0 _ (set_TICKS mt k1) (set_TICKS mt k1)) by done.
  rewrite (bind_done _ _ _ (set_TICKS (unlock mt) k1) tt) by done.
  destruct (irq BeforeStore) as [|j] eqn:Ej3; [rewrite decide_False by lia|rewrite decide_True by lia].
  2: { intros Hr. destruct (timer_unready n (set_TICKS (unlock mt) k1) ltac:(by eapply unlock_same) Hr) as (k' & E).
       exists k'. by apply arrive_undef, interrupts_stop. }
  rewrite (arrive_goes _ 0 _ (set_TICKS (unlock mt) k1) (set_TICKS (unlock mt) k1)) by done.
  destruct (locked_run n (unlock mt) tick_new (put t) t tt) as (m & El & Hf); [by eapply unlock_same|done|].
  rewrite (bind_done _ _ _ (set_TICKS m k1) tt) by exact (zoom_done TICKS set_TICKS (locked n (put t)) (set_TICKS (unlock mt) k1) m tt El).
  apply (after_store n irq (set_TICKS m k1) t); try done. split; [by split|]. split; [done|]. split; [done|]. by exists [].
Qed.
End lemmas.

(** ** Claims *)

Module Claims.
Section claims.
Context `{Build} `{FontLaws} `{SpinLaws} `{LogFacadeLaws} `{HardwareLaws} `{X86VirtLaws} `{GdtLaws} `{StaticsLaws}
  `{BinaryHeapLaws} `{PanicStrategy}.

(** C8: interrupts during boot.  On a machine on which [main] boots, on a core whose identifier is below
    the number of executors, take any numbers of timer
    interrupts at the places of [main] after interrupts are on; with none it is [main].  An interrupt
    before [TICKS] is stored, outside the statement that calibrates, reads a counter register at address
    0x390, which is undefined where no register is.  One inside that statement waits for ever for the
    lock that the statement holds.  Once [TICKS] is stored, up to ten interrupts before the scheduler
    is initialised are handled; an eleventh panics, with [TICKS] locked.  Afterwards any number is
    handled, and [main] reaches the scheduler's loop and halts, with one sample or tick counted for
    every interrupt.  An interrupt of the calibration that arrives while a record is being printed
    waits for ever for the logger, when it prints a record itself: every one does in the dev profile,
    the tenth in release. *)
Theorem boot_races (n : nat) (irq : point -> nat) (off L : Z) (bi : BootInfo) (fb : list Z) (i : FrameBufferInfo)
    (info_text : list Z) (s : Screen) (l : Log) (r : SysRegs) (t : Tcbs) (c : gmap Z SchedContext)
    (Hb : bootable off L bi fb i (Z.of_nat (length info_text))) (Hs : once_get (LOGGER s) = None)
    (Hp : cpuid cpuid_1_ebx < Z.min (sysinfo_cores cpuid_4_eax) MAX_CPUS)
    (Hw : Z.of_nat (irq AfterStore + irq AfterScheduler + irq AfterSyscall) < W64) :
  let k0 := kernel_static s l r t c in
  let boot := main_interrupted n irq info_text bi k0 in
  main_interrupted n (fun _ => O) info_text bi k0 = main n info_text bi k0 /\
  (if decide (0 < irq AfterLoad)%nat then is_register 0x390 = false -> exists k, boot = (k, Undef)
   else if decide (0 < irq BeforeCalibrate + irq AfterCalibrate)%nat then exists k, boot = (k, NoFuel)
   else if decide (0 < irq BeforeStore)%nat then is_register 0x390 = false -> exists k, boot = (k, Undef)
   else if decide (10 < irq AfterStore)%nat then exists k, boot = (k, Panic) /\ held (TICKS k)
   else exists k tk, boot = (k, Done Halted) /\
     ticking off L (irq AfterStore + irq AfterScheduler + irq AfterSyscall) k tk /\ idle_core k) /\
  (forall k tk samples, unlocked off k tk -> calibrating off samples tk (devices k) -> (length samples < 10)%nat ->
     busy (screen k) -> (forall lv, log_enabled (FACADE (screen k)) lv = (level_number lv <=? if debug_build then 4 else 3)) ->
     debug_build = true \/ length samples = 9%nat -> exists k', timer_handler n k = (k', NoFuel)).
Proof.
  intros k0 boot. split; [apply main_uninterrupted|]. split.
  - destruct (console_starts n off L bi fb i info_text s Hb Hs) as (s1 & Ei & Ls & _).
    destruct Hb as [Hm Hoff Hc Ha Heax Hfb Hpm [rsdp Hrs] Hscr HL _ _]. unfold boot, k0.
    destruct (main_loads off L Hm HL n irq info_text bi (fb, i) s l r t c rsdp s1) as (k1 & -> & Hk); [done..|].
    by apply after_load_run.
  - intros k tk samples Hu Hcal Hlen Hbu Hlv Hd. apply (timer_waits_for_logger off (bb_mapped _ _ _ _ _ _ Hb) n k tk samples); try done; [apply Hb|].
    rewrite Hlv. case_decide; [|by destruct debug_build]. destruct Hd as [->|]; [done|lia].
Qed.
End claims.

(** *** The demonstration machine *)

Section demo.
#[local] Existing Instance dev.
#[local] Existing Instances ref_spin ref_spin_laws ref_facade ref_facade_laws ref_x86virt ref_x86virt_laws.
#[local] Existing Instances ref_gdt ref_gdt_laws ref_statics ref_statics_laws ref_heap ref_heap_laws.
#[local] Existing Instances RefFont.font RefFont.font_laws Boot.Claims.demo_hw Boot.Claims.demo_hw_laws Boot.Claims.demo_panics.

(** [a], [b], [c] and [d] interrupts before the calibration, and after the store, the scheduler and the
    system calls. *)
Definition demo_irq (a b c d : nat) (p : point) : nat :=
  match p with BeforeCalibrate => a | AfterStore => b | AfterScheduler => c | AfterSyscall => d | _ => 0 end%nat.

Lemma boot_races_witness :
  (exists k, main_interrupted 0 (demo_irq 0 3 5 20) (text "Rgb") Boot.Claims.demo_info Boot.Claims.demo_kernel = (k, Done Halted)) /\
  (exists k, main_interrupted 0 (demo_irq 0 11 0 0) (text "Rgb") Boot.Claims.demo_info Boot.Claims.demo_kernel = (k, Panic)) /\
  (exists k, main_interrupted 7 (demo_irq 1 0 0 0) (text "Rgb") Boot.Claims.demo_info Boot.Claims.demo_kernel = (k, NoFuel)).
Proof.
  split_and!.
  - destruct (boot_races 0 (demo_irq 0 3 5 20) Tick.Claims.demo_off 128 Boot.Claims.demo_info (replicate 1920 7) RefFont.info0 (text "Rgb")
      (mkScreen ref_spin ref_facade None (false, 0)) [] reset_regs ∅ ∅ Boot.Claims.demo_bootable eq_refl eq_refl eq_refl) as (_ & (k & t & E & _) & _).
    exists k. exact E.
  - destruct (boot_races 0 (demo_irq 0 11 0 0) Tick.Claims.demo_off 128 Boot.Claims.demo_info (replicate 1920 7) RefFont.info0 (text "Rgb")
      (mkScreen ref_spin ref_facade None (false, 0)) [] reset_regs ∅ ∅ Boot.Claims.demo_bootable eq_refl eq_refl eq_refl) as (_ & (k & E & _) & _).
    exists k. exact E.
  - destruct (boot_races 7 (demo_irq 1 0 0 0) Tick.Claims.demo_off 128 Boot.Claims.demo_info (replicate 1920 7) RefFont.info0 (text "Rgb")
      (mkScreen ref_spin ref_facade None (false, 0)) [] reset_regs ∅ ∅ Boot.Claims.demo_bootable eq_refl eq_refl eq_refl) as (_ & (k & E) & _).
    exists k. exact E.
Defined.
End demo.
End Claims.
